(* ===== verification/_CoqProject ===== *)
-Q . S2P
Prelude.v
Digits.v
Codes.v
Random.v
Hash.v
Store.v
Machine.v
MachineFacts.v
MachineSpec.v
MachineProps.v
MachineLive.v
MachineExamples.v
Sessions.v
FileSystem.v
FileSystemFacts.v
RemoteState.v
Worker.v
WorkerFacts.v
WorkerSpec.v
WorkerProps.v
WorkerModes.v
WorkerExamples.v
Text.v
IpAddr.v
IpAddrFacts.v
Protocol.v
Programs.v
PlatformCalls.v
PlatformRemote.v
Platform.v
PlatformRemoteProps.v
PlatformPermits.v
PlatformSafety.v
Network.v
NetworkObserver.v
NetworkObserverProps.v
Controller.v
Server.v
Listening.v
ListeningCore.v
ListeningProps.v
ListeningExamples.v
AuthService.v
AuthServiceProps.v
Peers.v
Http.v
HttpProps.v
Console.v
Terminal.v
ConsoleProps.v
AuthErrors.v
Deadlines.v
SharedRead.v
SharedReadProps.v
Client.v
Corectl.v
CorectlProps.v
Sessiond.v
SessiondProps.v
ClientExamples.v
Tls.v
Startup.v
Bus.v
BusProps.v
Relay.v
RemoteAccess.v
RemoteAccessExamples.v
WorkerSystem.v
WorkerSystemExamples.v
Daemons.v
Lifecycle.v
Enrollment.v
LifecycleExamples.v
UnitTests.v
Wire.v
Wired.v
WiredExamples.v
RemotedTests.v
PlatformdTests.v
AuthdTests.v
