(* ===== verification/Prelude.v ===== *)
(** * A verification development for SignalLayer CoreOS

    SignalLayer CoreOS is an appliance image whose services are the Rust
    programs under [src/].  They talk over the system bus:

    - [sl-authd] keeps the operator's enrollment: a password and a recovery
      key, hashed, in one state file;
    - [sl-platformd] updates, rolls back and reboots the deployment, reports
      the status, and switches remote management through the privileged
      [sl-remote-worker], which owns the TLS identity and the markers under
      [/var/lib/sl-remote-management];
    - [sl-network-observer] reports NetworkManager's state;
    - [sl-remoted] listens on the LAN while that state is fresh, admits
      on-link sources only, and serves the remote API over [sl-authd] and
      [sl-sessiond];
    - [sl-console] is the local console over all of them.

    ** How it is modelled

    Sequential code is a function, in the result type [res] of this file
    ([Ok], [Err] and a case [Panic] for an unwinding panic) or in the state
    and error monad [stm].  Asynchronous code is a tree of calls, [prog] of
    [Programs.v]: what it does with every possible reply.  A run is the list
    of its calls and replies; threads and requests that interleave are step
    relations over a pool of such trees.  Integers are [Z] with their bounds
    written out ([wrap], [u64_add], ...), strings are byte strings with the
    UTF-8 reading of [Text.v].  Code of other crates, of the kernel and of
    the daemons not in the repository is a parameter or a call, with what is
    assumed of it named ([HasherLaws], [StoreLaws], [EnvLaws],
    [OpensslLaws], [OpensslProcess], [KernelRandom], [SerdeJson], ...); every
    theorem with such an assumption has a witness
    at a concrete instance, in the [...Examples.v] files.

    ** The files

    Shared: this file (results, the monad, integers, strings), [Digits.v]
    (positional numerals), [Text.v] and [IpAddr.v], [IpAddrFacts.v] (what is
    used of Rust's [str], integers and [IpAddr]), [FileSystem.v],
    [FileSystemFacts.v] (the [std::fs] calls over a tree that may fail at
    any call), [Programs.v] (programs of calls, their runs, and the rules to
    reason about them).

    Authentication, [authd/src]:
    - [Codes.v] is codes.rs: the base32 encoder and decoder on a [u16]
      buffer.  Both codes round-trip with exactly the accepted spellings,
      the encoder agrees with a big-integer reference.
    - [Random.v] is random.rs and its two inlined copies: the fill loop ends
      and never returns bytes the kernel did not write.
    - [Hash.v] is hash.rs over the argon2 crate; [Store.v] is store.rs: a
      write interrupted anywhere leaves the old state or the new one, and
      what [load] accepts.
    - [Machine.v] is machine.rs, the [Core] and its nine operations.
      [MachineSpec.v] states the documented state machine with its table of
      refusals, and that every operation implements it; [MachineProps.v] and
      [MachineLive.v] have the safety of enrollment, the bound on guesses,
      the rate limits, the deadlines and the progress of the machine.
    - [AuthService.v] is service.rs: admission, the lock, the methods.
      [AuthServiceProps.v]: any interleaving of requests is the operations
      one after the other, with at most five admitted.  [AuthErrors.v]: the
      failures keep their names to the HTTP response and to the console.

    The identity worker, [remote-worker/src] and
    [crates/remote-state/src/lib.rs]:
    - [RemoteState.v] is the layout, its formats and readers; [Worker.v] the
      five modes.  [WorkerFacts.v], [WorkerSpec.v], [WorkerProps.v] and
      [WorkerModes.v] follow every mode through every tree it leaves: the
      identity named by [tls/current] is complete at every instant, a boot
      reset can be cut off anywhere, and what each success leaves.
    - [WorkerSystem.v] is main.rs: the openssl process, the call of
      [sl-authd], the loop over [getrandom] and the group database behind the
      modes.  The laws assumed of the tools follow from the documented
      behaviour of these; the worker runs no command but two.

    The platform, [platformd/src], [crates/protocol/src/lib.rs] and
    [network-observer/src]:
    - [Protocol.v] has the records and errors, [PlatformCalls.v] every call
      of the daemon, [PlatformRemote.v] is remote.rs and [Platform.v] is
      main.rs.  [PlatformRemoteProps.v]: the sequences stop at the first
      failure, with its error.  [PlatformPermits.v], [PlatformSafety.v]:
      with any number of methods in flight and systemd in between, each
      permit has one holder, and the two deployment workers never run at
      once.
    - [SharedRead.v] is shared_read.rs, with [SharedReadProps.v]: one
      observation at a time, nothing cached, nobody stranded.
    - [NetworkObserver.v] is the observer; [NetworkObserverProps.v]: what it
      reports is accepted, and understood the same, by its two readers.

    The remote server, [remoted/src]:
    - [Sessions.v] is sessions.rs: the table agrees with what its history
      grants.  [Network.v] is network.rs: when a source is on-link.
    - [Controller.v] is controller.rs and [Server.v] server.rs; [Listening.v]
      puts the controller, the accept loops and the connections together,
      [ListeningCore.v] and [ListeningProps.v] show that what is exposed is
      the last status and that earlier connections end.
    - [Peers.v] is peers.rs and [Http.v] http.rs; [HttpProps.v]: what the
      API does for which request.
    - [Tls.v] is tls.rs, and shows that at every instant of the worker a
      server that starts loads one complete identity, or finds none.
    - [Startup.v] has netlink.rs (the loops over the kernel's
      notifications), main.rs (the order in which the parts are made), and
      for both bus daemons the checks of checked_interface.rs and [authd]'s
      state directory.

    The console, [console/src]: [Console.v] is lib.rs and [Terminal.v]
    main.rs.  [ConsoleProps.v]: what it asks the daemons for, and when.
    [Deadlines.v]: the console outwaits the platform.

    The platform's other users: [Client.v] is
    [crates/platform-client/src/lib.rs], [Corectl.v] is [corectl/src/main.rs]
    and [Sessiond.v] is [sessiond/src/main.rs].  [CorectlProps.v]: what the
    command line asks for and what its exit codes say; [SessiondProps.v]:
    the session status is what was read, or an error.

    All of them together:
    - [Daemons.v] has the ends on the operating system: the [main] of each
      bus daemon (its state first, then its object, then its name), the
      object that [CheckedAuth] and [CheckedPlatform] put in front of
      another, the sender of a call, the notification socket (no descriptor
      is leaked), the listening sockets (the listeners are those of the
      addresses granted), the clocks, the console's connection, and the
      fixture of the lifecycle tests.
    - [Bus.v] has the interfaces that answer, with their types, and every
      call of one program on another.  [BusProps.v]: every call reaches the
      interface that declares its member, with the argument types it
      declares, and reads the reply at the type it declares; a request to
      [sl-authd] and its reply survive the bus.
    - [Wire.v] has JSON documents, the class [SerdeJson] of their texts
      (what was printed is read back), and what the [derive]s make of the
      types of [crates/protocol/src/lib.rs].  [Wired.v] has what they make of
      the state file, of the requests of the remote API and of what
      [sl-remoted] reads of a status; its [WireContract]: each schema is read
      back, the session's is the platform's with three facts more, and no
      document passes for both.
    - [Relay.v]: the network report through observer, platform daemon and
      session daemon, for readers that find what was written ([Readable]);
      [Wired.v] has these readers from [Wire.v], and shows that the remote
      server listens on what NetworkManager said.
    - [RemoteAccess.v]: the server's requests and session table, and the
      authentication service behind the bus; the status is read only for a
      session of a login with the enrolled password.
    - [Lifecycle.v]: the sequences of [PlatformRemote.v] among the worker of
      the units they start, the authentication service that others use
      meanwhile, and the remote server.  A re-enrollment that succeeds
      leaves nothing of the old identity or the old credentials.  [effect]
      says what a reply tells of the world: a unit that succeeded exited
      with 0, one that failed stopped anywhere, and a call that failed may
      have been served.  One worker runs at a time, as its units and the
      permit ensure.
    - [Enrollment.v]: in the same world, what the enrollment shows the
      operator is true: the address is served, the fingerprint is that of
      the identity in use, and the code is the one that pairs.

    The unit tests that stand beside the code ([mod tests] of its files) are
    run on the model.  [UnitTests.v] has their vocabulary; [AuthdTests.v],
    [RemotedTests.v] and [PlatformdTests.v] have each test as a boolean of
    its name, in a Module per file, with the inputs and assertions of the
    source, and that it is [true].  The samples of [codes.rs] hold for any
    seed and length.

    ** Bounds and fuel

    The polling loops of [platformd] sleep 10 ms in each turn inside a
    deadline; they are followed for one turn more than the deadline divided
    by that, and running out of turns is the deadline passing.  The loops of
    [Controller.run], [Server.accept_loop], [Terminal.run] and
    [Terminal.main] do not end; their fuel is how far a run is followed, and
    the theorems hold for any.  The fill loop's fuel is the length of the
    buffer plus the retries the kernel asks for, and its theorem shows that
    it suffices.  The generation counter of the remote server is a [u64]
    that is taken not to wrap within 2^64 withdrawals.

    ** Not modelled

    TLS (rustls), axum, tower, the text of JSON (serde_json), zbus, tokio and
    the argon2 crate, which are parameters or calls; so are the kernel's
    sockets, clocks and terminal attributes, and the openssl and systemd
    processes.  How zbus names and
    encodes a method is the contract written in [Bus.v].  The panic of
    printing to a closed standard output is left out.  Of the unit tests
    those are left out that look at Argon2's output, at the kernel's random
    bytes or at the mode of the state file, and those of the separate
    [tests.rs] files. *)
From stdpp Require Export base option list strings numbers gmap.
From Stdlib Require Export ZArith Lia Ascii String.

Open Scope Z_scope.

(** ** Results

    [res A E] is Rust's [Result<A, E>] with one more case: [Panic], an
    unwinding panic (an out-of-range index, an [unwrap] of [None]).  A Rust
    [Option<A>] that is only ever turned into a [Result] is [res A unit]. *)
Inductive res (A E : Type) : Type :=
  | Ok (a : A)
  | Err (e : E)
  | Panic.
Arguments Ok {A E} a.
Arguments Err {A E} e.
Arguments Panic {A E}.

#[export] Instance res_eq_dec {A E} `{EqDecision A, EqDecision E} : EqDecision (res A E).
Proof. solve_decision. Defined.

Definition res_bind {A B E} (r : res A E) (k : A -> res B E) : res B E :=
  match r with Ok a => k a | Err e => Err e | Panic => Panic end.

(** [Result::map_err] and [Option::ok_or]. *)
Definition map_err {A E F} (f : E -> F) (r : res A E) : res A F :=
  match r with Ok a => Ok a | Err e => Err (f e) | Panic => Panic end.

Definition ok_or {A E} (o : option A) (e : E) : res A E :=
  match o with Some a => Ok a | None => Err e end.

Definition map_ok {A B E} (f : A -> B) (r : res A E) : res B E :=
  match r with Ok a => Ok (f a) | Err e => Err e | Panic => Panic end.

Definition is_ok {A E} (r : res A E) : bool :=
  match r with Ok _ => true | _ => false end.

(** ** The state and error monad

    A stateful Rust method [fn f(&mut self, ..) -> Result<A, E>] is a
    [stm S E A]: the state it leaves behind is kept whatever the result, as
    in the code, where an early [return Err(..)] keeps earlier mutations. *)
Definition stm (S E A : Type) : Type := S -> res A E * S.

Definition ret {S E A} (a : A) : stm S E A := fun s => (Ok a, s).
Definition fail {S E A} (e : E) : stm S E A := fun s => (Err e, s).
Definition bind {S E A B} (m : stm S E A) (k : A -> stm S E B) : stm S E B :=
  fun s => match m s with
           | (Ok a, s') => k a s'
           | (Err e, s') => (Err e, s')
           | (Panic, s') => (Panic, s')
           end.
Definition get {S E} : stm S E S := fun s => (Ok s, s).
Definition modify {S E} (f : S -> S) : stm S E unit := fun s => (Ok tt, f s).
Definition lift {S E A} (r : res A E) : stm S E A := fun s => (r, s).
(** Runs [m] and hands its [Result] to the continuation ([match m()]). *)
Definition attempt {S E F A} (m : stm S E A) : stm S F (res A E) :=
  fun s => let (r, s') := m s in (match r with Panic => Panic | _ => Ok r end, s').

Declare Scope rust_scope.
Delimit Scope rust_scope with rust.
Notation "'let!' x ':=' m 'in' k" := (bind m (fun x => k))
  (at level 10, x pattern, m at level 100, k at level 200) : rust_scope.
Notation "'do!' m 'in' k" := (bind m (fun _ => k))
  (at level 10, m at level 100, k at level 200) : rust_scope.
Notation "'let?' x ':=' m 'in' k" := (res_bind m (fun x => k))
  (at level 10, x pattern, m at level 100, k at level 200) : rust_scope.
Open Scope rust_scope.

(** ** Machine integers

    A [w]-bit unsigned integer is a [Z] in [0, 2^w); operations that can leave
    the range are written with their Rust behaviour (the release profile of
    [Cargo.toml] leaves overflow checks off, so [+] wraps). *)
Definition wrap (w z : Z) : Z := z mod 2 ^ w.
Definition u64_max : Z := 2 ^ 64 - 1.
Definition u64_add (a b : Z) : Z := wrap 64 (a + b).
Definition u64_saturating_add (a b : Z) : Z := Z.min (a + b) u64_max.
Definition u64_saturating_sub (a b : Z) : Z := Z.max (a - b) 0.
Definition u32_max : Z := 2 ^ 32 - 1.
Definition u32_saturating_add (a b : Z) : Z := Z.min (a + b) u32_max.

Definition is_byte (b : Z) : Prop := 0 <= b < 256.
#[export] Instance is_byte_dec b : Decision (is_byte b).
Proof. unfold is_byte; apply _. Defined.

(** ** Bytes and strings

    A Rust [String], [&str] or byte literal is a [string]: a sequence of
    8-bit characters, that is, its UTF-8 bytes. *)
Definition byte_of (a : ascii) : Z := Z.of_N (N_of_ascii a).
Definition char_of (b : Z) : ascii := ascii_of_N (Z.to_N b).
Definition bytes_of (s : string) : list Z := map byte_of (list_ascii_of_string s).
Definition string_of (l : list Z) : string := string_of_list_ascii (map char_of l).

Lemma byte_of_range a : is_byte (byte_of a).
Proof. unfold is_byte, byte_of. pose proof (N_ascii_bounded a). lia. Qed.

Lemma char_of_byte_of a : char_of (byte_of a) = a.
Proof. unfold char_of, byte_of. by rewrite N2Z.id, ascii_N_embedding. Qed.

Lemma byte_of_char_of b : is_byte b -> byte_of (char_of b) = b.
Proof.
  unfold is_byte, char_of, byte_of; intros Hb.
  rewrite N_ascii_embedding; lia.
Qed.

Lemma string_of_bytes_of s : string_of (bytes_of s) = s.
Proof.
  unfold string_of, bytes_of. rewrite map_map.
  rewrite (map_ext _ id) by (intros; apply char_of_byte_of).
  rewrite map_id. apply string_of_list_ascii_of_string.
Qed.

Lemma bytes_of_string_of l : Forall is_byte l -> bytes_of (string_of l) = l.
Proof.
  intros Hl. unfold string_of, bytes_of.
  rewrite list_ascii_of_string_of_list_ascii, map_map.
  induction Hl as [|b l Hb Hl IH]; simpl; [done|].
  by rewrite byte_of_char_of, IH.
Qed.

Lemma bytes_of_inj s t : bytes_of s = bytes_of t -> s = t.
Proof. intros H. by rewrite <- (string_of_bytes_of s), H, string_of_bytes_of. Qed.

Lemma bytes_of_app s t : bytes_of (s +:+ t) = (bytes_of s ++ bytes_of t)%list.
Proof. induction s as [|a s IH]; simpl; [done|]. unfold bytes_of in *. simpl. by rewrite IH. Qed.

Lemma length_bytes_of s : List.length (bytes_of s) = String.length s.
Proof.
  unfold bytes_of. rewrite length_map. induction s; simpl; auto.
Qed.

Lemma bytes_of_range s : Forall is_byte (bytes_of s).
Proof.
  unfold bytes_of. apply Forall_forall. intros b Hb.
  apply list_elem_of_In, in_map_iff in Hb as (a & <- & _). apply byte_of_range.
Qed.

(** ** ASCII classes and case mapping ([u8::is_ascii_digit], ..) *)
Definition in_range (lo hi b : Z) : bool := (lo <=? b) && (b <=? hi).
Definition is_ascii_digit (b : Z) : bool := in_range 48 57 b.
Definition is_ascii_upper (b : Z) : bool := in_range 65 90 b.
Definition is_ascii_lower (b : Z) : bool := in_range 97 122 b.
Definition is_ascii_alphanumeric (b : Z) : bool :=
  is_ascii_digit b || is_ascii_upper b || is_ascii_lower b.
Definition to_ascii_uppercase (b : Z) : Z := if is_ascii_lower b then b - 32 else b.
Definition to_ascii_lowercase (b : Z) : Z := if is_ascii_upper b then b + 32 else b.
(** [byte.is_ascii_digit() || (b'a'..=b'f').contains(&byte)] *)
Definition is_lower_hex (b : Z) : bool := is_ascii_digit b || in_range 97 102 b.
(** [byte.is_ascii_digit() || (b'A'..=b'F').contains(&byte)] *)
Definition is_upper_hex (b : Z) : bool := is_ascii_digit b || in_range 65 70 b.

Definition str_to_ascii_uppercase (s : string) : string :=
  string_of (map to_ascii_uppercase (bytes_of s)).
Definition str_to_ascii_lowercase (s : string) : string :=
  string_of (map to_ascii_lowercase (bytes_of s)).

(** [format!("{byte:02x}")] and [format!("{byte:02X}")] of a byte. *)
Definition lower_digit (d : Z) : Z := if d <? 10 then 48 + d else 87 + d.
Definition upper_digit (d : Z) : Z := if d <? 10 then 48 + d else 55 + d.
Definition hex_of (digit : Z -> Z) (bytes : list Z) : list Z :=
  flat_map (fun byte => [digit (Z.shiftr byte 4); digit (Z.land byte 15)]) bytes.

Lemma hex_split byte : is_byte byte ->
  0 <= Z.shiftr byte 4 < 16 /\ 0 <= Z.land byte 15 < 16 /\ byte = 16 * Z.shiftr byte 4 + Z.land byte 15.
Proof.
  unfold is_byte. intros Hb. change 15 with (Z.ones 4).
  rewrite Z.land_ones, Z.shiftr_div_pow2 by lia. change (2 ^ 4) with 16.
  pose proof (Z.div_mod byte 16). pose proof (Z.mod_pos_bound byte 16).
  pose proof (Z.div_lt_upper_bound byte 16 16). pose proof (Z.div_pos byte 16). lia.
Qed.

Lemma lower_digit_inj d e : 0 <= d < 16 -> 0 <= e < 16 -> lower_digit d = lower_digit e -> d = e.
Proof. unfold lower_digit. intros. destruct (Z.ltb_spec d 10), (Z.ltb_spec e 10); lia. Qed.

Lemma upper_digit_inj d e : 0 <= d < 16 -> 0 <= e < 16 -> upper_digit d = upper_digit e -> d = e.
Proof. unfold upper_digit. intros. destruct (Z.ltb_spec d 10), (Z.ltb_spec e 10); lia. Qed.

Lemma hex_of_inj digit l : (forall d e, 0 <= d < 16 -> 0 <= e < 16 -> digit d = digit e -> d = e) ->
  forall r, Forall is_byte l -> Forall is_byte r -> hex_of digit l = hex_of digit r -> l = r.
Proof.
  intros Hinj. induction l as [|a l IH]; intros [|b r] Hl Hr; try done.
  apply Forall_cons in Hl as [Ha Hl]. apply Forall_cons in Hr as [Hb Hr]. simpl. intros [= H1 H2 H3].
  destruct (hex_split a Ha) as (A1 & A2 & ->), (hex_split b Hb) as (B1 & B2 & ->).
  apply Hinj in H1, H2; [|done..]. f_equal; [congruence|by apply IH].
Qed.

Lemma length_hex_of digit l : List.length (hex_of digit l) = (2 * List.length l)%nat.
Proof. induction l as [|a l IH]; simpl; [done|]. rewrite IH. lia. Qed.

Lemma lower_hex_digit d : 0 <= d < 16 -> is_lower_hex (lower_digit d) = true /\ is_byte (lower_digit d).
Proof.
  unfold lower_digit, is_lower_hex, is_ascii_digit, in_range, is_byte. intros Hd.
  destruct (Z.ltb_spec d 10); (split; [|lia]);
    repeat match goal with |- context [?a <=? ?b] => destruct (Z.leb_spec a b) end; simpl; lia || done.
Qed.

Lemma lower_hex_of l : Forall is_byte l ->
  forallb is_lower_hex (hex_of lower_digit l) = true /\ Forall is_byte (hex_of lower_digit l).
Proof.
  induction 1 as [|a l Ha _ [IH1 IH2]]; simpl; [done|].
  destruct (hex_split a Ha) as (H1 & H2 & _).
  destruct (lower_hex_digit _ H1) as [-> ?], (lower_hex_digit _ H2) as [-> ?]. simpl. auto.
Qed.

(** [usize] length of a string, in bytes ([str::len]). *)
Definition str_len (s : string) : Z := Z.of_nat (String.length s).

(** [str::chars().count()]: the bytes that are not UTF-8 continuation bytes. *)
Definition char_count (s : string) : Z :=
  Z.of_nat (List.length (List.filter (fun b => negb (in_range 128 191 b)) (bytes_of s))).

(** [str::strip_prefix], and [str::strip_suffix] of one character. *)
Fixpoint strip_prefix (prefix s : string) : option string :=
  match prefix, s with
  | EmptyString, _ => Some s
  | String a prefix, String b s => if Ascii.eqb a b then strip_prefix prefix s else None
  | String _ _, EmptyString => None
  end.

Fixpoint strip_suffix (c : ascii) (s : string) : option string :=
  match s with
  | EmptyString => None
  | String a EmptyString => if Ascii.eqb a c then Some EmptyString else None
  | String a s => String a <$> strip_suffix c s
  end.

Lemma strip_prefix_spec prefix s rest : strip_prefix prefix s = Some rest <-> s = prefix +:+ rest.
Proof.
  revert s. induction prefix as [|a prefix IH]; intros s; simpl.
  - split; [by intros [= ->]|by intros ->].
  - destruct s as [|b s]; [split; [done|intros H; discriminate H]|].
    destruct (Ascii.eqb_spec a b) as [->|Hne].
    + rewrite IH. split; [by intros ->|by intros [= ->]].
    + split; [done|]. by intros [= -> _].
Qed.

Lemma strip_suffix_spec c s rest : strip_suffix c s = Some rest <-> s = rest +:+ String c EmptyString.
Proof.
  revert rest. induction s as [|a s IH]; intros rest; simpl.
  - split; [done|]. by destruct rest.
  - destruct s as [|b s].
    + destruct (Ascii.eqb_spec a c) as [->|Hne].
      * split; [by intros [= <-]|]. destruct rest as [|x [|y rest]]; simpl; [done|by intros [=]..].
      * split; [done|]. destruct rest as [|x [|y rest]]; simpl; [by intros [= ->]|by intros [=]..].
    + destruct (strip_suffix c (String b s)) as [r|] eqn:E; simpl.
      * split; [intros [= <-]; change (String a (String b s) = String a (r +:+ String c EmptyString)); f_equal; by apply IH|].
        destruct rest as [|x rest]; simpl; [by intros [=]|]. intros [= -> Hr].
        apply IH in Hr. by simplify_eq.
      * split; [done|]. destruct rest as [|x rest]; simpl; [by intros [=]|]. intros [= -> Hr].
        by apply IH in Hr.
Qed.

(** [std::str::from_utf8]: which byte strings are well-formed UTF-8. *)
Definition is_continuation (b : Z) : bool := in_range 128 191 b.
Fixpoint is_utf8 (bytes : list Z) : bool :=
  match bytes with
  | [] => true
  | a :: rest =>
      if a <? 128 then is_utf8 rest
      else if in_range 194 223 a then
        match rest with b :: rest => is_continuation b && is_utf8 rest | _ => false end
      else if in_range 224 239 a then
        match rest with
        | b :: c :: rest =>
            in_range (if a =? 224 then 160 else 128) (if a =? 237 then 159 else 191) b
            && is_continuation c && is_utf8 rest
        | _ => false
        end
      else if in_range 240 244 a then
        match rest with
        | b :: c :: d :: rest =>
            in_range (if a =? 240 then 144 else 128) (if a =? 244 then 143 else 191) b
            && is_continuation c && is_continuation d && is_utf8 rest
        | _ => false
        end
      else false
  end.

Definition from_utf8 (bytes : list Z) : option string :=
  if is_utf8 bytes then Some (string_of bytes) else None.

Lemma ascii_is_utf8 bytes : Forall (fun b => b < 128) bytes -> is_utf8 bytes = true.
Proof. induction 1 as [|b bytes Hb _ IH]; simpl; [done|]. by rewrite (proj2 (Z.ltb_lt _ _) Hb). Qed.

(** [Iterator::all] and [Iterator::any] are [forallb] and [existsb]. *)

(** ** Tactics *)

(** Splits on the scrutinee of the first [match] found in the goal or in a hypothesis. *)
Ltac case_term :=
  match goal with
  | H : context [match ?x with _ => _ end] |- _ =>
      lazymatch x with context [match _ with _ => _ end] => fail | _ => idtac end;
      let E := fresh "E" in destruct x eqn:E; simplify_eq/=
  | |- context [match ?x with _ => _ end] =>
      lazymatch x with context [match _ with _ => _ end] => fail | _ => idtac end;
      let E := fresh "E" in destruct x eqn:E; simplify_eq/=
  end.

(** Turns boolean tests among the hypotheses into propositions. *)
Ltac bool_hyps :=
  repeat match goal with
  | H : (_ && _)%bool = true |- _ => apply andb_true_iff in H; destruct H
  | H : (_ || _)%bool = false |- _ => apply orb_false_iff in H; destruct H
  | H : negb _ = true |- _ => apply negb_true_iff in H
  | H : negb _ = false |- _ => apply negb_false_iff in H
  | H : (_ <=? _) = true |- _ => apply Z.leb_le in H
  | H : (_ <=? _) = false |- _ => apply Z.leb_gt in H
  | H : (_ <? _) = true |- _ => apply Z.ltb_lt in H
  | H : (_ <? _) = false |- _ => apply Z.ltb_ge in H
  | H : (_ =? _) = true |- _ => apply Z.eqb_eq in H
  | H : (_ =? _) = false |- _ => apply Z.eqb_neq in H
  end.

(** ** Reasoning about the monad *)

Section Monad.
Context {S E : Type}.

Lemma bind_inv {A B} (m : stm S E A) (k : A -> stm S E B) s r s'' :
  bind m k s = (r, s'') ->
  exists r1 s1, m s = (r1, s1) /\
    match r1 with
    | Ok a => k a s1 = (r, s'')
    | Err e => r = Err e /\ s'' = s1
    | Panic => r = Panic /\ s'' = s1
    end.
Proof.
  unfold bind. destruct (m s) as [r1 s1]. intros H. exists r1, s1. split; [done|].
  destruct r1; by simplify_eq.
Qed.

Lemma bind_ok {A B} (m : stm S E A) (k : A -> stm S E B) s a s' :
  m s = (Ok a, s') -> bind m k s = k a s'.
Proof. unfold bind. by intros ->. Qed.

Lemma bind_err {A B} (m : stm S E A) (k : A -> stm S E B) s e s' :
  m s = (Err e, s') -> bind m k s = (Err e, s').
Proof. unfold bind. by intros ->. Qed.

Lemma bind_lift {A B} (r : res A E) (k : A -> stm S E B) s :
  bind (lift r) k s = match r with Ok a => k a s | Err e => (Err e, s) | Panic => (Panic, s) end.
Proof. by destruct r. Qed.

Lemma bind_get {B} (k : S -> stm S E B) s : bind get k s = k s s.
Proof. done. Qed.

Lemma bind_modify {B} f (k : unit -> stm S E B) s : bind (modify f) k s = k tt (f s).
Proof. done. Qed.

(** Partial correctness: from a state of [P], the outcome is in [Q]. *)
Definition triple {A} (P : S -> Prop) (m : stm S E A) (Q : res A E -> S -> Prop) : Prop :=
  forall s, P s -> Q (m s).1 (m s).2.

(** A computation that keeps [I] on every path and never panics. *)
Definition preserves {A} (I : S -> Prop) (m : stm S E A) : Prop :=
  triple I m (fun r s => I s /\ r <> Panic).

Lemma preserves_bind {A B} I (m : stm S E A) (k : A -> stm S E B) :
  preserves I m -> (forall a, preserves I (k a)) -> preserves I (bind m k).
Proof.
  intros Hm Hk s HI. unfold bind. specialize (Hm s HI). simpl in Hm.
  destruct (m s) as [[a|e|] s']; simpl in *.
  - apply Hk. by destruct Hm.
  - by destruct Hm.
  - by destruct Hm.
Qed.

Lemma preserves_ret {A} I (a : A) : preserves I (ret a).
Proof. by intros s HI. Qed.

Lemma preserves_fail {A} I (e : E) : preserves I (fail (A:=A) e).
Proof. by intros s HI. Qed.

Lemma preserves_lift {A} I (r : res A E) : r <> Panic -> preserves I (lift r).
Proof. by intros Hr s HI. Qed.

Lemma preserves_get I : preserves I get.
Proof. by intros s HI. Qed.

Lemma preserves_modify I f : (forall s, I s -> I (f s)) -> preserves I (modify f).
Proof. intros Hf s HI. simpl. auto. Qed.
End Monad.

Lemma map_err_no_panic {A E F} (f : E -> F) (r : res A E) : r <> Panic -> map_err f r <> Panic.
Proof. by destruct r. Qed.

Lemma ok_or_no_panic {A E} (o : option A) (e : E) : ok_or o e <> Panic.
Proof. by destruct o. Qed.

(** Runs the first action of a bind found in a hypothesis. *)
Ltac inv_bind H :=
  apply bind_inv in H;
  let r := fresh "r" in let s := fresh "c" in let Hm := fresh "Hm" in
  destruct H as (r & s & Hm & H).

Create HintDb monad discriminated.
#[export] Hint Resolve preserves_bind preserves_ret preserves_fail preserves_lift
  preserves_get map_err_no_panic ok_or_no_panic : monad.
