(* ===== verification/Digits.v ===== *)
(** * Positional numerals

    Big-endian digit strings in a base [b]: the value of a digit string and
    the facts the bit-buffer codecs of [Codes.v] and the hexadecimal writers
    share.  Nothing here models code. *)
From S2P Require Import Prelude.

Section Value.
Context (b : Z) (Hb : 0 < b).

(** The number a big-endian digit string denotes. *)
Definition be_value (ds : list Z) : Z := foldl (fun acc d => acc * b + d) 0 ds.

Definition digits (ds : list Z) : Prop := Forall (fun d => 0 <= d < b) ds.

Lemma be_value_snoc ds d : be_value (ds ++ [d]) = be_value ds * b + d.
Proof. unfold be_value. by rewrite foldl_app. Qed.

Lemma digits_snoc ds d : digits (ds ++ [d]) <-> digits ds /\ 0 <= d < b.
Proof. unfold digits. rewrite Forall_app, Forall_singleton. done. Qed.

Lemma digits_app ds es : digits (ds ++ es) <-> digits ds /\ digits es.
Proof. apply Forall_app. Qed.

Lemma be_value_nonneg ds : digits ds -> 0 <= be_value ds.
Proof.
  induction ds as [|d ds IH] using rev_ind; intros Hd; [done|].
  apply digits_snoc in Hd as [Hds Hd]. rewrite be_value_snoc.
  specialize (IH Hds). nia.
Qed.

Lemma be_value_inj ds : forall es,
  digits ds -> digits es -> List.length ds = List.length es ->
  be_value ds = be_value es -> ds = es.
Proof.
  induction ds as [|d ds IH] using rev_ind; intros es Hd He Hlen Hv.
  - by destruct es.
  - destruct es as [|e es _] using rev_ind.
    { rewrite length_app in Hlen. simpl in Hlen. lia. }
    rewrite !length_app in Hlen. simpl in Hlen.
    apply digits_snoc in Hd as [Hds Hd]. apply digits_snoc in He as [Hes He].
    rewrite !be_value_snoc in Hv.
    assert (be_value ds = be_value es /\ d = e) as [Hv' ->].
    { apply (Z.div_mod_unique b); lia. }
    f_equal. apply IH; [done..|lia|done].
Qed.
End Value.

(** ** Bit operations on digit strings *)

Lemma land_ones_mod a n : 0 <= n -> Z.land a (Z.shiftl 1 n - 1) = a mod 2 ^ n.
Proof.
  intros Hn. rewrite Z.shiftl_mul_pow2, Z.mul_1_l by done.
  rewrite <- Z.land_ones by done. by rewrite Z.ones_equiv, <- Z.sub_1_r.
Qed.

(** Appending [n] fresh low bits: [(a << n) | d] is [a * 2^n + d]. *)
Lemma lor_shiftl_add a n d : 0 <= n -> 0 <= d < 2 ^ n ->
  Z.lor (Z.shiftl a n) d = a * 2 ^ n + d.
Proof.
  intros Hn Hd. rewrite Z.shiftl_mul_pow2 by done.
  assert (Z.land (a * 2 ^ n) d = 0) as Hl.
  { rewrite <- Z.shiftl_mul_pow2 by done. apply Z.bits_inj'. intros k Hk.
    rewrite Z.land_spec, Z.bits_0.
    destruct (Z.lt_ge_cases k n).
    - by rewrite Z.shiftl_spec_low.
    - rewrite andb_false_iff. right.
      rewrite <- (Z.mod_small d (2 ^ n)) by done.
      apply Z.mod_pow2_bits_high; lia. }
  rewrite <- Z.lxor_lor by done. by rewrite Z.add_nocarry_lxor.
Qed.

(** A shift right that stays inside a [w]-bit wrap reads the same low bits. *)
Lemma wrap_shiftr_mod w v s n : 0 <= s -> 0 <= n -> s + n <= w ->
  Z.shiftr (wrap w v) s mod 2 ^ n = Z.shiftr v s mod 2 ^ n.
Proof.
  intros Hs Hn Hw. unfold wrap.
  apply Z.bits_inj'. intros k Hk.
  destruct (Z.lt_ge_cases k n).
  - rewrite !Z.mod_pow2_bits_low, !Z.shiftr_spec by lia.
    rewrite Z.mod_pow2_bits_low by lia. done.
  - rewrite !Z.mod_pow2_bits_high by lia. done.
Qed.

(** One step of a bit buffer: wrapping loses nothing that is read later. *)
Lemma wrap_push w v n d : 0 <= n -> 0 <= d < 2 ^ n ->
  wrap w (Z.lor (Z.shiftl (wrap w v) n) d) = wrap w (v * 2 ^ n + d).
Proof.
  intros Hn Hd. rewrite lor_shiftl_add by done. unfold wrap.
  destruct (Z.lt_ge_cases w 0).
  { rewrite Z.pow_neg_r by done. by rewrite !Z.mod_0_r. }
  rewrite <- (Z.add_mod_idemp_l (v * 2 ^ n)) by lia.
  rewrite <- (Z.mul_mod_idemp_l v) by lia.
  rewrite Z.add_mod_idemp_l by lia. done.
Qed.

(** Splitting a shifted value: the quotient grows by one base-[2^n] digit. *)
Lemma shiftr_split v s n : 0 <= s -> 0 <= n ->
  Z.shiftr v (s + n) * 2 ^ n + Z.shiftr v s mod 2 ^ n = Z.shiftr v s.
Proof.
  intros Hs Hn. rewrite <- Z.shiftr_shiftr by done.
  rewrite (Z.shiftr_div_pow2 (Z.shiftr v s)) by done.
  rewrite Z.mul_comm. symmetry. apply Z.div_mod. lia.
Qed.
