(* ===== verification/Codes.v ===== *)
(** * Pairing codes and recovery keys ([authd/src/codes.rs])

    Crockford base32 through a [u16] bit buffer, most significant bit first:
    the encoder, the decoder and the two parsers, with the proof that the
    accepted strings are exactly the encodings. *)
From S2P Require Import Prelude Digits.

Module Codes.

(** ** Definitions *)

Definition ALPHABET : string := "0123456789ABCDEFGHJKMNPQRSTVWXYZ".

Definition PAIRING_CODE_BYTES : nat := 5.
Definition PAIRING_CODE_SYMBOLS : nat := 8.
Definition RECOVERY_KEY_BYTES : nat := 16.
Definition RECOVERY_KEY_SYMBOLS : nat := 26.

(** [ALPHABET.iter().position(|&candidate| candidate == symbol)] *)
Fixpoint position (symbol : Z) (candidates : list Z) : option Z :=
  match candidates with
  | [] => None
  | candidate :: rest =>
      if candidate =? symbol then Some 0
      else Z.succ <$> position symbol rest
  end.

Definition symbol_value (symbol : Z) : option Z :=
  (fun value => wrap 8 value) <$> position symbol (bytes_of ALPHABET).

(** [ALPHABET[usize::from(index)]]: the callers mask the index with [& 31]. *)
Definition alphabet_at (index : Z) : res Z unit :=
  match bytes_of ALPHABET !! Z.to_nat index with Some c => Ok c | None => Panic end.

(** The locals of [encode] inside its loop. *)
Record Encoder := { e_out : list Z; e_buffer : Z; e_bits : Z }.

(** [while bits >= 5 { .. }]; each turn takes 5 bits away, so [bits] turns suffice. *)
Fixpoint encode_drain (fuel : nat) (st : Encoder) : res Encoder unit :=
  if 5 <=? e_bits st then
    match fuel with
    | O => Ok st
    | S fuel =>
        let bits := e_bits st - 5 in
        let? c := alphabet_at (Z.land (Z.shiftr (e_buffer st) bits) 31) in
        encode_drain fuel
          {| e_out := (e_out st ++ [c])%list; e_buffer := e_buffer st; e_bits := bits |}
    end
  else Ok st.

(** One iteration of [for &byte in bytes]. *)
Definition encode_byte (st : Encoder) (byte : Z) : res Encoder unit :=
  let buffer := wrap 16 (Z.lor (Z.shiftl (e_buffer st) 8) byte) in
  let bits := e_bits st + 8 in
  encode_drain (Z.to_nat bits)
    {| e_out := e_out st; e_buffer := buffer; e_bits := bits |}.

Fixpoint encode_bytes (st : Encoder) (bytes : list Z) : res Encoder unit :=
  match bytes with
  | [] => Ok st
  | byte :: rest => let? st := encode_byte st byte in encode_bytes st rest
  end.

(** [encode::<N>(bytes, symbols)]; [symbols] only sizes the allocation. *)
Definition encode (bytes : list Z) : res (list Z) unit :=
  let? st := encode_bytes {| e_out := []; e_buffer := 0; e_bits := 0 |} bytes in
  if 0 <? e_bits st then
    let? c := alphabet_at
      (Z.land (wrap 16 (Z.shiftl (e_buffer st) (5 - e_bits st))) 31) in
    Ok (e_out st ++ [c])%list
  else Ok (e_out st).

(** The locals of [decode] inside its loop. *)
Record Decoder := { d_out : list Z; d_buffer : Z; d_bits : Z; d_index : nat }.

(** One iteration of the loop of [decode]: [Err tt] is its [return None],
    and writing past the array is a panic. *)
Definition decode_symbol (padding : Z) (is_last : bool) (st : Decoder) (symbol : Z)
    : res Decoder unit :=
  let? value := ok_or (symbol_value symbol) tt in
  if is_last && negb (Z.land value (Z.shiftl 1 padding - 1) =? 0) then Err tt
  else
    let buffer := wrap 16 (Z.lor (Z.shiftl (d_buffer st) 5) value) in
    let bits := d_bits st + 5 in
    if 8 <=? bits then
      let bits := bits - 8 in
      if Nat.ltb (d_index st) (List.length (d_out st)) then
        Ok {| d_out := <[d_index st := wrap 8 (Z.shiftr buffer bits)]> (d_out st);
              d_buffer := buffer; d_bits := bits; d_index := S (d_index st) |}
      else Panic
    else Ok {| d_out := d_out st; d_buffer := buffer; d_bits := bits; d_index := d_index st |}.

Fixpoint decode_symbols (padding : Z) (st : Decoder) (symbols : list Z) : res Decoder unit :=
  match symbols with
  | [] => Ok st
  | symbol :: rest =>
      let? st := decode_symbol padding (match rest with [] => true | _ => false end) st symbol in
      decode_symbols padding st rest
  end.

(** [decode::<N>(symbols)]: [Ok bytes] for [Some], [Err tt] for [None]. *)
Definition decode (N : nat) (symbols : list Z) : res (list Z) unit :=
  let len := Z.of_nat (List.length symbols) in
  let n := Z.of_nat N in
  if (len * 5 <? n * 8) || (5 <=? len * 5 - n * 8) then Err tt
  else
    let padding := len * 5 - n * 8 in
    let? st := decode_symbols padding
      {| d_out := replicate N 0; d_buffer := 0; d_bits := 0; d_index := O |} symbols in
    if Nat.eqb (d_index st) N then Ok (d_out st) else Err tt.

Definition encode_pairing_code (code : list Z) : res string unit :=
  let? out := encode code in Ok (string_of out).

Definition parse_pairing_code (input : string) : res (list Z) unit :=
  let bytes := bytes_of input in
  let? symbols :=
    match List.length bytes with
    | 8%nat => Ok bytes
    | 9%nat =>
        match bytes !! 4%nat with
        | Some c => if c =? 45 then Ok (firstn 4 bytes ++ skipn 5 bytes)%list else Err tt
        | None => Panic
        end
    | _ => Err tt
    end in
  decode PAIRING_CODE_BYTES (map to_ascii_uppercase symbols).

Definition encode_recovery_key (key : list Z) : res string unit :=
  let? out := encode key in Ok (string_of out).

Definition parse_recovery_key (input : string) : res (list Z) unit :=
  if negb (Nat.eqb (String.length input) RECOVERY_KEY_SYMBOLS) then Err tt
  else decode RECOVERY_KEY_BYTES (bytes_of input).

(** The tests' independent reference: the key as one 128-bit integer, split
    into 25 five-bit symbols and one symbol of three bits and two zero bits. *)
Definition reference_key_encoding (key : list Z) : res string unit :=
  let value := be_value 256 key in
  let symbol (index : nat) := alphabet_at (Z.land (Z.shiftr value (123 - 5 * Z.of_nat index)) 31) in
  let? out := foldl (fun acc index =>
      let? out := acc in let? c := symbol index in Ok (out ++ [c])%list)
    (Ok []) (seq 0 25) in
  let? last := alphabet_at (Z.shiftl (Z.land value 7) 2) in
  Ok (string_of (out ++ [last])%list).

Example encode_vector :
  encode_recovery_key [1;35;69;103;137;171;205;239;254;220;186;152;118;84;50;16]
  = Ok "04HMASW9NF6YZZPWQAC7CN1J20"%string.
Proof. vm_compute. reflexivity. Qed.

Example parse_vector :
  parse_pairing_code "vtpv-xvr1" = Ok [222; 173; 190; 239; 1].
Proof. vm_compute. reflexivity. Qed.

(** ** The alphabet *)

(** The symbol of a value below 32 ([alphabet_at] without the result). *)
Definition sym (i : Z) : Z := default 0 (bytes_of ALPHABET !! Z.to_nat i).

Lemma upto_32 (P : Z -> Prop) :
  (forall i, (i < 32)%nat -> P (Z.of_nat i)) -> forall i, 0 <= i < 32 -> P i.
Proof. intros H i Hi. rewrite <- (Z2Nat.id i) by lia. apply H. lia. Qed.

(** Case analysis on a natural number below 32. *)
Ltac cases_32 :=
  apply upto_32; intros i Hi; do 32 (destruct i as [|i]; [vm_compute; auto|]); lia.

Lemma alphabet_at_ok : forall i, 0 <= i < 32 -> alphabet_at i = Ok (sym i).
Proof. cases_32. Qed.

Lemma symbol_value_sym : forall i, 0 <= i < 32 -> symbol_value (sym i) = Some i.
Proof. cases_32. Qed.

Lemma sym_byte : forall i, 0 <= i < 32 -> is_byte (sym i) /\ to_ascii_uppercase (sym i) = sym i.
Proof. unfold is_byte. apply upto_32; intros i Hi. do 32 (destruct i as [|i]; [vm_compute; intuition congruence|]). lia. Qed.

Lemma position_spec c l : forall v, position c l = Some v -> 0 <= v /\ l !! Z.to_nat v = Some c.
Proof.
  induction l as [|x l IH]; simpl; intros v Hv; [done|].
  destruct (Z.eqb_spec x c) as [->|]; [by simplify_eq|].
  destruct (position c l) as [w|]; simplify_eq/=.
  destruct (IH w) as [? ?]; [done|]. split; [lia|].
  by replace (Z.to_nat (Z.succ w)) with (S (Z.to_nat w)) by lia.
Qed.

Lemma symbol_value_inv c v : symbol_value c = Some v -> 0 <= v < 32 /\ c = sym v.
Proof.
  unfold symbol_value. destruct (position c _) as [w|] eqn:Hp; simpl; intros [= <-].
  apply position_spec in Hp as [Hw Hl].
  pose proof (lookup_lt_Some _ _ _ Hl) as Hlt.
  change (List.length (bytes_of ALPHABET)) with 32%nat in Hlt.
  unfold wrap. rewrite Z.mod_small by lia. split; [lia|].
  unfold sym. by rewrite Hl.
Qed.

Lemma sym_inj v e : 0 <= v < 32 -> 0 <= e < 32 -> sym v = sym e -> v = e.
Proof.
  intros Hv He Hs. apply (f_equal symbol_value) in Hs.
  rewrite !symbol_value_sym in Hs by done. congruence.
Qed.

Lemma symbols_sym ds : digits 32 ds -> Forall is_byte (map sym ds).
Proof. induction 1; simpl; constructor; [by apply sym_byte|done]. Qed.

Lemma uppercase_sym ds : digits 32 ds -> map to_ascii_uppercase (map sym ds) = map sym ds.
Proof. induction 1; simpl; f_equal; [by apply sym_byte|done]. Qed.

(** ** The encoder

    After a prefix of value [V] and [n] bits, the symbols written hold the
    high bits of [V] and the buffer its low ones. *)
Record enc_inv (n V : Z) (st : Encoder) (ds : list Z) : Prop := {
  enc_out : e_out st = map sym ds;
  enc_digits : digits 32 ds;
  enc_value : be_value 32 ds = Z.shiftr V (e_bits st);
  enc_buffer : e_buffer st = wrap 16 V;
  enc_bits : 0 <= e_bits st;
  enc_length : n = 5 * Z.of_nat (List.length ds) + e_bits st
}.

Lemma mask_31 x : Z.land x 31 = x mod 2 ^ 5.
Proof. rewrite <- Z.land_ones by lia. done. Qed.

Lemma mask_range x : 0 <= x mod 2 ^ 5 < 32.
Proof. apply (Z.mod_pos_bound x (2 ^ 5)). lia. Qed.

Lemma encode_drain_spec n V fuel : forall st ds,
  enc_inv n V st ds -> e_bits st <= 15 -> (Z.to_nat (e_bits st) <= fuel)%nat ->
  exists st' ds', encode_drain fuel st = Ok st' /\ enc_inv n V st' ds' /\ e_bits st' < 5.
Proof.
  induction fuel as [|fuel IH]; intros st ds [Ho Hd Hv Hb Hbits Hlen] H15 Hf; simpl.
  - destruct (Z.leb_spec 5 (e_bits st)); [lia|]. by exists st, ds.
  - destruct (Z.leb_spec 5 (e_bits st)); [|by exists st, ds].
    rewrite mask_31, alphabet_at_ok by apply mask_range. simpl.
    apply (IH _ (ds ++ [Z.shiftr V (e_bits st - 5) mod 2 ^ 5])%list); simpl; [|lia..].
    split; simpl; try lia; try done.
    + rewrite map_app, Ho, Hb, wrap_shiftr_mod by lia. done.
    + apply digits_snoc. split; [done|]. apply mask_range.
    + rewrite be_value_snoc, Hv.
      pose proof (shiftr_split V (e_bits st - 5) 5) as HS.
      rewrite Z.sub_add in HS. apply HS; lia.
    + rewrite length_app. simpl. lia.
Qed.

Lemma encode_byte_spec n V st ds byte :
  enc_inv n V st ds -> e_bits st < 5 -> is_byte byte ->
  exists st' ds', encode_byte st byte = Ok st'
    /\ enc_inv (n + 8) (V * 256 + byte) st' ds' /\ e_bits st' < 5.
Proof.
  intros [Ho Hd Hv Hb Hbits Hlen] H5 Hbyte. unfold encode_byte.
  apply (encode_drain_spec _ _ _ _ ds); simpl; [|lia..].
  split; simpl; try done; try lia.
  - rewrite Hv. replace (e_bits st + 8) with (8 + e_bits st) by lia.
    rewrite <- Z.shiftr_shiftr by lia. f_equal.
    rewrite Z.shiftr_div_pow2 by lia. unfold is_byte in Hbyte.
    apply Z.div_unique with byte; lia.
  - rewrite Hb. apply wrap_push; unfold is_byte in Hbyte; lia.
Qed.

Lemma encode_bytes_spec bytes : forall n V st ds,
  enc_inv n V st ds -> e_bits st < 5 -> Forall is_byte bytes ->
  exists st' ds', encode_bytes st bytes = Ok st'
    /\ enc_inv (n + 8 * Z.of_nat (List.length bytes))
         (foldl (fun acc d => acc * 256 + d) V bytes) st' ds' /\ e_bits st' < 5.
Proof.
  induction bytes as [|b bytes IH]; intros n V st ds Hi H5 Hf; simpl.
  - exists st, ds. rewrite Z.mul_0_r, Z.add_0_r. done.
  - inversion_clear Hf as [|? ? Hb Hf'].
    destruct (encode_byte_spec n V st ds b) as (st' & ds' & -> & Hi' & H5'); [done..|]. simpl.
    destruct (IH _ _ _ _ Hi' H5' Hf') as (st'' & ds'' & -> & Hi'' & H5'').
    exists st'', ds''. split; [done|]. split; [|done].
    by replace (n + 8 * Z.of_nat (S (List.length bytes)))
      with (n + 8 + 8 * Z.of_nat (List.length bytes)) by lia.
Qed.

(** [encode] writes the symbols whose base-32 value is the byte string's
    value, shifted by the fewest padding bits that make whole symbols. *)
Lemma encode_spec bytes : Forall is_byte bytes ->
  exists ds pad, encode bytes = Ok (map sym ds) /\ digits 32 ds /\ 0 <= pad < 5
    /\ be_value 32 ds = be_value 256 bytes * 2 ^ pad
    /\ 5 * Z.of_nat (List.length ds) = 8 * Z.of_nat (List.length bytes) + pad.
Proof.
  intros Hf. unfold encode.
  destruct (encode_bytes_spec bytes 0 0 {| e_out := []; e_buffer := 0; e_bits := 0 |} [])
    as (st & ds & -> & [Ho Hd Hv Hb Hbits Hlen] & H5); [|simpl; lia|done|].
  { split; try done. constructor. }
  fold (be_value 256 bytes) in Hv, Hb. set (V := be_value 256 bytes) in *. simpl.
  destruct (Z.ltb_spec 0 (e_bits st)) as [Hpos|Hzero].
  - rewrite mask_31, alphabet_at_ok by apply mask_range. simpl.
    set (pad := 5 - e_bits st) in *.
    exists (ds ++ [(V * 2 ^ pad) mod 2 ^ 5])%list, pad.
    rewrite map_app, length_app, digits_snoc, be_value_snoc, Hv, Ho. simpl.
    assert (wrap 16 (Z.shiftl (e_buffer st) pad) mod 2 ^ 5 = (V * 2 ^ pad) mod 2 ^ 5) as ->.
    { rewrite Hb. rewrite <- (Z.lor_0_r (Z.shiftl _ _)), wrap_push, Z.add_0_r by lia.
      rewrite <- (Z.shiftr_0_r (wrap _ _)), wrap_shiftr_mod, Z.shiftr_0_r by lia. done. }
    split_and!; try done; try lia; try apply mask_range.
    rewrite <- (Z.shiftr_0_r (V * 2 ^ pad)) at 2.
    rewrite <- (shiftr_split (V * 2 ^ pad) 0 5) by lia.
    rewrite Z.shiftr_0_r. f_equal. f_equal.
    rewrite <- Z.shiftl_mul_pow2, Z.shiftr_shiftl_r by lia. f_equal. lia.
  - assert (e_bits st = 0) as E by lia. rewrite E in Hv, Hlen.
    exists ds, 0. rewrite Ho, Hv, Z.shiftr_0_r.
    split_and!; try done; try lia.
Qed.

(** ** The decoder

    After the symbols [ds], the array holds the high bytes of their value and
    the buffer its low bits. *)
Record dec_inv (N : nat) (ds : list Z) (st : Decoder) (bs : list Z) : Prop := {
  dec_out : d_out st = (bs ++ replicate (N - d_index st) 0)%list;
  dec_index : List.length bs = d_index st;
  dec_fits : (d_index st <= N)%nat;
  dec_digits : digits 256 bs;
  dec_value : be_value 256 bs = Z.shiftr (be_value 32 ds) (d_bits st);
  dec_buffer : d_buffer st = wrap 16 (be_value 32 ds);
  dec_bits : 0 <= d_bits st < 8;
  dec_length : 8 * Z.of_nat (d_index st) + d_bits st = 5 * Z.of_nat (List.length ds)
}.

Lemma insert_end (bs : list Z) v k :
  (<[List.length bs := v]> (bs ++ replicate (S k) 0) = (bs ++ [v]) ++ replicate k 0)%list.
Proof.
  rewrite insert_app_r_alt, Nat.sub_diag by lia. simpl. by rewrite <- app_assoc.
Qed.

(** A symbol that is not refused extends the invariant, and never panics. *)
Lemma decode_symbol_ok N padding is_last ds st bs v :
  dec_inv N ds st bs -> 0 <= v < 32 -> 0 <= padding < 5 ->
  5 * (Z.of_nat (List.length ds) + 1) <= 8 * Z.of_nat N + padding ->
  (is_last = true -> v mod 2 ^ padding = 0) ->
  exists st' bs', decode_symbol padding is_last st (sym v) = Ok st'
    /\ dec_inv N (ds ++ [v]) st' bs'.
Proof.
  intros [Ho Hi Hf Hd Hv Hb Hbits Hlen] Hvr Hpad Hroom Hlast. unfold decode_symbol.
  rewrite symbol_value_sym by done. simpl. rewrite land_ones_mod by lia.
  assert (is_last && negb (v mod 2 ^ padding =? 0) = false) as ->.
  { destruct is_last; [|done]. by rewrite Hlast. }
  assert (wrap 16 (Z.lor (Z.shiftl (d_buffer st) 5) v)
          = wrap 16 (be_value 32 (ds ++ [v]))) as Hbuf.
  { rewrite Hb, be_value_snoc. by rewrite wrap_push by lia. }
  assert (be_value 32 ds = Z.shiftr (be_value 32 (ds ++ [v])) 5) as Hds.
  { rewrite be_value_snoc, Z.shiftr_div_pow2 by lia.
    apply Z.div_unique with v; lia. }
  rewrite Hbuf. destruct (Z.leb_spec 8 (d_bits st + 5)).
  - assert (d_index st < N)%nat by lia.
    assert (List.length (d_out st) = N) as HN.
    { rewrite Ho, length_app, length_replicate. lia. }
    rewrite HN. destruct (Nat.ltb_spec (d_index st) N); [|lia].
    eexists _, (bs ++ [_])%list. split; [done|]. split; simpl; try lia; try done.
    + rewrite Ho, <- Hi. replace (N - List.length bs)%nat with (S (N - S (List.length bs))) by lia.
      by rewrite insert_end.
    + rewrite length_app. simpl. lia.
    + apply digits_snoc. split; [done|]. apply (Z.mod_pos_bound _ (2 ^ 8)). lia.
    + rewrite be_value_snoc. unfold wrap at 1.
      rewrite wrap_shiftr_mod by lia. rewrite Hv, Hds, Z.shiftr_shiftr by lia.
      pose proof (shiftr_split (be_value 32 (ds ++ [v])) (d_bits st + 5 - 8) 8) as HS.
      replace (d_bits st + 5 - 8 + 8) with (5 + d_bits st) in HS by lia.
      apply HS; lia.
    + rewrite length_app. simpl. lia.
  - eexists _, bs. split; [done|]. split; simpl; try lia; try done.
    + rewrite Hv, Hds, Z.shiftr_shiftr by lia. f_equal. lia.
    + rewrite length_app. simpl. lia.
Qed.

(** The strings of symbols [decode] accepts: alphabet symbols whose padding
    bits are zero. *)
Definition accepted (padding : Z) (ds symbols es : list Z) : Prop :=
  symbols = map sym es /\ digits 32 es /\ be_value 32 (ds ++ es) mod 2 ^ padding = 0.

Lemma low_bits_snoc padding ds v : 0 <= padding < 5 ->
  be_value 32 (ds ++ [v]) mod 2 ^ padding = v mod 2 ^ padding.
Proof.
  intros Hp. rewrite be_value_snoc. generalize (be_value 32 ds); intros W.
  assert (2 ^ (5 - padding) * 2 ^ padding = 32) as <-.
  { by rewrite <- Z.pow_add_r, Z.sub_add by lia. }
  rewrite Z.mul_assoc, Z.add_comm, Z.mod_add by lia. done.
Qed.

Lemma decode_symbols_cases N padding symbols : forall ds st bs,
  dec_inv N ds st bs -> 0 <= padding < 5 ->
  5 * (Z.of_nat (List.length ds) + Z.of_nat (List.length symbols)) <= 8 * Z.of_nat N + padding ->
  (symbols = [] -> be_value 32 ds mod 2 ^ padding = 0) ->
  (exists es st' bs', accepted padding ds symbols es
     /\ decode_symbols padding st symbols = Ok st' /\ dec_inv N (ds ++ es) st' bs')
  \/ (decode_symbols padding st symbols = Err tt /\ forall es, ~ accepted padding ds symbols es).
Proof.
  induction symbols as [|c rest IH]; intros ds st bs Hinv Hpad Hroom Hnil; simpl.
  - left. exists [], st, bs. unfold accepted. rewrite app_nil_r. by split_and!; auto; constructor.
  - simpl in Hroom. destruct (symbol_value c) as [v|] eqn:Hc.
    2: { right. unfold decode_symbol. rewrite Hc. split; [done|].
         intros [|e es] (Hs & He & _); simplify_eq/=. apply Forall_cons in He as [He _].
         by rewrite symbol_value_sym in Hc. }
    apply symbol_value_inv in Hc as [Hv ->].
    set (is_last := match rest with [] => true | _ => false end).
    destruct (decide (is_last = true /\ v mod 2 ^ padding <> 0)) as [[Hl Hbad]|Hgood].
    + right. unfold decode_symbol. rewrite symbol_value_sym by done. simpl.
      rewrite land_ones_mod, Hl by lia.
      destruct (Z.eqb_spec (v mod 2 ^ padding) 0); [done|]. split; [done|].
      intros es (Hs & He & Hm). destruct rest; [|done].
      destruct es as [|e [|]]; try done. injection Hs as Hs.
      apply Forall_cons in He as [He _]. rewrite low_bits_snoc in Hm by done.
      apply sym_inj in Hs; [congruence|done..].
    + destruct (decode_symbol_ok N padding is_last ds st bs v) as (st' & bs' & -> & Hinv'); try done.
      { lia. }
      { intros Hl. destruct (decide (v mod 2 ^ padding = 0)); [done|]. by destruct Hgood. }
      simpl. destruct (IH (ds ++ [v])%list st' bs') as [(es & st'' & bs'' & (-> & He & Hm) & Hrun & Hi)|[Hrun Hno]]; try done.
      { rewrite length_app. simpl. lia. }
      { intros ->. rewrite low_bits_snoc by done.
        destruct (decide (v mod 2 ^ padding = 0)); [done|]. by destruct Hgood. }
      * left. exists (v :: es), st'', bs''. unfold accepted. rewrite <- app_assoc in Hm, Hi.
        split_and!; try done. by constructor.
      * right. split; [done|]. intros [|e es] (Hs & He & Hm); [done|].
        injection Hs as Hs Hs'. apply Forall_cons in He as [He He'].
        apply sym_inj in Hs as ->; [|done..]. apply (Hno es). split_and!; try done. by rewrite <- app_assoc.
Qed.

Lemma map_sym_inj ds : forall es,
  digits 32 ds -> digits 32 es -> map sym ds = map sym es -> ds = es.
Proof.
  induction ds as [|d ds IH]; intros [|e es] Hd He Hm; try done.
  apply Forall_cons in Hd as [Hd Hds]. apply Forall_cons in He as [He Hes].
  injection Hm as Hm Hms. f_equal; [by apply sym_inj|by apply IH].
Qed.

(** What [decode] does, in one statement: it either refuses, or returns the
    bytes whose value is that of the symbols without their zero padding. *)
Lemma decode_cases N symbols :
  (exists es bytes pad, symbols = map sym es /\ digits 32 es /\ 0 <= pad < 5
     /\ 5 * Z.of_nat (List.length es) = 8 * Z.of_nat N + pad
     /\ be_value 32 es = be_value 256 bytes * 2 ^ pad
     /\ List.length bytes = N /\ digits 256 bytes /\ decode N symbols = Ok bytes)
  \/ (decode N symbols = Err tt
     /\ forall es pad, symbols = map sym es -> digits 32 es -> 0 <= pad < 5 ->
          5 * Z.of_nat (List.length es) = 8 * Z.of_nat N + pad ->
          be_value 32 es mod 2 ^ pad <> 0).
Proof.
  unfold decode.
  set (len := Z.of_nat (List.length symbols)). set (pad := len * 5 - Z.of_nat N * 8).
  destruct ((len * 5 <? Z.of_nat N * 8) || (5 <=? pad)) eqn:Hc.
  { right. split; [done|]. intros es p -> Hd Hp Hl.
    subst pad len. rewrite length_map in Hc. apply orb_true_iff in Hc as [Hc|Hc]; bool_hyps; lia. }
  bool_hyps.
  destruct (decode_symbols_cases N pad symbols []
              {| d_out := replicate N 0; d_buffer := 0; d_bits := 0; d_index := O |} [])
    as [(es & st & bs & (-> & He & Hm) & -> & [Ho Hi Hf Hd Hv Hb Hbits Hlen])|[-> Hno]].
  - split; simpl; try done; try lia. + by rewrite Nat.sub_0_r. + constructor.
  - lia.
  - subst pad len. simpl. lia.
  - intros ->. unfold be_value. simpl. by rewrite Z.mod_0_l by lia.
  - left. rewrite app_nil_l in *. simpl.
    assert (pad = Z.of_nat (List.length es) * 5 - Z.of_nat N * 8) as Hpad.
    { subst pad len. by rewrite length_map. }
    clearbody pad. subst len. rewrite length_map in *.
    assert (d_index st = N) as HN by lia. rewrite HN, Nat.eqb_refl.
    assert (d_bits st = pad) as Hbp by lia. rewrite Hbp in Hv.
    exists es, bs, pad. rewrite Ho, HN, Nat.sub_diag, app_nil_r.
    split_and!; try done; try lia.
    rewrite Hv, Z.shiftr_div_pow2 by lia.
    pose proof (Z.div_mod (be_value 32 es) (2 ^ pad)). lia.
  - right. split; [done|]. intros es p -> Hd Hp Hl Hm.
    apply (Hno es). split_and!; try done. simpl.
    replace pad with p; [done|]. subst pad len. rewrite length_map. lia.
Qed.

(** ** Properties *)

(** [decode] is the exact inverse of [encode]: it accepts precisely the
    encodings of [N]-byte strings, and gives back the bytes. *)
Lemma decode_encode_iff N symbols bytes : Forall is_byte bytes ->
  decode N symbols = Ok bytes <-> List.length bytes = N /\ encode bytes = Ok symbols.
Proof.
  intros Hbytes. destruct (encode_spec bytes Hbytes) as (ds & p & Henc & Hd & Hp & Hval & Hl).
  rewrite Henc.
  destruct (decode_cases N symbols) as
    [(es & bs & pad & -> & He & Hpad & Hlen & Hv & HN & Hb & ->)|[-> Hno]].
  - split.
    + intros [= ->]. split; [done|]. f_equal. f_equal. assert (pad = p) as -> by lia.
      apply (be_value_inj 32); try done; try lia.
    + intros [HN' [= Hs]]. apply map_sym_inj in Hs as ->; try done.
      f_equal. assert (pad = p) as -> by lia.
      apply (be_value_inj 256); try done; try lia.
      apply (Z.mul_reg_r _ _ (2 ^ p)); lia.
  - split; [done|]. intros [<- [= <-]].
    destruct (Hno ds p); try done.
    rewrite Hval. apply Z.mod_mul. lia.
Qed.

Lemma decode_bytes N symbols bytes : decode N symbols = Ok bytes -> Forall is_byte bytes.
Proof.
  intros H. destruct (decode_cases N symbols) as
    [(es & bs & pad & _ & _ & _ & _ & _ & _ & Hb & Hr)|[Hr _]]; rewrite H in Hr; simplify_eq.
  exact Hb.
Qed.

Lemma decode_no_panic N symbols : decode N symbols <> Panic.
Proof.
  destruct (decode_cases N symbols) as [(?&?&?&?&?&?&?&?&?&?&->)|[-> _]]; done.
Qed.

Lemma encode_no_panic bytes : Forall is_byte bytes -> exists out, encode bytes = Ok out /\ Forall is_byte out.
Proof.
  intros H. destruct (encode_spec bytes H) as (ds & p & -> & Hd & _).
  eexists. split; [done|]. by apply symbols_sym.
Qed.

Lemma parse_recovery_key_no_panic input : parse_recovery_key input <> Panic.
Proof. unfold parse_recovery_key. case_match; [done|apply decode_no_panic]. Qed.

Lemma parse_pairing_code_no_panic input : parse_pairing_code input <> Panic.
Proof.
  unfold parse_pairing_code. generalize (bytes_of input). intros bytes.
  do 10 (try destruct bytes as [|? bytes]); try done; simpl; try apply decode_no_panic.
  case_match; [apply decode_no_panic|done].
Qed.

Lemma parse_pairing_code_bytes input code : parse_pairing_code input = Ok code -> Forall is_byte code.
Proof.
  unfold parse_pairing_code. intros Hp.
  match type of Hp with res_bind ?r _ = _ => destruct r end; [|done..].
  by apply decode_bytes in Hp.
Qed.

Lemma encode_pairing_code_ok code : Forall is_byte code -> exists text, encode_pairing_code code = Ok text.
Proof. intros H. destruct (encode_no_panic code H) as (out & Ho & _). unfold encode_pairing_code. rewrite Ho. by eexists. Qed.

Lemma encode_recovery_key_ok key : Forall is_byte key -> exists text, encode_recovery_key key = Ok text.
Proof. exact (encode_pairing_code_ok key). Qed.

Lemma recovery_key_round_trip key text : Forall is_byte key -> List.length key = RECOVERY_KEY_BYTES ->
  encode_recovery_key key = Ok text -> parse_recovery_key text = Ok key /\ String.length text = RECOVERY_KEY_SYMBOLS.
Proof.
  unfold encode_recovery_key, parse_recovery_key. intros Hb Hl He.
  destruct (encode_spec key Hb) as (ds & p & Ho & Hd & Hp & _ & Hlen). rewrite Ho in He.
  injection He as <-. pose proof (symbols_sym ds Hd) as Hs.
  assert (String.length (string_of (map sym ds)) = RECOVERY_KEY_SYMBOLS) as Hn.
  { rewrite <- length_bytes_of, bytes_of_string_of, length_map by done.
    rewrite Hl in Hlen. unfold RECOVERY_KEY_BYTES, RECOVERY_KEY_SYMBOLS in *. lia. }
  split; [|done]. rewrite Hn, Nat.eqb_refl, bytes_of_string_of by done. by apply decode_encode_iff.
Qed.

Lemma pairing_code_round_trip code text : Forall is_byte code -> List.length code = PAIRING_CODE_BYTES ->
  encode_pairing_code code = Ok text -> parse_pairing_code text = Ok code /\ String.length text = PAIRING_CODE_SYMBOLS.
Proof.
  unfold encode_pairing_code, parse_pairing_code. intros Hb Hl He.
  destruct (encode_spec code Hb) as (ds & p & Ho & Hd & Hp & _ & Hlen). rewrite Ho in He.
  injection He as <-. pose proof (symbols_sym ds Hd) as Hs.
  rewrite bytes_of_string_of by done. rewrite <- length_bytes_of, bytes_of_string_of by done.
  assert (List.length (map sym ds) = PAIRING_CODE_SYMBOLS) as Hn.
  { rewrite length_map. rewrite Hl in Hlen. unfold PAIRING_CODE_BYTES, PAIRING_CODE_SYMBOLS in *. lia. }
  split; [|done]. rewrite Hn. simpl. rewrite uppercase_sym by done. by apply decode_encode_iff.
Qed.

(** C31. A string parses as a recovery key exactly when it is the encoding of
    the 16-byte key it yields: lowercase, short, long, hyphenated or padded
    variants are all refused, and no input panics. *)
Theorem recovery_key_canonical (input : string) :
  parse_recovery_key input <> Panic /\
  forall key, Forall is_byte key ->
    parse_recovery_key input = Ok key <->
    List.length key = RECOVERY_KEY_BYTES /\ encode_recovery_key key = Ok input.
Proof.
  unfold parse_recovery_key, encode_recovery_key.
  destruct (Nat.eqb_spec (String.length input) RECOVERY_KEY_SYMBOLS) as [Hl|Hl]; simpl.
  - split; [apply decode_no_panic|]. intros key Hk. rewrite decode_encode_iff by done.
    split; intros [HN He]; (split; [done|]).
    + rewrite He. simpl. by rewrite string_of_bytes_of.
    + destruct (encode_no_panic key Hk) as (out & Ho & Hb). rewrite Ho in He |- *.
      simpl in He. injection He as <-. by rewrite bytes_of_string_of.
  - split; [done|]. intros key Hk. split; [done|]. intros [HN He]. exfalso. apply Hl.
    destruct (encode_spec key Hk) as (ds & p & Ho & Hd & Hp & _ & Hlen). rewrite Ho in He.
    simpl in He. injection He as <-. rewrite <- length_bytes_of, bytes_of_string_of.
    + rewrite length_map, HN in *. unfold RECOVERY_KEY_BYTES, RECOVERY_KEY_SYMBOLS in *. lia.
    + by apply symbols_sym.
Qed.

Lemma encode_length bytes out : Forall is_byte bytes -> encode bytes = Ok out ->
  List.length bytes = PAIRING_CODE_BYTES -> List.length out = PAIRING_CODE_SYMBOLS.
Proof.
  intros Hb He HN. destruct (encode_spec bytes Hb) as (ds & p & Ho & Hd & Hp & _ & Hlen).
  rewrite Ho in He. injection He as <-. rewrite length_map.
  rewrite HN in Hlen. unfold PAIRING_CODE_BYTES, PAIRING_CODE_SYMBOLS in *. lia.
Qed.

(** The text a pairing code may be typed as: the symbols in either case, or
    the same with a hyphen after the fourth. *)
Definition typed_as (typed canonical : list Z) : Prop :=
  map to_ascii_uppercase typed = canonical /\ List.length typed = 8%nat
  \/ exists a b, typed = (a ++ 45 :: b)%list /\ List.length a = 4%nat /\ List.length b = 4%nat
       /\ map to_ascii_uppercase (a ++ b) = canonical.

(** A string parses as a pairing code exactly when it spells the encoding
    of the 5-byte code in any letter case, optionally as [XXXX-XXXX]; no
    input panics. *)
Theorem pairing_code_forms (input : string) :
  parse_pairing_code input <> Panic /\
  forall code, Forall is_byte code ->
    parse_pairing_code input = Ok code <->
    List.length code = PAIRING_CODE_BYTES /\
    exists symbols, encode code = Ok symbols /\ typed_as (bytes_of input) symbols.
Proof.
  unfold parse_pairing_code, typed_as. generalize (bytes_of input); intros bytes. clear input.
  assert (List.length bytes = 8%nat \/ List.length bytes = 9%nat \/
          (List.length bytes <> 8 /\ List.length bytes <> 9)%nat) as [H8|[H9|[Hn8 Hn9]]] by lia.
  - rewrite H8. simpl. split; [apply decode_no_panic|]. intros code Hc.
    rewrite decode_encode_iff by done. split.
    + intros [HN He]. split; [done|]. eexists. split; [done|]. by left.
    + intros [HN (sy & He & [[<- _]|(a & b & -> & Ha & Hb & _)])]; [done|].
      rewrite length_app in H8. simpl in H8. lia.
  - rewrite H9. destruct bytes as [|b0 [|b1 [|b2 [|b3 [|b4 [|b5 [|b6 [|b7 [|b8 [|]]]]]]]]]]; try done.
    cbn [lookup list_lookup List.length res_bind]. destruct (Z.eqb_spec b4 45) as [->|Hne].
    + cbn [firstn skipn app res_bind]. split; [apply decode_no_panic|]. intros code Hc.
      rewrite decode_encode_iff by done. split.
      * intros [HN He]. split; [done|]. eexists. split; [done|]. right.
        exists [b0;b1;b2;b3], [b5;b6;b7;b8]. done.
      * intros [HN (sy & He & [[_ ?]|(a & b & Hab & Ha & Hb & <-)])]; [done|].
        do 4 (destruct a as [|? a]; [done|]). destruct a; [|done]. injection Hab as <- <- <- <- <-.
        done.
    + simpl. split; [done|]. intros code Hc. split; [done|].
      intros [HN (sy & He & [[_ ?]|(a & b & Hab & Ha & Hb & <-)])]; [done|].
      do 4 (destruct a as [|? a]; [done|]). destruct a; [|done]. by injection Hab.
  - replace (match List.length bytes with 8%nat => _ | _ => _ end) with (@Err (list Z) unit tt)
      by (do 10 (destruct bytes as [|? bytes]; [done|]); done).
    simpl. split; [done|]. intros code Hc. split; [done|].
    intros [HN (sy & He & [[_ ?]|(a & b & -> & Ha & Hb & _)])]; [done|].
    rewrite length_app in Hn9. simpl in Hn9. lia.
Qed.

(** The symbol at an index is a five-bit slice of the value. *)
Lemma digit_at ds : forall i, digits 32 ds -> (i < List.length ds)%nat ->
  ds !! i = Some (Z.land (Z.shiftr (be_value 32 ds)
                            (5 * Z.of_nat (List.length ds - 1 - i))) 31).
Proof.
  induction ds as [|d ds IH] using rev_ind; intros i Hd Hi; [simpl in Hi; lia|].
  apply digits_snoc in Hd as [Hds Hd]. rewrite mask_31, be_value_snoc.
  rewrite length_app in Hi |- *. simpl in Hi |- *.
  destruct (decide (i = List.length ds)) as [->|Hne].
  - rewrite list_lookup_middle by done.
    replace (List.length ds + 1 - 1 - List.length ds)%nat with O by lia.
    rewrite Z.shiftr_0_r. change (2 ^ 5) with 32.
    by rewrite Z.add_comm, Z.mod_add, Z.mod_small by lia.
  - rewrite lookup_app_l by lia. rewrite IH, mask_31 by (done || lia). do 2 f_equal.
    replace (5 * Z.of_nat (List.length ds + 1 - 1 - i))
      with (5 + 5 * Z.of_nat (List.length ds - 1 - i)) by lia.
    rewrite <- Z.shiftr_shiftr by lia. f_equal.
    rewrite Z.shiftr_div_pow2 by lia. apply Z.div_unique with d; lia.
Qed.

Lemma fold_symbols f g l : (forall i, i ∈ l -> f i = Ok (g i)) -> forall acc,
  foldl (fun acc (index : nat) => let? out := acc in let? c := f index in Ok (out ++ [c])%list)
    (Ok acc) l = (Ok (acc ++ map g l)%list : res (list Z) unit).
Proof.
  induction l as [|i l IH]; intros Hf acc; simpl; [by rewrite app_nil_r|].
  rewrite Hf by set_solver. simpl. rewrite IH by set_solver. by rewrite <- app_assoc.
Qed.

Lemma reference_agrees key : Forall is_byte key -> List.length key = RECOVERY_KEY_BYTES ->
  encode_recovery_key key = reference_key_encoding key.
Proof.
  intros Hk HN. unfold encode_recovery_key, reference_key_encoding.
  destruct (encode_spec key Hk) as (ds & p & -> & Hd & Hp & Hv & Hl).
  rewrite HN in Hl. unfold RECOVERY_KEY_BYTES in Hl.
  assert (p = 2 /\ List.length ds = 26%nat) as [-> Hlen] by lia.
  set (V := be_value 256 key) in *.
  set (slice i := sym (Z.land (Z.shiftr V (123 - 5 * Z.of_nat i)) 31)).
  rewrite (fold_symbols _ slice).
  2: { intros i _. unfold slice. apply alphabet_at_ok. rewrite mask_31. apply mask_range. }
  assert (Z.shiftl (Z.land V 7) 2 = Z.land (be_value 32 ds) 31) as Hlast.
  { rewrite Hv, mask_31. change 7 with (Z.ones 3). rewrite Z.land_ones by lia.
    rewrite Z.shiftl_mul_pow2 by lia. change (2 ^ 5) with (2 ^ 3 * 2 ^ 2).
    by rewrite Z.mul_mod_distr_r by lia. }
  rewrite Hlast, alphabet_at_ok by (rewrite mask_31; apply mask_range).
  cbn [res_bind]. rewrite app_nil_l. do 2 f_equal. apply list_eq. intros i.
  destruct (decide (i < 26)%nat) as [Hi|Hi].
  2: { rewrite !lookup_ge_None_2; [done|..]; rewrite ?length_app, ?length_map, ?length_seq; simpl; lia. }
  rewrite list_lookup_fmap, digit_at by (done || lia). rewrite Hlen.
  change (sym <$> Some ?x) with (Some (sym x)). symmetry.
  destruct (decide (i = 25)%nat) as [->|Hne]; [done|].
  rewrite lookup_app_l by (rewrite length_map, length_seq; lia).
  rewrite list_lookup_fmap, lookup_seq_lt by lia. simpl. unfold slice. do 3 f_equal.
  rewrite Hv, <- Z.shiftl_mul_pow2, Z.shiftr_shiftl_r by lia. f_equal. lia.
Qed.

(** C32. The bit-buffer encoder computes the arithmetic reference encoding
    (the key as one 128-bit integer) on every 16-byte key. *)
Theorem encode_recovery_key_reference key :
  Forall is_byte key -> List.length key = RECOVERY_KEY_BYTES ->
  encode_recovery_key key = reference_key_encoding key.
Proof. apply reference_agrees. Qed.

(** ** Instances *)

Definition sample_key : list Z := [1;35;69;103;137;171;205;239;254;220;186;152;118;84;50;16].

Lemma sample_key_bytes : Forall is_byte sample_key.
Proof. repeat constructor; unfold is_byte; lia. Qed.

Lemma recovery_key_canonical_witness : Forall is_byte sample_key /\
  (parse_recovery_key "04HMASW9NF6YZZPWQAC7CN1J20" = Ok sample_key <->
   List.length sample_key = RECOVERY_KEY_BYTES /\
   encode_recovery_key sample_key = Ok "04HMASW9NF6YZZPWQAC7CN1J20"%string).
Proof.
  split; [exact sample_key_bytes|].
  exact (proj2 (recovery_key_canonical "04HMASW9NF6YZZPWQAC7CN1J20") sample_key sample_key_bytes).
Defined.

Definition sample_code : list Z := [222; 173; 190; 239; 1].

Lemma sample_code_bytes : Forall is_byte sample_code.
Proof. repeat constructor; unfold is_byte; lia. Qed.

Lemma pairing_code_forms_witness : Forall is_byte sample_code /\
  (parse_pairing_code "vtpv-xvr1" = Ok sample_code <->
   List.length sample_code = PAIRING_CODE_BYTES /\
   exists symbols, encode sample_code = Ok symbols /\ typed_as (bytes_of "vtpv-xvr1") symbols).
Proof.
  split; [exact sample_code_bytes|].
  exact (proj2 (pairing_code_forms "vtpv-xvr1") sample_code sample_code_bytes).
Defined.

Lemma encode_recovery_key_reference_witness :
  encode_recovery_key sample_key = reference_key_encoding sample_key.
Proof. apply (encode_recovery_key_reference sample_key sample_key_bytes). reflexivity. Defined.

End Codes.
