(* ===== verification/Random.v ===== *)
(** * The kernel random source ([authd/src/random.rs])

    [fill_with] and the two inlined copies of it in [remoted/src/sessions.rs]
    and [remote-worker/src/main.rs].  The kernel's [getrandom(2)] is a
    parameter: the [n]-th call sees the chunk it may overwrite and returns its
    new contents with a count or an error number. *)
From S2P Require Import Prelude.

Module Random.

(** [libc::EINTR] *)
Definition EINTR : Z := 4.

Section Fill.
(** The [n]-th invocation of the system call on a chunk: the chunk after the
    call, [libc::getrandom]'s return value and [errno]. *)
Context (getrandom : nat -> list Z -> list Z * Z * Z).

(** The closure of [KernelRandom::fill] in [authd]. *)
Definition kernel_call (n : nat) (chunk : list Z) : list Z * res Z Z :=
  let '(chunk', result, errno) := getrandom n chunk in
  if result <? 0 then (chunk', Err errno) else (chunk', Ok result).

(** [fill_with(buffer, call)] from its [n]-th call with [filled] bytes done:
    the buffer and the result, or [None] if [fuel] calls did not end it. *)
Fixpoint fill_with (call : nat -> list Z -> list Z * res Z Z)
    (fuel n : nat) (buffer : list Z) (filled : nat) : option (list Z * res unit unit) :=
  if Nat.ltb filled (List.length buffer) then
    match fuel with
    | O => None
    | S fuel =>
        let remaining := (List.length buffer - filled)%nat in
        let (chunk, result) := call n (skipn filled buffer) in
        let buffer' := (firstn filled buffer ++ chunk)%list in
        let failed := Some (replicate (List.length buffer') 0, Err tt) in
        match result with
        | Ok count =>
            if (0 <? count) && (count <=? Z.of_nat remaining)
            then fill_with call fuel (S n) buffer' (filled + Z.to_nat count)
            else failed
        | Err errno =>
            if errno =? EINTR then fill_with call fuel (S n) buffer' filled else failed
        | Panic => None
        end
    end
  else Some (buffer, Ok tt).

(** [KernelRandom::fill] of [authd]. *)
Definition kernel_fill (fuel : nat) (buffer : list Z) : option (list Z * res unit unit) :=
  fill_with kernel_call fuel O buffer O.

(** [KernelRandom::fill] of [remoted] and [SystemTools::random] of
    [remote-worker]: the same loop on the raw return value. *)
Fixpoint inline_fill (fuel n : nat) (buffer : list Z) (filled : nat)
    : option (list Z * res unit unit) :=
  if Nat.ltb filled (List.length buffer) then
    match fuel with
    | O => None
    | S fuel =>
        let remaining := skipn filled buffer in
        let '(chunk, result, errno) := getrandom n remaining in
        let buffer' := (firstn filled buffer ++ chunk)%list in
        if (0 <? result) && (result <=? Z.of_nat (List.length remaining)) then
          inline_fill fuel (S n) buffer' (filled + Z.to_nat result)
        else if (result <? 0) && (errno =? EINTR) then
          inline_fill fuel (S n) buffer' filled
        else Some (replicate (List.length buffer') 0, Err tt)
    end
  else Some (buffer, Ok tt).

(** ** Behaviour *)

(** The system call writes within the chunk it is given: it is a [&mut]
    slice, so its length cannot change. *)
Definition in_place (call : nat -> list Z -> list Z * res Z Z) : Prop :=
  forall n chunk, List.length (call n chunk).1 = List.length chunk.

(** The pieces of the buffer that calls [n], [n+1], .. reported as filled. *)
Inductive pieces (call : nat -> list Z -> list Z * res Z Z) : nat -> list (list Z) -> Prop :=
  | pieces_done n : pieces call n []
  | pieces_retry n chunk ps :
      (call n chunk).2 = Err EINTR -> pieces call (S n) ps -> pieces call n ps
  | pieces_read n chunk count ps :
      (call n chunk).2 = Ok count -> 0 < count <= Z.of_nat (List.length chunk) ->
      pieces call (S n) ps ->
      pieces call n (firstn (Z.to_nat count) (call n chunk).1 :: ps).

Lemma fill_with_spec call : in_place call -> forall fuel n buffer filled out r,
  (filled <= List.length buffer)%nat ->
  fill_with call fuel n buffer filled = Some (out, r) ->
  List.length out = List.length buffer /\
  match r with
  | Ok _ => exists ps, pieces call n ps /\ out = (firstn filled buffer ++ List.concat ps)%list
  | Err _ => out = replicate (List.length buffer) 0
  | Panic => False
  end.
Proof.
  intros Hcall. induction fuel as [|fuel IH]; intros n buffer filled out r Hle; simpl;
    destruct (Nat.ltb_spec filled (List.length buffer)) as [Hlt|Hge]; intros Hrun; simplify_eq.
  1, 3: split; [done|]; exists []; split; [constructor|];
    by rewrite app_nil_r, firstn_all2 by done.
  pose proof (Hcall n (skipn filled buffer)) as Hlen. rewrite length_skipn in Hlen.
  destruct (call n (skipn filled buffer)) as [chunk res] eqn:Hc. simpl in Hlen.
  assert (List.length (firstn filled buffer ++ chunk) = List.length buffer) as Hb.
  { rewrite length_app, length_firstn. lia. }
  rewrite Hb in Hrun.
  destruct res as [count|errno|]; [| |done].
  - destruct ((0 <? count) && _) eqn:Hok; bool_hyps; simplify_eq.
    2: { by rewrite length_replicate. }
    apply IH in Hrun as [Hl Hr]; [|rewrite Hb; lia]. rewrite Hb in Hl, Hr.
    split; [done|]. destruct r as [u|u|]; try done. destruct Hr as (ps & Hps & ->).
    exists (firstn (Z.to_nat count) chunk :: ps). split.
    + replace chunk with (call n (skipn filled buffer)).1 by (by rewrite Hc).
      eapply pieces_read; [by rewrite Hc| |done]. rewrite length_skipn. lia.
    + simpl. rewrite app_assoc. f_equal. rewrite firstn_app, length_firstn.
      rewrite firstn_all2 by (rewrite length_firstn; lia). do 2 f_equal. lia.
  - destruct (Z.eqb_spec errno EINTR) as [->|Hne]; simplify_eq.
    2: { by rewrite length_replicate. }
    apply IH in Hrun as [Hl Hr]; [|rewrite Hb; lia]. rewrite Hb in Hl, Hr.
    split; [done|]. destruct r as [u|u|]; try done. destruct Hr as (ps & Hps & ->).
    exists ps. split; [eapply pieces_retry; [by rewrite Hc|done]|].
    f_equal. rewrite firstn_app, length_firstn. replace (filled - _)%nat with O by lia.
    rewrite firstn_O, app_nil_r. apply firstn_all2. rewrite length_firstn. lia.
Qed.

(** Enough fuel: every call either makes progress, ends the loop, or is one
    of the finitely many interrupted ones. *)
Lemma fill_with_returns call : in_place call -> forall K,
  (forall n chunk, (K <= n)%nat -> (call n chunk).2 <> Err EINTR) ->
  (forall n chunk, (call n chunk).2 <> Panic) ->
  forall fuel n buffer filled,
  (filled <= List.length buffer)%nat ->
  (K - n + (List.length buffer - filled) <= fuel)%nat ->
  is_Some (fill_with call fuel n buffer filled).
Proof.
  intros Hcall K HK HP. induction fuel as [|fuel IH]; intros n buffer filled Hle Hf; simpl;
    destruct (Nat.ltb_spec filled (List.length buffer)) as [Hlt|Hge]; try (by eexists); [lia|].
  pose proof (Hcall n (skipn filled buffer)) as Hlen. rewrite length_skipn in Hlen.
  destruct (call n (skipn filled buffer)) as [chunk res] eqn:Hc. simpl in Hlen.
  assert (List.length (firstn filled buffer ++ chunk) = List.length buffer) as Hb.
  { rewrite length_app, length_firstn. lia. }
  destruct res as [count|errno|].
  - destruct ((0 <? count) && _) eqn:Hok; bool_hyps; [|by eexists].
    apply IH; rewrite ?Hb; lia.
  - destruct (Z.eqb_spec errno EINTR) as [->|Hne]; [|by eexists].
    apply IH; rewrite ?Hb; [lia|].
    destruct (Nat.le_gt_cases K n) as [Hge'|]; [|lia].
    destruct (HK n (skipn filled buffer) Hge'). by rewrite Hc.
  - destruct (HP n (skipn filled buffer)). by rewrite Hc.
Qed.

(** C33. Filling a buffer from the kernel terminates once the kernel stops
    being interrupted, and then either the whole buffer is made of bytes the
    kernel reported, in order, or the call fails and the buffer is zeroed:
    partial randomness is never left behind. *)
Theorem kernel_fill_complete (K fuel : nat) (buffer : list Z) :
  in_place kernel_call ->
  (forall n chunk, (K <= n)%nat -> (kernel_call n chunk).2 <> Err EINTR) ->
  (K + List.length buffer <= fuel)%nat ->
  exists out r, kernel_fill fuel buffer = Some (out, r)
    /\ List.length out = List.length buffer
    /\ match r with
       | Ok _ => exists ps, pieces kernel_call 0 ps /\ out = List.concat ps
       | Err _ => out = replicate (List.length buffer) 0
       | Panic => False
       end.
Proof.
  intros Hcall HK Hf. unfold kernel_fill.
  assert (forall n chunk, (kernel_call n chunk).2 <> Panic) as HP.
  { intros n chunk. unfold kernel_call.
    by destruct (getrandom n chunk) as [[? result] ?], (result <? 0). }
  destruct (fill_with_returns kernel_call Hcall K HK HP fuel 0 buffer 0)
    as [[out r] Hr]; [lia|lia|].
  exists out, r. split; [done|]. apply fill_with_spec in Hr; [|done|lia]. done.
Qed.

(** The two inlined copies of the loop compute exactly [fill_with] on
    the kernel call. *)
Theorem inline_fill_equiv fuel : in_place kernel_call -> forall n buffer filled,
  (filled <= List.length buffer)%nat ->
  inline_fill fuel n buffer filled = fill_with kernel_call fuel n buffer filled.
Proof.
  intros Hcall. induction fuel as [|fuel IH]; intros n buffer filled Hle; simpl; [done|].
  destruct (Nat.ltb_spec filled (List.length buffer)) as [Hlt|Hge]; [|done].
  pose proof (Hcall n (skipn filled buffer)) as Hlen. unfold kernel_call in *.
  destruct (getrandom n (skipn filled buffer)) as [[chunk result] errno]. simpl in Hlen.
  rewrite length_skipn in Hlen |- *.
  assert (List.length (firstn filled buffer ++ chunk) = List.length buffer) as Hb.
  { rewrite length_app, length_firstn. destruct (result <? 0); simpl in Hlen; lia. }
  rewrite Hb. destruct (Z.ltb_spec result 0) as [Hneg|Hpos].
  - destruct (Z.ltb_spec 0 result); [lia|]. simpl.
    destruct (errno =? EINTR); rewrite ?Hb; [|done]. apply IH. rewrite Hb. lia.
  - simpl. destruct ((0 <? result) && _) eqn:Hok; rewrite ?Hb; [|done]. bool_hyps.
    apply IH. rewrite Hb. lia.
Qed.
End Fill.

(** A kernel that is interrupted once and then returns three bytes at a time. *)
Definition test_getrandom (n : nat) (chunk : list Z) : list Z * Z * Z :=
  match n with
  | O => (chunk, -1, EINTR)
  | _ => let k := Nat.min 3 (List.length chunk) in
         ((replicate k (Z.of_nat n) ++ skipn k chunk)%list, Z.of_nat k, 0)
  end.

Lemma test_in_place : in_place (kernel_call test_getrandom).
Proof.
  intros [|n] chunk; unfold kernel_call, test_getrandom; [done|].
  destruct (Z.ltb_spec (Z.of_nat (Nat.min 3 (List.length chunk))) 0); [lia|].
  cbn [fst]. rewrite length_app, length_skipn, length_replicate. lia.
Qed.

Lemma kernel_fill_complete_witness :
  kernel_fill test_getrandom 20 (replicate 7 0) = Some ([1;1;1;2;2;2;3], Ok tt) /\
  exists out r, kernel_fill test_getrandom 20 (replicate 7 0) = Some (out, r)
      /\ List.length out = 7%nat
      /\ match r with
         | Ok _ => exists ps, pieces (kernel_call test_getrandom) 0 ps /\ out = List.concat ps
         | Err _ => out = replicate 7 0
         | Panic => False
         end.
Proof.
  split; [reflexivity|].
  apply (kernel_fill_complete test_getrandom 1 20 (replicate 7 0) test_in_place).
  - intros [|n] chunk Hn; [lia|]. unfold kernel_call, test_getrandom.
    by destruct (_ <? _) eqn:E; [apply Z.ltb_lt in E; lia|].
  - simpl. lia.
Defined.

Lemma inline_fill_equiv_witness :
  inline_fill test_getrandom 20 0 (replicate 7 0) 0
  = fill_with (kernel_call test_getrandom) 20 0 (replicate 7 0) 0.
Proof. apply (inline_fill_equiv test_getrandom 20 test_in_place). simpl. lia. Defined.

End Random.
