(* ===== verification/Hash.v ===== *)
(** * Password hashing ([authd/src/hash.rs])

    The [Hasher] interface the state machine is written against, and its
    Argon2id implementation over the [argon2] crate, which is a parameter. *)
From S2P Require Import Prelude.

Module Hash.

Definition SALT_BYTES : nat := 16.
Definition OUTPUT_BYTES : Z := 32.
Definition MEMORY_KIB : Z := 65536.
Definition ITERATIONS : Z := 3.
Definition PARALLELISM : Z := 1.

(** [trait Hasher]: [Err tt] is [HashFailed]. *)
Class Hasher := {
  hasher_hash : list Z -> list Z -> res string unit;
  hasher_verify : list Z -> string -> res bool unit
}.

(** The parts of the [argon2] and [password_hash] crates the code calls. *)
Class Argon2Api := {
  Params : Type;
  PasswordHash : Type;
  (** [Params::new(m, t, p, Some(OUTPUT_BYTES))] *)
  params_new : Z -> Z -> Z -> Z -> option Params;
  (** [PasswordHash::new] and the accessors used on its result. *)
  phc_new : string -> option PasswordHash;
  phc_algorithm : PasswordHash -> string;
  phc_version : PasswordHash -> option Z;
  phc_output_len : PasswordHash -> option Z;
  (** The salt field, and [decode_b64] of it: the decoded length. *)
  phc_salt_len : PasswordHash -> option (option Z);
  phc_params_ok : PasswordHash -> bool;
  (** [SaltString::encode_b64] *)
  salt_encode_b64 : list Z -> option string;
  (** [hash_password(..)] and [to_string] *)
  engine_hash : Params -> list Z -> string -> option string;
  (** [verify_password(..)]: [Err true] is [Error::Password]. *)
  engine_verify : Params -> list Z -> PasswordHash -> res unit bool
}.

Section Argon2id.
Context `{Argon2Api}.

Record Argon2id := { params : Params }.

(** [Argon2id::with_cost]: [expect] panics on refused parameters. *)
Definition with_cost (memory_kib iterations parallelism : Z) : res Argon2id unit :=
  match params_new memory_kib iterations parallelism OUTPUT_BYTES with
  | Some p => Ok {| params := p |}
  | None => Panic
  end.

Definition production : res Argon2id unit := with_cost MEMORY_KIB ITERATIONS PARALLELISM.

(** [Algorithm::Argon2id.ident()] is ["argon2id"] and [Version::V0x13] is 19. *)
Definition is_valid_phc (phc : string) : bool :=
  match phc_new phc with
  | None => false
  | Some parsed =>
      String.eqb (phc_algorithm parsed) "argon2id"
      && bool_decide (phc_version parsed = Some 19)
      && bool_decide (phc_output_len parsed = Some OUTPUT_BYTES)
      && bool_decide (mjoin (phc_salt_len parsed) = Some (Z.of_nat SALT_BYTES))
      && phc_params_ok parsed
  end.

Definition argon2id_hash (self : Argon2id) (secret salt : list Z) : res string unit :=
  let? salt := ok_or (salt_encode_b64 salt) tt in
  ok_or (engine_hash (params self) secret salt) tt.

Definition argon2id_verify (self : Argon2id) (secret : list Z) (phc : string) : res bool unit :=
  if negb (is_valid_phc phc) then Err tt
  else
    let? parsed := ok_or (phc_new phc) tt in
    match engine_verify (params self) secret parsed with
    | Ok _ => Ok true
    | Err true => Ok false
    | Err false => Err tt
    | Panic => Panic
    end.

#[export] Instance argon2id_hasher (self : Argon2id) : Hasher :=
  {| hasher_hash := argon2id_hash self; hasher_verify := argon2id_verify self |}.

(** Nothing is ever compared with a stored string that is not an Argon2id
    v19 hash with the frozen salt and output lengths. *)
Lemma verify_invalid_phc self secret phc :
  is_valid_phc phc = false -> argon2id_verify self secret phc = Err tt.
Proof. intros Hv. unfold argon2id_verify. by rewrite Hv. Qed.
End Argon2id.

(** A concrete (and worthless) hash for the witnesses of other files: the
    "hash" is the secret behind a prefix. *)
Definition toy_argon2 : Argon2Api := {|
  Params := unit;
  PasswordHash := string;
  params_new _ _ _ _ := Some tt;
  phc_new phc := if String.prefix "$argon2id$" phc then Some phc else None;
  phc_algorithm _ := "argon2id";
  phc_version _ := Some 19;
  phc_output_len _ := Some 32;
  phc_salt_len _ := Some (Some 16);
  phc_params_ok _ := true;
  salt_encode_b64 salt := Some (string_of salt);
  engine_hash _ secret _ := Some ("$argon2id$" +:+ string_of secret);
  engine_verify _ secret phc :=
    if String.eqb phc ("$argon2id$" +:+ string_of secret) then Ok tt else Err true
|}.

End Hash.
