(* ===== verification/Store.v ===== *)
(** * The durable authentication state ([authd/src/store.rs])

    The state file, its validation and the temporary-file/rename write, on a
    model of one directory that distinguishes what is visible from what
    survives a crash. *)
From S2P Require Import Prelude Hash.

Module Store.
Import Hash.

(** ** Data *)

(** [enum Persisted] *)
Inductive Persisted :=
  | Unenrolled
  | EnrolledUnconfirmed (password_hash recovery_key_hash : string) (confirmation_deadline : Z)
  | Enrolled (password_hash recovery_key_hash : string).

#[export] Instance persisted_eq_dec : EqDecision Persisted.
Proof. solve_decision. Defined.

(** [struct StateFile], the serde image of the file. *)
Record StateFile := {
  version : Z;
  state : string;
  password_hash : option string;
  recovery_key_hash : option string;
  confirmation_deadline : option Z
}.

Inductive LoadError := Unreadable | Invalid.

(** [enum Step]: the steps of a write, in order. *)
Inductive Step := Create | Write | FileSync | Rename | DirectorySync.

#[export] Instance step_eq_dec : EqDecision Step.
Proof. solve_decision. Defined.

Record WriteFailed := { after_rename : bool }.

Definition FORMAT_VERSION : Z := 1.

(** [serde_json::to_vec] and [serde_json::from_slice] at [StateFile]: what is
    written parses back to the same value. *)
Class StateFileJson := {
  to_vec : StateFile -> option string;
  from_slice : string -> option StateFile;
  from_slice_to_vec : forall f s, to_vec f = Some s -> from_slice s = Some f
}.

(** ** The directory

    A file has contents and a flag saying whether they reached stable storage
    ([sync_all] on the file).  [visible] is what [state.json] names now;
    [durable] is what it named when the directory was last synced, so it is
    what a crash may bring back; [temporary] is [state.json.tmp]. *)
Record Inode := { contents : string; synced : bool }.

Record Disk := {
  visible : option Inode;
  durable : option Inode;
  temporary : option Inode
}.

(** A directory with its past: every state a crash could have hit. *)
Record Fs := { disk : Disk; past : list Disk }.

(** What the operating system does during one write: which steps fail (an
    injected fault or an I/O error), what a failed [write_all] left behind,
    and whether removing the temporary file fails. *)
Record WriteIo := {
  fails : Step -> bool;
  written_on_failure : string;
  cleanup_fails : bool
}.

Definition io := stm Fs unit.

Definition update (f : Disk -> Disk) : io unit :=
  modify (fun fs => {| disk := f (disk fs); past := past fs ++ [disk fs] |}).

Definition set_temporary (t : option Inode) (d : Disk) : Disk :=
  {| visible := visible d; durable := durable d; temporary := t |}.

(** A state whose hashes the loader accepts. *)
Definition all_hashes (valid : string -> bool) (s : Persisted) : bool :=
  match s with
  | Unenrolled => true
  | EnrolledUnconfirmed ph rh _ | Enrolled ph rh => valid ph && valid rh
  end.

Section Operations.
Context `{Argon2Api} `{StateFileJson}.

(** [(self.faults)(step)?], or the system call of that step failing. *)
Definition step_ok (o : WriteIo) (s : Step) : io unit := if fails o s then fail tt else ret tt.

(** [fs::remove_file(&temporary)], its result ignored. *)
Definition discard_temporary (o : WriteIo) : io unit :=
  if cleanup_fails o then ret tt else update (set_temporary None).

(** [Store::write_temporary] *)
Definition write_temporary (o : WriteIo) (bytes : string) : io unit :=
  do! step_ok o Create in
  let! fs := get in
  match temporary (disk fs) with
  | Some _ => fail tt
  | None =>
      do! update (set_temporary (Some {| contents := ""; synced := false |})) in
      if fails o Write then
        do! update (set_temporary (Some {| contents := written_on_failure o; synced := false |})) in
        fail tt
      else
        do! update (set_temporary (Some {| contents := bytes; synced := false |})) in
        do! step_ok o FileSync in
        update (set_temporary (Some {| contents := bytes; synced := true |}))
  end.

(** [fs::rename(&temporary, state.json)] *)
Definition rename_over (o : WriteIo) : io unit :=
  do! step_ok o Rename in
  let! fs := get in
  match temporary (disk fs) with
  | None => fail tt
  | Some t => update (fun d => {| visible := Some t; durable := durable d; temporary := None |})
  end.

Definition sync_directory (o : WriteIo) : io unit :=
  do! step_ok o DirectorySync in
  update (fun d => {| visible := visible d; durable := visible d; temporary := temporary d |}).

Definition state_file (state : Persisted) : StateFile :=
  match state with
  | Unenrolled =>
      {| version := FORMAT_VERSION; state := "unenrolled"; password_hash := None;
         recovery_key_hash := None; confirmation_deadline := None |}
  | EnrolledUnconfirmed ph rh deadline =>
      {| version := FORMAT_VERSION; state := "enrolled_unconfirmed"; password_hash := Some ph;
         recovery_key_hash := Some rh; confirmation_deadline := Some deadline |}
  | Enrolled ph rh =>
      {| version := FORMAT_VERSION; state := "enrolled"; password_hash := Some ph;
         recovery_key_hash := Some rh; confirmation_deadline := None |}
  end.

(** [Store::write] *)
Definition write (o : WriteIo) (state : Persisted) : stm Fs WriteFailed unit :=
  match to_vec (state_file state) with
  | None => fail {| after_rename := false |}
  | Some bytes =>
      let! written := attempt (write_temporary o bytes) in
      if negb (is_ok written) then
        let! _ := attempt (discard_temporary o) in fail {| after_rename := false |}
      else
        let! renamed := attempt (rename_over o) in
        if negb (is_ok renamed) then
          let! _ := attempt (discard_temporary o) in fail {| after_rename := false |}
        else
          let! synced := attempt (sync_directory o) in
          lift (map_err (fun _ => {| after_rename := true |}) synced)
  end.

(** [Store::remove_stale_temporary]; [failing] is an error other than
    [NotFound]. *)
Definition remove_stale_temporary (failing : bool) : io unit :=
  if failing then fail tt else update (set_temporary None).

(** [Option::unwrap] *)
Definition unwrap {A E} (o : option A) : res A E :=
  match o with Some a => Ok a | None => Panic end.

Definition valid_hash (hash : option string) : bool :=
  match hash with Some h => is_valid_phc h | None => false end.

(** The [match] of [Store::load] on the parsed file. *)
Definition persisted_of_file (file : StateFile) : res Persisted LoadError :=
  if negb (version file =? FORMAT_VERSION) then Err Invalid
  else
    let password := password_hash file in
    let recovery := recovery_key_hash file in
    match password, recovery, confirmation_deadline file with
    | None, None, None =>
        if String.eqb (state file) "unenrolled" then Ok Unenrolled else Err Invalid
    | _, _, Some deadline =>
        if String.eqb (state file) "enrolled_unconfirmed"
           && (valid_hash password && valid_hash recovery) then
          let? ph := unwrap password in
          let? rh := unwrap recovery in
          Ok (EnrolledUnconfirmed ph rh deadline)
        else Err Invalid
    | _, _, None =>
        if String.eqb (state file) "enrolled"
           && (valid_hash password && valid_hash recovery) then
          let? ph := unwrap password in
          let? rh := unwrap recovery in
          Ok (Enrolled ph rh)
        else Err Invalid
    end.

(** [Store::load] of what [state.json] names; [failing] is a read error
    other than [NotFound]. *)
Definition load_file (failing : bool) (f : option Inode) : res Persisted LoadError :=
  if failing then Err Unreadable
  else match f with
  | None => Ok Unenrolled
  | Some i =>
      let? file := ok_or (from_slice (contents i)) Invalid in
      persisted_of_file file
  end.

Definition load (failing : bool) (d : Disk) : res Persisted LoadError :=
  load_file failing (visible d).

(** ** Properties *)

Abbreviation storable := (all_hashes is_valid_phc).

Lemma persisted_of_state_file s : storable s = true -> persisted_of_file (state_file s) = Ok s.
Proof.
  destruct s as [|ph rh dl|ph rh]; simpl; intros Hs; try done;
    apply andb_true_iff in Hs as [Hp Hr];
    unfold persisted_of_file; simpl; by rewrite Hp, Hr.
Qed.

Lemma load_file_written s bytes f : storable s = true -> to_vec (state_file s) = Some bytes ->
  load_file false (Some {| contents := bytes; synced := f |}) = Ok s.
Proof.
  intros Hs Hb. simpl. rewrite (from_slice_to_vec _ _ Hb). simpl.
  by apply persisted_of_state_file.
Qed.

Lemma load_accepts failing d :
  load failing d <> Panic /\ forall s, load failing d = Ok s -> storable s = true.
Proof.
  unfold load, load_file. destruct failing; [done|]. destruct (visible d) as [i|].
  2: { split; [done|]. by intros s [= <-]. }
  destruct (from_slice (contents i)) as [[v st ph rh dl]|]; simpl; [|done].
  unfold persisted_of_file. simpl. destruct (negb _); [done|].
  destruct ph as [ph|], rh as [rh|], dl as [dl|]; simpl; repeat case_match; try done;
    repeat match goal with H : _ && _ = true |- _ => apply andb_true_iff in H as [? H] end;
    try done; (split; [done|]; intros s [= <-]; simpl; try done; by apply andb_true_iff).
Qed.


(** The step-by-step result of a write: what is visible and durable at the
    end of each outcome. *)
Definition new_file (bytes : string) : Inode := {| contents := bytes; synced := true |}.

(** A write that fails before the rename leaves both views of [state.json]
    as they were; one that fails after it shows the new file; one that
    succeeds has made it durable. *)
Lemma write_cases o s fs r fs' : write o s fs = (r, fs') ->
  match r with
  | Ok _ => exists bytes, to_vec (state_file s) = Some bytes
      /\ disk fs' = {| visible := Some (new_file bytes); durable := Some (new_file bytes); temporary := None |}
  | Err e =>
      if after_rename e then exists bytes, to_vec (state_file s) = Some bytes
        /\ disk fs' = {| visible := Some (new_file bytes); durable := durable (disk fs); temporary := None |}
      else visible (disk fs') = visible (disk fs) /\ durable (disk fs') = durable (disk fs)
        /\ (cleanup_fails o = false -> to_vec (state_file s) <> None -> temporary (disk fs') = None)
  | Panic => False
  end.
Proof.
  unfold write, attempt, discard_temporary, write_temporary, rename_over, sync_directory,
    step_ok, update, bind, modify, get, ret, fail, lift, new_file.
  destruct fs as [[v dr t] past]. simpl.
  destruct (to_vec (state_file s)) as [bytes|]; intros Hw; simplify_eq/=; [|done].
  repeat (case_match; simplify_eq/=; try done); try (by split_and!); by eexists.
Qed.

(** ** Crashes *)

(** What a crash makes of a directory entry: synced contents survive, other
    contents may be anything. *)
Inductive survives : option Inode -> option Inode -> Prop :=
  | survives_none : survives None None
  | survives_synced c : survives (Some (new_file c)) (Some (new_file c))
  | survives_lost c c' :
      survives (Some {| contents := c; synced := false |}) (Some (new_file c')).

(** The directory after a crash: [state.json] is the last synced entry or
    the visible one, and any temporary file may have been left behind. *)
Inductive crash (d : Disk) : Disk -> Prop :=
  | crash_at f t : survives (durable d) f \/ survives (visible d) f ->
      crash d {| visible := f; durable := f; temporary := t |}.

(** Every [state.json] that could come back was synced before its rename. *)
Definition stable (d : Disk) : Prop :=
  match visible d with Some i => synced i = true | None => True end /\
  match durable d with Some i => synced i = true | None => True end.

Lemma survives_stable i f : match i with Some i => synced i = true | None => True end ->
  survives i f -> f = i.
Proof. intros Hi Hs. inversion Hs; subst; simpl in Hi; congruence. Qed.

(** Every state a write passes through shows and keeps only the old file or
    the complete new one. *)
Lemma write_past o s fs r fs' bytes : write o s fs = (r, fs') ->
  to_vec (state_file s) = Some bytes ->
  exists steps, past fs' = (past fs ++ steps)%list /\
  forall c, c ∈ (steps ++ [disk fs'])%list ->
    (visible c = visible (disk fs) \/ visible c = Some (new_file bytes)) /\
    (durable c = durable (disk fs) \/ durable c = Some (new_file bytes)).
Proof.
  unfold write, attempt, discard_temporary, write_temporary, rename_over, sync_directory,
    step_ok, update, bind, modify, get, ret, fail, lift, new_file.
  destruct fs as [[v dr t] past]. simpl. intros Hw Hv. rewrite Hv in Hw.
  repeat (case_match; simplify_eq/=; try done);
    rewrite <- ?app_assoc; simpl;
    (eexists; split; [first [reflexivity|symmetry; apply app_nil_r]|]);
    intros c Hc; apply list_elem_of_In in Hc; simpl in Hc;
    repeat match goal with H : _ \/ _ |- _ => destruct H end; subst; simpl; auto; done.
Qed.

(** C12. A write is atomic across a crash at any point: whatever the
    operating system refuses, and wherever between two disk operations the
    power fails, the next start loads either a state the directory could
    already have shown or the new one; after a write that reported success
    it is the new one. *)
Theorem write_crash_atomic o s d r fs' c d' :
  storable s = true -> stable d -> is_Some (to_vec (state_file s)) ->
  write o s {| disk := d; past := [] |} = (r, fs') ->
  c ∈ (past fs' ++ [disk fs'])%list -> crash c d' ->
  load false d' ∈ [load_file false (visible d); load_file false (durable d); Ok s] /\
  (r = Ok tt -> c = disk fs' -> load false d' = Ok s).
Proof.
  intros Hs [Hv Hd] [bytes Hb] Hw Hc Hcrash.
  pose proof (load_file_written s bytes true Hs Hb) as Hnew.
  destruct (write_past _ _ _ _ _ _ Hw Hb) as (steps & Hp & Hall). simpl in Hp. subst steps.
  destruct (Hall c Hc) as [Hcv Hcd]. simpl in Hcv, Hcd.
  assert (forall f, survives (durable c) f \/ survives (visible c) f ->
    f = visible d \/ f = durable d \/ f = Some (new_file bytes)) as Hf.
  { intros f [Hsv|Hsv]; destruct Hcv as [Ev|Ev], Hcd as [Ed|Ed]; rewrite ?Ev, ?Ed in Hsv;
      apply survives_stable in Hsv; auto. }
  destruct Hcrash as [f t Hsv]. unfold load. simpl. split.
  - destruct (Hf f Hsv) as [ -> | [ -> | -> ] ]; rewrite ?list_elem_of_In; simpl; auto.
  - intros -> ->. apply write_cases in Hw as (bytes' & Hb' & Hdisk).
    rewrite Hdisk in Hsv. simplify_eq. simpl in Hsv.
    destruct Hsv as [Hsv|Hsv]; apply survives_stable in Hsv; subst; done.
Qed.

(** A write without faults succeeds once no temporary file is in the way,
    which [remove_stale_temporary] ensures at every start. *)
Lemma write_without_faults o s fs : (forall st, fails o st = false) ->
  is_Some (to_vec (state_file s)) -> temporary (disk fs) = None ->
  exists fs', write o s fs = (Ok tt, fs').
Proof.
  intros Hf [bytes Hb] Ht. destruct fs as [[v dr t] past]. simpl in Ht. subst t.
  unfold write, attempt, write_temporary, rename_over, sync_directory,
    step_ok, update, bind, modify, get, ret, lift.
  rewrite Hb. repeat (rewrite Hf; simpl). eauto.
Qed.

Lemma remove_stale_temporary_spec failing fs r fs' :
  remove_stale_temporary failing fs = (r, fs') ->
  visible (disk fs') = visible (disk fs) /\ durable (disk fs') = durable (disk fs)
  /\ (r = Ok tt <-> failing = false)
  /\ (r = Ok tt -> temporary (disk fs') = None).
Proof.
  unfold remove_stale_temporary, update, modify, fail.
  destruct failing; intros Hr; simplify_eq; simpl; done.
Qed.

End Operations.

(** ** The interface the state machine is proved against

    A store of type [D]: its write may do whatever the environment dictates
    at its [n]-th use, but a success makes the state loadable, a failure
    before the rename changes nothing that can be loaded, and a failure after
    it leaves the new state loadable. *)
Class StoreOps (D : Type) := {
  store_remove_stale : nat -> D -> res unit unit * D;
  store_write : nat -> Persisted -> D -> res unit WriteFailed * D;
  store_load : nat -> D -> res Persisted LoadError;
  (** The state a fault-free load returns. *)
  store_view : D -> res Persisted LoadError;
  (** The hashes the loader accepts. *)
  store_valid_hash : string -> bool
}.

Class StoreLaws (D : Type) `{StoreOps D} := {
  write_ok n s d d' : all_hashes store_valid_hash s = true ->
    store_write n s d = (Ok tt, d') -> store_view d' = Ok s;
  write_failed_before n s d d' :
    store_write n s d = (Err {| after_rename := false |}, d') -> store_view d' = store_view d;
  write_failed_after n s d d' : all_hashes store_valid_hash s = true ->
    store_write n s d = (Err {| after_rename := true |}, d') -> store_view d' = Ok s;
  write_never_panics n s d : (store_write n s d).1 <> Panic;
  load_view n d s : store_load n d = Ok s -> store_view d = Ok s;
  load_never_panics n d : store_load n d <> Panic;
  view_accepts d s : store_view d = Ok s -> all_hashes store_valid_hash s = true;
  remove_stale_view n d : store_view (store_remove_stale n d).2 = store_view d;
  remove_stale_never_panics n d : (store_remove_stale n d).1 <> Panic
}.

Section Instance_.
Context `{Argon2Api} `{StateFileJson}.
(** What the system does at the [n]-th store operation. *)
Context (io_at : nat -> WriteIo) (failing_at : nat -> bool).

#[export] Instance disk_store : StoreOps Fs := {|
  store_remove_stale n fs := remove_stale_temporary (failing_at n) fs;
  store_write n s fs := write (io_at n) s fs;
  store_load n fs := load (failing_at n) (disk fs);
  store_view fs := load false (disk fs);
  store_valid_hash := is_valid_phc
|}.

(** The directory implements the store interface: every write outcome
    [Store::write] can report has the meaning the state machine gives it. *)
#[export] Instance disk_store_laws : StoreLaws Fs.
Proof.
  split; simpl.
  - intros n s d d' Hs Hw. apply write_cases in Hw as (bytes & Hb & Hd).
    unfold load. rewrite Hd. by apply load_file_written.
  - intros n s d d' Hw. apply write_cases in Hw as (Hv & _). unfold load. by rewrite Hv.
  - intros n s d d' Hs Hw. apply write_cases in Hw as (bytes & Hb & Hd).
    unfold load. rewrite Hd. by apply load_file_written.
  - intros n s d. destruct (write (io_at n) s d) as [r d'] eqn:Hw.
    apply write_cases in Hw. by destruct r.
  - intros n d s. unfold load. destruct (failing_at n); [done|]. done.
  - intros n d. apply (proj1 (load_accepts _ _)).
  - intros d s Hl. by apply (load_accepts false (disk d)).
  - intros n d. destruct (remove_stale_temporary (failing_at n) d) as [r d'] eqn:Hr.
    apply remove_stale_temporary_spec in Hr as (Hv & _). unfold load. simpl. by rewrite Hv.
  - intros n d. unfold remove_stale_temporary, update, modify, fail. by destruct (failing_at n).
Qed.
End Instance_.

(** ** A concrete serializer, for the witnesses *)

Fixpoint pos_to_string (p : positive) : string :=
  match p with
  | xH => ""
  | xO p => String "0" (pos_to_string p)
  | xI p => String "1" (pos_to_string p)
  end.

Fixpoint pos_of_string (s : string) : positive :=
  match s with
  | EmptyString => xH
  | String "0" s => xO (pos_of_string s)
  | String _ s => xI (pos_of_string s)
  end.

Lemma pos_of_to_string p : pos_of_string (pos_to_string p) = p.
Proof. induction p as [p IH|p IH|]; simpl; by rewrite ?IH. Qed.

Definition tuple_of_file (f : StateFile) :=
  (version f, state f, password_hash f, recovery_key_hash f, confirmation_deadline f).

Definition file_of_tuple (t : Z * string * option string * option string * option Z) : StateFile :=
  let '(v, st, ph, rh, dl) := t in
  {| version := v; state := st; password_hash := ph; recovery_key_hash := rh;
     confirmation_deadline := dl |}.

Lemma binary_round_trip f s : Some (pos_to_string (encode (tuple_of_file f))) = Some s ->
  file_of_tuple <$> decode (pos_of_string s) = Some f.
Proof. intros [= <-]. rewrite pos_of_to_string, decode_encode. by destruct f. Qed.

Definition binary_json : StateFileJson := {|
  to_vec f := Some (pos_to_string (encode (tuple_of_file f)));
  from_slice s := file_of_tuple <$> decode (pos_of_string s);
  from_slice_to_vec := binary_round_trip
|}.

Definition toy_disk : Disk := {| visible := None; durable := None; temporary := None |}.

Definition toy_io : WriteIo :=
  {| fails := fun st => bool_decide (st = DirectorySync); written_on_failure := "{"; cleanup_fails := false |}.

Definition toy_state : Persisted := Enrolled "$argon2id$p" "$argon2id$k".

(** The crash hits between the rename and the directory sync. *)
Definition toy_fs := (@write binary_json toy_io toy_state {| disk := toy_disk; past := [] |}).2.

Lemma write_crash_atomic_witness :
  @load toy_argon2 binary_json false (disk toy_fs) = Ok toy_state /\
  @load toy_argon2 binary_json false toy_disk ∈
    [@load_file toy_argon2 binary_json false None; @load_file toy_argon2 binary_json false None; Ok toy_state].
Proof.
  split; [vm_compute; reflexivity|].
  apply (@write_crash_atomic toy_argon2 binary_json toy_io toy_state toy_disk
    (Err {| after_rename := true |}) toy_fs (disk toy_fs) toy_disk).
  - reflexivity.
  - done.
  - vm_compute. by eexists.
  - vm_compute. reflexivity.
  - vm_compute. apply list_elem_of_In. simpl. auto 10.
  - apply (crash_at _ None None). left. constructor.
Defined.

End Store.
