(* ===== verification/Machine.v ===== *)
(** * The authentication state machine ([authd/src/machine.rs])

    [Core] and its nine operations as computations in the state and error
    monad of [Prelude.v], over the store interface of [Store.v], the hasher
    interface of [Hash.v] and an environment that answers clock and random
    requests in order. *)
From S2P Require Import Prelude Codes Hash Store.

Module Machine.
Import Hash Store.

(** ** Constants *)
Definition PAIRING_LIFETIME : Z := 10 * 60.
Definition CONFIRMATION_WINDOW : Z := 10 * 60.
Definition PAIRING_ATTEMPTS : Z := 5.
Definition PASSWORD_MIN_CODE_POINTS : Z := 12.
Definition PASSWORD_MAX_BYTES : Z := 1024.
Definition CODE_MAX_BYTES : Z := 64.
Definition BACKOFF_THRESHOLD : Z := 5.
Definition BACKOFF_CAP : Z := 15 * 60.

(** [enum Failure] *)
Inductive Failure :=
  | NotEnrolled | EnrollmentUnconfirmed | AlreadyEnrolled | NoPendingPairing
  | InvalidPairingCode | PairingAttemptsExhausted | NoProvisionalEnrollment
  | ConfirmationExpired | InvalidCredential | PasswordRejected | RateLimited
  | Busy | InvalidArgument | Unavailable.

#[export] Instance failure_eq_dec : EqDecision Failure.
Proof. solve_decision. Defined.

(** [enum Scope] *)
Inductive Scope := Password (uid : Z) | Recovery | Confirmation.

#[export] Instance scope_eq_dec : EqDecision Scope.
Proof. solve_decision. Defined.

#[export] Instance scope_countable : Countable Scope.
Proof.
  refine (inj_countable'
    (fun s => match s with Password u => inl u | Recovery => inr false | Confirmation => inr true end)
    (fun x => match x with inl u => Password u | inr false => Recovery | inr true => Confirmation end) _).
  by intros [].
Defined.

Record Counter := { failures : Z; last_failure : Z }.

Record Pairing := {
  code : list Z;
  expires_boot : Z;
  expires_at : Z;
  wrong_attempts : Z
}.

(** The answers of the system to the [n]-th request the daemon makes of it:
    [Clock::wall], [Clock::boot] and [RandomSource::fill] of an [N]-byte
    buffer. *)
Record Env := {
  wall_at : nat -> Z;
  boot_at : nat -> option Z;
  random_at : nat -> nat -> option (list Z)
}.

(** [SystemClock::wall], of the seconds since the Unix epoch, negative when
    the clock is set before it ([duration_since] then fails). *)
Definition system_wall (since_epoch : Z) : Z :=
  default 0 (if since_epoch <? 0 then None else Some since_epoch).

(** [SystemClock::boot], of what [clock_gettime] returned and left in
    [tv_sec]. *)
Definition system_boot (result tv_sec : Z) : option Z :=
  if result =? 0 then (if tv_sec <? 0 then None else Some tv_sec) else None.

Definition constant_time_eq (left right : list Z) : bool :=
  Nat.eqb (List.length left) (List.length right)
  && (foldl (fun difference '(a, b) => Z.lor difference (Z.lxor a b)) 0 (zip left right) =? 0).

Definition deadline_expired (deadline wall : Z) : bool :=
  (deadline <=? wall) || (u64_saturating_add wall CONFIRMATION_WINDOW <? deadline).

Definition backoff_delay (failures : Z) : Z :=
  if failures <? BACKOFF_THRESHOLD then 0
  else
    let exponent := failures - BACKOFF_THRESHOLD in
    if 10 <=? exponent then BACKOFF_CAP
    else Z.min (Z.shiftl 1 exponent) BACKOFF_CAP.

(** [struct Core], with the number of requests made of the system so far in
    place of the clock and random handles. *)
Record Core {D : Type} := {
  store : D;
  persisted : option Persisted;
  pairing : option Pairing;
  expired_provisional : bool;
  backoff : gmap Scope Counter;
  tick : nat
}.
Arguments Core : clear implicits.

Section Operations.
Context {D : Type} `{StoreOps D} `{Hasher} (env : Env).

Definition M := stm (Core D) Failure.

Definition set_store (d : D) (c : Core D) : Core D :=
  {| store := d; persisted := persisted c; pairing := pairing c;
     expired_provisional := expired_provisional c; backoff := backoff c; tick := S (tick c) |}.
Definition set_persisted (p : option Persisted) (c : Core D) : Core D :=
  {| store := store c; persisted := p; pairing := pairing c;
     expired_provisional := expired_provisional c; backoff := backoff c; tick := tick c |}.
Definition set_pairing (p : option Pairing) (c : Core D) : Core D :=
  {| store := store c; persisted := persisted c; pairing := p;
     expired_provisional := expired_provisional c; backoff := backoff c; tick := tick c |}.
Definition set_expired (b : bool) (c : Core D) : Core D :=
  {| store := store c; persisted := persisted c; pairing := pairing c;
     expired_provisional := b; backoff := backoff c; tick := tick c |}.
Definition set_backoff (b : gmap Scope Counter) (c : Core D) : Core D :=
  {| store := store c; persisted := persisted c; pairing := pairing c;
     expired_provisional := expired_provisional c; backoff := b; tick := tick c |}.
Definition next (c : Core D) : Core D :=
  {| store := store c; persisted := persisted c; pairing := pairing c;
     expired_provisional := expired_provisional c; backoff := backoff c; tick := S (tick c) |}.

(** [self.clock.wall()] *)
Definition wall : M Z := fun c => (Ok (wall_at env (tick c)), next c).
(** [self.clock.boot()] *)
Definition boot : M (option Z) := fun c => (Ok (boot_at env (tick c)), next c).

(** [Core::commit] *)
Definition commit (s : Persisted) : M unit := fun c =>
  let (r, d) := store_write (tick c) s (store c) in
  let c := set_store d c in
  match r with
  | Ok _ => (Ok tt, set_persisted (Some s) c)
  | Err failed =>
      (Err Unavailable,
       if after_rename failed then set_pairing None (set_persisted None c) else c)
  | Panic => (Panic, c)
  end.

(** [Core::boot_now] *)
Definition boot_now : M Z :=
  let! b := boot in lift (ok_or b Unavailable).

(** [Core::prepare] *)
Definition prepare : M unit :=
  let! c := get in
  match persisted c with
  | None => fail Unavailable
  | Some persisted =>
      let! boot := boot_now in
      do! match pairing c with
          | Some p => if expires_boot p <=? boot then modify (set_pairing None) else ret tt
          | None => ret tt
          end in
      match persisted with
      | EnrolledUnconfirmed _ _ confirmation_deadline =>
          let! wall := wall in
          if deadline_expired confirmation_deadline wall then
            do! commit Unenrolled in
            modify (set_expired true)
          else ret tt
      | _ => ret tt
      end
  end.

(** [Core::check_backoff] *)
Definition check_backoff (scope : Scope) : M unit :=
  let! c := get in
  match backoff c !! scope with
  | None => ret tt
  | Some counter =>
      let until := u64_saturating_add (last_failure counter) (backoff_delay (failures counter)) in
      let! boot := boot_now in
      if boot <? until then fail RateLimited else ret tt
  end.

(** [Core::record_failure] *)
Definition record_failure (scope : Scope) : M unit :=
  let! boot := boot in
  let! c := get in
  let counter := default {| failures := 0; last_failure := 0 |} (backoff c !! scope) in
  let counted := u32_saturating_add (failures counter) 1 in
  match boot with
  | Some b => modify (set_backoff (<[scope := {| failures := counted; last_failure := b |}]> (backoff c)))
  | None =>
      do! modify (set_backoff
        (<[scope := {| failures := counted; last_failure := last_failure counter |}]> (backoff c))) in
      fail Unavailable
  end.

(** [Core::record_success] *)
Definition record_success (scope : Scope) : M unit :=
  modify (fun c => set_backoff (delete scope (backoff c)) c).

(** [Core::random_bytes::<N>] *)
Definition random_bytes (N : nat) : M (list Z) := fun c =>
  (ok_or (random_at env (tick c) N) Unavailable, next c).

(** [Core::hash] *)
Definition hash (secret : list Z) : M string :=
  let! salt := random_bytes SALT_BYTES in
  lift (map_err (fun _ => Unavailable) (hasher_hash secret salt)).

(** [Core::verify] *)
Definition verify (secret : list Z) (phc : string) : M bool :=
  lift (map_err (fun _ => Unavailable) (hasher_verify secret phc)).

Definition check_password_bound (password : string) : res unit Failure :=
  if PASSWORD_MAX_BYTES <? str_len password then Err InvalidArgument else Ok tt.

(** [Core::parse_recovery_key] *)
Definition parse_recovery_key (input : string) : res (list Z) Failure :=
  if CODE_MAX_BYTES <? str_len input then Err InvalidArgument
  else map_err (fun _ => InvalidArgument) (Codes.parse_recovery_key input).

(** [parsed.as_ref() == Some(expected)] *)
Definition parses_to (parsed : res (list Z) unit) (expected : list Z) : res bool Failure :=
  match parsed with
  | Ok bytes => Ok (bool_decide (bytes = expected))
  | Err _ => Ok false
  | Panic => Panic
  end.

Definition password_equals_key (password : string) (key : list Z) : res bool Failure :=
  parses_to (Codes.parse_recovery_key (str_to_ascii_uppercase password)) key.

Definition check_new_password (password : string) : res unit Failure :=
  if char_count password <? PASSWORD_MIN_CODE_POINTS then Err PasswordRejected else Ok tt.

(** [Core::verify_password] *)
Definition verify_password (sender_uid : Z) (password : string) : M unit :=
  do! prepare in
  do! lift (check_password_bound password) in
  let! c := get in
  let! password_hash :=
    lift match persisted c with
         | Some (Enrolled password_hash _) => Ok password_hash
         | Some (EnrolledUnconfirmed _ _ _) => Err EnrollmentUnconfirmed
         | _ => Err NotEnrolled
         end in
  let scope := Password sender_uid in
  do! check_backoff scope in
  let! matches := verify (bytes_of password) password_hash in
  if matches : bool then record_success scope
  else
    do! record_failure scope in
    fail InvalidCredential.

(** [Core::consume_pairing] *)
Definition consume_pairing (pairing_code new_password : string) : M string :=
  do! prepare in
  do! lift (check_password_bound new_password) in
  do! lift (if CODE_MAX_BYTES <? str_len pairing_code then Err InvalidArgument else Ok tt) in
  let! submitted := lift (map_err (fun _ => InvalidArgument) (Codes.parse_pairing_code pairing_code)) in
  let! c := get in
  do! lift match persisted c with
           | Some (Enrolled _ _) => Err AlreadyEnrolled
           | Some (EnrolledUnconfirmed _ _ _) => Err EnrollmentUnconfirmed
           | _ => Ok tt
           end in
  let! pairing := lift (ok_or (pairing c) NoPendingPairing) in
  if negb (constant_time_eq submitted (code pairing)) then
    let counted := {| code := code pairing; expires_boot := expires_boot pairing;
                      expires_at := expires_at pairing;
                      wrong_attempts := wrap 8 (wrong_attempts pairing + 1) |} in
    do! modify (set_pairing (Some counted)) in
    if PAIRING_ATTEMPTS <=? wrong_attempts counted then
      do! modify (set_pairing None) in
      fail PairingAttemptsExhausted
    else fail InvalidPairingCode
  else
    let code := code pairing in
    do! lift (check_new_password new_password) in
    let! is_code := lift (parses_to (Codes.parse_pairing_code new_password) code) in
    do! lift (if is_code : bool then Err PasswordRejected else Ok tt) in
    let! key := random_bytes Codes.RECOVERY_KEY_BYTES in
    let! is_key := lift (password_equals_key new_password key) in
    do! lift (if is_key : bool then Err PasswordRejected else Ok tt) in
    let! encoded_key := lift (map_err (fun _ => Unavailable) (Codes.encode_recovery_key key)) in
    let! password_hash := hash (bytes_of new_password) in
    let! recovery_key_hash := hash (bytes_of encoded_key) in
    let! now := wall in
    let confirmation_deadline := u64_add now CONFIRMATION_WINDOW in
    do! commit (EnrolledUnconfirmed password_hash recovery_key_hash confirmation_deadline) in
    do! modify (set_pairing None) in
    do! modify (set_expired false) in
    ret encoded_key.

Definition is_unconfirmed (p : option Persisted) : bool :=
  match p with Some (EnrolledUnconfirmed _ _ _) => true | _ => false end.

(** [Core::confirm_recovery_key] *)
Definition confirm_recovery_key (recovery_key : string) : M unit :=
  do! prepare in
  do! lift (parse_recovery_key recovery_key) in
  let! c := get in
  let! hashes :=
    lift match persisted c with
         | Some (EnrolledUnconfirmed password_hash recovery_key_hash _) =>
             Ok (password_hash, recovery_key_hash)
         | _ => if expired_provisional c then Err ConfirmationExpired
                else Err NoProvisionalEnrollment
         end in
  let (password_hash, recovery_key_hash) := hashes : string * string in
  do! check_backoff Confirmation in
  let! matches := verify (bytes_of recovery_key) recovery_key_hash in
  do! prepare in
  let! c := get in
  if expired_provisional c && negb (is_unconfirmed (persisted c)) then fail ConfirmationExpired
  else if negb matches then
    do! record_failure Confirmation in
    fail InvalidCredential
  else
    do! commit (Enrolled password_hash recovery_key_hash) in
    record_success Confirmation.

(** [Core::recover_password] *)
Definition recover_password (recovery_key new_password : string) : M unit :=
  do! prepare in
  let! key := lift (parse_recovery_key recovery_key) in
  do! lift (check_password_bound new_password) in
  let! c := get in
  let! recovery_key_hash :=
    lift match persisted c with
         | Some (Enrolled _ recovery_key_hash) => Ok recovery_key_hash
         | Some (EnrolledUnconfirmed _ _ _) => Err EnrollmentUnconfirmed
         | _ => Err NotEnrolled
         end in
  do! check_backoff Recovery in
  let! matches := verify (bytes_of recovery_key) recovery_key_hash in
  if negb matches then
    do! record_failure Recovery in
    fail InvalidCredential
  else
    do! record_success Recovery in
    do! lift (check_new_password new_password) in
    let! is_key := lift (password_equals_key new_password key) in
    do! lift (if is_key : bool then Err PasswordRejected else Ok tt) in
    let! password_hash := hash (bytes_of new_password) in
    commit (Enrolled password_hash recovery_key_hash).

(** [Core::ensure_pending_pairing] *)
Definition ensure_pending_pairing : M unit :=
  do! prepare in
  let! c := get in
  if negb (bool_decide (persisted c = Some Unenrolled))
     || (match pairing c with Some _ => true | None => false end)
  then ret tt
  else
    let! now := boot_now in
    let expires_boot := u64_add now PAIRING_LIFETIME in
    let! code := random_bytes Codes.PAIRING_CODE_BYTES in
    let! wall := wall in
    do! modify (set_pairing (Some {| code := code; expires_boot := expires_boot;
                                     expires_at := u64_add wall PAIRING_LIFETIME;
                                     wrong_attempts := 0 |})) in
    modify (set_expired false).

(** [Core::cancel_pending_pairing] *)
Definition cancel_pending_pairing : M unit :=
  do! prepare in
  modify (set_pairing None).

(** [Core::reset_enrollment] *)
Definition reset_enrollment : M unit :=
  do! commit Unenrolled in
  do! modify (set_pairing None) in
  do! modify (set_expired false) in
  modify (set_backoff ∅).

(** [Core::get_pending_pairing] *)
Definition get_pending_pairing : M (bool * string * Z) :=
  do! prepare in
  let! c := get in
  match pairing c with
  | Some pairing =>
      let! text := lift (map_err (fun _ => Unavailable) (Codes.encode_pairing_code (code pairing))) in
      ret (true, text, expires_at pairing)
  | None => ret (false, ""%string, 0)
  end.

(** [Core::get_enrollment_state] *)
Definition get_enrollment_state : M (bool * bool) :=
  do! prepare in
  let! c := get in
  ret (match persisted c with Some (Enrolled _ _) => true | _ => false end,
       match pairing c with Some _ => true | None => false end).

(** [Core::open] *)
Definition open (d : D) : Core D :=
  let (removed, d) := store_remove_stale 0 d in
  let persisted :=
    match removed with
    | Ok _ => match store_load 1 d with Ok p => Some p | _ => None end
    | _ => None
    end in
  (prepare {| store := d; persisted := persisted; pairing := None;
              expired_provisional := false; backoff := ∅; tick := 2 |}).2.
End Operations.

End Machine.
