(* ===== verification/MachineFacts.v ===== *)
(** * Facts about the authentication state machine

    The hypotheses on its environment, its invariant, the equivalence of
    states that differ only in bookkeeping, and one outcome lemma per
    building block.  The operations themselves are in [Machine.v]; their
    properties are in [MachineSpec.v]. *)
From S2P Require Import Prelude Codes Hash Store Machine.

Module MachineFacts.
Import Hash Store Machine.

(** ** What the daemon relies on *)

(** The hasher: its hashes pass the loader's check and verify, and it returns
    rather than panics. *)
Class HasherLaws `{Hasher} (valid : string -> bool) := {
  hash_valid secret salt h : hasher_hash secret salt = Ok h -> valid h = true;
  hash_verifies secret salt h : hasher_hash secret salt = Ok h -> hasher_verify secret h = Ok true;
  hash_no_panic secret salt : hasher_hash secret salt <> Panic;
  verify_no_panic secret phc : hasher_verify secret phc <> Panic
}.

(** The clocks and the random source: [u64] seconds, [CLOCK_BOOTTIME] from a
    non-negative [i64], and whole buffers of bytes. *)
Class EnvLaws (env : Env) := {
  wall_range n : 0 <= wall_at env n < 2 ^ 64;
  boot_range n b : boot_at env n = Some b -> 0 <= b < 2 ^ 63;
  random_bytes_of n N bytes : random_at env n N = Some bytes ->
    List.length bytes = N /\ Forall is_byte bytes
}.

(** The system clocks satisfy these ranges, for seconds in an [i64]. *)
Lemma system_wall_range s : s < 2 ^ 63 -> 0 <= system_wall s < 2 ^ 64.
Proof. unfold system_wall. intros Hs. destruct (Z.ltb_spec s 0); simpl; lia. Qed.

Lemma system_boot_range r s b : s < 2 ^ 63 -> system_boot r s = Some b -> 0 <= b < 2 ^ 63.
Proof. unfold system_boot. intros Hs Hb. repeat case_match; simplify_eq; bool_hyps; lia. Qed.

Definition xor_into (difference : Z) (ab : Z * Z) : Z :=
  let '(a, b) := ab in Z.lor difference (Z.lxor a b).

Lemma xor_fold_zero l : forall r acc, 0 <= acc -> Forall is_byte l -> Forall is_byte r ->
  List.length l = List.length r -> foldl xor_into acc (zip l r) = 0 <-> acc = 0 /\ l = r.
Proof.
  unfold is_byte. induction l as [|a l IH]; intros [|b r] acc Hacc Hl Hr Hlen; try done.
  - simpl. split; [done|]. by intros [-> _].
  - apply Forall_cons in Hl as [Ha Hl]. apply Forall_cons in Hr as [Hb Hr].
    simpl. rewrite IH; [|apply Z.lor_nonneg; split; [done|]; apply Z.lxor_nonneg; lia|done..|simpl in Hlen; lia].
    rewrite Z.lor_eq_0_iff, Z.lxor_eq_0_iff. split; [by intros [[-> ->] ->]|by intros [-> [= -> ->]]].
Qed.

(** The constant-time comparison decides equality of byte strings. *)
Lemma constant_time_eq_spec left right : Forall is_byte left -> Forall is_byte right ->
  constant_time_eq left right = bool_decide (left = right).
Proof.
  intros Hl Hr. unfold constant_time_eq.
  destruct (Nat.eqb_spec (List.length left) (List.length right)) as [Hlen|Hlen]; simpl.
  - pose proof (xor_fold_zero left right 0 ltac:(lia) Hl Hr Hlen) as Hf. unfold xor_into in Hf.
    apply Bool.eq_iff_eq_true. rewrite Z.eqb_eq, bool_decide_eq_true, Hf. split; [by intros [_ ?]|done].
  - symmetry. apply bool_decide_eq_false. by intros ->.
Qed.

Create HintDb quiet discriminated.

Section Facts.
Context {D : Type} `{StoreLaws D} `{HR : Hasher} (env : Env).
Context {HL : HasherLaws store_valid_hash} {EL : EnvLaws env}.

Implicit Types c : Core D.

(** ** States up to bookkeeping

    Two states are equivalent when they agree on everything but the backoff
    counters, the number of requests made, and parts of the store that
    cannot be loaded. *)
#[export] Instance core_equiv : Equiv (Core D) := fun c c' =>
  store_view (store c) = store_view (store c') /\ persisted c = persisted c'
  /\ pairing c = pairing c' /\ expired_provisional c = expired_provisional c'.

#[export] Instance core_equivalence : Equivalence (≡@{Core D}).
Proof.
  split.
  - by intros c.
  - by intros c c' (?&?&?&?).
  - intros c c' c'' (?&?&?&?) (?&?&?&?). repeat split; congruence.
Qed.

(** ** The invariant *)
Record wf (c : Core D) : Prop := {
  (** What is in memory is what would be loaded. *)
  wf_view p : persisted c = Some p -> store_view (store c) = Ok p;
  (** A pairing exists only while nobody is enrolled, with attempts left. *)
  wf_pairing q : pairing c = Some q ->
    persisted c = Some Unenrolled /\ 0 <= wrong_attempts q < PAIRING_ATTEMPTS
    /\ List.length (code q) = Codes.PAIRING_CODE_BYTES /\ Forall is_byte (code q)
    /\ expired_provisional c = false;
  (** The expiry record is only ever set while nobody is enrolled. *)
  wf_expired p : expired_provisional c = true -> persisted c = Some p -> p = Unenrolled
}.

#[export] Instance wf_proper : Proper ((≡) ==> iff) wf.
Proof.
  intros c c' (Hv & Hp & Hq & He). split; intros [W1 W2 W3]; split.
  all: rewrite <- ?Hv, <- ?Hp, <- ?Hq, <- ?He || rewrite ?Hv, ?Hp, ?Hq, ?He; done.
Qed.

(** ** The abstract state *)
Inductive Auth :=
  | AInvalid
  | AUnenrolled (expired : bool)
  | APending (code : list Z) (wrong : Z)
  | AUnconfirmed (password_hash recovery_key_hash : string) (deadline : Z)
  | AEnrolled (password_hash recovery_key_hash : string).

Definition auth c : Auth :=
  match persisted c with
  | None => AInvalid
  | Some Unenrolled => 
      match pairing c with
      | Some q => APending (code q) (wrong_attempts q)
      | None => AUnenrolled (expired_provisional c)
      end
  | Some (EnrolledUnconfirmed ph rh dl) => AUnconfirmed ph rh dl
  | Some (Enrolled ph rh) => AEnrolled ph rh
  end.

#[export] Instance auth_proper : Proper ((≡) ==> (=)) auth.
Proof. intros c c' (Hv & Hp & Hq & He). unfold auth. by rewrite Hp, Hq, He. Qed.

Lemma next_equiv c : next c ≡ c.
Proof. done. Qed.

Lemma set_backoff_equiv b c : set_backoff b c ≡ c.
Proof. done. Qed.

(** ** Bookkeeping actions keep the state up to equivalence *)
Definition quiet {A} (m : M (D:=D) A) : Prop :=
  forall c, (m c).2 ≡ c /\ (m c).1 <> Panic.

Lemma quiet_bind {A B} (m : M A) (k : A -> M B) :
  quiet m -> (forall a, quiet (k a)) -> quiet (bind m k).
Proof.
  intros Hm Hk c. unfold bind. specialize (Hm c). destruct (m c) as [[a|e|] c']; simpl in *.
  - destruct Hm as [He _]. destruct (Hk a c') as [He' ?]. split; [by etrans|done].
  - split; [by destruct Hm|done].
  - by destruct Hm.
Qed.

Lemma quiet_ret {A} (a : A) : quiet (ret a).
Proof. done. Qed.
Lemma quiet_fail {A} e : quiet (fail (A:=A) e).
Proof. done. Qed.
Lemma quiet_lift {A} (r : res A Failure) : r <> Panic -> quiet (lift r).
Proof. done. Qed.
Lemma quiet_get : quiet get.
Proof. done. Qed.
Lemma quiet_wall : quiet (wall env).
Proof. done. Qed.
Lemma quiet_boot : quiet (boot env).
Proof. done. Qed.
Lemma quiet_backoff f : quiet (modify (fun c => set_backoff (f c) c)).
Proof. done. Qed.
Hint Resolve quiet_bind quiet_ret quiet_fail quiet_lift quiet_get quiet_wall quiet_boot
  quiet_backoff map_err_no_panic ok_or_no_panic : quiet.

Lemma quiet_boot_now : quiet (boot_now env).
Proof. unfold boot_now. auto with quiet. Qed.
Lemma quiet_random_bytes N : quiet (random_bytes env N).
Proof. intros c. simpl. split; [done|]. apply ok_or_no_panic. Qed.
Hint Resolve quiet_boot_now quiet_random_bytes : quiet.
Lemma quiet_hash secret : quiet (hash env secret).
Proof.
  unfold hash. apply quiet_bind; [auto with quiet|]. intros salt.
  apply quiet_lift, map_err_no_panic, hash_no_panic.
Qed.
Lemma quiet_verify secret phc : quiet (verify secret phc).
Proof. apply quiet_lift, map_err_no_panic, verify_no_panic. Qed.
Lemma quiet_check_backoff scope : quiet (check_backoff env scope).
Proof.
  unfold check_backoff. apply quiet_bind; [apply quiet_get|]. intros c.
  destruct (backoff c !! scope); [|auto with quiet].
  apply quiet_bind; [auto with quiet|]. intros b. case_match; auto with quiet.
Qed.
Lemma quiet_record_failure scope : quiet (record_failure env scope).
Proof.
  unfold record_failure. apply quiet_bind; [auto with quiet|]. intros b c.
  unfold bind, get, modify, fail. simpl. by destruct b.
Qed.
Lemma quiet_record_success scope : quiet (record_success (D:=D) scope).
Proof. unfold record_success. auto with quiet. Qed.

(** A quiet action found in a hypothesis. *)
Lemma quiet_run {A} (m : M A) c r c' : quiet m -> m c = (r, c') -> c' ≡ c /\ r <> Panic.
Proof. intros Hq Hm. specialize (Hq c). by rewrite Hm in Hq. Qed.

(** ** Commits *)

(** What a commit of [s] can leave: the new state; the old one, when the
    write failed before its rename; or no usable state, after it. *)
Inductive commit_outcome (s : Persisted) c : res unit Failure -> Core D -> Prop :=
  | commit_done c' : store_view (store c') = Ok s -> persisted c' = Some s ->
      pairing c' = pairing c -> expired_provisional c' = expired_provisional c ->
      commit_outcome s c (Ok tt) c'
  | commit_refused c' : c' ≡ c -> commit_outcome s c (Err Unavailable) c'
  | commit_uncertain c' : persisted c' = None -> pairing c' = None ->
      expired_provisional c' = expired_provisional c ->
      commit_outcome s c (Err Unavailable) c'.

Lemma commit_run s c r c' : all_hashes store_valid_hash s = true ->
  commit s c = (r, c') -> commit_outcome s c r c' /\ backoff c' = backoff c.
Proof.
  intros Hs. unfold commit. destruct (store_write (tick c) s (store c)) as [w d'] eqn:Hw.
  destruct w as [u|[[]]|]; intros Hc; simplify_eq; (split; [|done]).
  - destruct u. constructor; try done. simpl. by eapply write_ok.
  - by apply commit_uncertain.
  - apply commit_refused. split; [|done]. simpl. by eapply write_failed_before.
  - pose proof (write_never_panics (tick c) s (store c)) as Hp. by rewrite Hw in Hp.
Qed.

(** ** Normalization *)

(** What [prepare] may do to the abstract state: drop an expired pairing or
    an expired provisional enrollment, or lose track of the state when the
    cleanup's write failed after its rename. *)
Inductive norm : Auth -> Auth -> Prop :=
  | norm_same a : norm a a
  | norm_pairing code n : norm (APending code n) (AUnenrolled false)
  | norm_deadline ph rh dl : norm (AUnconfirmed ph rh dl) (AUnenrolled true)
  | norm_lost ph rh dl : norm (AUnconfirmed ph rh dl) AInvalid.

(** What the operations that follow a successful [prepare] can rely on. *)
Record ready c c' : Prop := {
  ready_boot : exists b, boot_at env (tick c) = Some b /\
    (forall q, pairing c' = Some q -> pairing c = Some q /\ b < expires_boot q);
  ready_persisted : is_Some (persisted c');
  ready_deadline ph rh dl : persisted c' = Some (EnrolledUnconfirmed ph rh dl) ->
    deadline_expired dl (wall_at env (S (tick c))) = false /\ (S (tick c) < tick c')%nat
}.

(** The possible outcomes of [prepare]. *)
Definition prepared c (r : res unit Failure) c' : Prop :=
  wf c' /\ backoff c' = backoff c /\ norm (auth c) (auth c') /\
  ((r = Ok tt /\ ready c c') \/ r = Err Unavailable).

Lemma wf_no_pairing c : wf c -> persisted c <> Some Unenrolled -> pairing c = None.
Proof. intros W Hne. destruct (pairing c) as [q|] eqn:E; [|done]. by apply (wf_pairing c W) in E as [? _]. Qed.

Lemma drop_pairing_wf c : wf c -> wf (set_pairing None c).
Proof. intros [W1 W2 W3]. by split. Qed.

(** [prepare] in a state without a provisional enrollment. *)
Lemma prepare_settled c p : persisted c = Some p -> is_unconfirmed (persisted c) = false ->
  prepare env c =
    match boot_at env (tick c) with
    | None => (Err Unavailable, next c)
    | Some b =>
        (Ok tt, match pairing c with
                | Some q => if expires_boot q <=? b then set_pairing None (next c) else next c
                | None => next c
                end)
    end.
Proof.
  intros Hp Hu. unfold prepare. unfold bind at 1, get. rewrite Hp in Hu |- *.
  unfold boot_now, boot, bind, lift, modify, ret. simpl.
  destruct (boot_at env (tick c)) as [b|]; simpl; [|done].
  destruct (pairing c) as [q|]; [destruct (expires_boot q <=? b)|]; by destruct p.
Qed.

(** [prepare] over a provisional enrollment. *)
Lemma prepare_unconfirmed c ph rh dl :
  persisted c = Some (EnrolledUnconfirmed ph rh dl) -> pairing c = None ->
  prepare env c =
    match boot_at env (tick c) with
    | None => (Err Unavailable, next c)
    | Some b =>
        if deadline_expired dl (wall_at env (S (tick c))) then
          (let! _ := commit Unenrolled in modify (set_expired true)) (next (next c))
        else (Ok tt, next (next c))
    end.
Proof.
  intros Hp Hq. unfold prepare, boot_now, boot, wall. unfold bind at 1, get. rewrite Hp, Hq.
  unfold bind, lift, ret. simpl. destruct (boot_at env (tick c)) as [b|]; simpl; [|done].
  by destruct (deadline_expired dl _).
Qed.

Lemma prepared_refused c c' : wf c -> c' ≡ c -> backoff c' = backoff c ->
  prepared c (Err Unavailable) c'.
Proof.
  intros W He Hb. split_and!; auto; [by rewrite He|].
  rewrite (auth_proper _ _ He). apply norm_same.
Qed.

Lemma prepare_run_unconfirmed c ph rh dl r c' : wf c ->
  persisted c = Some (EnrolledUnconfirmed ph rh dl) -> prepare env c = (r, c') -> prepared c r c'.
Proof.
  intros W Hp Hrun. assert (pairing c = None) as Hq by (apply wf_no_pairing; congruence).
  rewrite (prepare_unconfirmed c ph rh dl) in Hrun by done.
  destruct (boot_at env (tick c)) as [b|] eqn:Hb; simplify_eq; [|by apply prepared_refused].
  destruct (deadline_expired dl (wall_at env (S (tick c)))) eqn:Hd.
  - inv_bind Hrun. apply commit_run in Hm as [Hm Hbo]; [|done].
    inversion Hm as [c2 Hv Hp2 Hq2 He2|c2 Heq|c2 Hp2 Hq2 He2]; subst; simplify_eq/=.
    + unfold modify in Hrun. simplify_eq/=. unfold prepared, auth. simpl. rewrite Hp, Hp2, Hq2. simpl. rewrite Hq.
      split_and!; [|done|constructor|].
      * split; simpl; rewrite ?Hp2, ?Hq2, ?Hv; simpl; rewrite ?Hq; [by intros ? [= <-]|done|by intros ? _ [= <-]].
      * left. split; [done|]. split; simpl; rewrite ?Hp2; [|by eexists|done].
        exists b. split; [done|]. rewrite Hq2. simpl. by rewrite Hq.
    + destruct Hrun as [-> ->]. by apply prepared_refused.
    + destruct Hrun as [-> ->]. split_and!; auto.
      * split; rewrite ?Hp2, ?Hq2; done.
      * unfold auth. rewrite Hp, Hp2. constructor.
  - simplify_eq. split_and!; auto; [by rewrite (next_equiv (next c)), (next_equiv c)|apply norm_same|].
    left. split; [done|]. split; simpl; rewrite ?Hp; [|by eexists|].
    + exists b. split; [done|]. by rewrite Hq.
    + intros ??? [= -> -> ->]. split; [done|lia].
Qed.

Lemma prepare_run_settled c p r c' : wf c -> persisted c = Some p ->
  is_unconfirmed (persisted c) = false -> prepare env c = (r, c') -> prepared c r c'.
Proof.
  intros W Hp Hu Hrun. rewrite (prepare_settled c p) in Hrun by done.
  destruct (boot_at env (tick c)) as [b|] eqn:Hb; simplify_eq; [|by apply prepared_refused].
  assert (forall c', persisted c' = persisted c ->
    (forall q, pairing c' = Some q -> pairing c = Some q /\ b < expires_boot q) -> ready c c') as Hready.
  { intros c' Hp' Hq'. split; rewrite ?Hp'; auto.
    - exists b. auto.
    - intros ph rh dl Hc. rewrite Hp in Hu, Hc. by simplify_eq. }
  destruct (pairing c) as [q|] eqn:Hq; [destruct (Z.leb_spec (expires_boot q) b)|].
  - split_and!; auto; [by apply drop_pairing_wf; rewrite (next_equiv c)| |left; by split; [|apply Hready]].
    destruct (wf_pairing c W q Hq) as (Hp' & _ & _ & _ & Hex). unfold auth. simpl.
    rewrite Hp', Hq, Hex. constructor.
  - split_and!; auto; [by rewrite (next_equiv c)|apply norm_same|]. left. split; [done|].
    apply Hready; try done. simpl. rewrite Hq. by intros ? [= <-].
  - split_and!; auto; [by rewrite (next_equiv c)|apply norm_same|]. left. split; [done|].
    apply Hready; try done. simpl. by rewrite Hq.
Qed.

Lemma prepare_run c r c' : wf c -> prepare env c = (r, c') -> prepared c r c'.
Proof.
  intros W Hrun. destruct (persisted c) as [p|] eqn:Hp.
  - destruct (is_unconfirmed (persisted c)) eqn:Hu.
    + destruct p; rewrite Hp in Hu; try done. by eapply prepare_run_unconfirmed.
    + by eapply prepare_run_settled.
  - unfold prepare, bind, get in Hrun. rewrite Hp in Hrun. unfold fail in Hrun.
    simplify_eq. by apply prepared_refused.
Qed.

Lemma norm_trans a1 a2 a3 : norm a1 a2 -> norm a2 a3 -> norm a1 a3.
Proof. intros Hab Hbc. destruct Hab; inversion Hbc; subst; constructor. Qed.

End Facts.
End MachineFacts.
