(* ===== verification/MachineSpec.v ===== *)
(** * What the authentication state machine promises

    The documented state machine of [docs/authd-interface-0.0.3.md] as an
    abstract transition system with its table of refusals, and the
    theorems that the operations of [Machine.v] implement it. *)
From S2P Require Import Prelude Codes Hash Store Machine MachineFacts.

Module MachineSpec.
Import Hash Store Machine MachineFacts.

(** ** Operations and replies *)
Inductive Op :=
  | VerifyPassword (sender_uid : Z) (password : string)
  | ConsumePairing (pairing_code new_password : string)
  | ConfirmRecoveryKey (recovery_key : string)
  | RecoverPassword (recovery_key new_password : string)
  | EnsurePendingPairing
  | CancelPendingPairing
  | ResetEnrollment
  | GetPendingPairing
  | GetEnrollmentState.

Inductive Reply :=
  | Done
  | RecoveryKey (key : string)
  | PendingPairing (pending : bool) (text : string) (expires_at : Z)
  | EnrollmentState (enrolled pending : bool).

Definition replying {S E A B} (f : A -> B) (m : stm S E A) : stm S E B := fun s =>
  let (r, s') := m s in (map_ok f r, s').

Lemma replying_inv {S E A B} (f : A -> B) (m : stm S E A) s r s' :
  replying f m s = (r, s') -> exists r0, m s = (r0, s') /\ r = map_ok f r0.
Proof. unfold replying. destruct (m s) as [r0 s0]. intros. simplify_eq. eauto. Qed.

Definition done (_ : unit) : Reply := Done.

Definition run_op {D} `{StoreOps D} `{Hasher} (env : Env) (op : Op) : M (D:=D) Reply :=
  match op with
  | VerifyPassword uid pw => replying done (verify_password env uid pw)
  | ConsumePairing text pw => replying RecoveryKey (consume_pairing env text pw)
  | ConfirmRecoveryKey k => replying done (confirm_recovery_key env k)
  | RecoverPassword k pw => replying done (recover_password env k pw)
  | EnsurePendingPairing => replying done (ensure_pending_pairing env)
  | CancelPendingPairing => replying done (cancel_pending_pairing env)
  | ResetEnrollment => replying done reset_enrollment
  | GetPendingPairing =>
      replying (fun '(p, text, at_) => PendingPairing p text at_) (get_pending_pairing env)
  | GetEnrollmentState => replying (fun '(e, p) => EnrollmentState e p) (get_enrollment_state env)
  end.

(** ** The abstract machine *)
Section Spec.
Context `{Hasher}.

(** A password the machine refuses to set, for reasons of its own. *)
Definition too_short (pw : string) : Prop := char_count pw < PASSWORD_MIN_CODE_POINTS.
Definition is_a_key (pw : string) (key : list Z) : Prop :=
  Codes.parse_recovery_key (str_to_ascii_uppercase pw) = Ok key.

Definition bad_key (k : string) : Prop :=
  CODE_MAX_BYTES < str_len k \/ Codes.parse_recovery_key k = Err tt.

(** The arguments an operation refuses as malformed. *)
Definition malformed (op : Op) : Prop :=
  match op with
  | VerifyPassword _ pw => PASSWORD_MAX_BYTES < str_len pw
  | ConsumePairing text pw =>
      PASSWORD_MAX_BYTES < str_len pw \/ CODE_MAX_BYTES < str_len text
      \/ Codes.parse_pairing_code text = Err tt
  | ConfirmRecoveryKey k => bad_key k
  | RecoverPassword k pw => bad_key k \/ PASSWORD_MAX_BYTES < str_len pw
  | _ => False
  end.

(** The credential an operation checks in a state, the hash it checks it
    against. *)
Definition credential (op : Op) (a : Auth) : option (string * string) :=
  match op, a with
  | VerifyPassword _ pw, AEnrolled ph _ => Some (pw, ph)
  | RecoverPassword k _, AEnrolled _ rh => Some (k, rh)
  | ConfirmRecoveryKey k, AUnconfirmed _ rh _ => Some (k, rh)
  | _, _ => None
  end.

(** The answer to a well-formed call in a state that does not admit it. *)
Definition wrong_state (op : Op) (a : Auth) : option Failure :=
  match op, a with
  | VerifyPassword _ _, (AUnenrolled _ | APending _ _) => Some NotEnrolled
  | RecoverPassword _ _, (AUnenrolled _ | APending _ _) => Some NotEnrolled
  | (VerifyPassword _ _ | RecoverPassword _ _ | ConsumePairing _ _), AUnconfirmed _ _ _ =>
      Some EnrollmentUnconfirmed
  | ConsumePairing _ _, AEnrolled _ _ => Some AlreadyEnrolled
  | ConsumePairing _ _, AUnenrolled _ => Some NoPendingPairing
  | ConfirmRecoveryKey _, AUnenrolled true => Some ConfirmationExpired
  | ConfirmRecoveryKey _, (AUnenrolled false | APending _ _ | AEnrolled _ _) =>
      Some NoProvisionalEnrollment
  | _, _ => None
  end.

Inductive refusal : Op -> Auth -> Failure -> Prop :=
  | refuse_unavailable op a : refusal op a Unavailable
  | refuse_argument op a : a <> AInvalid -> malformed op -> refusal op a InvalidArgument
  | refuse_state op a e : ~ malformed op -> wrong_state op a = Some e -> refusal op a e
  | refuse_rate op a secret h : ~ malformed op ->
      credential op a = Some (secret, h) -> refusal op a RateLimited
  | refuse_credential op a secret h : ~ malformed op -> credential op a = Some (secret, h) ->
      hasher_verify (bytes_of secret) h = Ok false -> refusal op a InvalidCredential
  | refuse_new_password text pw code n :
      Codes.parse_pairing_code text = Ok code ->
      too_short pw \/ Codes.parse_pairing_code pw = Ok code \/ (exists key, is_a_key pw key) ->
      refusal (ConsumePairing text pw) (APending code n) PasswordRejected
  | refuse_recovery_password k pw ph rh key :
      hasher_verify (bytes_of k) rh = Ok true -> Codes.parse_recovery_key k = Ok key ->
      too_short pw \/ is_a_key pw key ->
      refusal (RecoverPassword k pw) (AEnrolled ph rh) PasswordRejected.

(** [h] is a hash of [secret] under some salt. *)
Definition hash_of (secret h : string) : Prop :=
  exists salt, hasher_hash (bytes_of secret) salt = Ok h.

Definition enrolled (a : Auth) : bool := match a with AEnrolled _ _ => true | _ => false end.
Definition pending (a : Auth) : option (list Z) :=
  match a with APending code _ => Some code | _ => None end.

(** The operations that write the state file, and the states in which they do. *)
Definition committing (op : Op) (a : Auth) : Prop :=
  match op, a with
  | ResetEnrollment, _ | ConsumePairing _ _, APending _ _
  | ConfirmRecoveryKey _, AUnconfirmed _ _ _ | RecoverPassword _ _, AEnrolled _ _ => True
  | _, _ => False
  end.

(** One operation on a normalized state. *)
Inductive effect : Op -> Auth -> res Reply Failure -> Auth -> Prop :=
  | eff_refused op a e : refusal op a e -> effect op a (Err e) a
  | eff_lost op a : committing op a -> effect op a (Err Unavailable) AInvalid
  | eff_verified uid pw ph rh : hasher_verify (bytes_of pw) ph = Ok true ->
      effect (VerifyPassword uid pw) (AEnrolled ph rh) (Ok Done) (AEnrolled ph rh)
  | eff_wrong_code text pw submitted code n :
      Codes.parse_pairing_code text = Ok submitted -> submitted <> code ->
      n + 1 < PAIRING_ATTEMPTS ->
      effect (ConsumePairing text pw) (APending code n) (Err InvalidPairingCode) (APending code (n + 1))
  | eff_exhausted text pw submitted code n :
      Codes.parse_pairing_code text = Ok submitted -> submitted <> code ->
      n + 1 = PAIRING_ATTEMPTS ->
      effect (ConsumePairing text pw) (APending code n) (Err PairingAttemptsExhausted) (AUnenrolled false)
  | eff_consumed text pw code n key encoded ph rh dl :
      Codes.parse_pairing_code text = Ok code ->
      ~ too_short pw -> Codes.parse_pairing_code pw <> Ok code -> ~ is_a_key pw key ->
      Codes.encode_recovery_key key = Ok encoded -> hash_of pw ph -> hash_of encoded rh ->
      effect (ConsumePairing text pw) (APending code n) (Ok (RecoveryKey encoded)) (AUnconfirmed ph rh dl)
  | eff_confirmed k ph rh dl : hasher_verify (bytes_of k) rh = Ok true ->
      effect (ConfirmRecoveryKey k) (AUnconfirmed ph rh dl) (Ok Done) (AEnrolled ph rh)
  | eff_recovered k pw key ph rh ph' : hasher_verify (bytes_of k) rh = Ok true ->
      Codes.parse_recovery_key k = Ok key -> ~ too_short pw -> ~ is_a_key pw key -> hash_of pw ph' ->
      effect (RecoverPassword k pw) (AEnrolled ph rh) (Ok Done) (AEnrolled ph' rh)
  | eff_paired expired code : List.length code = Codes.PAIRING_CODE_BYTES ->
      effect EnsurePendingPairing (AUnenrolled expired) (Ok Done) (APending code 0)
  | eff_already a : a <> AInvalid -> (forall expired, a <> AUnenrolled expired) ->
      effect EnsurePendingPairing a (Ok Done) a
  | eff_cancelled code n : effect CancelPendingPairing (APending code n) (Ok Done) (AUnenrolled false)
  | eff_nothing a : a <> AInvalid -> pending a = None -> effect CancelPendingPairing a (Ok Done) a
  | eff_reset a : effect ResetEnrollment a (Ok Done) (AUnenrolled false)
  | eff_pairing code n text expires : Codes.encode_pairing_code code = Ok text ->
      effect GetPendingPairing (APending code n) (Ok (PendingPairing true text expires)) (APending code n)
  | eff_no_pairing a : a <> AInvalid -> pending a = None ->
      effect GetPendingPairing a (Ok (PendingPairing false "" 0)) a
  | eff_state a : a <> AInvalid ->
      effect GetEnrollmentState a
        (Ok (EnrollmentState (enrolled a) (bool_decide (is_Some (pending a))))) a.
End Spec.

(** ** The operations implement it *)

Section Refinement.
Context {D : Type} `{StoreLaws D} `{HR : Hasher} (env : Env).
Context {HL : HasherLaws store_valid_hash} {EL : EnvLaws env}.

Implicit Types c : Core D.

(** [c1] is a well-formed normalization of [c], with a known state. *)
Definition settled c c1 : Prop :=
  wf c1 /\ norm (auth c) (auth c1) /\ is_Some (persisted c1).

(** What a run of [op] from [c] to [c'] with the result [r] must satisfy. *)
Definition refines (op : Op) c (r : res Reply Failure) c' : Prop :=
  wf c' /\ r <> Panic /\ exists a, norm (auth c) a /\ effect op a r (auth c').

Lemma settled_equiv c c1 c2 : settled c c1 -> c2 ≡ c1 -> settled c c2.
Proof.
  intros (W & Hn & Hp) He. pose proof He as (_ & Hpe & _). unfold settled.
  rewrite (auth_proper _ _ He), Hpe. by rewrite He.
Qed.

Lemma settled_known c c1 : settled c c1 -> auth c1 <> AInvalid.
Proof.
  intros (W & _ & p & Hp). unfold auth. rewrite Hp. destruct p; [by destruct (pairing c1)|done..].
Qed.

Lemma refines_stay op c c1 c2 r : settled c c1 -> c2 ≡ c1 -> r <> Panic ->
  effect op (auth c1) r (auth c1) -> refines op c r c2.
Proof.
  intros Hs Hc Hr He. apply (settled_equiv c c1 c2 Hs) in Hc as Hs2. destruct Hs2 as (W & Hn & _).
  split_and!; [done..|]. exists (auth c2). split; [done|]. by rewrite (auth_proper _ _ Hc).
Qed.

Lemma refines_refused op c c1 c2 e : settled c c1 -> c2 ≡ c1 ->
  refusal op (auth c1) e -> refines op c (Err e) c2.
Proof. intros. eapply refines_stay; try done. by constructor. Qed.

(** The first step of every operation but the reset. *)
Lemma prepare_first op {A} (k : unit -> M A) (f : A -> Reply) c r c' : wf c ->
  replying f (bind (prepare env) k) c = (r, c') ->
  (forall c1 r0, settled c c1 -> ready env c c1 -> k tt c1 = (r0, c') -> refines op c (map_ok f r0) c') ->
  refines op c r c'.
Proof.
  intros W Hrun Hk. apply replying_inv in Hrun as (r0 & Hrun & ->). inv_bind Hrun.
  apply prepare_run in Hm as (W1 & _ & Hn & [[-> Hr]| ->]); [| |done].
  - apply (Hk c0); [|done..]. split_and!; [done..|]. by apply Hr.
  - destruct Hrun as [-> ->]. split_and!; [done..|]. exists (auth c0). split; [done|].
    constructor. constructor.
Qed.
(** Runs the [prepare] an operation starts with. *)
Ltac start_op W Hrun :=
  eapply prepare_first; [exact W|exact Hrun|]; clear Hrun;
  match goal with |- forall c1 r0, _ => intros c1 r0 Hs Hr Hrun end; cbv beta in Hrun.

(** Reads the abstract state off the persisted one. *)
Ltac read_state Hp := unfold auth; rewrite Hp; simpl.

(** Splits on the innermost scrutinees of the goal. *)
Ltac split_goal :=
  repeat match goal with
  | |- context [match ?x with _ => _ end] =>
      lazymatch x with context [match _ with _ => _ end] => fail | _ => destruct x end
  end.

(** Closes the refusal of an operation in the state [Hp] describes. *)
Ltac refuse_here Hs Hp :=
  simplify_eq/=; eapply (refines_refused _ _ _ _ _ Hs); [done|];
  apply refuse_state; [simpl; unfold bad_key; first [lia|tauto|intuition (congruence || lia)]|];
  read_state Hp; split_goal; done.

Ltac refuse_argument_here Hs :=
  simplify_eq/=; eapply (refines_refused _ _ _ _ _ Hs); [done|];
  apply refuse_argument; [by eapply settled_known|simpl; unfold bad_key; auto].

(** What follows once the state admits the credential check: the rate
    limit, the hash and the record of a failure. *)
Lemma credential_run op secret h scope c c1 (k : bool -> M unit) r c' :
  settled c c1 -> ~ malformed op -> credential op (auth c1) = Some (secret, h) ->
  (do! check_backoff env scope in let! matches := verify (bytes_of secret) h in k matches) c1 = (r, c') ->
  (forall c2 b, c2 ≡ c1 -> (tick c1 <= tick c2)%nat -> hasher_verify (bytes_of secret) h = Ok b ->
    k b c2 = (r, c') -> refines op c (map_ok done r) c') ->
  refines op c (map_ok done r) c'.
Proof.
  intros Hs Hm Hc Hrun Hk. inv_bind Hrun.
  assert ((r0 = Ok tt \/ r0 = Err RateLimited \/ r0 = Err Unavailable) /\ (tick c1 <= tick c0)%nat) as [Hr0 Ht].
  { unfold check_backoff in Hm0. rewrite bind_get in Hm0. destruct (backoff c1 !! scope); [|unfold ret in Hm0; by simplify_eq/=; auto].
    unfold boot_now, boot, bind, lift, ret, fail in Hm0. simpl in Hm0.
    destruct (boot_at env (tick c1)) as [b|]; simpl in Hm0; [destruct (b <? _)|]; simplify_eq/=; (split; [by auto|lia]). }
  apply quiet_run in Hm0 as [He _]; [|apply quiet_check_backoff].
  destruct Hr0 as [->|[->| ->]]; [|destruct Hrun as [-> ->]; eapply refines_refused; [done..|]..].
  - inv_bind Hrun. unfold verify, lift in Hm0. simplify_eq.
    destruct (hasher_verify (bytes_of secret) h) as [b|e|] eqn:Hv; simpl in Hrun.
    + by eapply Hk.
    + destruct Hrun as [-> ->]. eapply refines_refused; [done..|]. constructor.
    + by destruct (verify_no_panic (bytes_of secret) h).
  - by eapply refuse_rate.
  - constructor.
Qed.

Lemma failure_run op secret h scope c c1 r c' : settled c c1 -> ~ malformed op ->
  credential op (auth c1) = Some (secret, h) -> hasher_verify (bytes_of secret) h = Ok false ->
  (do! record_failure env scope in fail (A:=unit) InvalidCredential) c1 = (r, c') ->
  refines op c (map_ok done r) c'.
Proof.
  intros Hs Hm Hc Hv Hrun. inv_bind Hrun.
  assert (r0 = Ok tt \/ r0 = Err Unavailable) as Hr0.
  { unfold record_failure, bind, boot, get, modify, fail in Hm0. simpl in Hm0.
    destruct (boot_at env (tick c1)); simplify_eq/=; auto. }
  apply quiet_run in Hm0 as [He _]; [|apply quiet_record_failure].
  destruct Hr0 as [->| ->].
  - unfold fail in Hrun. simplify_eq. eapply refines_refused; [done..|]. by eapply refuse_credential.
  - destruct Hrun as [-> ->]. eapply refines_refused; [done..|]. constructor.
Qed.

Lemma refines_verify uid pw c r c' : wf c ->
  run_op env (VerifyPassword uid pw) c = (r, c') -> refines (VerifyPassword uid pw) c r c'.
Proof.
  intros W Hrun. start_op W Hrun.
  rewrite bind_lift in Hrun. unfold check_password_bound in Hrun.
  destruct (Z.ltb_spec PASSWORD_MAX_BYTES (str_len pw)) as [Hlen|Hlen]; [by refuse_argument_here Hs|].
  rewrite bind_get, bind_lift in Hrun.
  destruct (persisted c1) as [[|ph rh dl|ph rh]|] eqn:Hp; [by refuse_here Hs Hp..| |].
  - eapply (credential_run _ pw ph) in Hrun; [exact Hrun|done|simpl; lia|by read_state Hp|].
    intros c2 b He _ Hv Hk. apply (settled_equiv _ _ _ Hs) in He as Hs2. destruct b.
    + apply quiet_run in Hk as Hq; [|apply quiet_record_success].
      unfold record_success, modify in Hk. simplify_eq/=. eapply refines_stay; [exact Hs|by etrans; [apply Hq|]|done|].
      read_state Hp. by constructor.
    + eapply (failure_run _ pw ph) in Hk; [exact Hk|done|simpl; lia| |done].
      rewrite (auth_proper _ _ He). by read_state Hp.
  - destruct Hs as (_ & _ & q & Hq). congruence.
Qed.
(** ** Building blocks of the committing operations *)

Lemma random_run N c r c' : random_bytes env N c = (r, c') -> c' ≡ c /\
  (r = Err Unavailable \/ exists bytes, r = Ok bytes /\ List.length bytes = N /\ Forall is_byte bytes).
Proof using EL.
  unfold random_bytes. intros Hr. simplify_eq. split; [done|].
  destruct (random_at env (tick c) N) as [bytes|] eqn:E; simpl; [right|by left].
  apply random_bytes_of in E. eauto.
Qed.

Lemma hash_run secret c r c' : hash env (bytes_of secret) c = (r, c') -> c' ≡ c /\
  (r = Err Unavailable \/ exists h, r = Ok h /\ hash_of secret h /\ store_valid_hash h = true).
Proof.
  intros Hr. split; [apply quiet_run in Hr as [? _]; [done|exact (quiet_hash env _)]|].
  unfold hash in Hr. inv_bind Hr. destruct (random_run _ _ _ _ Hm) as [_ [->|(salt & -> & _)]].
  { destruct Hr as [-> _]. by left. }
  unfold lift in Hr. simplify_eq. destruct (hasher_hash (bytes_of secret) salt) as [h| |] eqn:Hh; simpl; [right|by left|].
  - exists h. split_and!; [done|by exists salt|by eapply hash_valid].
  - by destruct (hash_no_panic (bytes_of secret) salt).
Qed.

Lemma parses_to_spec parsed expected : parsed <> Panic ->
  exists b, parses_to parsed expected = Ok b /\ (b = true <-> parsed = Ok expected).
Proof.
  destruct parsed as [bytes|e|]; intros Hp; [| |done]; eexists; (split; [done|]).
  - rewrite bool_decide_eq_true. split; [by intros ->|by intros [= ->]].
  - done.
Qed.

(** The outcomes of a commit, for the refinement. *)
Lemma commit_refines op s c c1 r c' : wf c1 -> norm (auth c) (auth c1) ->
  committing op (auth c1) -> all_hashes store_valid_hash s = true -> commit s c1 = (r, c') ->
  (r = Ok tt /\ store_view (store c') = Ok s /\ persisted c' = Some s /\ pairing c' = pairing c1
    /\ expired_provisional c' = expired_provisional c1)
  \/ (r = Err Unavailable /\ refines op c (Err Unavailable) c').
Proof.
  intros W Hn Hc Hs Hrun. apply commit_run in Hrun as [Ho _]; [|done].
  inversion Ho as [c2 Hv Hp Hq He|c2 He|c2 Hp Hq He]; subst.
  - by left.
  - right. split; [done|]. split_and!; [by rewrite He|done|]. exists (auth c1). split; [done|].
    rewrite (auth_proper _ _ He). constructor. constructor.
  - right. split; [done|]. split_and!; [split; rewrite ?Hp, ?Hq; done|done|].
    exists (auth c1). split; [done|]. unfold auth at 2. rewrite Hp. by constructor.
Qed.

(** A run of a step that can only refuse as unavailable. *)
Ltac unavailable Hs Hrun :=
  destruct Hrun as [-> ->]; eapply (refines_refused _ _ _ _ _ Hs); [done|constructor].

Lemma settled_pending c c1 q : settled c c1 -> persisted c1 = Some Unenrolled -> pairing c1 = Some q ->
  auth c1 = APending (code q) (wrong_attempts q) /\ 0 <= wrong_attempts q < PAIRING_ATTEMPTS
  /\ Forall is_byte (code q) /\ List.length (code q) = Codes.PAIRING_CODE_BYTES
  /\ expired_provisional c1 = false.
Proof.
  intros (W & _) Hp Hq. destruct (wf_pairing c1 W q Hq) as (_ & Hw & Hl & Hb & He).
  unfold auth. by rewrite Hp, Hq.
Qed.

(** The submitted code differs: the attempt is counted. *)
Lemma wrong_code_run text pw submitted c c1 q r c' : settled c c1 ->
  persisted c1 = Some Unenrolled -> pairing c1 = Some q ->
  Codes.parse_pairing_code text = Ok submitted -> submitted <> code q ->
  (let counted := {| code := code q; expires_boot := expires_boot q; expires_at := expires_at q;
                     wrong_attempts := wrap 8 (wrong_attempts q + 1) |} in
   do! modify (set_pairing (Some counted)) in
   if PAIRING_ATTEMPTS <=? wrong_attempts counted then
     do! modify (set_pairing None) in fail (A:=string) PairingAttemptsExhausted
   else fail InvalidPairingCode) c1 = (r, c') ->
  refines (ConsumePairing text pw) c (map_ok RecoveryKey r) c'.
Proof.
  intros Hs Hp Hq Hparse Hne Hrun. pose proof Hs as ([W1 W2 W3] & Hn & _).
  destruct (settled_pending c c1 q Hs Hp Hq) as (Ha & Hw & Hb & Hl & He).
  cbv zeta in Hrun. rewrite bind_modify in Hrun. simpl in Hrun.
  unfold wrap in Hrun. unfold PAIRING_ATTEMPTS in *. rewrite Z.mod_small in Hrun by lia.
  destruct (Z.leb_spec 5 (wrong_attempts q + 1)) as [H5|H5].
  - rewrite bind_modify in Hrun. unfold fail in Hrun. simplify_eq/=. split_and!; [by split|done|].
    exists (auth c1). split; [done|]. rewrite Ha. unfold auth. simpl. rewrite Hp, He.
    eapply eff_exhausted; [done..|]. unfold PAIRING_ATTEMPTS. lia.
  - unfold fail in Hrun. simplify_eq/=. split_and!; [split; simpl; try done|done|].
    + intros ? [= <-]. simpl. unfold PAIRING_ATTEMPTS. split_and!; auto; lia.
    + exists (auth c1). split; [done|]. rewrite Ha. unfold auth. simpl. rewrite Hp. simpl.
      eapply eff_wrong_code; [done..|]. unfold PAIRING_ATTEMPTS. lia.
Qed.
Ltac rejected_password Hs Ha :=
  simplify_eq/=; eapply (refines_refused _ _ _ _ _ Hs); [done|]; rewrite Ha;
  eapply refuse_new_password; [done|auto].

Lemma check_new_password_spec pw :
  check_new_password pw = Err PasswordRejected /\ too_short pw \/ check_new_password pw = Ok tt /\ ~ too_short pw.
Proof. unfold check_new_password, too_short. case_match eqn:E; bool_hyps; [left|right]; (split; [done|lia]). Qed.

(** The enrollment that follows the right code. *)
Lemma enroll_run text pw c c1 q r c' key encoded : settled c c1 ->
  persisted c1 = Some Unenrolled -> pairing c1 = Some q ->
  Codes.parse_pairing_code text = Ok (code q) -> ~ too_short pw ->
  Codes.parse_pairing_code pw <> Ok (code q) -> ~ is_a_key pw key ->
  Codes.encode_recovery_key key = Ok encoded ->
  (let! password_hash := hash env (bytes_of pw) in
   let! recovery_key_hash := hash env (bytes_of encoded) in
   let! now := wall env in
   let confirmation_deadline := u64_add now CONFIRMATION_WINDOW in
   do! commit (EnrolledUnconfirmed password_hash recovery_key_hash confirmation_deadline) in
   do! modify (set_pairing None) in
   do! modify (set_expired false) in
   ret encoded) c1 = (r, c') ->
  refines (ConsumePairing text pw) c (map_ok RecoveryKey r) c'.
Proof.
  intros Hs Hp Hq Hparse Hshort Hcode Hkey Henc Hrun.
  destruct (settled_pending c c1 q Hs Hp Hq) as (Ha & _).
  inv_bind Hrun. apply hash_run in Hm as [He1 [->|(ph & -> & Hph & Vph)]].
  { destruct Hrun as [-> ->]. eapply refines_refused; [exact Hs|done|constructor]. }
  inv_bind Hrun. apply hash_run in Hm as [He2 [->|(rh & -> & Hrh & Vrh)]].
  { destruct Hrun as [-> ->]. eapply refines_refused; [exact Hs|by etrans|constructor]. }
  inv_bind Hrun. unfold wall in Hm. simplify_eq. cbv zeta in Hrun.
  assert (settled c (next c2)) as Hs2.
  { apply (settled_equiv c c1); [done|]. etrans; [apply next_equiv|]. by etrans. }
  assert (auth (next c2) = APending (code q) (wrong_attempts q)) as Ha2.
  { rewrite <- Ha. apply auth_proper. etrans; [apply next_equiv|]. by etrans. }
  inv_bind Hrun. eapply (commit_refines (ConsumePairing text pw) _ c) in Hm
    as [(-> & Hv & Hp3 & Hq3 & He3)|[-> Href]]; [| |by apply Hs2..|by rewrite Ha2|simpl; by rewrite Vph, Vrh].
  - rewrite !bind_modify in Hrun. unfold ret in Hrun. simplify_eq/=. split_and!; [|done|].
    + split; simpl; rewrite ?Hp3; [by intros ? [= <-]|done|done].
    + exists (auth (next c2)). split; [by apply Hs2|]. rewrite Ha2. unfold auth. simpl. rewrite Hp3.
      by eapply eff_consumed.
  - by destruct Hrun as [-> ->].
Qed.

(** The submitted code is the pending one. *)
Lemma right_code_run text pw c c1 q r c' : settled c c1 ->
  persisted c1 = Some Unenrolled -> pairing c1 = Some q ->
  Codes.parse_pairing_code text = Ok (code q) ->
  (do! lift (check_new_password pw) in
   let! is_code := lift (parses_to (Codes.parse_pairing_code pw) (code q)) in
   do! lift (if is_code : bool then Err PasswordRejected else Ok tt) in
   let! key := random_bytes env Codes.RECOVERY_KEY_BYTES in
   let! is_key := lift (password_equals_key pw key) in
   do! lift (if is_key : bool then Err PasswordRejected else Ok tt) in
   let! encoded_key := lift (map_err (fun _ => Unavailable) (Codes.encode_recovery_key key)) in
   let! password_hash := hash env (bytes_of pw) in
   let! recovery_key_hash := hash env (bytes_of encoded_key) in
   let! now := wall env in
   let confirmation_deadline := u64_add now CONFIRMATION_WINDOW in
   do! commit (EnrolledUnconfirmed password_hash recovery_key_hash confirmation_deadline) in
   do! modify (set_pairing None) in
   do! modify (set_expired false) in
   ret encoded_key) c1 = (r, c') ->
  refines (ConsumePairing text pw) c (map_ok RecoveryKey r) c'.
Proof.
  intros Hs Hp Hq Hparse Hrun. destruct (settled_pending c c1 q Hs Hp Hq) as (Ha & _).
  rewrite bind_lift in Hrun.
  destruct (check_new_password_spec pw) as [[Hnew Hshort]|[Hnew Hshort]]; rewrite Hnew in Hrun;
    [by rejected_password Hs Ha|].
  rewrite bind_lift in Hrun.
  destruct (parses_to_spec _ (code q) (Codes.parse_pairing_code_no_panic pw)) as (b & Hb & Hcode).
  rewrite Hb, bind_lift in Hrun. destruct b.
  { apply proj1 in Hcode. specialize (Hcode eq_refl). by rejected_password Hs Ha. }
  inv_bind Hrun. destruct (random_run _ _ _ _ Hm) as [He [->|(key & -> & Hl & Hkey)]].
  { unavailable Hs Hrun. }
  rewrite bind_lift in Hrun. unfold password_equals_key in Hrun.
  destruct (parses_to_spec _ key (Codes.parse_recovery_key_no_panic (str_to_ascii_uppercase pw))) as (b & Hb2 & Hk).
  rewrite Hb2, bind_lift in Hrun. destruct b.
  { simplify_eq. eapply refines_refused; [exact Hs|done|]. rewrite Ha. eapply refuse_new_password; [done|].
    right. right. exists key. by apply Hk. }
  rewrite bind_lift in Hrun. destruct (Codes.encode_recovery_key_ok key Hkey) as [encoded Henc].
  rewrite Henc in Hrun. cbn [map_err] in Hrun.
  pose proof He as (_ & Hpe & Hqe & _).
  eapply (enroll_run text pw c c0 q _ _ key encoded) in Hrun; try done.
  - by eapply settled_equiv.
  - congruence.
  - congruence.
  - intros Hc. by apply Hcode in Hc.
  - intros Hc. by apply Hk in Hc.
Qed.
Lemma refines_consume text pw c r c' : wf c ->
  run_op env (ConsumePairing text pw) c = (r, c') -> refines (ConsumePairing text pw) c r c'.
Proof.
  intros W Hrun. start_op W Hrun. rewrite bind_lift in Hrun. unfold check_password_bound in Hrun.
  destruct (Z.ltb_spec PASSWORD_MAX_BYTES (str_len pw)) as [Hlen|Hlen]; [by refuse_argument_here Hs|].
  rewrite bind_lift in Hrun.
  destruct (Z.ltb_spec CODE_MAX_BYTES (str_len text)) as [Hcode|Hcode]; [by refuse_argument_here Hs|].
  rewrite bind_lift in Hrun. destruct (Codes.parse_pairing_code text) as [submitted|[]|] eqn:Hparse; simpl in Hrun;
    [|by refuse_argument_here Hs|by destruct (Codes.parse_pairing_code_no_panic text)].
  assert (~ malformed (ConsumePairing text pw)) as Hwell.
  { simpl. rewrite Hparse. intros [?|[?|?]]; [lia|lia|done]. }
  rewrite bind_get, bind_lift in Hrun.
  destruct (persisted c1) as [[|ph rh dl|ph rh]|] eqn:Hp.
  2,3: simplify_eq/=; eapply (refines_refused _ _ _ _ _ Hs); [done|]; apply refuse_state; [done|by read_state Hp].
  2: { destruct Hs as (_ & _ & q & Hq). congruence. }
  rewrite bind_lift in Hrun. destruct (pairing c1) as [q|] eqn:Hq; simpl in Hrun.
  2: { simplify_eq/=; eapply (refines_refused _ _ _ _ _ Hs); [done|]; apply refuse_state; [done|].
       read_state Hp. by rewrite Hq. }
  destruct (settled_pending c c1 q Hs Hp Hq) as (Ha & _ & Hb & _).
  rewrite constant_time_eq_spec in Hrun; [|by eapply Codes.parse_pairing_code_bytes|done].
  destruct (decide (submitted = code q)) as [->|Hne].
  - rewrite bool_decide_eq_true_2 in Hrun by done. by eapply right_code_run.
  - rewrite bool_decide_eq_false_2 in Hrun by done. by eapply wrong_code_run.
Qed.

(** The finalization that follows a matching recovery key. *)
Lemma finalize_run k ph rh dl c c1 r c' : settled c c1 ->
  persisted c1 = Some (EnrolledUnconfirmed ph rh dl) -> hasher_verify (bytes_of k) rh = Ok true ->
  (do! commit (Enrolled ph rh) in record_success Confirmation) c1 = (r, c') ->
  refines (ConfirmRecoveryKey k) c (map_ok done r) c'.
Proof.
  intros Hs Hp Hv Hrun. assert (auth c1 = AUnconfirmed ph rh dl) as Ha by by read_state Hp.
  inv_bind Hrun. pose proof Hs as ([W1 W2 W3] & Hn & _).
  assert (all_hashes store_valid_hash (Enrolled ph rh) = true) as Hh.
  { exact (view_accepts _ _ (W1 _ Hp)). }
  eapply (commit_refines (ConfirmRecoveryKey k) _ c) in Hm
    as [(-> & Hvw & Hp3 & Hq3 & He3)|[-> Href]]; [| |by apply Hs|done|by rewrite Ha|done].
  - unfold record_success, modify in Hrun. simplify_eq/=. split_and!; [|done|].
    + assert (pairing c1 = None) as Hq by (apply wf_no_pairing; [by split|congruence]).
      split; simpl; rewrite ?Hp3, ?Hq3, ?Hq, ?He3; [by intros ? [= <-]|done|].
      intros p Hx _. by apply (W3 (EnrolledUnconfirmed ph rh dl)) in Hx.
    + exists (auth c1). split; [done|]. rewrite Ha. unfold auth. simpl. rewrite Hp3. by constructor.
  - by destruct Hrun as [-> ->].
Qed.

(** The second normalization: the provisional enrollment is still there, or
    its expiry was recorded, or the step is refused. *)
Lemma prepare_again c c1 c2 r2 c3 ph rh dl : settled c c1 ->
  persisted c1 = Some (EnrolledUnconfirmed ph rh dl) -> c2 ≡ c1 -> prepare env c2 = (r2, c3) ->
  (r2 = Err Unavailable /\ wf c3 /\ norm (auth c) (auth c3))
  \/ r2 = Ok tt /\ settled c c3 /\ ready env c2 c3 /\
     (persisted c3 = Some (EnrolledUnconfirmed ph rh dl) /\ expired_provisional c3 = false
      \/ persisted c3 = Some Unenrolled /\ pairing c3 = None /\ expired_provisional c3 = true).
Proof.
  intros Hs Hp He Hrun. apply (settled_equiv c) in He as Hs2; [|done]. destruct Hs2 as (W2 & Hn2 & _).
  apply prepare_run in Hrun as (W3 & _ & Hn & [[-> Hr]| ->]); [| |done].
  2: { left. split_and!; [done..|]. by eapply norm_trans. }
  right. split_and!; [done|split_and!; [done|by eapply norm_trans|by apply Hr]|done|].
  destruct (ready_persisted _ _ _ Hr) as [p Hp3].
  assert (auth c2 = AUnconfirmed ph rh dl) as Ha2.
  { destruct He as (_ & Hpe & _). unfold auth. by rewrite Hpe, Hp. }
  rewrite Ha2 in Hn. unfold auth in Hn. rewrite Hp3 in Hn. destruct p as [|ph' rh' dl'|].
  - right. destruct (pairing c3); inversion Hn; subst. auto.
  - left. inversion Hn; subst. split; [done|]. destruct (expired_provisional c3) eqn:Hx; [|done].
    by apply (wf_expired c3 W3 _ Hx) in Hp3.
  - inversion Hn.
Qed.

Lemma parse_key_spec k : (exists key, parse_recovery_key k = Ok key /\ Codes.parse_recovery_key k = Ok key /\ ~ bad_key k)
  \/ parse_recovery_key k = Err InvalidArgument /\ bad_key k.
Proof.
  unfold parse_recovery_key, bad_key.
  destruct (Z.ltb_spec CODE_MAX_BYTES (str_len k)); [by right; split; [|left]|].
  destruct (Codes.parse_recovery_key k) as [key|[]|] eqn:E; simpl.
  - left. exists key. split_and!; [done..|]. intros [?|?]; [lia|done].
  - right. split; [done|by right].
  - by destruct (Codes.parse_recovery_key_no_panic k).
Qed.
(** What follows the verification of a recovery key being confirmed. *)
Lemma confirm_checked k ph rh dl matches c c1 c2 r c' : settled c c1 ->
  persisted c1 = Some (EnrolledUnconfirmed ph rh dl) -> ~ malformed (ConfirmRecoveryKey k) ->
  c2 ≡ c1 -> hasher_verify (bytes_of k) rh = Ok matches ->
  (do! prepare env in
   let! c := get in
   if expired_provisional c && negb (is_unconfirmed (persisted c)) then fail ConfirmationExpired
   else if negb matches then do! record_failure env Confirmation in fail InvalidCredential
   else do! commit (Enrolled ph rh) in record_success Confirmation) c2 = (r, c') ->
  refines (ConfirmRecoveryKey k) c (map_ok done r) c'.
Proof.
  intros Hs Hp Hwell He Hv Hrun. inv_bind Hrun.
  destruct (prepare_again _ _ _ _ _ _ _ _ Hs Hp He Hm)
    as [(-> & W3 & Hn)|(-> & Hs3 & _ & [[Hp3 Hx]|(Hp3 & Hq3 & Hx)])].
  - destruct Hrun as [-> ->]. split_and!; [done..|]. exists (auth c0). split; [done|]. constructor. constructor.
  - rewrite bind_get, Hx in Hrun. destruct matches; simpl in Hrun.
    + by eapply finalize_run.
    + eapply (failure_run (ConfirmRecoveryKey k) k rh); [done|done| |done|done]. by read_state Hp3.
  - rewrite bind_get, Hx, Hp3 in Hrun. simpl in Hrun. unfold fail in Hrun. simplify_eq/=. eapply refines_refused; [exact Hs3|done|].
    apply refuse_state; [done|]. read_state Hp3. by rewrite Hq3, Hx.
Qed.

Lemma refines_confirm k c r c' : wf c ->
  run_op env (ConfirmRecoveryKey k) c = (r, c') -> refines (ConfirmRecoveryKey k) c r c'.
Proof.
  intros W Hrun. start_op W Hrun. rewrite bind_lift in Hrun.
  destruct (parse_key_spec k) as [(key & Hk & Hkey & Hwell)|[Hk Hbad]]; rewrite Hk in Hrun;
    [|by refuse_argument_here Hs].
  rewrite bind_get, bind_lift in Hrun.
  destruct (persisted c1) as [[|ph rh dl|ph rh]|] eqn:Hp.
  - destruct (expired_provisional c1) eqn:Hx; simplify_eq/=;
      (eapply (refines_refused _ _ _ _ _ Hs); [done|]; apply refuse_state; [done|]);
      read_state Hp; rewrite ?Hx; [|by split_goal].
    destruct (pairing _) as [q|] eqn:Hq; [|done].
    destruct Hs as (W1 & _). apply (wf_pairing _ W1) in Hq as (_ & _ & _ & _ & Hf). congruence.
  - eapply (credential_run (ConfirmRecoveryKey k) k rh) in Hrun; [exact Hrun|done|done|by read_state Hp|].
    intros c2 b He _ Hv Hk2. by eapply confirm_checked.
  - assert (expired_provisional c1 = false) as Hx.
    { destruct Hs as (W1 & _). destruct (expired_provisional c1) eqn:Hx; [|done]. by apply (wf_expired _ W1 _ Hx) in Hp. }
    rewrite Hx in Hrun. simplify_eq/=.
    eapply (refines_refused _ _ _ _ _ Hs); [done|]. apply refuse_state; [done|]. by read_state Hp.
  - destruct Hs as (_ & _ & q & Hq). congruence.
Qed.

(** What follows the verification of a recovery key used to set a password. *)
Lemma recover_checked k pw key ph rh c c1 r c' : settled c c1 ->
  persisted c1 = Some (Enrolled ph rh) -> Codes.parse_recovery_key k = Ok key ->
  hasher_verify (bytes_of k) rh = Ok true ->
  (do! record_success Recovery in
   do! lift (check_new_password pw) in
   let! is_key := lift (password_equals_key pw key) in
   do! lift (if is_key : bool then Err PasswordRejected else Ok tt) in
   let! password_hash := hash env (bytes_of pw) in
   commit (Enrolled password_hash rh)) c1 = (r, c') ->
  refines (RecoverPassword k pw) c (map_ok done r) c'.
Proof.
  intros Hs Hp Hkey Hv Hrun. assert (auth c1 = AEnrolled ph rh) as Ha by by read_state Hp.
  unfold record_success in Hrun. rewrite bind_modify, bind_lift in Hrun.
  assert (forall e c2, c2 ≡ c1 -> refusal (RecoverPassword k pw) (AEnrolled ph rh) e ->
    refines (RecoverPassword k pw) c (Err e) c2) as Hrefuse.
  { intros e c2 He Hr. eapply refines_refused; [exact Hs|done|]. by rewrite Ha. }
  destruct (check_new_password_spec pw) as [[Hnew Hshort]|[Hnew Hshort]]; rewrite Hnew in Hrun.
  { simplify_eq/=. apply Hrefuse; [done|]. eapply refuse_recovery_password; [done|done|by left]. }
  rewrite bind_lift in Hrun. unfold password_equals_key in Hrun.
  destruct (parses_to_spec _ key (Codes.parse_recovery_key_no_panic (str_to_ascii_uppercase pw))) as (b & Hb & Hk).
  rewrite Hb, bind_lift in Hrun. destruct b.
  { simplify_eq/=. apply Hrefuse; [done|]. eapply refuse_recovery_password; [done|done|right]. by apply Hk. }
  inv_bind Hrun. apply hash_run in Hm as [He [->|(ph' & -> & Hph & Vph)]].
  { destruct Hrun as [-> ->]. apply Hrefuse; [done|constructor]. }
  assert (c0 ≡ c1) as He1 by done. apply (settled_equiv c) in He1 as Hs2; [|done].
  pose proof He1 as (_ & Hpe & Hqe & Hxe). destruct Hs2 as ([W1 W2 W3] & Hn & _).
  assert (all_hashes store_valid_hash (Enrolled ph rh) = true) as Hh.
  { rewrite Hpe in W1. exact (view_accepts _ _ (W1 _ Hp)). }
  eapply (commit_refines (RecoverPassword k pw) _ c) in Hrun
    as [(-> & Hvw & Hp3 & Hq3 & He3)|[-> Href]]; [|done|by split|done|by rewrite (auth_proper _ _ He1), Ha|].
  - split_and!; [|done|].
    + assert (pairing c0 = None) as Hq by (apply wf_no_pairing; [by split|congruence]).
      split; simpl; rewrite ?Hp3, ?Hq3, ?Hq, ?He3; [by intros ? [= <-]|done|].
      intros p Hx _. rewrite Hpe in W3. by apply (W3 (Enrolled ph rh)) in Hx.
    + exists (auth c0). split; [done|]. rewrite (auth_proper _ _ He1), Ha. unfold auth. rewrite Hp3.
      eapply eff_recovered; [done..| |done]. intros Hc. by apply Hk in Hc.
  - simpl in Hh |- *. apply andb_true_iff in Hh as [_ Hh]. by rewrite Vph, Hh.
Qed.
Lemma refines_recover k pw c r c' : wf c ->
  run_op env (RecoverPassword k pw) c = (r, c') -> refines (RecoverPassword k pw) c r c'.
Proof.
  intros W Hrun. start_op W Hrun. rewrite bind_lift in Hrun.
  destruct (parse_key_spec k) as [(key & Hk & Hkey & Hgood)|[Hk Hbad]]; rewrite Hk in Hrun;
    [|by refuse_argument_here Hs].
  rewrite bind_lift in Hrun. unfold check_password_bound in Hrun.
  destruct (Z.ltb_spec PASSWORD_MAX_BYTES (str_len pw)) as [Hlen|Hlen]; [by refuse_argument_here Hs|].
  assert (~ malformed (RecoverPassword k pw)) as Hwell by (intros [?|?]; [done|lia]).
  rewrite bind_get, bind_lift in Hrun.
  destruct (persisted c1) as [[|ph rh dl|ph rh]|] eqn:Hp.
  1,2: simplify_eq/=; eapply (refines_refused _ _ _ _ _ Hs); [done|]; apply refuse_state; [done|];
    read_state Hp; by split_goal.
  - eapply (credential_run (RecoverPassword k pw) k rh) in Hrun; [exact Hrun|done|done|by read_state Hp|].
    intros c2 b He _ Hv Hk2. apply (settled_equiv _ _ _ Hs) in He as Hs2. pose proof He as (_ & Hpe & _).
    destruct b; simpl in Hk2.
    + eapply recover_checked; [exact Hs2|by rewrite Hpe|done..].
    + eapply (failure_run (RecoverPassword k pw) k rh); [done|done| |done|done].
      rewrite (auth_proper _ _ He). by read_state Hp.
  - destruct Hs as (_ & _ & q & Hq). congruence.
Qed.

Lemma refines_ensure c r c' : wf c ->
  run_op env EnsurePendingPairing c = (r, c') -> refines EnsurePendingPairing c r c'.
Proof.
  intros W Hrun. start_op W Hrun. rewrite bind_get in Hrun.
  destruct (decide (persisted c1 = Some Unenrolled)) as [Hp|Hp].
  2: { rewrite bool_decide_eq_false_2 in Hrun by done. unfold ret in Hrun. simplify_eq/=.
       eapply refines_stay; [exact Hs|done|done|]. constructor; [by eapply settled_known|].
       intros ex. unfold auth. split_goal; naive_solver. }
  rewrite bool_decide_eq_true_2 in Hrun by done. destruct (pairing c1) as [q|] eqn:Hq; simpl in Hrun.
  { unfold ret in Hrun. simplify_eq/=. eapply refines_stay; [exact Hs|done|done|].
    destruct (settled_pending _ _ _ Hs Hp Hq) as (Ha & _). rewrite Ha. by constructor. }
  inv_bind Hrun. unfold boot_now, boot in Hm. inv_bind Hm. unfold lift in Hm. simplify_eq.
  destruct (boot_at env (tick c1)) as [b|]; simpl in Hrun; [|by unavailable Hs Hrun].
  inv_bind Hrun. destruct (random_run _ _ _ _ Hm) as [He [->|(bytes & -> & Hl & Hb)]]; [by unavailable Hs Hrun|].
  inv_bind Hrun. unfold wall in Hm0. simplify_eq. rewrite bind_modify in Hrun.
  unfold modify in Hrun. simplify_eq/=. pose proof Hs as ([W1 W2 W3] & Hn & _).
  destruct He as (Hve & Hpe & Hqe & Hxe). simpl in Hve, Hpe, Hqe, Hxe.
  split_and!; [split; simpl|done|].
  - intros p. rewrite Hpe, Hve. by apply W1.
  - intros q' [= <-]. rewrite Hpe. unfold PAIRING_ATTEMPTS. simpl. split_and!; done || lia.
  - done.
  - exists (auth c1). split; [done|]. unfold auth. simpl. rewrite Hpe, Hp, Hq. by constructor.
Qed.

Lemma refines_cancel c r c' : wf c ->
  run_op env CancelPendingPairing c = (r, c') -> refines CancelPendingPairing c r c'.
Proof.
  intros W Hrun. start_op W Hrun. unfold modify in Hrun. simplify_eq/=.
  pose proof Hs as (W1 & Hn & _). split_and!; [by apply drop_pairing_wf|done|].
  exists (auth c1). split; [done|]. destruct (pairing c1) as [q|] eqn:Hq.
  - destruct (wf_pairing _ W1 _ Hq) as (Hp & _ & _ & _ & Hx).
    unfold auth. simpl. rewrite Hp, Hq, Hx. constructor.
  - replace (auth (set_pairing None c1)) with (auth c1) by (unfold auth; simpl; by rewrite Hq).
    constructor; [by eapply settled_known|]. unfold auth. rewrite Hq. by split_goal.
Qed.

Lemma refines_reset c r c' : wf c ->
  run_op env ResetEnrollment c = (r, c') -> refines ResetEnrollment c r c'.
Proof.
  intros W Hrun. apply replying_inv in Hrun as (r0 & Hrun & ->). unfold reset_enrollment in Hrun. inv_bind Hrun.
  apply (commit_refines ResetEnrollment _ c) in Hm
    as [(-> & Hv & Hp3 & Hq3 & He3)|[-> Href]]; [| |done|apply norm_same|done|done].
  - rewrite !bind_modify in Hrun. unfold modify in Hrun. simplify_eq/=. split_and!; [|done|].
    + split; simpl; rewrite ?Hp3; [by intros ? [= <-]|done|done].
    + exists (auth c). split; [apply norm_same|]. unfold auth at 2. simpl. rewrite Hp3. constructor.
  - by destruct Hrun as [-> ->].
Qed.

Lemma refines_get_pairing c r c' : wf c ->
  run_op env GetPendingPairing c = (r, c') -> refines GetPendingPairing c r c'.
Proof.
  intros W Hrun. start_op W Hrun. rewrite bind_get in Hrun. pose proof Hs as (W1 & Hn & _).
  destruct (pairing c1) as [q|] eqn:Hq.
  - destruct (wf_pairing _ W1 _ Hq) as (Hp & _ & _ & Hb & Hx).
    destruct (Codes.encode_pairing_code_ok (code q) Hb) as [text Ht].
    rewrite Ht, bind_lift in Hrun. unfold ret in Hrun. simplify_eq/=.
    eapply refines_stay; [exact Hs|done|done|]. unfold auth. rewrite Hp, Hq. by constructor.
  - unfold ret in Hrun. simplify_eq/=. eapply refines_stay; [exact Hs|done|done|].
    constructor; [by eapply settled_known|]. unfold auth. rewrite Hq. by split_goal.
Qed.

Lemma refines_get_state c r c' : wf c ->
  run_op env GetEnrollmentState c = (r, c') -> refines GetEnrollmentState c r c'.
Proof.
  intros W Hrun. start_op W Hrun. rewrite bind_get in Hrun. unfold ret in Hrun. simplify_eq/=.
  pose proof Hs as (W1 & _). eapply refines_stay; [exact Hs|done|done|].
  replace (match pairing c' with Some _ => true | None => false end)
    with (bool_decide (is_Some (pending (auth c')))).
  - replace (match persisted c' with Some (Enrolled _ _) => true | _ => false end) with (enrolled (auth c'));
      [constructor; by eapply settled_known|].
    unfold auth. by split_goal.
  - destruct (pairing c') as [q|] eqn:Hq; unfold auth.
    + destruct (wf_pairing _ W1 _ Hq) as (Hp & _). rewrite Hp, Hq. by apply bool_decide_eq_true_2.
    + rewrite Hq. apply bool_decide_eq_false_2. intros [x Hx]. revert Hx. by split_goal.
Qed.

Lemma run_refines op c r c' : wf c -> run_op env op c = (r, c') -> refines op c r c'.
Proof.
  destruct op; [apply refines_verify|apply refines_consume|apply refines_confirm|apply refines_recover
    |apply refines_ensure|apply refines_cancel|apply refines_reset|apply refines_get_pairing|apply refines_get_state].
Qed.

(** The start: the state the file gives, normalized, without a pairing. *)
Definition loaded (d : D) : Auth :=
  match store_view d with
  | Ok Unenrolled => AUnenrolled false
  | Ok (EnrolledUnconfirmed ph rh dl) => AUnconfirmed ph rh dl
  | Ok (Enrolled ph rh) => AEnrolled ph rh
  | _ => AInvalid
  end.

Lemma open_starts d : wf (open env d) /\
  (norm (loaded d) (auth (open env d)) \/ auth (open env d) = AInvalid).
Proof.
  unfold open. destruct (store_remove_stale 0 d) as [removed d'] eqn:Hd.
  pose proof (remove_stale_view 0 d) as Hview. rewrite Hd in Hview. simpl in Hview.
  match goal with |- context [prepare env ?c] => set (c0 := c) end.
  assert (wf c0 /\ (auth c0 = loaded d \/ auth c0 = AInvalid)) as [W Ha].
  { unfold c0, auth, loaded. rewrite <- Hview. simpl. destruct removed; [|split; [by split|by right]..].
    destruct (store_load 1 d') as [p| |] eqn:Hl; [|split; [by split|by right]..].
    apply load_view in Hl. rewrite Hl. split; [split; simpl; [by intros ? [= <-]|done|done]|].
    left. by destruct p. }
  destruct (prepare env c0) as [r c'] eqn:Hrun. apply prepare_run in Hrun as (W' & _ & Hn & _); [|done].
  split; [done|]. simpl. destruct Ha as [Ha|Ha]; rewrite Ha in Hn; [by left|right].
  by inversion Hn.
Qed.
End Refinement.
End MachineSpec.
