(* ===== verification/MachineProps.v ===== *)
(** * Properties of the authentication state machine *)
From S2P Require Import Prelude Codes Hash Store Machine MachineFacts MachineSpec.

Module MachineProps.
Import Hash Store Machine MachineFacts MachineSpec.

(** A run of operations in order, with what each answered. *)
Fixpoint run_all {D} `{StoreOps D} `{Hasher} (env : Env) (ops : list Op) (c : Core D)
    : list (Op * res Reply Failure) * Core D :=
  match ops with
  | [] => ([], c)
  | op :: ops =>
      let (r, c) := run_op env op c in
      let (trace, c) := run_all env ops c in
      ((op, r) :: trace, c)
  end.

(** ** The backoff counters *)

(** The scope whose counter an operation may change. *)
Definition scope_of (op : Op) : option Scope :=
  match op with
  | VerifyPassword uid _ => Some (Password uid)
  | RecoverPassword _ _ => Some Recovery
  | ConfirmRecoveryKey _ => Some Confirmation
  | _ => None
  end.

Create HintDb counts discriminated.

Section Counters.
Context {D : Type} `{StoreOps D} `{HR : Hasher} (env : Env).

(** The computation changes at most the counter of [scope]. *)
Definition counts_only {A} (scope : option Scope) (m : M (D:=D) A) : Prop :=
  forall c other, Some other <> scope -> backoff (m c).2 !! other = backoff c !! other.

Lemma counts_bind {A B} scope (m : M A) (k : A -> M B) :
  counts_only scope m -> (forall a, counts_only scope (k a)) -> counts_only scope (bind m k).
Proof.
  intros Hm Hk c other Hne. specialize (Hm c other Hne). unfold bind.
  destruct (m c) as [[a|e|] c']; simpl in *; [|done..]. by rewrite (Hk a c' other Hne).
Qed.

Lemma counts_same {A} scope (m : M A) : (forall c, backoff (m c).2 = backoff c) -> counts_only scope m.
Proof. intros Hm c other _. by rewrite Hm. Qed.

Lemma counts_if {A} scope (b : bool) (m n : M A) :
  counts_only scope m -> counts_only scope n -> counts_only scope (if b then m else n).
Proof. by destruct b. Qed.

Lemma counts_let_if {A} scope (b : bool) (m n : M A) :
  counts_only scope m -> counts_only scope n -> counts_only scope (if negb b then m else n).
Proof. by destruct b. Qed.

Lemma counts_lift {A} scope (r : res A Failure) : counts_only scope (lift r).
Proof. by apply counts_same. Qed.
Lemma counts_ret {A} scope (a : A) : counts_only scope (ret a).
Proof. by apply counts_same. Qed.
Lemma counts_fail {A} scope e : counts_only scope (fail (A:=A) e).
Proof. by apply counts_same. Qed.
Lemma counts_get scope : counts_only scope get.
Proof. by apply counts_same. Qed.
Lemma counts_pairing scope p : counts_only scope (modify (set_pairing p)).
Proof. by apply counts_same. Qed.
Lemma counts_expired scope b : counts_only scope (modify (set_expired b)).
Proof. by apply counts_same. Qed.
Lemma counts_wall scope : counts_only scope (wall env).
Proof. by apply counts_same. Qed.
Lemma counts_boot scope : counts_only scope (boot env).
Proof. by apply counts_same. Qed.
Lemma counts_random scope N : counts_only scope (random_bytes env N).
Proof. by apply counts_same. Qed.
Lemma counts_verify scope secret phc : counts_only scope (verify secret phc).
Proof. by apply counts_same. Qed.
Lemma counts_commit scope s : counts_only scope (commit s).
Proof.
  apply counts_same. intros c. unfold commit. destruct (store_write (tick c) s (store c)) as [[|[[]]|] d]; done.
Qed.
Hint Resolve counts_bind counts_if counts_lift counts_ret counts_fail counts_get counts_pairing
  counts_expired counts_wall counts_boot counts_random counts_verify counts_commit : counts.

Lemma counts_boot_now scope : counts_only scope (boot_now env).
Proof. unfold boot_now. auto with counts. Qed.
Lemma counts_hash scope secret : counts_only scope (hash env secret).
Proof. unfold hash. auto with counts. Qed.
Hint Resolve counts_boot_now counts_hash : counts.

Lemma counts_prepare scope : counts_only scope (prepare env).
Proof.
  unfold prepare. apply counts_bind; [auto with counts|]. intros c.
  destruct (persisted c) as [p|]; [|auto with counts].
  apply counts_bind; [auto with counts|]. intros b.
  apply counts_bind; [destruct (pairing c); auto with counts|]. intros _.
  destruct p; auto with counts.
Qed.

Lemma counts_check_backoff scope s : counts_only scope (check_backoff env s).
Proof.
  unfold check_backoff. apply counts_bind; [auto with counts|]. intros c.
  destruct (backoff c !! s); auto with counts.
Qed.

Lemma counts_record_failure s : counts_only (Some s) (record_failure env s).
Proof.
  intros c other Hne. unfold record_failure, bind, boot, get, modify, fail. simpl.
  destruct (boot_at env (tick c)); simpl; (rewrite lookup_insert_ne; [done|congruence]).
Qed.

Lemma counts_record_success s : counts_only (Some s) (record_success (D:=D) s).
Proof.
  intros c other Hne. simpl. apply lookup_delete_ne. congruence.
Qed.

Lemma counts_replying {A B} scope (f : A -> B) (m : M A) : counts_only scope m -> counts_only scope (replying f m).
Proof.
  intros Hm c other Hne. rewrite <- (Hm c other Hne). unfold replying. by destruct (m c).
Qed.
Hint Resolve counts_prepare counts_check_backoff counts_record_failure counts_record_success
  counts_replying : counts.

(** Steps through an operation's binds. *)
Ltac counting :=
  repeat first
    [ progress auto with counts
    | progress cbv zeta
    | apply counts_bind; [|intros ?]
    | apply counts_if
    | match goal with |- counts_only _ (match ?x with _ => _ end) => destruct x end ].

Lemma run_op_counts op : op <> ResetEnrollment -> counts_only (scope_of op) (run_op env op).
Proof.
  intros Hne. destruct op; try done; simpl; apply counts_replying.
  - unfold verify_password. counting.
  - unfold consume_pairing. counting.
  - unfold confirm_recovery_key. counting.
  - unfold recover_password. counting.
  - unfold ensure_pending_pairing. counting.
  - unfold cancel_pending_pairing. counting.
  - unfold get_pending_pairing. counting.
  - unfold get_enrollment_state. counting.
Qed.
End Counters.

(** The time until which a counter closes its scope. *)
Definition closed_until (k : Counter) : Z :=
  u64_saturating_add (last_failure k) (backoff_delay (failures k)).

Section Windows.
Context {D : Type} `{StoreLaws D} `{HR : Hasher} (env : Env).
Context {HL : HasherLaws store_valid_hash} {EL : EnvLaws env}.

Implicit Types c : Core D.

Lemma commit_tick s c r c' : commit s c = (r, c') -> tick c' = S (tick c).
Proof.
  unfold commit. destruct (store_write (tick c) s (store c)) as [[|[[]]|] d]; intros; by simplify_eq.
Qed.

Lemma prepare_tick c r c' : wf c -> prepare env c = (r, c') -> (tick c <= tick c')%nat.
Proof.
  intros W Hrun. destruct (persisted c) as [p|] eqn:Hp.
  2: { unfold prepare, bind, get, fail in Hrun. rewrite Hp in Hrun. by simplify_eq. }
  destruct (is_unconfirmed (persisted c)) eqn:Hu.
  - destruct p as [|ph rh dl|]; rewrite Hp in Hu; try done.
    rewrite (prepare_unconfirmed env c ph rh dl) in Hrun; [|done|by apply wf_no_pairing; [|rewrite Hp]].
    destruct (boot_at env (tick c)); simplify_eq/=; [|lia]. destruct (deadline_expired _ _).
    + inv_bind Hrun. apply commit_tick in Hm. simpl in Hm.
      destruct r0; unfold modify in Hrun; simplify_eq/=; [lia|destruct Hrun as [_ ->]; lia..].
    + simplify_eq/=. lia.
  - rewrite (prepare_settled env c p) in Hrun by done.
    destruct (boot_at env (tick c)); [destruct (pairing c); [case_match|]|]; simplify_eq/=; lia.
Qed.

(** The credential check of an operation, reached or refused before. *)
Lemma check_backoff_closed s k c r c' : backoff c !! s = Some k ->
  (forall b, boot_at env (tick c) = Some b -> b < closed_until k) ->
  check_backoff env s c = (r, c') ->
  (r = Err RateLimited \/ r = Err Unavailable) /\ backoff c' = backoff c.
Proof.
  intros Hk Hb Hrun. unfold check_backoff in Hrun. rewrite bind_get, Hk in Hrun.
  unfold boot_now, boot, bind, lift, ret, fail in Hrun. simpl in Hrun.
  destruct (boot_at env (tick c)) as [b|]; simpl in Hrun; [|by simplify_eq; auto].
  specialize (Hb b eq_refl). unfold closed_until in Hb.
  destruct (Z.ltb_spec b (u64_saturating_add (last_failure k) (backoff_delay (failures k)))); [|lia].
  by simplify_eq; auto.
Qed.

(** The answers that reveal nothing about the credential. *)
Definition blind (r : res Reply Failure) : Prop :=
  match r with
  | Err e => e <> InvalidCredential /\ e <> PasswordRejected
  | _ => False
  end.

Lemma closed_run s k {A B} (m : A -> M B) (f : B -> Reply) c (a : A) r c' :
  backoff c !! s = Some k -> (forall n b, (tick c <= n)%nat -> boot_at env n = Some b -> b < closed_until k) ->
  bind (check_backoff env s) (fun _ => m a) c = (r, c') ->
  backoff c' = backoff c /\ blind (map_ok f r).
Proof.
  intros Hk Hb Hrun. inv_bind Hrun.
  eapply check_backoff_closed in Hm as [[->| ->] Hbo]; [| |done|by intros b; apply Hb].
  all: by destruct Hrun as [-> ->].
Qed.

(** The [prepare] an operation starts with leaves the counters alone. *)
Lemma prepare_counters {A} (k : unit -> M A) (f : A -> Reply) (P : res Reply Failure -> Core D -> Prop) c r c' :
  wf c -> replying f (bind (prepare env) k) c = (r, c') ->
  (forall c1, backoff c1 = backoff c -> P (Err Unavailable) c1) ->
  (forall c1 r0, wf c1 -> backoff c1 = backoff c -> (tick c <= tick c1)%nat -> k tt c1 = (r0, c') -> P (map_ok f r0) c') ->
  P r c'.
Proof.
  intros W Hrun He Hk. apply replying_inv in Hrun as (r0 & Hrun & ->). inv_bind Hrun.
  pose proof (prepare_tick _ _ _ W Hm) as Ht.
  destruct (prepare_run env _ _ _ W Hm) as (W1 & Hbo & _ & [[-> _]| ->]).
  - by eapply Hk.
  - destruct Hrun as [-> ->]. by apply He.
Qed.

Definition uncounted : Counter := {| failures := 0; last_failure := 0 |}.

(** The counter of [s] after an answer: cleared by a success, increased and
    stamped with a clock reading of this operation by a wrong credential. *)
Definition counted (s : Scope) c (r : res unit Failure) c' : Prop :=
  (r = Ok tt -> backoff c' !! s = None) /\
  (r = Err InvalidCredential -> exists n b, (tick c <= n)%nat /\ boot_at env n = Some b /\
     backoff c' !! s = Some {| failures := u32_saturating_add (failures (default uncounted (backoff c !! s))) 1;
                               last_failure := b |}).

Lemma counted_other s c e c' : e <> InvalidCredential -> counted s c (Err e) c'.
Proof. intros He. by split; intros [=]. Qed.

Lemma counted_failure s c c1 r c' : (tick c <= tick c1)%nat -> backoff c1 = backoff c ->
  (do! record_failure env s in fail (A:=unit) InvalidCredential) c1 = (r, c') -> counted s c r c'.
Proof.
  intros Ht Hb Hrun. unfold record_failure, boot, bind, get, modify, fail in Hrun. simpl in Hrun.
  destruct (boot_at env (tick c1)) as [b|] eqn:Hbt; simplify_eq/=; [|by apply counted_other].
  split; [done|]. intros _. exists (tick c1), b. split_and!; [done..|].
  cbn [backoff set_backoff]. rewrite lookup_insert_eq. by rewrite Hb.
Qed.

(** After the credential check has passed the rate limit and the hash. *)
Lemma counted_credential s secret h (k : bool -> M unit) c c1 r c' :
  (tick c <= tick c1)%nat -> backoff c1 = backoff c ->
  (do! check_backoff env s in let! matches := verify (bytes_of secret) h in k matches) c1 = (r, c') ->
  (forall c2 b, (tick c <= tick c2)%nat -> backoff c2 = backoff c -> c2 ≡ c1 -> k b c2 = (r, c') -> counted s c r c') ->
  counted s c r c'.
Proof.
  intros Ht Hb Hrun Hk. inv_bind Hrun.
  assert ((r0 = Ok tt \/ exists e, r0 = Err e /\ e <> InvalidCredential) /\ (tick c1 <= tick c0)%nat /\
    backoff c0 = backoff c1 /\ c0 ≡ c1) as (Hr0 & Ht0 & Hb0 & He0).
  { unfold check_backoff, bind, get, boot_now, boot, lift, ret, fail in Hm. simpl in Hm.
    destruct (backoff c1 !! s); simpl in Hm; [|simplify_eq; auto].
    destruct (boot_at env (tick c1)) as [b|]; simpl in Hm; [destruct (b <? _)|]; simplify_eq/=;
      (split_and!; first [by auto|lia|right; eexists; split; [done|congruence]]). }
  destruct Hr0 as [->|(e & -> & He)].
  - inv_bind Hrun. unfold verify, lift in Hm0. simplify_eq.
    destruct (hasher_verify (bytes_of secret) h) as [b| |] eqn:Hv; simpl in Hrun.
    + apply (Hk c2 b); [lia|congruence|done|done].
    + destruct Hrun as [-> ->]. by apply counted_other.
    + by destruct (verify_no_panic (bytes_of secret) h).
  - destruct Hrun as [-> ->]. by apply counted_other.
Qed.

Lemma counted_success s c c' : backoff c' = delete s (backoff c) -> counted s c (Ok tt) c'.
Proof. intros Hb. split; [|by intros [=]]. intros _. by rewrite Hb, lookup_delete_eq. Qed.

Lemma commit_counts s c r c' : commit s c = (r, c') ->
  backoff c' = backoff c /\ r <> Err InvalidCredential.
Proof.
  unfold commit. destruct (store_write (tick c) s (store c)) as [[|[[]]|] d]; intros; by simplify_eq.
Qed.

Definition counted_reply (s : Scope) c (r : res Reply Failure) c' : Prop :=
  exists r0, r = map_ok done r0 /\ counted s c r0 c'.

Lemma verify_counts uid pw c r c' : wf c -> run_op env (VerifyPassword uid pw) c = (r, c') ->
  counted_reply (Password uid) c r c'.
Proof.
  intros W Hrun. eapply (prepare_counters _ _ (counted_reply (Password uid) c));
    [exact W|exact Hrun|intros c1 _; exists (Err Unavailable); split; [done|by apply counted_other]|].
  clear Hrun. intros c1 r0 _ Hbo Ht Hrun. exists r0. split; [done|]. cbv beta in Hrun.
  rewrite bind_lift in Hrun. unfold check_password_bound in Hrun.
  destruct (PASSWORD_MAX_BYTES <? str_len pw); [simplify_eq; by apply counted_other|].
  rewrite bind_get, bind_lift in Hrun.
  destruct (persisted c1) as [[]|]; [simplify_eq; by apply counted_other..| |simplify_eq; by apply counted_other].
  eapply counted_credential in Hrun; [exact Hrun|done|done|]. intros c2 [] Ht2 Hb2 _ Hk.
  - unfold record_success, modify in Hk. simplify_eq. apply counted_success. simpl. by rewrite Hb2.
  - by eapply counted_failure.
Qed.

Lemma confirm_counts k c r c' : wf c -> run_op env (ConfirmRecoveryKey k) c = (r, c') ->
  counted_reply Confirmation c r c'.
Proof.
  intros W Hrun. eapply (prepare_counters _ _ (counted_reply Confirmation c));
    [exact W|exact Hrun|intros c1 _; exists (Err Unavailable); split; [done|by apply counted_other]|].
  clear Hrun. intros c1 r0 W1 Hbo Ht Hrun. exists r0. split; [done|]. cbv beta in Hrun.
  rewrite bind_lift in Hrun.
  destruct (parse_key_spec k) as [(key & Hkey & _)|[Hkey _]]; rewrite Hkey in Hrun; [|simplify_eq; by apply counted_other].
  rewrite bind_get, bind_lift in Hrun.
  destruct (persisted c1) as [[]|];
    [destruct (expired_provisional c1); simplify_eq; by apply counted_other|
    |destruct (expired_provisional c1); simplify_eq; by apply counted_other..].
  eapply counted_credential in Hrun; [exact Hrun|done|done|]. intros c2 b Ht2 Hb2 He2 Hk.
  inv_bind Hk. assert (wf c2) as W2 by by rewrite He2. pose proof (prepare_tick _ _ _ W2 Hm) as Ht3.
  destruct (prepare_run env _ _ _ W2 Hm) as (_ & Hb3 & _ & [[-> _]| ->]);
    [|destruct Hk as [-> ->]; by apply counted_other].
  rewrite bind_get in Hk. case_match; [unfold fail in Hk; simplify_eq; by apply counted_other|].
  destruct b; simpl in Hk; [|eapply counted_failure; [| |exact Hk]; [lia|congruence]].
  inv_bind Hk. apply commit_counts in Hm0 as [Hb4 Hr4]. destruct r1 as [u|e|].
  - unfold record_success, modify in Hk. simplify_eq. apply counted_success. simpl. by rewrite Hb4, Hb3, Hb2.
  - destruct Hk as [-> ->]. apply counted_other. congruence.
  - destruct Hk as [-> ->]. by split.
Qed.

Lemma recover_counts k pw c r c' : wf c -> run_op env (RecoverPassword k pw) c = (r, c') ->
  counted_reply Recovery c r c'.
Proof.
  intros W Hrun. eapply (prepare_counters _ _ (counted_reply Recovery c));
    [exact W|exact Hrun|intros c1 _; exists (Err Unavailable); split; [done|by apply counted_other]|].
  clear Hrun. intros c1 r0 W1 Hbo Ht Hrun. exists r0. split; [done|]. cbv beta in Hrun.
  rewrite bind_lift in Hrun.
  destruct (parse_key_spec k) as [(key & Hkey & _)|[Hkey _]]; rewrite Hkey in Hrun; [|simplify_eq; by apply counted_other].
  rewrite bind_lift in Hrun. unfold check_password_bound in Hrun.
  destruct (PASSWORD_MAX_BYTES <? str_len pw); [simplify_eq; by apply counted_other|].
  rewrite bind_get, bind_lift in Hrun.
  destruct (persisted c1) as [[]|]; [simplify_eq; by apply counted_other..| |simplify_eq; by apply counted_other].
  eapply counted_credential in Hrun; [exact Hrun|done|done|]. intros c2 [] Ht2 Hb2 _ Hk; simpl in Hk;
    [|by eapply counted_failure].
  unfold record_success in Hk. rewrite bind_modify, bind_lift in Hk.
  destruct (check_new_password pw) as [[]|e|] eqn:Hnew; [| |by simplify_eq].
  2: { simplify_eq. apply counted_other. unfold check_new_password in Hnew. case_match; congruence. }
  rewrite bind_lift in Hk. unfold password_equals_key in Hk.
  destruct (parses_to_spec _ key (Codes.parse_recovery_key_no_panic (str_to_ascii_uppercase pw))) as (b & Hb & _).
  rewrite Hb, bind_lift in Hk. destruct b; [simplify_eq; by apply counted_other|]. inv_bind Hk.
  pose proof (counts_hash env None (bytes_of pw) (set_backoff (delete Recovery (backoff c2)) c2)) as Hh.
  rewrite Hm in Hh. simpl in Hh.
  destruct (hash_run env _ _ _ _ Hm) as [_ [->|(h & -> & _)]]; [destruct Hk as [-> ->]; by apply counted_other|].
  apply commit_counts in Hk as [Hb4 Hr4]. split; [|done]. intros _.
  by rewrite Hb4, Hh, lookup_delete_eq by done.
Qed.

End Windows.

(** The delay of a counter: none below five failures, then one second
    doubling with each failure, capped at fifteen minutes; it never
    decreases as failures accumulate. *)
Theorem backoff_delay_table f : 0 <= f ->
  backoff_delay f = (if f <? 5 then 0 else Z.min (2 ^ (f - 5)) 900) /\
  (forall g, f <= g -> backoff_delay f <= backoff_delay g <= 900).
Proof.
  assert (forall f, 0 <= f -> backoff_delay f = (if f <? 5 then 0 else Z.min (2 ^ (f - 5)) 900)) as Htable.
  { clear f. intros f Hf. unfold backoff_delay, BACKOFF_THRESHOLD, BACKOFF_CAP.
    destruct (Z.ltb_spec f 5); [done|]. destruct (Z.leb_spec 10 (f - 5)) as [Hbig|].
    - pose proof (Z.pow_le_mono_r 2 10 (f - 5) ltac:(lia) Hbig). change (2 ^ 10) with 1024 in *. lia.
    - by rewrite Z.shiftl_1_l. }
  intros Hf. split; [by apply Htable|]. intros g Hg. rewrite !Htable by lia.
  destruct (Z.ltb_spec f 5), (Z.ltb_spec g 5); try lia.
  pose proof (Z.pow_le_mono_r 2 (f - 5) (g - 5) ltac:(lia) ltac:(lia)). lia.
Qed.

Section Traces.
Context {D : Type} `{StoreLaws D} `{HR : Hasher} (env : Env).
Context {HL : HasherLaws store_valid_hash} {EL : EnvLaws env}.

Implicit Types c : Core D.

(** C1. Every operation refines the documented state machine: from a
    well-formed state it never panics, leaves a well-formed state, and acts
    as the normalization of expired material followed by one transition of
    the documented table, or refuses with the documented error and changes
    nothing; a failed write leaves the old state or, after its rename,
    none. *)
Theorem operations_refine op c r c' : wf c -> run_op env op c = (r, c') ->
  wf c' /\ r <> Panic /\ exists a, norm (auth c) a /\ effect op a r (auth c').
Proof. apply (run_refines env). Qed.

(** The daemon always starts, in a well-formed state without a pending
    pairing: the state the file holds, with expired provisional material
    discarded, or none when the file cannot be used. *)
Theorem open_normalizes d :
  wf (open env d) /\ pending (auth (open env d)) = None /\
  (norm (loaded d) (auth (open env d)) \/ auth (open env d) = AInvalid).
Proof.
  destruct (open_starts env d) as [W Ha]. split_and!; [done| |done].
  destruct Ha as [Ha|Ha]; [|by rewrite Ha]. unfold loaded in Ha.
  destruct (store_view d) as [[]| |]; by inversion Ha.
Qed.

Definition consumed (trace : list (Op * res Reply Failure)) (pw key : string) : Prop :=
  exists text, (ConsumePairing text pw, Ok (RecoveryKey key)) ∈ trace.

(** What must have happened for a state to hold its hashes. *)
Definition provenance (trace : list (Op * res Reply Failure)) (a : Auth) : Prop :=
  match a with
  | AUnconfirmed ph rh _ => exists pw key, consumed trace pw key /\ hash_of pw ph /\ hash_of key rh
  | AEnrolled ph rh =>
      (exists pw key, consumed trace pw key /\ hash_of key rh) /\
      (exists k, (ConfirmRecoveryKey k, Ok Done) ∈ trace /\ hasher_verify (bytes_of k) rh = Ok true) /\
      (exists pw, hash_of pw ph /\
         ((exists key, consumed trace pw key) \/ exists k, (RecoverPassword k pw, Ok Done) ∈ trace))
  | _ => True
  end.

Lemma provenance_norm trace a a' : norm a a' -> provenance trace a -> provenance trace a'.
Proof. by destruct 1. Qed.

Lemma consumed_more trace more pw key : consumed trace pw key -> consumed (trace ++ more) pw key.
Proof. intros [text Ht]. exists text. apply elem_of_app. by left. Qed.

Lemma provenance_more trace more a : provenance trace a -> provenance (trace ++ more) a.
Proof.
  assert (forall e, e ∈ trace -> e ∈ trace ++ more) as Hin by (intros; apply elem_of_app; by left).
  destruct a; simpl; [done..| |].
  - intros (pw & key & Hc & ?). exists pw, key. split; [by apply consumed_more|done].
  - intros ((pw & key & Hc & ?) & (k & Hk & ?) & (pw' & ? & Hset)). split_and!.
    + exists pw, key. split; [by apply consumed_more|done].
    + exists k. auto.
    + exists pw'. split; [done|]. destruct Hset as [[key' Hc']|[k' Hk']]; [left|right]; eexists; eauto using consumed_more.
Qed.

Lemma provenance_effect trace op a r a' : provenance trace a -> effect op a r a' ->
  provenance (trace ++ [(op, r)]) a'.
Proof.
  intros Hp He. assert ((op, r) ∈ trace ++ [(op, r)]) as Hlast by (apply elem_of_app; right; by left).
  destruct He; try (by apply provenance_more); simpl; try done.
  - exists pw, encoded. split_and!; [by exists text|done..].
  - destruct Hp as (pw & key & Hc & Hph & Hrh). apply (consumed_more _ [(ConfirmRecoveryKey k, Ok Done)]) in Hc.
    split_and!; [by exists pw, key|by exists k|]. exists pw. split; [done|]. left. by exists key.
  - pose proof (provenance_more _ [(RecoverPassword k pw, Ok Done)] _ Hp) as (Hissued & Hconf & _).
    split_and!; [done..|]. exists pw. split; [done|]. right. by exists k.
Qed.

Lemma run_all_provenance ops : forall before c trace c', wf c -> provenance before (auth c) ->
  run_all env ops c = (trace, c') -> wf c' /\ provenance (before ++ trace) (auth c').
Proof.
  induction ops as [|op ops IH]; intros before c trace c' W Hp Hrun; simpl in Hrun; simplify_eq.
  - by rewrite app_nil_r.
  - destruct (run_op env op c) as [r c1] eqn:Hop. destruct (run_all env ops c1) as [trace1 c2] eqn:Hall.
    simplify_eq. destruct (run_refines env _ _ _ _ W Hop) as (W1 & _ & a & Hn & He).
    apply (provenance_norm before) in Hn; [|done]. apply (provenance_effect _ _ _ _ _ Hn) in He.
    destruct (IH _ _ _ _ W1 He Hall) as [W2 Hp2]. split; [done|].
    by rewrite <- app_assoc in Hp2.
Qed.

(** C2. No enrollment without the documented proofs: on a daemon started
    over a file that holds none, whenever a credential is enrolled after
    any sequence of operations, the recovery key was handed out by a
    successful pairing, its holder confirmed it against the stored hash,
    and the password is one a pairing or a recovery set. *)
Theorem enrollment_requires_proof d ops trace c' :
  (forall ph rh, loaded d <> AEnrolled ph rh) -> (forall ph rh dl, loaded d <> AUnconfirmed ph rh dl) ->
  run_all env ops (open env d) = (trace, c') -> wf c' /\ provenance trace (auth c').
Proof.
  intros He Hu Hrun. destruct (open_starts env d) as [W Ha].
  apply (run_all_provenance ops [] _ trace c' W) in Hrun; [done|].
  destruct Ha as [Ha| ->]; [|done].
  apply (provenance_norm [] _ _ Ha). destruct (loaded d); try done.
  - by edestruct Hu.
  - by edestruct He.
Qed.
(** ** Pairing attempts *)

Definition is_wrong_guess (entry : Op * res Reply Failure) : bool :=
  match entry with
  | (ConsumePairing _ _, Err (InvalidPairingCode | PairingAttemptsExhausted)) => true
  | _ => false
  end.

Definition wrong_guesses (trace : list (Op * res Reply Failure)) : Z :=
  Z.of_nat (List.length (List.filter is_wrong_guess trace)).

Definition guesses_left (a : Auth) : Z :=
  match a with APending _ n => PAIRING_ATTEMPTS - n | _ => 0 end.

Lemma wf_guesses c : wf c -> 0 <= guesses_left (auth c).
Proof.
  intros W. unfold guesses_left, auth. destruct (persisted c) as [[| |]|]; try done.
  destruct (pairing c) as [q|] eqn:Hq; [|done]. apply (wf_pairing c W) in Hq as (_ & ? & _). lia.
Qed.

Lemma wrong_guesses_cons e trace : wrong_guesses (e :: trace) = wrong_guesses [e] + wrong_guesses trace.
Proof. unfold wrong_guesses. simpl. destruct (is_wrong_guess e); simpl; lia. Qed.

Lemma refusal_not_wrong op a e : refusal op a e -> is_wrong_guess (op, Err e) = false.
Proof.
  intros Hr. destruct Hr as [op a|op a|op a e _ Hs|op a|op a| |]; try (by destruct op); try done.
  destruct op, a as [|[]| | |]; by simplify_eq/=.
Qed.

Lemma guesses_step op a0 a r a' : op <> EnsurePendingPairing -> norm a0 a -> effect op a r a' ->
  0 <= guesses_left a0 -> 0 <= guesses_left a' ->
  guesses_left a' + wrong_guesses [(op, r)] <= guesses_left a0.
Proof.
  intros Hop Hn He Hl0 Hl1. assert (guesses_left a <= guesses_left a0) by (destruct Hn; simpl in *; lia).
  unfold wrong_guesses. destruct He as [op a e Hr|op a| | | | | | | | | | | | | |]; try done; simpl in *; try lia.
  - pose proof (refusal_not_wrong _ _ _ Hr) as Hw. simpl in Hw. rewrite Hw. simpl. lia.
  - destruct op; simpl; lia.
Qed.


(** ** Finalization in time *)

(** The rest of a successful confirmation, from the verified key on. *)
Lemma confirm_finish b ph rh dl c c1 c2 u c' : settled c c1 ->
  persisted c1 = Some (EnrolledUnconfirmed ph rh dl) -> c2 ≡ c1 ->
  (do! prepare env in
   let! c := get in
   if expired_provisional c && negb (is_unconfirmed (persisted c)) then fail ConfirmationExpired
   else if negb b then do! record_failure env Confirmation in fail InvalidCredential
   else do! commit (Enrolled ph rh) in record_success Confirmation) c2 = (Ok u, c') ->
  b = true /\ deadline_expired dl (wall_at env (S (tick c2))) = false /\ (S (tick c2) < tick c')%nat /\
  persisted c' = Some (Enrolled ph rh).
Proof.
  intros Hs Hp He Hrun. inv_bind Hrun.
  destruct (prepare_again env _ _ _ _ _ _ _ _ Hs Hp He Hm)
    as [(-> & _)|(-> & _ & Hready & [[Hp3 Hx]|(Hp3 & _ & Hx)])]; [by destruct Hrun| |].
  - destruct (ready_deadline _ _ _ Hready _ _ _ Hp3) as [Hd Ht].
    rewrite bind_get, Hx in Hrun. destruct b; simpl in Hrun.
    + inv_bind Hrun. pose proof (commit_tick _ _ _ _ Hm0) as Ht4. destruct r as [[]| |]; [|by destruct Hrun..].
      unfold record_success, modify in Hrun. simplify_eq/=. split_and!; [done..|lia|].
      unfold commit in Hm0. by destruct (store_write _ _ _) as [[|[[]]|] d]; simplify_eq/=.
    + inv_bind Hrun. destruct r; [done|by destruct Hrun..].
  - by rewrite bind_get, Hx, Hp3 in Hrun.
Qed.

Lemma deadline_ahead dl w : deadline_expired dl w = false ->
  w < dl /\ dl <= u64_saturating_add w CONFIRMATION_WINDOW.
Proof. unfold deadline_expired. intros Hd. bool_hyps. lia. Qed.

End Traces.
End MachineProps.
