(* ===== verification/MachineLive.v ===== *)
(** * What the authentication state machine can always do

    Progress: the operations succeed when the system around them does, and a
    reset succeeds whatever the state file holds. *)
From S2P Require Import Prelude Codes Hash Store Machine MachineFacts MachineSpec MachineProps.

Module MachineLive.
Import Hash Store Machine MachineFacts MachineSpec MachineProps.

(** ** A system that works *)

(** The clocks can be read, stay within one pairing lifetime and one
    confirmation window, the wall clock does not step back, random bytes and hashes are delivered, and a
    [usable] store accepts every write. *)
Class Working {D} `{StoreOps D} `{Hasher} (env : Env) (usable : D -> Prop) (boot0 wall0 : Z) := {
  working_boot n : exists b, boot_at env n = Some b /\ boot0 <= b < boot0 + PAIRING_LIFETIME;
  working_boot_range : 0 <= boot0 < 2 ^ 63;
  working_wall_mono n m : (n <= m)%nat -> wall_at env n <= wall_at env m;
  working_wall n : wall0 <= wall_at env n < wall0 + CONFIRMATION_WINDOW;
  working_wall_range : 0 <= wall0 < 2 ^ 63;
  working_random n N : is_Some (random_at env n N);
  working_hash secret salt : List.length salt = SALT_BYTES -> exists h, hasher_hash secret salt = Ok h;
  working_store n s d : usable d -> all_hashes store_valid_hash s = true ->
    exists d', store_write n s d = (Ok tt, d') /\ usable d'
}.

Section Live.
Context {D : Type} `{StoreLaws D} `{HR : Hasher} (env : Env).
Context {HL : HasherLaws store_valid_hash} {EL : EnvLaws env}.
Context (usable : D -> Prop) (boot0 wall0 : Z) {WK : Working env usable boot0 wall0}.

Implicit Types c : Core D.

(** A well-formed state of the running system whose deadlines are ahead. *)
Record live c : Prop := {
  live_wf : wf c;
  live_store : usable (store c);
  live_known : is_Some (persisted c);
  live_pairing q : pairing c = Some q -> boot0 + PAIRING_LIFETIME <= expires_boot q;
  live_deadline ph rh dl : persisted c = Some (EnrolledUnconfirmed ph rh dl) ->
    exists n, (n <= tick c)%nat /\ dl = wall_at env n + CONFIRMATION_WINDOW
}.

Lemma deadline_not_expired n m : (n <= m)%nat ->
  deadline_expired (wall_at env n + CONFIRMATION_WINDOW) (wall_at env m) = false.
Proof.
  intros Hnm. pose proof (working_wall_mono n m Hnm). pose proof (working_wall n).
  pose proof (working_wall m). pose proof working_wall_range.
  unfold deadline_expired, u64_saturating_add, u64_max, CONFIRMATION_WINDOW in *.
  apply orb_false_iff. split; [apply Z.leb_gt|apply Z.ltb_ge]; lia.
Qed.

(** A step of bookkeeping. *)
Definition advanced c c' : Prop :=
  store c' = store c /\ persisted c' = persisted c /\ pairing c' = pairing c /\
  expired_provisional c' = expired_provisional c /\ backoff c' = backoff c /\ (tick c <= tick c')%nat.

Lemma advanced_trans c1 c2 c3 : advanced c1 c2 -> advanced c2 c3 -> advanced c1 c3.
Proof. intros (?&?&?&?&?&?) (?&?&?&?&?&?). split_and!; congruence || lia. Qed.

Lemma advanced_live c c' : live c -> advanced c c' -> live c'.
Proof.
  intros [W Hu Hk Hq Hd] (Hs & Hp & Hpq & Hx & Hb & Ht). split.
  - assert (c' ≡ c) as -> by (split_and!; congruence). done.
  - by rewrite Hs.
  - by rewrite Hp.
  - intros q. rewrite Hpq. apply Hq.
  - intros ph rh dl. rewrite Hp. intros Hdl. destruct (Hd _ _ _ Hdl) as (n & Hn & ->).
    exists n. split; [lia|done].
Qed.

Lemma prepare_live c : live c -> exists c', prepare env c = (Ok tt, c') /\ advanced c c'.
Proof.
  intros [W Hu [p Hk] Hq Hd]. destruct (working_boot (tick c)) as (b & Hb & Hr).
  destruct (is_unconfirmed (persisted c)) eqn:Hun.
  - destruct p as [|ph rh dl|]; rewrite Hk in Hun; try done.
    rewrite (prepare_unconfirmed env c ph rh dl), Hb; [|done|by apply wf_no_pairing; [|rewrite Hk]].
    destruct (Hd _ _ _ Hk) as (n & Hn & ->). rewrite deadline_not_expired by lia.
    eexists. split; [done|]. simpl. split_and!; simpl; first [done|lia].
  - rewrite (prepare_settled env c p), Hb by done. exists (next c). split.
    + destruct (pairing c) as [q|] eqn:Hpq; [|done].
      destruct (Z.leb_spec (expires_boot q) b); [|done]. specialize (Hq q eq_refl). lia.
    + split_and!; simpl; first [done|lia].
Qed.

Lemma random_live N c : exists bytes, random_bytes env N c = (Ok bytes, next c) /\
  List.length bytes = N /\ Forall is_byte bytes.
Proof.
  destruct (working_random (tick c) N) as [bytes Hb]. exists bytes. split; [|by eapply random_bytes_of].
  unfold random_bytes. by rewrite Hb.
Qed.

Lemma hash_live secret c : exists h, hash env (bytes_of secret) c = (Ok h, next c) /\
  hash_of secret h /\ store_valid_hash h = true /\ hasher_verify (bytes_of secret) h = Ok true.
Proof.
  destruct (random_live SALT_BYTES c) as (salt & Hs & Hl & _).
  destruct (working_hash (bytes_of secret) salt Hl) as [h Hh]. exists h. split_and!.
  - unfold hash. rewrite (bind_ok _ _ _ _ _ Hs). unfold lift. by rewrite Hh.
  - by exists salt.
  - by eapply hash_valid.
  - by eapply hash_verifies.
Qed.

Lemma commit_live s c : live c -> all_hashes store_valid_hash s = true ->
  exists c', commit s c = (Ok tt, c') /\ persisted c' = Some s /\ pairing c' = pairing c /\
    usable (store c') /\ backoff c' = backoff c /\ tick c' = S (tick c).
Proof.
  intros [W Hu _ _ _] Hs. destruct (working_store (tick c) s (store c) Hu Hs) as (d' & Hw & Hu').
  unfold commit. rewrite Hw. eexists. split; [done|]. done.
Qed.

Lemma verify_live secret h b c : hasher_verify (bytes_of secret) h = Ok b ->
  verify (bytes_of secret) h c = (Ok b, c).
Proof. intros Hv. unfold verify, lift. by rewrite Hv. Qed.

(** ** Each operation in turn *)

Lemma live_range n : 0 <= wall_at env n < 2 ^ 63 + CONFIRMATION_WINDOW.
Proof. pose proof (working_wall n). pose proof working_wall_range. lia. Qed.

Lemma ensure_live c : live c -> persisted c = Some Unenrolled -> pairing c = None ->
  exists c' q, run_op env EnsurePendingPairing c = (Ok Done, c') /\ live c' /\
    persisted c' = Some Unenrolled /\ pairing c' = Some q /\ backoff c' = backoff c.
Proof.
  intros L Hp Hq. destruct (prepare_live c L) as (c1 & Hprep & A).
  pose proof (advanced_live _ _ L A) as L1. destruct A as (As & Ap & Aq & Ax & Ab & At).
  destruct (working_boot (tick c1)) as (b & Hb & Hbr). destruct (random_live Codes.PAIRING_CODE_BYTES (next c1)) as (bytes & Hr & _).
  destruct (run_op env EnsurePendingPairing c) as [r c'] eqn:Hrun.
  pose proof (run_refines env _ _ _ _ (live_wf _ L) Hrun) as (W' & _).
  unfold run_op, replying, ensure_pending_pairing in Hrun. rewrite (bind_ok _ _ _ _ _ Hprep), bind_get in Hrun.
  rewrite Ap, Aq, Hp, Hq, bool_decide_eq_true_2 in Hrun by done. simpl in Hrun.
  unfold boot_now, boot, bind at 1 2 in Hrun. rewrite Hb in Hrun. unfold lift in Hrun. simpl in Hrun.
  rewrite (bind_ok _ _ _ _ _ Hr) in Hrun. unfold wall, bind, modify in Hrun. simplify_eq/=.
  eexists _, _. split_and!; [done| |simpl; congruence|done|done].
  destruct L1 as [W1 Hu Hk _ _]. split; [done..| |]; simpl.
  - intros q [= <-]. simpl. unfold u64_add, wrap. rewrite Z.mod_small; [lia|].
    pose proof working_boot_range. unfold PAIRING_LIFETIME in *. lia.
  - intros ph rh dl. rewrite Ap, Hp. by intros [=].
Qed.

Lemma get_pairing_live c q : live c -> pairing c = Some q ->
  exists c' text, run_op env GetPendingPairing c = (Ok (PendingPairing true text (expires_at q)), c') /\
    Codes.encode_pairing_code (code q) = Ok text /\ advanced c c'.
Proof.
  intros L Hq. destruct (prepare_live c L) as (c1 & Hprep & A). pose proof A as (_ & _ & Aq & _).
  destruct (wf_pairing _ (live_wf _ L) _ Hq) as (_ & _ & _ & Hb & _).
  destruct (Codes.encode_pairing_code_ok _ Hb) as [text Ht]. exists c1, text. split_and!; [|done..].
  unfold run_op, replying, get_pending_pairing. rewrite (bind_ok _ _ _ _ _ Hprep), bind_get, Aq, Hq.
  by rewrite bind_lift, Ht.
Qed.

(** A password the machine accepts: long enough, not too long, and neither
    a code nor a key. *)
Definition acceptable (pw : string) : Prop :=
  ~ too_short pw /\ str_len pw <= PASSWORD_MAX_BYTES /\
  (forall code, Codes.parse_pairing_code pw <> Ok code) /\ (forall key, ~ is_a_key pw key).

Lemma check_acceptable pw : acceptable pw ->
  check_password_bound pw = Ok tt /\ check_new_password pw = Ok tt /\
  (forall code, parses_to (Codes.parse_pairing_code pw) code = Ok false) /\
  (forall key, password_equals_key pw key = Ok false).
Proof.
  intros (Hs & Hl & Hc & Hk). split_and!.
  - unfold check_password_bound. destruct (Z.ltb_spec PASSWORD_MAX_BYTES (str_len pw)); [lia|done].
  - destruct (check_new_password_spec pw) as [[_ ?]|[? _]]; done.
  - intros code. destruct (parses_to_spec _ code (Codes.parse_pairing_code_no_panic pw)) as ([] & Hb & Hi); [|done].
    by destruct (Hc code), Hi; auto.
  - intros key. unfold password_equals_key.
    destruct (parses_to_spec _ key (Codes.parse_recovery_key_no_panic (str_to_ascii_uppercase pw))) as ([] & Hb & Hi); [|done].
    destruct (Hk key). by apply Hi.
Qed.

(** The text handed out and the key handed out are accepted back. *)
Lemma code_accepted q text : Forall is_byte (code q) -> List.length (code q) = Codes.PAIRING_CODE_BYTES ->
  Codes.encode_pairing_code (code q) = Ok text ->
  Codes.parse_pairing_code text = Ok (code q) /\ (CODE_MAX_BYTES <? str_len text) = false.
Proof.
  intros Hb Hl He. destruct (Codes.pairing_code_round_trip _ _ Hb Hl He) as [Hp Hn].
  split; [done|]. apply Z.ltb_ge. unfold str_len. by rewrite Hn.
Qed.

Lemma key_accepted key text : Forall is_byte key -> List.length key = Codes.RECOVERY_KEY_BYTES ->
  Codes.encode_recovery_key key = Ok text -> parse_recovery_key text = Ok key.
Proof.
  intros Hb Hl He. destruct (Codes.recovery_key_round_trip _ _ Hb Hl He) as [Hp Hn].
  unfold parse_recovery_key. replace (CODE_MAX_BYTES <? str_len text) with false; [by rewrite Hp|].
  symmetry. apply Z.ltb_ge. unfold str_len. by rewrite Hn.
Qed.

Lemma consume_live c q text pw : live c -> pairing c = Some q -> acceptable pw ->
  Codes.encode_pairing_code (code q) = Ok text ->
  exists c' key ph rh dl k, run_op env (ConsumePairing text pw) c = (Ok (RecoveryKey key), c') /\ live c' /\
    persisted c' = Some (EnrolledUnconfirmed ph rh dl) /\ backoff c' = backoff c /\
    hasher_verify (bytes_of pw) ph = Ok true /\ hasher_verify (bytes_of key) rh = Ok true /\
    parse_recovery_key key = Ok k.
Proof.
  intros L Hq Hacc Htext. destruct (prepare_live c L) as (c1 & Hprep & A).
  pose proof (advanced_live _ _ L A) as L1. destruct A as (As & Ap & Aq & Ax & Ab & At).
  destruct (wf_pairing _ (live_wf _ L) _ Hq) as (Hp & _ & Hcl & Hcb & _).
  destruct (code_accepted q text Hcb Hcl Htext) as [Hparse Hlen].
  destruct (check_acceptable pw Hacc) as (Hbound & Hnew & Hcode & Hkey).
  destruct (random_live Codes.RECOVERY_KEY_BYTES c1) as (key & Hr & Hkl & Hkb).
  destruct (Codes.encode_recovery_key_ok key Hkb) as [encoded Henc].
  destruct (hash_live pw (next c1)) as (ph & Hph & _ & Vph & Tph).
  destruct (hash_live encoded (next (next c1))) as (rh & Hrh & _ & Vrh & Trh).
  assert (advanced c1 (next (next (next (next c1))))) as A4 by (split_and!; simpl; first [done|lia]).
  pose proof (advanced_live _ _ L1 A4) as L4.
  set (dl := u64_add (wall_at env (S (S (S (tick c1))))) CONFIRMATION_WINDOW).
  destruct (commit_live (EnrolledUnconfirmed ph rh dl) _ L4) as (c5 & Hc & Hp5 & Hq5 & Hu5 & Hb5 & Ht5);
    [simpl; by rewrite Vph, Vrh|].
  destruct (run_op env (ConsumePairing text pw) c) as [r c'] eqn:Hrun.
  pose proof (run_refines env _ _ _ _ (live_wf _ L) Hrun) as (W' & _).
  unfold run_op, replying, consume_pairing in Hrun.
  rewrite (bind_ok _ _ _ _ _ Hprep), bind_lift, Hbound, bind_lift, Hlen, bind_lift, Hparse in Hrun.
  cbn [map_err] in Hrun. rewrite bind_get, Ap, Hp, bind_lift, bind_lift, Aq, Hq in Hrun. cbn [ok_or] in Hrun.
  rewrite constant_time_eq_spec, bool_decide_eq_true_2 in Hrun by done. cbn [negb] in Hrun. cbv zeta in Hrun.
  rewrite bind_lift, Hnew, bind_lift, Hcode, bind_lift, (bind_ok _ _ _ _ _ Hr), bind_lift, Hkey, bind_lift, bind_lift, Henc in Hrun.
  cbn [map_err] in Hrun. rewrite (bind_ok _ _ _ _ _ Hph), (bind_ok _ _ _ _ _ Hrh) in Hrun.
  unfold wall in Hrun. unfold bind at 1 in Hrun. cbn [tick next] in Hrun. fold dl in Hrun.
  rewrite (bind_ok _ _ _ _ _ Hc), !bind_modify in Hrun. unfold ret in Hrun. simplify_eq/=.
  eexists _, _, ph, rh, dl, key. split_and!; [done| |simpl; congruence|simpl; congruence|done|done|by apply key_accepted].
  split; simpl; [done|done|by rewrite Hp5|done|].
  intros ph' rh' dl'. rewrite Hp5. intros [= <- <- <-]. exists (S (S (S (tick c1)))). split; [rewrite Ht5; simpl; lia|].
  pose proof (live_range (S (S (S (tick c1))))). unfold dl, u64_add, wrap, CONFIRMATION_WINDOW in *.
  rewrite Z.mod_small; [done|]. simpl in *. lia.
Qed.

Lemma check_backoff_open s c : backoff c !! s = None -> check_backoff env s c = (Ok tt, c).
Proof. intros Hb. unfold check_backoff. by rewrite bind_get, Hb. Qed.

Lemma confirm_live key k c ph rh dl : live c -> persisted c = Some (EnrolledUnconfirmed ph rh dl) ->
  parse_recovery_key key = Ok k -> hasher_verify (bytes_of key) rh = Ok true ->
  backoff c !! Confirmation = None ->
  exists c', run_op env (ConfirmRecoveryKey key) c = (Ok Done, c') /\ live c' /\
    persisted c' = Some (Enrolled ph rh) /\ backoff c' = backoff c.
Proof.
  intros L Hp Hk Hv Hb. destruct (prepare_live c L) as (c1 & Hprep & A).
  pose proof (advanced_live _ _ L A) as L1. destruct A as (As & Ap & Aq & Ax & Ab & At).
  destruct (prepare_live c1 L1) as (c2 & Hprep2 & A2).
  pose proof (advanced_live _ _ L1 A2) as L2. destruct A2 as (As2 & Ap2 & Aq2 & Ax2 & Ab2 & At2).
  assert (persisted c2 = Some (EnrolledUnconfirmed ph rh dl)) as Hp2 by congruence.
  assert (all_hashes store_valid_hash (Enrolled ph rh) = true) as Hh.
  { exact (view_accepts _ _ (wf_view _ (live_wf _ L2) _ Hp2)). }
  destruct (commit_live (Enrolled ph rh) c2 L2 Hh) as (c3 & Hc & Hp3 & Hq3 & Hu3 & Hb3 & Ht3).
  destruct (run_op env (ConfirmRecoveryKey key) c) as [r c'] eqn:Hrun.
  pose proof (run_refines env _ _ _ _ (live_wf _ L) Hrun) as (W' & _).
  unfold run_op, replying, confirm_recovery_key in Hrun.
  rewrite (bind_ok _ _ _ _ _ Hprep), bind_lift, Hk, bind_get, Ap, Hp, bind_lift in Hrun.
  rewrite (bind_ok _ _ _ _ _ (check_backoff_open Confirmation c1 ltac:(by rewrite Ab))) in Hrun.
  rewrite (bind_ok _ _ _ _ _ (verify_live key rh true c1 Hv)), (bind_ok _ _ _ _ _ Hprep2), bind_get, Hp2 in Hrun.
  cbn [is_unconfirmed negb] in Hrun. rewrite andb_false_r, (bind_ok _ _ _ _ _ Hc) in Hrun.
  unfold record_success, modify in Hrun. simplify_eq/=.
  eexists. split_and!; [done| |simpl; congruence|simpl; rewrite Hb3, Ab2, Ab; by apply delete_id].
  split; simpl; [done|done|by rewrite Hp3| |by rewrite Hp3].
  intros q. rewrite Hq3, Aq2, Aq. apply (live_pairing _ L).
Qed.

Lemma verify_op_live uid pw c ph rh : live c -> persisted c = Some (Enrolled ph rh) ->
  str_len pw <= PASSWORD_MAX_BYTES -> hasher_verify (bytes_of pw) ph = Ok true ->
  backoff c !! Password uid = None ->
  exists c', run_op env (VerifyPassword uid pw) c = (Ok Done, c') /\ store c' = store c.
Proof.
  intros L Hp Hl Hv Hb. destruct (prepare_live c L) as (c1 & Hprep & A).
  destruct A as (As & Ap & Aq & Ax & Ab & At). unfold run_op, replying, verify_password.
  rewrite (bind_ok _ _ _ _ _ Hprep), bind_lift. unfold check_password_bound.
  destruct (Z.ltb_spec PASSWORD_MAX_BYTES (str_len pw)); [lia|].
  rewrite bind_get, Ap, Hp, bind_lift.
  rewrite (bind_ok _ _ _ _ _ (check_backoff_open (Password uid) c1 ltac:(by rewrite Ab))).
  rewrite (bind_ok _ _ _ _ _ (verify_live pw ph true c1 Hv)). unfold record_success, modify. by eexists.
Qed.

(** C19. When the system works, enrollment goes through: from an unenrolled
    daemon, creating a pairing, reading its code, consuming it with an
    acceptable password, confirming the key that was handed out and
    verifying the password all succeed, in that order, and the enrollment
    is then on disk. *)
Theorem enrollment_completes uid pw c : live c -> persisted c = Some Unenrolled -> pairing c = None ->
  backoff c = ∅ -> acceptable pw ->
  exists text at_ key c' ph rh,
    run_all env [EnsurePendingPairing; GetPendingPairing; ConsumePairing text pw;
                 ConfirmRecoveryKey key; VerifyPassword uid pw] c =
      ([(EnsurePendingPairing, Ok Done); (GetPendingPairing, Ok (PendingPairing true text at_));
        (ConsumePairing text pw, Ok (RecoveryKey key)); (ConfirmRecoveryKey key, Ok Done);
        (VerifyPassword uid pw, Ok Done)], c') /\
    store_view (store c') = Ok (Enrolled ph rh).
Proof.
  intros L Hp Hq Hb Hacc.
  destruct (ensure_live c L Hp Hq) as (c1 & q & Hrun1 & L1 & Hp1 & Hq1 & Hb1).
  destruct (get_pairing_live c1 q L1 Hq1) as (c2 & text & Hrun2 & Ht & A2).
  pose proof (advanced_live _ _ L1 A2) as L2. destruct A2 as (_ & _ & Aq2 & _ & Ab2 & _).
  destruct (consume_live c2 q text pw L2 ltac:(congruence) Hacc Ht)
    as (c3 & key & ph & rh & dl & k & Hrun3 & L3 & Hp3 & Hb3 & Vph & Vrh & Hk).
  destruct (confirm_live key k c3 ph rh dl L3 Hp3 Hk Vrh) as (c4 & Hrun4 & L4 & Hp4 & Hb4).
  { by rewrite Hb3, Ab2, Hb1, Hb. }
  destruct (verify_op_live uid pw c4 ph rh L4 Hp4) as (c5 & Hrun5 & Hs5); [apply Hacc|done| |].
  { by rewrite Hb4, Hb3, Ab2, Hb1, Hb. }
  exists text, (expires_at q), key, c5, ph, rh. split.
  - cbn [run_all]. by rewrite Hrun1, Hrun2, Hrun3, Hrun4, Hrun5.
  - rewrite Hs5. by apply (wf_view _ (live_wf _ L4)).
Qed.
End Live.

(** ** The state directory without faults *)
Section Disk.
Context `{Argon2Api} `{StateFileJson} `{HR : Hasher} (env : Env).
Context (io_at : nat -> WriteIo) (failing_at : nat -> bool).

#[local] Instance the_store : StoreOps Fs := disk_store io_at failing_at.

(** C36. A state file that cannot be used refuses everything but a reset:
    whatever the directory holds, if the file does not load then every
    other operation answers [Unavailable] and changes nothing, while a reset
    succeeds and leaves a durable unenrolled state. *)
Theorem unusable_file_needs_reset fs e :
  (forall n step, fails (io_at n) step = false) -> (forall n, failing_at n = false) ->
  is_Some (to_vec (state_file Unenrolled)) -> load false (disk fs) = Err e ->
  (forall op, op <> ResetEnrollment -> run_op env op (open env fs) = (Err Unavailable, open env fs)) /\
  exists c', run_op env ResetEnrollment (open env fs) = (Ok Done, c') /\
    auth c' = AUnenrolled false /\ backoff c' = ∅ /\
    load false {| visible := durable (disk (store c')); durable := durable (disk (store c'));
                  temporary := None |} = Ok Unenrolled.
Proof.
  intros Hio Hf Hvec Hl. destruct (remove_stale_temporary (failing_at 0) fs) as [r fs'] eqn:Hr.
  pose proof (remove_stale_temporary_spec _ _ _ _ Hr) as (Hv & _ & Hok & Ht).
  assert (r = Ok tt) as -> by (apply Hok, Hf). specialize (Ht eq_refl).
  assert (open env fs = {| store := fs'; persisted := None; pairing := None; expired_provisional := false;
                           backoff := ∅; tick := 2 |}) as ->.
  { unfold open. simpl. rewrite Hr, Hf. unfold load in *. by rewrite Hv, Hl. }
  split; [by intros []|].
  destruct (write_without_faults (io_at 2) Unenrolled fs' (Hio 2%nat) Hvec Ht) as [fs2 Hw].
  unfold run_op, replying, reset_enrollment, commit, bind, modify. simpl. rewrite Hw.
  eexists. split_and!; [done..|]. simpl.
  apply write_cases in Hw as (bytes & Hb & ->). simpl.
    by apply (load_file_written Unenrolled bytes true).
Qed.
End Disk.
End MachineLive.
