(* ===== verification/MachineExamples.v ===== *)
(** * The authentication state machine at work

    A concrete world (a trivial hash, a serializer, a directory without
    faults and constant clocks), concrete runs, and the instances of the
    theorems of the machine in that world. *)
From S2P Require Import Prelude Codes Hash Store Machine MachineFacts MachineSpec MachineProps MachineLive.

Module MachineExamples.
Import Hash Store Machine MachineFacts MachineSpec MachineProps MachineLive.

#[local] Existing Instance toy_argon2.
#[local] Existing Instance binary_json.

Definition toy_engine : Argon2id := {| params := tt |}.
Definition no_faults : WriteIo := {| fails _ := false; written_on_failure := ""; cleanup_fails := false |}.
Definition toy_store : StoreOps Fs := disk_store (fun _ => no_faults) (fun _ => false).
Definition toy_hasher : Hasher := argon2id_hasher toy_engine.
Definition toy_store_laws : @StoreLaws Fs toy_store := disk_store_laws _ _.
#[local] Existing Instance toy_store.
#[local] Existing Instance toy_hasher.
#[local] Existing Instance toy_store_laws.

(** Clocks that stand still, and bytes that repeat. *)
Definition toy_env : Env := {|
  wall_at _ := 1000;
  boot_at _ := Some 100;
  random_at _ N := Some (replicate N 7)
|}.

Lemma toy_prefix s : String.prefix "$argon2id$" ("$argon2id$" +:+ s) = true.
Proof. by destruct s. Qed.

Lemma toy_valid s : is_valid_phc ("$argon2id$" +:+ s) = true.
Proof. unfold is_valid_phc, phc_new, toy_argon2. rewrite toy_prefix. reflexivity. Qed.

Lemma toy_verifies secret : argon2id_verify toy_engine secret ("$argon2id$" +:+ string_of secret) = Ok true.
Proof.
  unfold argon2id_verify. rewrite toy_valid. unfold phc_new, engine_verify, toy_argon2.
  rewrite toy_prefix. cbn [negb ok_or res_bind]. by rewrite (proj2 (String.eqb_eq _ _) eq_refl).
Qed.

#[local] Instance toy_hasher_laws : HasherLaws store_valid_hash.
Proof.
  split.
  - intros secret salt h [= <-]. apply toy_valid.
  - intros secret salt h [= <-]. apply toy_verifies.
  - done.
  - intros secret phc. cbv [hasher_verify toy_hasher argon2id_hasher argon2id_verify].
    destruct (is_valid_phc phc); [|done]. destruct (phc_new phc); simpl; by repeat case_match.
Qed.

#[local] Instance toy_env_laws : EnvLaws toy_env.
Proof.
  split; simpl.
  - intros _. lia.
  - intros _ b [= <-]. lia.
  - intros _ N bytes [= <-]. split; [apply length_replicate|]. apply Forall_replicate. unfold is_byte. lia.
Qed.

Definition toy_start : Core Fs := open toy_env {| disk := toy_disk; past := [] |}.

Definition toy_usable (fs : Fs) : Prop := temporary (disk fs) = None.

#[local] Instance toy_working : Working toy_env toy_usable 100 1000.
Proof.
  split; simpl.
  - intros _. exists 100. split; [done|]. unfold PAIRING_LIFETIME. lia.
  - lia.
  - intros _ _ _. lia.
  - intros _. unfold CONFIRMATION_WINDOW. lia.
  - lia.
  - intros _ N. by eexists.
  - intros secret salt _. by eexists.
  - intros n s d Hu Hs. destruct (write_without_faults no_faults s d) as [d' Hw]; [done|by eexists|done|].
    exists d'. split; [done|]. apply write_cases in Hw as (bytes & _ & Hd). unfold toy_usable. by rewrite Hd.
Defined.

Definition toy_password : string := "correct horse battery".
Definition toy_code : string := "0W3GE1R7".
Definition toy_key : string := "0W3GE1R70W3GE1R70W3GE1R70W".

Example toy_enrollment :
  (run_all toy_env [EnsurePendingPairing; GetPendingPairing; ConsumePairing toy_code toy_password;
                    ConfirmRecoveryKey toy_key; VerifyPassword 1000 toy_password;
                    VerifyPassword 1000 "wrong"] toy_start).1.*2 =
  [Ok Done; Ok (PendingPairing true toy_code 1600); Ok (RecoveryKey toy_key); Ok Done; Ok Done;
   Err InvalidCredential].
Proof. vm_compute. reflexivity. Qed.

(** ** The theorems in this world *)

Definition after (ops : list Op) : Core Fs := (run_all toy_env ops toy_start).2.

Lemma run_all_wf ops : forall c, wf c -> wf (run_all toy_env ops c).2.
Proof.
  induction ops as [|op ops IH]; intros c W; simpl; [done|].
  destruct (run_op toy_env op c) as [r c1] eqn:E. apply (run_refines toy_env) in E as [W1 _]; [|done].
  specialize (IH c1 W1). by destruct (run_all toy_env ops c1).
Qed.

Lemma after_wf ops : wf (after ops).
Proof. apply run_all_wf, (open_starts toy_env). Qed.

Definition paired : Core Fs := after [EnsurePendingPairing].
Definition provisional : Core Fs := after [EnsurePendingPairing; ConsumePairing toy_code toy_password].
Definition enrolled_ops : list Op :=
  [EnsurePendingPairing; ConsumePairing toy_code toy_password; ConfirmRecoveryKey toy_key].
Definition locked : Core Fs := after (enrolled_ops ++ replicate 5 (VerifyPassword 1000 "wrong"))%list.

Lemma operations_refine_witness :
  let '(r, c') := run_op toy_env (ConsumePairing toy_code toy_password) paired in
  wf c' /\ r <> Panic /\
  exists a, norm (auth paired) a /\ effect (ConsumePairing toy_code toy_password) a r (auth c').
Proof.
  destruct (run_op toy_env (ConsumePairing toy_code toy_password) paired) as [r c'] eqn:E.
  exact (operations_refine toy_env _ paired r c' (after_wf _) E).
Defined.

Lemma open_normalizes_witness : wf toy_start /\ pending (auth toy_start) = None /\
  (norm (loaded {| disk := toy_disk; past := [] |}) (auth toy_start) \/ auth toy_start = AInvalid).
Proof. exact (open_normalizes toy_env {| disk := toy_disk; past := [] |}). Defined.

Lemma enrollment_requires_proof_witness :
  wf (after enrolled_ops) /\ provenance (run_all toy_env enrolled_ops toy_start).1 (auth (after enrolled_ops)).
Proof.
  apply (enrollment_requires_proof toy_env {| disk := toy_disk; past := [] |} enrolled_ops).
  - intros ph rh. vm_compute. done.
  - intros ph rh dl. vm_compute. done.
  - apply surjective_pairing.
Defined.

Definition guessing : list Op := replicate 7 (ConsumePairing "00000000" toy_password).





Lemma backoff_delay_table_witness : 0 <= 9 /\
  backoff_delay 9 = (if 9 <? 5 then 0 else Z.min (2 ^ (9 - 5)) 900) /\
  (forall g, 9 <= g -> backoff_delay 9 <= backoff_delay g <= 900).
Proof. split; [lia|]. apply (backoff_delay_table 9). lia. Defined.

Lemma toy_acceptable : acceptable toy_password.
Proof.
  assert (Codes.parse_pairing_code toy_password = Err tt) as Hc by (vm_compute; reflexivity).
  assert (Codes.parse_recovery_key (str_to_ascii_uppercase toy_password) = Err tt) as Hk by (vm_compute; reflexivity).
  split_and!.
  - by vm_compute.
  - by vm_compute.
  - intros code. by rewrite Hc.
  - intros key. unfold is_a_key. by rewrite Hk.
Qed.

Lemma toy_live : live toy_env toy_usable 100 toy_start.
Proof.
  split.
  - apply (open_starts toy_env).
  - vm_compute. reflexivity.
  - vm_compute. by eexists.
  - vm_compute. intros q [=].
  - vm_compute. intros ph rh dl [=].
Qed.

Lemma enrollment_completes_witness : exists text at_ key c' ph rh,
  run_all toy_env [EnsurePendingPairing; GetPendingPairing; ConsumePairing text toy_password;
                   ConfirmRecoveryKey key; VerifyPassword 1000 toy_password] toy_start =
    ([(EnsurePendingPairing, Ok Done); (GetPendingPairing, Ok (PendingPairing true text at_));
      (ConsumePairing text toy_password, Ok (RecoveryKey key)); (ConfirmRecoveryKey key, Ok Done);
      (VerifyPassword 1000 toy_password, Ok Done)], c') /\
  store_view (store c') = Ok (Enrolled ph rh).
Proof.
  apply (enrollment_completes toy_env toy_usable 100 1000 1000 toy_password toy_start).
  - exact toy_live.
  - vm_compute. reflexivity.
  - vm_compute. reflexivity.
  - vm_compute. reflexivity.
  - exact toy_acceptable.
Defined.

Definition corrupt : Fs :=
  {| disk := {| visible := Some {| contents := "{"; synced := true |}; durable := None; temporary := None |}; past := [] |}.

Lemma unusable_file_needs_reset_witness :
  (forall op, op <> ResetEnrollment ->
     run_op toy_env op (open toy_env corrupt) = (Err Unavailable, open toy_env corrupt)) /\
  exists c', run_op toy_env ResetEnrollment (open toy_env corrupt) = (Ok Done, c') /\
    auth c' = AUnenrolled false /\ backoff c' = ∅ /\
    load false {| visible := durable (disk (store c')); durable := durable (disk (store c'));
                  temporary := None |} = Ok Unenrolled.
Proof.
  apply (unusable_file_needs_reset toy_env (fun _ => no_faults) (fun _ => false) corrupt Invalid).
  - done.
  - done.
  - vm_compute. by eexists.
  - vm_compute. reflexivity.
Defined.
End MachineExamples.
