(* ===== verification/Sessions.v ===== *)
(** * Web sessions ([remoted/src/sessions.rs])

    The session table behind its mutex.  Each operation reads the clock
    before it takes the lock, so the time of an operation is an argument and
    two operations may reach the table out of clock order.  The order in
    which [HashMap] iterates is a parameter. *)
From S2P Require Import Prelude.

Module Sessions.

Definition IDLE_TIMEOUT : Z := 15 * 60.
Definition ABSOLUTE_TIMEOUT : Z := 8 * 60 * 60.
Definition MAX_SESSIONS : nat := 64.
Definition ID_BYTES : nat := 32.

Record Session := { created : Z; last_used : Z }.

(** [Sessions], with [poisoned] for a mutex whose holder panicked. *)
Record Sessions := { sessions : gmap string Session; poisoned : bool }.

Definition new : Sessions := {| sessions := ∅; poisoned := false |}.

Definition well_formed (id : string) : bool :=
  Nat.eqb (String.length id) (ID_BYTES * 2) && forallb is_lower_hex (bytes_of id).

Definition expired (session : Session) (now : Z) : bool :=
  (IDLE_TIMEOUT <=? u64_saturating_sub now (last_used session))
  || (ABSOLUTE_TIMEOUT <=? u64_saturating_sub now (created session)).

(** [min_by_key(|(_, session)| session.created)]: the first of the minimal
    entries. *)
Definition min_by_created (entries : list (string * Session)) : option (string * Session) :=
  match entries with
  | [] => None
  | first :: rest =>
      Some (foldl (fun best entry => if created entry.2 <? created best.2 then entry else best) first rest)
  end.

(** [sessions.retain(|_, session| !expired(session, now))] *)
Definition retain_live (now : Z) (m : gmap string Session) : gmap string Session :=
  filter (fun entry => expired entry.2 now = false) m.

Section Operations.
(** [HashMap::iter]: the entries of the table, in an unspecified order. *)
Context (iter : gmap string Session -> list (string * Session)).

(** Everything [create] does under the lock. *)
Definition admit_new (id : string) (now : Z) (m : gmap string Session) : gmap string Session :=
  let m := retain_live now m in
  let m :=
    if Nat.leb MAX_SESSIONS (size m) then
      match min_by_created (iter m) with
      | Some (oldest, _) => delete oldest m
      | None => m
      end
    else m in
  <[id := {| created := now; last_used := now |}]> m.

(** [Sessions::create]: [now] is what the clock answers and [random] what
    the random source fills in. *)
Definition create (now : option Z) (random : option (list Z)) : stm Sessions unit string :=
  let! now := lift (ok_or now tt) in
  let! bytes := lift (ok_or random tt) in
  let id := string_of (hex_of lower_digit bytes) in
  let! st := get in
  do! lift (if poisoned st then Err tt else Ok tt) in
  do! modify (fun st => {| sessions := admit_new id now (sessions st); poisoned := poisoned st |}) in
  ret id.

(** [Sessions::validate] *)
Definition validate (id : string) (now : option Z) (st : Sessions) : bool * Sessions :=
  if negb (well_formed id) then (false, st)
  else match now with
  | None => (false, st)
  | Some now =>
      if poisoned st then (false, st)
      else match sessions st !! id with
      | Some session =>
          if negb (expired session now) then
            (true, {| sessions := <[id := {| created := created session; last_used := now |}]> (sessions st);
                      poisoned := poisoned st |})
          else (false, {| sessions := delete id (sessions st); poisoned := poisoned st |})
      | None => (false, st)
      end
  end.

(** [Sessions::remove] *)
Definition remove (id : string) (st : Sessions) : Sessions :=
  if poisoned st then st else {| sessions := delete id (sessions st); poisoned := poisoned st |}.

(** ** Histories *)

Inductive Event :=
  | Created (now : option Z) (random : option (list Z))
  | Validated (id : string) (now : option Z)
  | Removed (id : string).

Inductive Answer := Identifier (id : res string unit) | Validity (valid : bool) | Gone.

Definition step (e : Event) (st : Sessions) : Answer * Sessions :=
  match e with
  | Created now random => let (r, st) := create now random st in (Identifier r, st)
  | Validated id now => let (b, st) := validate id now st in (Validity b, st)
  | Removed id => (Gone, remove id st)
  end.

Fixpoint run (es : list Event) (st : Sessions) : list (Event * Answer) * Sessions :=
  match es with
  | [] => ([], st)
  | e :: es =>
      let (a, st) := step e st in
      let (trace, st) := run es st in
      ((e, a) :: trace, st)
  end.

(** What a history entitles its clients to: for each identifier handed out
    and not removed since, when it was created and last accepted.  It is
    computed from the answers alone, and forgets nothing but removals. *)
Definition grant (m : gmap string Session) (entry : Event * Answer) : gmap string Session :=
  match entry with
  | (Created (Some now) _, Identifier (Ok id)) => <[id := {| created := now; last_used := now |}]> m
  | (Validated id (Some now), Validity true) =>
      match m !! id with
      | Some session => <[id := {| created := created session; last_used := now |}]> m
      | None => m
      end
  | (Removed id, Gone) => delete id m
  | _ => m
  end.

Definition granted (trace : list (Event * Answer)) : gmap string Session := foldl grant ∅ trace.

(** ** The invariant *)

Record wf (st : Sessions) : Prop := {
  wf_size : (size (sessions st) <= MAX_SESSIONS)%nat;
  wf_ids id : is_Some (sessions st !! id) -> well_formed id = true;
  wf_poison : poisoned st = false
}.

(** The random source fills its 32-byte buffer with bytes. *)
Definition filled (random : option (list Z)) : Prop :=
  forall bytes, random = Some bytes -> List.length bytes = ID_BYTES /\ Forall is_byte bytes.

Definition event_ok (e : Event) : Prop :=
  match e with Created _ random => filled random | _ => True end.

Lemma identifier_well_formed bytes : List.length bytes = ID_BYTES -> Forall is_byte bytes ->
  well_formed (string_of (hex_of lower_digit bytes)) = true.
Proof.
  intros Hl Hb. destruct (lower_hex_of bytes Hb) as [Hx Hbytes].
  unfold well_formed. rewrite <- length_bytes_of, !bytes_of_string_of by done.
  rewrite length_hex_of, Hl, Hx. reflexivity.
Qed.

Lemma min_by_created_in entries best : min_by_created entries = Some best ->
  best ∈ entries /\ forall e, e ∈ entries -> created best.2 <= created e.2.
Proof.
  destruct entries as [|first rest]; [done|]. simpl. intros [= <-].
  revert first. induction rest as [|x rest IH]; intros first; simpl.
  - split; [by left|]. intros e He. apply list_elem_of_singleton in He as ->. lia.
  - destruct (Z.ltb_spec (created x.2) (created first.2)) as [Hlt|Hge].
    + destruct (IH x) as [Hin Hmin]. split; [by right|]. intros e He.
      apply elem_of_cons in He as [->|He]; [|by apply Hmin].
      specialize (Hmin x (list_elem_of_here x rest)). lia.
    + destruct (IH first) as [Hin Hmin]. split.
      * apply elem_of_cons in Hin as [->|Hin]; [by left|by right; right].
      * intros e He. specialize (Hmin first (list_elem_of_here first rest)) as Hf.
        apply elem_of_cons in He as [->|He]; [done|]. apply elem_of_cons in He as [->|He]; [lia|].
        apply Hmin. by right.
Qed.

Lemma retain_lookup now m id session :
  retain_live now m !! id = Some session <-> m !! id = Some session /\ expired session now = false.
Proof. unfold retain_live. by rewrite map_lookup_filter_Some. Qed.

Context (iter_permutation : forall m, iter m ≡ₚ map_to_list m).

Lemma oldest_spec now m best : min_by_created (iter (retain_live now m)) = Some best ->
  retain_live now m !! best.1 = Some best.2 /\
  forall id session, retain_live now m !! id = Some session -> created best.2 <= created session.
Proof.
  intros Hmin. apply min_by_created_in in Hmin as [Hin Hle]. rewrite iter_permutation in Hin. split.
  - destruct best. by apply elem_of_map_to_list in Hin.
  - intros id session Hs. apply (Hle (id, session)). rewrite iter_permutation. by apply elem_of_map_to_list.
Qed.

Lemma admit_new_lookup id now m other session : admit_new id now m !! other = Some session ->
  other = id /\ session = {| created := now; last_used := now |}
  \/ other <> id /\ m !! other = Some session /\ expired session now = false.
Proof.
  unfold admit_new. intros Hl. destruct (decide (other = id)) as [->|Hne].
  - left. rewrite lookup_insert_eq in Hl. by simplify_eq.
  - right. rewrite lookup_insert_ne in Hl by done. split; [done|]. apply retain_lookup.
    destruct (Nat.leb_spec MAX_SESSIONS (size (retain_live now m))); [|done].
    destruct (min_by_created _) as [[oldest o]|]; [|done]. by apply lookup_delete_Some in Hl as [_ ?].
Qed.

Lemma admit_new_size id now m : (size m <= MAX_SESSIONS)%nat ->
  (size (admit_new id now m) <= MAX_SESSIONS)%nat.
Proof.
  intros Hm. assert (size (retain_live now m) <= MAX_SESSIONS)%nat as Hr.
  { etrans; [|exact Hm]. apply map_subseteq_size, map_filter_subseteq. }
  unfold admit_new. rewrite map_size_insert. destruct (Nat.leb_spec MAX_SESSIONS (size (retain_live now m))) as [Hfull|Hroom].
  - destruct (min_by_created (iter (retain_live now m))) as [[oldest o]|] eqn:Hmin.
    + apply oldest_spec in Hmin as [Hin _]. simpl in Hin. rewrite map_size_delete, Hin. unfold MAX_SESSIONS in *. case_match; simpl; lia.
    + assert (iter (retain_live now m) = []) as He by (by destruct (iter (retain_live now m))).
      pose proof (iter_permutation (retain_live now m)) as Hp. rewrite He in Hp.
      apply Permutation_length in Hp. rewrite length_map_to_list in Hp. simpl in Hp. unfold MAX_SESSIONS in *. lia.
  - case_match; simpl; lia.
Qed.
Lemma create_inv now random st r st' : create now random st = (r, st') ->
  (exists t bytes, now = Some t /\ random = Some bytes /\ poisoned st = false /\
     r = Ok (string_of (hex_of lower_digit bytes)) /\
     st' = {| sessions := admit_new (string_of (hex_of lower_digit bytes)) t (sessions st); poisoned := false |})
  \/ r = Err tt /\ st' = st.
Proof.
  unfold create. rewrite bind_lift. destruct now as [t|]; simpl; [|intros; simplify_eq; by right].
  rewrite bind_lift. destruct random as [bytes|]; simpl; [|intros; simplify_eq; by right].
  rewrite bind_get, bind_lift. destruct (poisoned st) eqn:Hp; [intros; simplify_eq; by right|].
  rewrite bind_modify. unfold ret. intros Hr. simplify_eq. left. exists t, bytes. rewrite Hp. auto.
Qed.

Lemma step_wf e st a st' : wf st -> event_ok e -> step e st = (a, st') -> wf st'.
Proof.
  intros [Hs Hi Hp] He. destruct e as [now random|id now|id]; simpl.
  - destruct (create now random st) as [r st1] eqn:Hc. intros; simplify_eq.
    apply create_inv in Hc as [(t & bytes & -> & -> & _ & -> & ->)|[-> ->]]; [|by split].
    destruct (He bytes eq_refl) as [Hl Hb]. split; simpl; [by apply admit_new_size| |done].
    intros other [session Ho]. apply admit_new_lookup in Ho as [[-> _]|(_ & Ho & _)];
      [by apply identifier_well_formed|]. apply Hi. by exists session.
  - unfold validate. destruct (well_formed id) eqn:Hw; simpl; [|intros; by simplify_eq].
    destruct now as [now|]; [|intros; by simplify_eq]. rewrite Hp.
    destruct (sessions st !! id) as [session|] eqn:Hl; [|intros; by simplify_eq].
    destruct (expired session now); simpl; intros; simplify_eq; split; simpl; try done.
    + rewrite map_size_delete, Hl. simpl. lia.
    + intros other [s Ho]. apply lookup_delete_Some in Ho as [_ Ho]. apply Hi. by exists s.
    + rewrite map_size_insert_Some; [done|by exists session].
    + intros other Ho. apply lookup_insert_is_Some in Ho as [->|[_ Ho]]; [done|by apply Hi].
  - unfold remove. rewrite Hp. intros; simplify_eq. split; simpl; [|intros other [s Ho]|done].
    + rewrite map_size_delete. case_match; simpl; lia.
    + apply lookup_delete_Some in Ho as [_ Ho]. apply Hi. by exists s.
Qed.

(** The table only ever holds sessions the history granted. *)
Lemma step_granted e st a st' g : wf st -> sessions st ⊆ g -> step e st = (a, st') ->
  sessions st' ⊆ grant g (e, a).
Proof.
  intros [_ _ Hp] Hg. destruct e as [now random|id now|id]; simpl.
  - destruct (create now random st) as [r st1] eqn:Hc. intros; simplify_eq.
    apply create_inv in Hc as [(t & bytes & -> & -> & _ & -> & ->)|[-> ->]]; [|by destruct now].
    apply map_subseteq_spec. intros other session Ho. simpl in Ho.
    apply admit_new_lookup in Ho as [[-> ->]|(Hne & Ho & _)]; [by rewrite lookup_insert_eq|].
    rewrite lookup_insert_ne by done. by eapply lookup_weaken.
  - unfold validate. destruct (well_formed id); simpl; [|intros; simplify_eq; by destruct now].
    destruct now as [now|]; [|intros; by simplify_eq]. rewrite Hp.
    destruct (sessions st !! id) as [session|] eqn:Hl; [|intros; by simplify_eq].
    destruct (expired session now); simpl; intros; simplify_eq; simpl.
    + etrans; [apply delete_subseteq|done].
    + rewrite (lookup_weaken _ _ _ _ Hl Hg). by apply insert_mono.
  - unfold remove. rewrite Hp. intros; simplify_eq; simpl. by apply delete_mono.
Qed.

Lemma run_inv es : forall st g trace st', wf st -> Forall event_ok es -> sessions st ⊆ g ->
  run es st = (trace, st') -> wf st' /\ sessions st' ⊆ foldl grant g trace.
Proof.
  induction es as [|e es IH]; intros st g trace st' W He Hg Hrun; simpl in Hrun; simplify_eq; [done|].
  apply Forall_cons in He as [He1 He]. destruct (step e st) as [a st1] eqn:Hs.
  destruct (run es st1) as [trace1 st2] eqn:Hr. simplify_eq. simpl.
  apply (IH st1); [by eapply step_wf|done|by eapply step_granted|done].
Qed.

Lemma new_wf : wf new.
Proof. split; simpl; [rewrite map_size_empty; lia|intros id [s Hs]; by rewrite lookup_empty in Hs|done]. Qed.


(** Authentication by a session is exact: an identifier is accepted
    precisely when it is well formed and names a session of the table idle
    for less than fifteen minutes and created less than eight hours ago; it is
    then marked as used, an expired one is dropped, and no other session is
    affected. *)
Theorem validate_spec id now st b st' : wf st -> validate id (Some now) st = (b, st') ->
  (b = true <-> exists session, sessions st !! id = Some session /\
     now - last_used session < IDLE_TIMEOUT /\ now - created session < ABSOLUTE_TIMEOUT) /\
  (forall session, b = true -> sessions st !! id = Some session ->
     sessions st' !! id = Some {| created := created session; last_used := now |}) /\
  (b = false -> sessions st' !! id = None) /\
  (forall other, other <> id -> sessions st' !! other = sessions st !! other).
Proof.
  intros [Hs Hi Hp] Hv. unfold validate in Hv. rewrite Hp in Hv.
  destruct (sessions st !! id) as [session|] eqn:Hl.
  - rewrite (Hi id) in Hv by (by exists session). simpl in Hv.
    assert (expired session now = false <-> now - last_used session < IDLE_TIMEOUT /\ now - created session < ABSOLUTE_TIMEOUT) as Hx.
    { unfold expired, u64_saturating_sub, IDLE_TIMEOUT, ABSOLUTE_TIMEOUT. rewrite orb_false_iff, !Z.leb_gt. lia. }
    destruct (expired session now) eqn:He; simpl in Hv; simplify_eq; simpl; (split_and!; [|..]).
    + split; [done|]. intros (s & [= <-] & H1 & H2). by pose proof (proj2 Hx (conj H1 H2)).
    + done.
    + intros _. apply lookup_delete_eq.
    + intros other Hne. by apply lookup_delete_ne.
    + split; [|done]. intros _. exists session. split; [done|]. by apply Hx.
    + intros s _ [= <-]. apply lookup_insert_eq.
    + done.
    + intros other Hne. by apply lookup_insert_ne.
  - assert (b = false /\ st' = st) as [-> ->].
    { destruct (well_formed id); simpl in Hv; by simplify_eq. }
    split_and!; try done. split; [done|]. by intros (s & ? & _).
Qed.

(** A creation evicts as little as it can: it succeeds whenever the clock,
    the random source and the lock do; the identifier spells the random bytes,
    so different bytes give different identifiers; every live session stays,
    unless the table was full of them, and then exactly the oldest one goes. *)
Theorem create_spec now bytes st : wf st -> List.length bytes = ID_BYTES -> Forall is_byte bytes ->
  exists id, create (Some now) (Some bytes) st =
    (Ok id, {| sessions := admit_new id now (sessions st); poisoned := false |}) /\
  well_formed id = true /\
  (forall bytes', Forall is_byte bytes' -> string_of (hex_of lower_digit bytes') = id -> bytes' = bytes) /\
  admit_new id now (sessions st) !! id = Some {| created := now; last_used := now |} /\
  exists evicted : option string,
    (forall other session, other <> id -> Some other <> evicted -> sessions st !! other = Some session ->
       expired session now = false -> admit_new id now (sessions st) !! other = Some session) /\
    (forall oldest, evicted = Some oldest ->
       (MAX_SESSIONS <= size (retain_live now (sessions st)))%nat /\
       exists session, retain_live now (sessions st) !! oldest = Some session /\
       forall other s, retain_live now (sessions st) !! other = Some s -> created session <= created s).
Proof.
  intros [Hs Hi Hp] Hl Hb. exists (string_of (hex_of lower_digit bytes)). split_and!.
  - unfold create. simpl. unfold bind, lift, get, modify, ret. by rewrite Hp.
  - by apply identifier_well_formed.
  - intros bytes' Hb' Heq. apply (f_equal bytes_of) in Heq.
    destruct (lower_hex_of bytes Hb) as [_ ?], (lower_hex_of bytes' Hb') as [_ ?].
    rewrite !bytes_of_string_of in Heq by done.
    eapply hex_of_inj; [apply lower_digit_inj|done..].
  - apply lookup_insert_eq.
  - unfold admit_new. destruct (Nat.leb_spec MAX_SESSIONS (size (retain_live now (sessions st)))) as [Hfull|Hroom].
    + destruct (min_by_created (iter (retain_live now (sessions st)))) as [[oldest o]|] eqn:Hmin.
      * exists (Some oldest). apply oldest_spec in Hmin as [Hin Hmin]. split.
        -- intros other session Hne Hnev Ho Hx. rewrite lookup_insert_ne by done.
           rewrite lookup_delete_ne by congruence. by apply retain_lookup.
        -- intros ? [= <-]. split; [done|]. exists o. split; [done|]. exact Hmin.
      * exists None. split; [|done]. intros other session Hne _ Ho Hx.
        rewrite lookup_insert_ne by done. by apply retain_lookup.
    + exists None. split; [|done]. intros other session Hne _ Ho Hx.
      rewrite lookup_insert_ne by done. by apply retain_lookup.
Qed.
End Operations.

(** ** Instances *)

Definition sample_id (n : Z) : list Z := replicate ID_BYTES n.

Definition sample_events : list Event :=
  [Created (Some 10) (Some (sample_id 1)); Created (Some 20) (Some (sample_id 2));
   Validated (string_of (hex_of lower_digit (sample_id 1))) (Some 30);
   Removed (string_of (hex_of lower_digit (sample_id 2)))].

Lemma sample_bytes n : is_byte n -> List.length (sample_id n) = ID_BYTES /\ Forall is_byte (sample_id n).
Proof. split; [apply length_replicate|by apply Forall_replicate]. Qed.

Lemma sample_ok : Forall event_ok sample_events.
Proof.
  unfold sample_events. repeat apply Forall_cons_2; simpl; try done;
    intros bytes [= <-]; apply sample_bytes; unfold is_byte; lia.
Qed.


Lemma validate_spec_witness :
  let id := string_of (hex_of lower_digit (sample_id 1)) in
  let '(b, st') := validate id (Some 40) new in
  (b = true <-> exists session, sessions new !! id = Some session /\
     40 - last_used session < IDLE_TIMEOUT /\ 40 - created session < ABSOLUTE_TIMEOUT) /\
  (forall session, b = true -> sessions new !! id = Some session ->
     sessions st' !! id = Some {| created := created session; last_used := 40 |}) /\
  (b = false -> sessions st' !! id = None) /\
  (forall other, other <> id -> sessions st' !! other = sessions new !! other).
Proof.
  cbv zeta. destruct (validate (string_of (hex_of lower_digit (sample_id 1))) (Some 40) new) as [b st'] eqn:E.
  exact (validate_spec _ 40 new b st' new_wf E).
Defined.

Lemma create_spec_witness : exists id,
  create map_to_list (Some 5) (Some (sample_id 7)) new =
    (Ok id, {| sessions := admit_new map_to_list id 5 (sessions new); poisoned := false |}) /\
  well_formed id = true /\
  (forall bytes', Forall is_byte bytes' -> string_of (hex_of lower_digit bytes') = id -> bytes' = sample_id 7) /\
  admit_new map_to_list id 5 (sessions new) !! id = Some {| created := 5; last_used := 5 |} /\
  exists evicted : option string,
    (forall other session, other <> id -> Some other <> evicted -> sessions new !! other = Some session ->
       expired session 5 = false -> admit_new map_to_list id 5 (sessions new) !! other = Some session) /\
    (forall oldest, evicted = Some oldest ->
       (MAX_SESSIONS <= size (retain_live 5 (sessions new)))%nat /\
       exists session, retain_live 5 (sessions new) !! oldest = Some session /\
       forall other s, retain_live 5 (sessions new) !! other = Some s -> created session <= created s).
Proof.
  apply (create_spec map_to_list (fun m => Permutation_refl _) 5 (sample_id 7) new new_wf);
    apply sample_bytes; unfold is_byte; lia.
Defined.
End Sessions.
