(* ===== verification/FileSystem.v ===== *)
(** * The file system the workers run over

    The [std::fs] calls of the remote-management crates on a tree of nodes
    under the state directory.  Every call may fail for a reason outside the
    tree ([Io]); a call that cannot fail half-way leaves the tree as it was.
    A symbolic link is never followed: the code only ever makes links whose
    target it reads back, and a link met as a directory or a file is an
    error of the call. *)
From S2P Require Import Prelude.

Module FileSystem.

(** A path below the state directory, which is [[]]. *)
Abbreviation Path := (list string).

Inductive Kind := Directory | Regular (contents : list Z) | Symlink (target : string).

Record Node := { kind : Kind; mode : Z; group : option Z }.

Definition path_eq_dec : EqDecision Path := _.
Definition path_countable : @Countable Path path_eq_dec := _.
#[export] Existing Instances path_eq_dec path_countable.
Abbreviation Files := (@gmap Path path_eq_dec path_countable Node).

(** The [std::io::ErrorKind]s the code tells apart. *)
Inductive IoError := NotFound | AlreadyExists | Other.

(** The tree, the number of calls made, and the trees there were before them. *)
Record World := { files : Files; calls : nat; past : list Files }.

(** What the system does at the [n]-th call: whether it fails ([readlink(2)]
    apart from the others), what a failing [write_all] had written, which
    subtrees a failing [remove_dir_all] had removed, and in which order a
    directory is listed. *)
Record Io := {
  fails : nat -> bool;
  fails_read_link : nat -> bool;
  partial_write : nat -> list Z;
  partial_removal : nat -> Path -> bool;
  listing : nat -> list string -> list string
}.

(** [umask(0o077)]: what is left of a creation mode. *)
Definition masked (mode : Z) : Z := Z.land mode 448.

(** Whether the directory of a path can be reached. *)
Inductive Reach := Reachable | Missing | NotADirectory.

Fixpoint reach_from (fs : Files) (above : Path) (below : Path) : Reach :=
  match below with
  | [] | [_] => Reachable
  | x :: below =>
      match fs !! (above ++ [x])%list with
      | Some {| kind := Directory |} => reach_from fs (above ++ [x])%list below
      | Some _ => NotADirectory
      | None => Missing
      end
  end.

(** Every path but the state directory itself needs that directory. *)
Definition reach (fs : Files) (p : Path) : Reach :=
  match p with
  | [] => Reachable
  | _ =>
      match fs !! [] with
      | Some {| kind := Directory |} => reach_from fs [] p
      | Some _ => NotADirectory
      | None => Missing
      end
  end.

Definition resolve {A : Type} (fs : Files) (p : Path) (k : option Node -> res A IoError) : res A IoError :=
  match reach fs p with
  | Reachable => k (fs !! p)
  | Missing => Err NotFound
  | NotADirectory => Err Other
  end.

Section Calls.
Context (io : Io).

Definition fsm := stm World IoError.

(** One call: it fails, or acts on the tree. *)
Definition call_failing {A : Type} (failing : nat -> bool)
    (body : Files -> res A IoError) (effect : Files -> Files) : fsm A := fun w =>
  let w' := {| files := files w; calls := S (calls w); past := past w ++ [files w] |} in
  if failing (calls w) then (Err Other, w')
  else match body (files w) with
  | Ok a => (Ok a, {| files := effect (files w); calls := calls w'; past := past w' |})
  | r => (r, w')
  end.

Definition call {A : Type} := call_failing (A:=A) (fails io).

Definition symlink_metadata (p : Path) : fsm Node :=
  call (fun fs => resolve fs p (fun n => ok_or n NotFound)) id.

Definition read_link (p : Path) : fsm string :=
  call_failing (fails_read_link io) (fun fs => resolve fs p (fun n =>
    match n with
    | None => Err NotFound
    | Some {| kind := Symlink target |} => Ok target
    | Some _ => Err Other
    end)) id.

Definition read (p : Path) : fsm (list Z) :=
  call (fun fs => resolve fs p (fun n =>
    match n with
    | None => Err NotFound
    | Some {| kind := Regular contents |} => Ok contents
    | Some _ => Err Other
    end)) id.

Definition remove_file (p : Path) : fsm unit :=
  call (fun fs => resolve fs p (fun n =>
    match n with
    | None => Err NotFound
    | Some {| kind := Directory |} => Err Other
    | Some _ => Ok tt
    end)) (delete p).

Definition create_node (p : Path) (n : Node) : fsm unit :=
  call (fun fs => resolve fs p (fun old =>
    match old with None => Ok tt | Some _ => Err AlreadyExists end)) (insert p n).

(** [DirBuilder::new().mode(mode).create(p)] *)
Definition create_dir (mode : Z) (p : Path) : fsm unit :=
  create_node p {| kind := Directory; mode := masked mode; group := None |}.

(** [OpenOptions::new().write(true).create_new(true).mode(mode).open(p)] *)
Definition create_new (mode : Z) (p : Path) : fsm unit :=
  create_node p {| kind := Regular []; mode := masked mode; group := None |}.

(** [std::os::unix::fs::symlink] *)
Definition symlink (target : string) (p : Path) : fsm unit :=
  create_node p {| kind := Symlink target; mode := 511; group := None |}.

Definition on_node (p : Path) (f : Node -> Node) : fsm unit :=
  call (fun fs => resolve fs p (fun n =>
    match n with None => Err NotFound | Some _ => Ok tt end)) (alter f p).

(** [fs::set_permissions] *)
Definition set_permissions (p : Path) (mode : Z) : fsm unit :=
  on_node p (fun n => {| kind := kind n; mode := mode; group := group n |}).

(** [std::os::unix::fs::lchown(p, Some(0), Some(gid))] *)
Definition lchown (p : Path) (gid : Z) : fsm unit :=
  on_node p (fun n => {| kind := kind n; mode := mode n; group := Some gid |}).

(** [File::write_all] on the file just created at [p]; a failure leaves part
    of the bytes. *)
Definition write_all (p : Path) (bytes : list Z) : fsm unit := fun w =>
  let put contents := alter (fun n => {| kind := Regular contents; mode := mode n; group := group n |}) p (files w) in
  let failed := fails io (calls w) in
  (if failed then Err Other else Ok tt,
   {| files := put (if failed then partial_write io (calls w) else bytes);
      calls := S (calls w); past := past w ++ [files w] |}).

(** [File::sync_all] *)
Definition sync_all : fsm unit := call (fun _ => Ok tt) id.

(** [File::open(p)] and [sync_all] *)
Definition open_and_sync (p : Path) : fsm unit :=
  do! call (fun fs => resolve fs p (fun n => match n with None => Err NotFound | Some _ => Ok tt end)) id in
  sync_all.

(** [fs::rename] of a file or link, which replaces a file or link; the code
    renames nothing else. *)
Definition rename (source target : Path) : fsm unit :=
  call (fun fs =>
    resolve fs source (fun n =>
      match n with
      | None => Err NotFound
      | Some {| kind := Directory |} => Err Other
      | Some _ => resolve fs target (fun old =>
          match old with Some {| kind := Directory |} => Err Other | _ => Ok tt end)
      end))
    (fun fs => match fs !! source with Some n => <[target := n]> (delete source fs) | None => fs end).

(** The names in a directory. *)
Definition children (fs : Files) (p : Path) : list string :=
  omap (fun '(q, _) =>
    match decide (q <> [] /\ removelast q = p) with left _ => last q | right _ => None end) (map_to_list fs).

(** [fs::read_dir(p)] *)
Definition read_dir (p : Path) : fsm (list string) := fun w =>
  call (fun fs => resolve fs p (fun n =>
    match n with
    | None => Err NotFound
    | Some {| kind := Directory |} => Ok (listing io (calls w) (children fs p))
    | Some _ => Err Other
    end)) id w.

(** [fs::remove_dir_all(p)]: everything at and below [p]; a failure may have
    removed some subtrees of it. *)
Definition below (p q : Path) : bool := bool_decide (p `prefix_of` q).

Definition cut (removed : Path -> bool) (fs : Files) : Files :=
  filter (fun e => existsb (fun n => removed (firstn n e.1)) (seq 0 (S (List.length e.1))) = false) fs.

Definition remove_dir_all (p : Path) : fsm unit := fun w =>
  let w' fs := {| files := fs; calls := S (calls w); past := past w ++ [files w] |} in
  if fails io (calls w) then
    (Err Other, w' (cut (fun q => below p q && partial_removal io (calls w) q) (files w)))
  else match resolve (files w) p (fun n =>
      match n with None => Err NotFound | Some {| kind := Directory |} => Ok tt | Some _ => Err Other end) with
  | Ok _ => (Ok tt, w' (cut (below p) (files w)))
  | r => (r, w' (files w))
  end.

(** [result.map_err(|_| Failed(message))] *)
Definition or_fail {E A : Type} (e : E) (m : fsm A) : stm World E A := fun w =>
  let (r, w) := m w in (map_err (fun _ => e) r, w).
End Calls.
End FileSystem.
