(* ===== verification/FileSystemFacts.v ===== *)
(** * Facts about the file system

    Trees, what each call changes ([framed]), and what its success means. *)
From S2P Require Import Prelude FileSystem.

Module FileSystemFacts.
Import FileSystem.

(** ** Trees: a node's directory exists *)
Definition is_directory (fs : Files) (p : Path) : Prop :=
  exists n, fs !! p = Some n /\ kind n = Directory.

Definition tree (fs : Files) : Prop :=
  forall p, is_Some (fs !! p) -> p <> [] -> is_directory fs (removelast p).

Lemma removelast_snoc (p : Path) x : removelast (p ++ [x]) = p.
Proof. apply removelast_last. Qed.

Lemma snoc_not_nil (p : Path) x : (p ++ [x])%list <> [].
Proof. by destruct p. Qed.

Lemma tree_above fs a b : tree fs -> is_Some (fs !! (a ++ b)%list) -> b <> [] -> is_directory fs a.
Proof.
  intros T. induction b as [|x b IH] using rev_ind; [done|]. intros Hs _. rewrite app_assoc in Hs.
  pose proof (T _ Hs (snoc_not_nil _ _)) as Hd. rewrite removelast_snoc in Hd.
  destruct b as [|y b]; [by rewrite app_nil_r in Hd|]. apply IH; [|done].
  destruct Hd as (n & Hn & _). by exists n.
Qed.

Lemma reach_from_present fs a b : tree fs -> is_Some (fs !! (a ++ b)%list) -> reach_from fs a b = Reachable.
Proof.
  intros T. revert a. induction b as [|x b IH]; intros a Hs; simpl; [done|].
  destruct b as [|y b]; [done|].
  destruct (tree_above fs (a ++ [x]) (y :: b) T) as (n & -> & Hk); [by rewrite <- app_assoc|done|].
  destruct n as [k ? ?]. simpl in Hk. rewrite Hk. apply IH. by rewrite <- app_assoc.
Qed.

Lemma reach_present fs p : tree fs -> is_Some (fs !! p) -> reach fs p = Reachable.
Proof.
  intros T Hs. destruct p as [|x p]; [done|]. unfold reach.
  destruct (tree_above fs [] (x :: p) T Hs) as (n & -> & Hk); [done|].
  destruct n as [k ? ?]. simpl in Hk. rewrite Hk. exact (reach_from_present fs [] (x :: p) T Hs).
Qed.

Lemma reach_from_parent fs a b : is_directory fs a -> b <> [] -> reach_from fs a b = Reachable ->
  is_directory fs (removelast (a ++ b)).
Proof.
  revert a. induction b as [|x b IH]; intros a Ha Hb Hr; [done|]. simpl in Hr. destruct b as [|y b].
  - by rewrite removelast_snoc.
  - destruct (fs !! (a ++ [x])%list) as [n|] eqn:Hn; [|done]. destruct n as [k m g]. destruct k; try done.
    replace (a ++ x :: y :: b)%list with ((a ++ [x]) ++ y :: b)%list by (by rewrite <- app_assoc).
    apply IH; [by eexists|done|done].
Qed.

Lemma reach_parent fs p : reach fs p = Reachable -> p <> [] -> is_directory fs (removelast p).
Proof.
  destruct p as [|x p]; [done|]. intros Hr _. unfold reach in Hr.
  destruct (fs !! []) as [n|] eqn:Hn; [|done]. destruct n as [k m g]. destruct k; try done.
  apply (reach_from_parent fs [] (x :: p)); [by eexists|done|done].
Qed.

Lemma resolve_present {A : Type} fs p (k : option Node -> res A IoError) : tree fs -> is_Some (fs !! p) ->
  resolve fs p k = k (fs !! p).
Proof. intros T Hs. unfold resolve. by rewrite (reach_present fs p T Hs). Qed.

Lemma resolve_ok {A : Type} fs p (k : option Node -> res A IoError) a : resolve fs p k = Ok a ->
  reach fs p = Reachable /\ k (fs !! p) = Ok a.
Proof. unfold resolve. by destruct (reach fs p). Qed.

(** Only directories matter to reaching a path. *)
Lemma reach_from_same fs fs' a b : (forall q, is_directory fs q -> is_directory fs' q) ->
  reach_from fs a b = Reachable -> reach_from fs' a b = Reachable.
Proof.
  intros Hd. revert a. induction b as [|x b IH]; intros a; simpl; [done|]. destruct b as [|y b]; [done|].
  destruct (fs !! (a ++ [x])%list) as [n|] eqn:Hn; [|done]. destruct n as [k m g]. destruct k; try done.
  destruct (Hd (a ++ [x])%list) as ([k' m' g'] & Hn' & Hk); [by eexists|]. simpl in Hk. subst k'.
  rewrite Hn'. apply IH.
Qed.

Lemma reach_same fs fs' p : (forall q, is_directory fs q -> is_directory fs' q) ->
  reach fs p = Reachable -> reach fs' p = Reachable.
Proof.
  intros Hd. destruct p as [|x p]; [done|]. unfold reach.
  destruct (fs !! []) as [n|] eqn:Hn; [|done]. destruct n as [k m g]. destruct k; try done.
  destruct (Hd []) as ([k' m' g'] & Hn' & Hk); [by eexists|]. simpl in Hk. subst k'.
  rewrite Hn'. by apply reach_from_same.
Qed.

Lemma delete_directories fs p q : (forall m, fs !! p = Some m -> kind m <> Directory) ->
  is_directory fs q -> is_directory (delete p fs) q.
Proof.
  intros Hk (n & Hn & Hd). exists n. split; [|done]. apply lookup_delete_Some. split; [|done].
  intros ->. by destruct (Hk n Hn).
Qed.

(** ** Trees after the changes the calls make *)

Lemma tree_insert fs p n : tree fs -> reach fs p = Reachable ->
  (forall m, fs !! p = Some m -> kind m = Directory -> kind n = Directory) -> tree (<[p := n]> fs).
Proof.
  intros T Hr Hk q [m Hm] Hq. assert (forall d, is_directory fs d -> is_directory (<[p := n]> fs) d) as Hd.
  { intros d (x & Hx & Hkx). destruct (decide (d = p)) as [->|Hne].
    - exists n. rewrite lookup_insert_eq. split; [done|]. by eapply Hk.
    - exists x. by rewrite lookup_insert_ne. }
  apply Hd. destruct (decide (q = p)) as [->|Hne].
  - by apply reach_parent.
  - rewrite lookup_insert_ne in Hm by done. apply T; [by exists m|done].
Qed.

Lemma tree_delete fs p : tree fs -> (forall m, fs !! p = Some m -> kind m <> Directory) -> tree (delete p fs).
Proof.
  intros T Hk q [m Hm] Hq. apply lookup_delete_Some in Hm as [Hne Hm].
  destruct (T q ltac:(by exists m) Hq) as (n & Hn & Hd). exists n. split; [|done].
  apply lookup_delete_Some. split; [|done]. intros ->. by destruct (Hk n Hn).
Qed.

Lemma tree_alter fs p f : tree fs -> (forall n, kind n = Directory -> kind (f n) = Directory) -> tree (alter f p fs).
Proof.
  intros T Hf q Hq Hne. assert (is_directory fs (removelast q)) as (n & Hn & Hk).
  { apply T; [|done]. by rewrite lookup_alter_is_Some in Hq. }
  destruct (decide (removelast q = p)) as [<-|Hp].
  - exists (f n). rewrite lookup_alter_eq, Hn. auto.
  - exists n. by rewrite lookup_alter_ne.
Qed.

Lemma cut_lookup removed fs p n : cut removed fs !! p = Some n <->
  fs !! p = Some n /\ forall i, (i <= List.length p)%nat -> removed (firstn i p) = false.
Proof.
  unfold cut. rewrite map_lookup_filter_Some. cbn [fst]. rewrite <- not_true_iff_false, existsb_exists.
  split; intros [Hn Hr]; (split; [done|]).
  - intros i Hi. apply not_true_is_false. intros Hx. apply Hr. exists i. split; [|done]. apply in_seq. lia.
  - intros (i & Hi & Hx). apply in_seq in Hi. rewrite Hr in Hx; [done|lia].
Qed.

Lemma tree_cut removed fs : tree fs -> tree (cut removed fs).
Proof.
  intros T p [n Hn] Hp. apply cut_lookup in Hn as [Hn Hr].
  destruct (T p ltac:(by exists n) Hp) as (d & Hd & Hk). exists d. split; [|done].
  apply cut_lookup. split; [done|]. intros i Hi.
  destruct (exists_last Hp) as (q & x & ->). rewrite removelast_snoc in Hi |- *.
  rewrite <- (Hr i) by (rewrite length_app; lia). f_equal. rewrite take_app_le; [done|lia].
Qed.

Lemma cut_below p fs q : cut (below p) fs !! q = if below p q then None else fs !! q.
Proof.
  destruct (cut (below p) fs !! q) as [n|] eqn:Hc.
  - apply cut_lookup in Hc as [Hn Hr]. specialize (Hr (List.length q) ltac:(lia)).
    rewrite firstn_all in Hr. by rewrite Hr.
  - destruct (below p q) eqn:Hb; [done|]. destruct (fs !! q) as [n|] eqn:Hn; [|done]. exfalso.
    apply eq_None_not_Some in Hc. apply Hc. exists n. apply cut_lookup. split; [done|].
    intros i Hi. unfold below in *. apply bool_decide_eq_false in Hb. apply bool_decide_eq_false.
    intros Hp. apply Hb. etrans; [exact Hp|]. exists (drop i q). by rewrite take_drop.
Qed.

(** ** Frames

    From the world [w] to the world [w'], every tree gone through and the
    last one are trees that differ from the first only at paths in [X]. *)
Definition framed (X : Path -> Prop) (w w' : World) : Prop :=
  tree (files w) -> exists new, past w' = (past w ++ new)%list /\
    forall t, t ∈ (new ++ [files w'])%list -> tree t /\ forall p, ~ X p -> t !! p = files w !! p.

Lemma framed_refl (X : Path -> Prop) w : framed X w w.
Proof.
  intros T. exists []. rewrite app_nil_r. split; [done|]. intros t Ht.
  apply list_elem_of_singleton in Ht as ->. done.
Qed.

Lemma framed_tree (X : Path -> Prop) w w' : framed X w w' -> tree (files w) ->
  tree (files w') /\ forall p, ~ X p -> files w' !! p = files w !! p.
Proof. intros Hf T. destruct (Hf T) as (new & _ & Ht). apply Ht, elem_of_app. right. by left. Qed.

Lemma framed_trans (X : Path -> Prop) w1 w2 w3 : framed X w1 w2 -> framed X w2 w3 -> framed X w1 w3.
Proof.
  intros H1 H2 T. destruct (framed_tree _ _ _ H1 T) as [T2 E2].
  destruct (H1 T) as (n1 & Hp1 & Ht1), (H2 T2) as (n2 & Hp2 & Ht2).
  exists (n1 ++ n2)%list. split; [by rewrite Hp2, Hp1, app_assoc|]. intros t Ht.
  rewrite <- app_assoc in Ht. apply elem_of_app in Ht as [Ht|Ht].
  - apply Ht1, elem_of_app. by left.
  - destruct (Ht2 t Ht) as [Tt Et]. split; [done|]. intros p Hp. by rewrite Et, E2.
Qed.

Lemma framed_weaken (X Y : Path -> Prop) w w' : framed X w w' -> (forall p, X p -> Y p) -> framed Y w w'.
Proof.
  intros Hf Hxy T. destruct (Hf T) as (new & Hp & Ht). exists new. split; [done|].
  intros t Hin. destruct (Ht t Hin) as [Tt Et]. split; [done|]. intros p Hy. apply Et. auto.
Qed.

(** Every tree gone through satisfies what the frame preserves. *)
Lemma framed_always (X : Path -> Prop) (I : Files -> Prop) w w' : framed X w w' -> tree (files w) ->
  (forall t, tree t -> (forall p, ~ X p -> t !! p = files w !! p) -> I t) ->
  exists new, past w' = (past w ++ new)%list /\ forall t, t ∈ (new ++ [files w'])%list -> I t.
Proof.
  intros Hf T HI. destruct (Hf T) as (new & Hp & Ht). exists new. split; [done|].
  intros t Hin. destruct (Ht t Hin). auto.
Qed.

Section Calls.
Context (io : Io).

(** One call moves to the tree it leaves. *)
Lemma framed_step (X : Path -> Prop) w fs n : (tree (files w) -> tree fs /\ forall p, ~ X p -> fs !! p = files w !! p) ->
  framed X w {| files := fs; calls := n; past := past w ++ [files w] |}.
Proof.
  intros Hfs T. exists [files w]. split; [done|]. simpl. intros t Ht.
  apply elem_of_cons in Ht as [->|Ht]; [done|]. apply list_elem_of_singleton in Ht as ->. auto.
Qed.

Lemma call_failing_framed (X : Path -> Prop) {A : Type} failing (body : Files -> res A IoError) effect w :
  (forall a, tree (files w) -> body (files w) = Ok a ->
     tree (effect (files w)) /\ forall p, ~ X p -> effect (files w) !! p = files w !! p) ->
  framed X w (call_failing failing body effect w).2.
Proof.
  intros Hb. unfold call_failing. destruct (failing (calls w)); simpl; [by apply framed_step|].
  destruct (body (files w)) as [a|e|] eqn:E; simpl; apply framed_step; [|done..].
  intros T. by apply (Hb a).
Qed.

Lemma call_ok {A : Type} failing (body : Files -> res A IoError) effect w a w' :
  call_failing failing body effect w = (Ok a, w') -> body (files w) = Ok a /\ files w' = effect (files w)
  /\ failing (calls w) = false.
Proof.
  unfold call_failing. destruct (failing (calls w)); [done|].
  destruct (body (files w)) as [b|e|] eqn:E; intros H; simplify_eq; done.
Qed.

Lemma call_no_panic {A : Type} failing (body : Files -> res A IoError) effect w :
  (forall fs, body fs <> Panic) -> (call_failing failing body effect w).1 <> Panic.
Proof.
  intros Hb. unfold call_failing. destruct (failing (calls w)); [done|].
  specialize (Hb (files w)). by destruct (body (files w)).
Qed.

(** A call that fails leaves the tree alone. *)
Lemma call_err {A : Type} failing (body : Files -> res A IoError) effect w r w' :
  call_failing failing body effect w = (r, w') -> (forall a, r <> Ok a) -> files w' = files w.
Proof.
  unfold call_failing. destruct (failing (calls w)); [by intros; simplify_eq|].
  destruct (body (files w)) as [b|e|] eqn:E; intros H Hr; simplify_eq; try done. by destruct (Hr b).
Qed.

Definition nowhere (p : Path) : Prop := False.

Lemma reading_framed {A : Type} failing (body : Files -> res A IoError) w :
  framed nowhere w (call_failing failing body id w).2.
Proof. by apply call_failing_framed. Qed.

Lemma symlink_metadata_framed p w : framed nowhere w (symlink_metadata io p w).2.
Proof. apply reading_framed. Qed.
Lemma read_link_framed p w : framed nowhere w (read_link io p w).2.
Proof. apply reading_framed. Qed.
Lemma read_framed p w : framed nowhere w (read io p w).2.
Proof. apply reading_framed. Qed.
Lemma sync_all_framed w : framed nowhere w (sync_all io w).2.
Proof. apply reading_framed. Qed.
Lemma read_dir_framed p w : framed nowhere w (read_dir io p w).2.
Proof. unfold read_dir, call. apply reading_framed. Qed.

Lemma remove_file_framed p w : framed (eq p) w (remove_file io p w).2.
Proof.
  apply call_failing_framed. intros a T Hb. apply resolve_ok in Hb as [_ Hb]. split.
  - apply tree_delete; [done|]. intros m Hm. rewrite Hm in Hb. destruct m as [[]]; simpl in *; congruence.
  - intros q Hq. by apply lookup_delete_ne.
Qed.

Lemma create_node_framed p n w : framed (eq p) w (create_node io p n w).2.
Proof.
  apply call_failing_framed. intros a T Hb. apply resolve_ok in Hb as [Hr Hb]. split.
  - apply tree_insert; [done..|]. intros m Hm. by rewrite Hm in Hb.
  - intros q Hq. by apply lookup_insert_ne.
Qed.

Lemma on_node_framed p f w : (forall n, kind n = Directory -> kind (f n) = Directory) ->
  framed (eq p) w (on_node io p f w).2.
Proof.
  intros Hf. apply call_failing_framed. intros a T Hb. split; [by apply tree_alter|].
  intros q Hq. by apply lookup_alter_ne.
Qed.

Lemma write_all_framed p bytes w : (forall n, files w !! p = Some n -> kind n <> Directory) ->
  framed (eq p) w (write_all io p bytes w).2.
Proof.
  intros Hk. unfold write_all. simpl. apply framed_step. intros T. split.
  - intros q Hq Hne. rewrite lookup_alter_is_Some in Hq.
    destruct (T q Hq Hne) as (n & Hn & Hd). destruct (decide (removelast q = p)) as [<-|Hp].
    + by destruct (Hk n Hn).
    + exists n. by rewrite lookup_alter_ne.
  - intros q Hq. by apply lookup_alter_ne.
Qed.

Lemma rename_framed source target w : framed (fun p => p = source \/ p = target) w (rename io source target w).2.
Proof.
  apply call_failing_framed. intros a T Hb. apply resolve_ok in Hb as [Hr Hb].
  destruct (files w !! source) as [n|] eqn:Hn; [|done].
  assert (kind n <> Directory /\ resolve (files w) target (fun old =>
    match old with Some {| kind := Directory |} => Err Other | _ => Ok tt end) = Ok a) as [Hk Ht].
  { destruct n as [[]]; simpl in *; done. }
  apply resolve_ok in Ht as [Hrt Ht]. split.
  - assert (tree (delete source (files w))) as Td by (apply tree_delete; [done|]; intros m; congruence).
    apply tree_insert; [done| |].
    + eapply reach_same; [|exact Hrt]. intros q. apply delete_directories. intros m; congruence.
    + intros m Hm Hd. apply lookup_delete_Some in Hm as [_ Hm]. rewrite Hm in Ht. destruct m as [[]]; simpl in *; done.
  - intros q Hq. rewrite lookup_insert_ne, lookup_delete_ne; [done|naive_solver..].
Qed.
Lemma cut_framed X removed w n : (forall p, removed p = true -> forall q, p `prefix_of` q -> X q) ->
  framed X w {| files := cut removed (files w); calls := n; past := past w ++ [files w] |}.
Proof.
  intros Hx. apply framed_step. intros T. split; [by apply tree_cut|]. intros p Hp.
  destruct (files w !! p) as [m|] eqn:Hm.
  - apply cut_lookup. split; [done|]. intros i Hi. destruct (removed (firstn i p)) eqn:E; [|done].
    destruct Hp. apply (Hx _ E). exists (drop i p). by rewrite take_drop.
  - destruct (cut removed (files w) !! p) eqn:E; [|done]. apply cut_lookup in E as [E _]. congruence.
Qed.

Lemma remove_dir_all_framed p w : framed (fun q => p `prefix_of` q) w (remove_dir_all io p w).2.
Proof.
  unfold remove_dir_all. destruct (fails io (calls w)); simpl.
  - apply cut_framed. intros q Hq r Hr. apply andb_true_iff in Hq as [Hq _].
    apply bool_decide_eq_true in Hq. by etrans.
  - destruct (resolve (files w) p _); simpl; [|by apply framed_step..].
    apply cut_framed. intros q Hq r Hr. apply bool_decide_eq_true in Hq. by etrans.
Qed.

Lemma remove_dir_all_ok p w a w' : remove_dir_all io p w = (Ok a, w') ->
  forall q, files w' !! q = if below p q then None else files w !! q.
Proof.
  unfold remove_dir_all. destruct (fails io (calls w)); [done|].
  destruct (resolve (files w) p _); intros H q; simplify_eq; simpl. apply cut_below.
Qed.

Lemma or_fail_framed (X : Path -> Prop) {E A : Type} (e : E) (m : fsm A) w : framed X w (m w).2 -> framed X w (or_fail e m w).2.
Proof. unfold or_fail. by destruct (m w). Qed.

Lemma bind_framed (X : Path -> Prop) {E A B : Type} (m : stm World E A) (k : A -> stm World E B) w :
  framed X w (m w).2 -> (forall a w1, m w = (Ok a, w1) -> framed X w1 (k a w1).2) -> framed X w (bind m k w).2.
Proof.
  intros Hm Hk. unfold bind. destruct (m w) as [[a|e|] w1] eqn:E1; simpl in *; [|done..].
  eapply framed_trans; [exact Hm|]. by apply Hk.
Qed.

Lemma attempt_framed (X : Path -> Prop) {E F A : Type} (m : stm World E A) w :
  framed X w (m w).2 -> framed X w (attempt (F:=F) m w).2.
Proof. unfold attempt. by destruct (m w). Qed.

Lemma open_and_sync_framed p w : framed nowhere w (open_and_sync io p w).2.
Proof.
  unfold open_and_sync. apply bind_framed; [apply reading_framed|]. intros _ w1 _. apply sync_all_framed.
Qed.
End Calls.

Lemma nowhere_framed (X : Path -> Prop) w w' : framed nowhere w w' -> framed X w w'.
Proof. intros Hf. eapply framed_weaken; [exact Hf|]. by intros p []. Qed.
End FileSystemFacts.
