(* ===== verification/RemoteState.v ===== *)
(** * The remote-management state layout ([crates/remote-state/src/lib.rs])

    Generation names, fingerprints and the identity that [tls/current]
    names.  [sl-remote-worker] is its only writer; [sl-platformd] reads it. *)
From S2P Require Import Prelude FileSystem.

Module RemoteState.
Import FileSystem.

Definition ENABLED : string := "enabled".
Definition RESET_PENDING : string := "reset-pending".
Definition TLS_DIR : string := "tls".
Definition CURRENT : string := "current".
Definition KEY_FILE : string := "key.pem".
Definition CERT_FILE : string := "cert.pem".
Definition FINGERPRINT_FILE : string := "fingerprint".
Definition GENERATION_PREFIX : string := "gen-".
Definition OPENSSL_FINGERPRINT_PREFIX : string := "sha256 Fingerprint=".

Definition newline : ascii := char_of 10.

Definition is_generation_name (name : string) : bool :=
  match strip_prefix GENERATION_PREFIX name with
  | Some hex => Nat.eqb (String.length hex) 16 && forallb is_lower_hex (bytes_of hex)
  | None => false
  end.

Definition generation_name (bytes : list Z) : string :=
  foldl (fun name byte => name +:+ string_of [lower_digit (Z.shiftr byte 4); lower_digit (Z.land byte 15)])
    GENERATION_PREFIX bytes.

(** [bytes.iter().enumerate().all(f)] *)
Definition all_enumerated (f : nat -> Z -> bool) (bytes : list Z) : bool :=
  forallb (fun '(index, byte) => f index byte) (zip (seq 0 (List.length bytes)) bytes).

Definition is_canonical_fingerprint (text : string) : bool :=
  let bytes := bytes_of text in
  Nat.eqb (List.length bytes) 95
  && all_enumerated (fun index byte =>
       if Nat.eqb (index mod 3) 2 then byte =? 58 else is_upper_hex byte) bytes.

Definition parse_openssl_fingerprint (stdout : list Z) : option string :=
  text ← from_utf8 stdout;
  line ← strip_suffix newline text;
  fingerprint ← strip_prefix OPENSSL_FINGERPRINT_PREFIX line;
  if is_canonical_fingerprint fingerprint then Some fingerprint else None.

Definition fingerprint_file_contents (fingerprint : string) : string :=
  fingerprint +:+ String newline EmptyString.

Definition parse_fingerprint_file (contents : list Z) : option string :=
  text ← from_utf8 contents;
  fingerprint ← strip_suffix newline text;
  if is_canonical_fingerprint fingerprint then Some fingerprint else None.

(** ** The identity on disk *)

Definition tls (rest : Path) : Path := TLS_DIR :: rest.

Section Reading.
Context (io : Io).

(** [Err tt] is [InvalidIdentity]. *)
Definition current_generation : stm World unit (option string) :=
  let! target := attempt (read_link io (tls [CURRENT])) in
  match target with
  | Ok target => if is_generation_name target then ret (Some target) else fail tt
  | Err NotFound => ret None
  | _ => fail tt
  end.

Definition current_fingerprint : stm World unit (option string) :=
  let! generation := current_generation in
  match generation with
  | None => ret None
  | Some generation =>
      let! contents := or_fail tt (read io (tls [generation; FINGERPRINT_FILE])) in
      match parse_fingerprint_file contents with
      | Some fingerprint => ret (Some fingerprint)
      | None => fail tt
      end
  end.

(** The closure [is] of [current_identity]. *)
Definition is_kind (p : Path) (directory : bool) : stm World unit bool :=
  let! metadata := attempt (symlink_metadata io p) in
  ret (match metadata with
       | Ok {| kind := Directory |} => directory
       | Ok {| kind := Regular _ |} => negb directory
       | _ => false
       end).

(** [!a || !b || !c] stops at the first check that fails. *)
Definition current_identity : stm World unit (option string) :=
  let! generation := current_generation in
  match generation with
  | None => ret None
  | Some generation =>
      let! directory := is_kind (tls [generation]) true in
      if negb directory then fail tt
      else
        let! key := is_kind (tls [generation; KEY_FILE]) false in
        if negb key then fail tt
        else
          let! cert := is_kind (tls [generation; CERT_FILE]) false in
          if negb cert then fail tt
          else
            do! current_fingerprint in
            ret (Some generation)
  end.
End Reading.

(** ** Names and fingerprints *)

Lemma generation_name_hex bytes : Forall is_byte bytes ->
  generation_name bytes = GENERATION_PREFIX +:+ string_of (hex_of lower_digit bytes).
Proof.
  unfold generation_name. intros Hb. generalize GENERATION_PREFIX. induction bytes as [|b bytes IH]; intros name; simpl.
  - apply bytes_of_inj. rewrite bytes_of_app. simpl. by rewrite app_nil_r.
  - apply Forall_cons in Hb as [Hb1 Hb]. rewrite IH by done. apply bytes_of_inj. rewrite !bytes_of_app.
    destruct (hex_split b Hb1) as (H1 & H2 & _).
    destruct (lower_hex_digit _ H1) as [_ B1], (lower_hex_digit _ H2) as [_ B2].
    destruct (lower_hex_of bytes Hb) as [_ B3].
    rewrite !bytes_of_string_of by (repeat (apply Forall_cons_2; [done|]); done || constructor). by rewrite <- app_assoc.
Qed.

Lemma generation_name_valid bytes : List.length bytes = 8%nat -> Forall is_byte bytes ->
  is_generation_name (generation_name bytes) = true.
Proof.
  intros Hl Hb. rewrite generation_name_hex by done. unfold is_generation_name.
  rewrite (proj2 (strip_prefix_spec _ _ _) eq_refl). destruct (lower_hex_of bytes Hb) as [Hx Hbytes].
  rewrite <- length_bytes_of, !bytes_of_string_of by done. by rewrite length_hex_of, Hl, Hx.
Qed.

Lemma upper_hex_range b : is_upper_hex b = true -> b < 128.
Proof. unfold is_upper_hex, is_ascii_digit, in_range. intros H. apply orb_true_iff in H as [H|H]; bool_hyps; lia. Qed.

Lemma canonical_ascii text : is_canonical_fingerprint text = true -> Forall (fun b => b < 128) (bytes_of text).
Proof.
  unfold is_canonical_fingerprint, all_enumerated. intros Hc. apply andb_true_iff in Hc as [_ Hc].
  rewrite forallb_forall in Hc. apply Forall_lookup. intros i b Hb.
  assert ((i, b) ∈ zip (seq 0 (List.length (bytes_of text))) (bytes_of text)) as Hin.
  { apply list_elem_of_lookup. exists i. apply lookup_zip_Some. split; [|done].
    apply lookup_seq. split; [done|]. by eapply lookup_lt_Some. }
  apply list_elem_of_In, Hc in Hin. case_match; bool_hyps; [lia|by apply upper_hex_range].
Qed.

Lemma from_utf8_ascii text : Forall (fun b => b < 128) (bytes_of text) -> from_utf8 (bytes_of text) = Some text.
Proof. intros Ha. unfold from_utf8. by rewrite (ascii_is_utf8 _ Ha), string_of_bytes_of. Qed.

Lemma from_utf8_string bytes text : Forall is_byte bytes -> from_utf8 bytes = Some text -> bytes = bytes_of text.
Proof. unfold from_utf8. case_match; [|done]. intros Hb [= <-]. by rewrite bytes_of_string_of. Qed.

Lemma file_contents_ascii fingerprint : is_canonical_fingerprint fingerprint = true ->
  Forall (fun b => b < 128) (bytes_of (fingerprint_file_contents fingerprint)).
Proof.
  intros Hc. unfold fingerprint_file_contents. rewrite bytes_of_app. apply Forall_app. split; [by apply canonical_ascii|].
  repeat constructor.
Qed.

Lemma parse_fingerprint_round_trip fingerprint : is_canonical_fingerprint fingerprint = true ->
  parse_fingerprint_file (bytes_of (fingerprint_file_contents fingerprint)) = Some fingerprint.
Proof.
  intros Hc. unfold parse_fingerprint_file. rewrite from_utf8_ascii by (by apply file_contents_ascii).
  cbn [mbind option_bind]. rewrite (proj2 (strip_suffix_spec newline (fingerprint_file_contents fingerprint) fingerprint) eq_refl).
  cbn [mbind option_bind]. by rewrite Hc.
Qed.

Lemma parse_openssl_canonical stdout fingerprint : parse_openssl_fingerprint stdout = Some fingerprint ->
  is_canonical_fingerprint fingerprint = true.
Proof.
  unfold parse_openssl_fingerprint. destruct (from_utf8 stdout); cbn [mbind option_bind]; [|done].
  destruct (strip_suffix newline _) as [line|]; cbn [mbind option_bind]; [|done].
  destruct (strip_prefix OPENSSL_FINGERPRINT_PREFIX line) as [f|]; cbn [mbind option_bind]; [|done].
  destruct (is_canonical_fingerprint f) eqn:E; [|done]. by intros [= <-].
Qed.

(** The formats of the state layout: generation names made from eight
    bytes are valid and distinct for distinct bytes; a fingerprint file
    parses exactly when it is one canonical line, and gives it back; the
    openssl output parses exactly when it is the documented line. *)
Theorem layout_formats bytes fingerprint contents : Forall is_byte contents ->
  (List.length bytes = 8%nat -> Forall is_byte bytes ->
     is_generation_name (generation_name bytes) = true /\
     forall bytes', Forall is_byte bytes' -> generation_name bytes' = generation_name bytes -> bytes' = bytes) /\
  (parse_fingerprint_file contents = Some fingerprint <->
     is_canonical_fingerprint fingerprint = true /\
     contents = bytes_of (fingerprint_file_contents fingerprint)) /\
  (parse_openssl_fingerprint contents = Some fingerprint <->
     is_canonical_fingerprint fingerprint = true /\
     contents = bytes_of (OPENSSL_FINGERPRINT_PREFIX +:+ fingerprint_file_contents fingerprint)).
Proof.
  intros Hcb. split_and!.
  - intros Hl Hb. split; [by apply generation_name_valid|]. intros bytes' Hb' Heq.
    rewrite !generation_name_hex in Heq by done. apply (f_equal bytes_of) in Heq. rewrite !bytes_of_app in Heq.
    apply app_inv_head in Heq. destruct (lower_hex_of bytes Hb) as [_ ?], (lower_hex_of bytes' Hb') as [_ ?].
    rewrite !bytes_of_string_of in Heq by done. eapply hex_of_inj; [apply lower_digit_inj|done..].
  - split.
    + unfold parse_fingerprint_file. destruct (from_utf8 contents) as [text|] eqn:Hu; cbn [mbind option_bind]; [|done].
      destruct (strip_suffix newline text) as [f|] eqn:Hs; cbn [mbind option_bind]; [|done].
      destruct (is_canonical_fingerprint f) eqn:Hc; [|done]. intros [= <-]. split; [done|].
      apply strip_suffix_spec in Hs as ->. by apply from_utf8_string.
    + intros [Hc ->]. by apply parse_fingerprint_round_trip.
  - split.
    + intros Hp. pose proof (parse_openssl_canonical _ _ Hp) as Hc. split; [done|].
      unfold parse_openssl_fingerprint in Hp. destruct (from_utf8 contents) as [text|] eqn:Hu; cbn [mbind option_bind] in Hp; [|done].
      destruct (strip_suffix newline text) as [line|] eqn:Hs; cbn [mbind option_bind] in Hp; [|done].
      destruct (strip_prefix _ line) as [f|] eqn:Hpre; cbn [mbind option_bind] in Hp; [|done].
      case_match; [|done]. simplify_eq. apply strip_suffix_spec in Hs as ->. apply strip_prefix_spec in Hpre as ->.
      by apply from_utf8_string in Hu as ->.
    + intros [Hc ->]. unfold parse_openssl_fingerprint. rewrite from_utf8_ascii.
      * cbn [mbind option_bind].
        rewrite (proj2 (strip_suffix_spec newline _ (OPENSSL_FINGERPRINT_PREFIX +:+ fingerprint))).
        -- cbn [mbind option_bind]. rewrite (proj2 (strip_prefix_spec _ _ fingerprint) eq_refl).
           cbn [mbind option_bind]. by rewrite Hc.
        -- apply bytes_of_inj. unfold fingerprint_file_contents. by rewrite !bytes_of_app, app_assoc.
      * rewrite bytes_of_app. apply Forall_app. split; [repeat constructor|by apply file_contents_ascii].
Qed.
End RemoteState.
