(* ===== verification/Worker.v ===== *)
(** * The remote-management worker ([remote-worker/src/worker.rs, main.rs])

    The five modes of the privileged worker as sequences of file-system
    calls; openssl, the authentication daemon and the random source are
    parameters. *)
From S2P Require Import Prelude FileSystem RemoteState.

Module Worker.
Import FileSystem RemoteState.

Definition OPENSSL : string := "/usr/bin/openssl".
Definition CERT_SUBJECT : string := "/CN=SignalLayer CoreOS remote management".
Definition REMOTED_GROUP : string := "sl-remoted".

(** [enum Mode] and its methods *)
Inductive Mode := Enable | Disable | RotateTls | BootReset | ClearResetPending.

Definition Mode_parse (argument : string) : option Mode :=
  if String.eqb argument "enable" then Some Enable
  else if String.eqb argument "disable" then Some Disable
  else if String.eqb argument "rotate-tls" then Some RotateTls
  else if String.eqb argument "boot-reset" then Some BootReset
  else if String.eqb argument "clear-reset-pending" then Some ClearResetPending
  else None.

Definition Mode_name (m : Mode) : string :=
  match m with
  | Enable => "enable"
  | Disable => "disable"
  | RotateTls => "rotate-tls"
  | BootReset => "boot-reset"
  | ClearResetPending => "clear-reset-pending"
  end.

Definition writes_identity (m : Mode) : bool :=
  match m with Enable | RotateTls => true | _ => false end.

(** [struct Failed(pub &'static str)] *)
Definition Failed := string.

(** [enum Ownership]; the variant of the tests is left out. *)
Inductive Ownership := RemotedGroup (gid : Z) | OwnershipUnavailable.

(** [enum Point] *)
Inductive Point :=
  | CreateMarker (name : string) | RemoveMarker (name : string)
  | RemoveCurrent | RemoveGenerations | SwapCurrent.

(** [trait Tools] and the injected faults (none in production): what each
    answers at the [n]-th call, and what openssl did to the tree. *)
Record Tools := {
  openssl_at : nat -> list string -> Files -> res (list Z) unit * Files;
  reset_at : nat -> bool;
  random_at : nat -> nat -> option (list Z);
  faults : nat -> Point -> bool
}.

(** The tree and its history, and the tree at every call of
    [ResetEnrollment] with its success. *)
Record State := { world : World; resets : list (Files * bool) }.

Section Modes.
Context (io : Io) (tools : Tools) (root : string) (ownership : Ownership).

Definition W := stm State Failed.

(** A file-system action of the worker. *)
Definition fsys {E A : Type} (m : stm World E A) : stm State E A := fun st =>
  let (r, w) := m (world st) in (r, {| world := w; resets := resets st |}).

(** [io_failure(result, message)] *)
Definition io_failure {A : Type} (m : fsm A) (message : Failed) : W A := fsys (or_fail message m).

(** [match fs::op(..) { .. }] on the result of a call *)
Definition tried {A : Type} (m : fsm A) : W (res A IoError) := fsys (attempt m).

Definition advance (w : World) : World :=
  {| files := files w; calls := S (calls w); past := past w ++ [files w] |}.

Definition openssl (arguments : list string) : stm State unit (list Z) := fun st =>
  let w := world st in
  let (r, fs) := openssl_at tools (calls w) arguments (files w) in
  (r, {| world := {| files := fs; calls := S (calls w); past := past w ++ [files w] |}; resets := resets st |}).

Definition reset_enrollment : stm State unit unit := fun st =>
  let w := world st in
  let ok := reset_at tools (calls w) in
  (if ok then Ok tt else Err tt, {| world := advance w; resets := resets st ++ [(files w, ok)] |}).

Definition random (N : nat) : stm State unit (list Z) := fun st =>
  (ok_or (random_at tools (calls (world st)) N) tt, {| world := advance (world st); resets := resets st |}).

(** [.map_err(|()| Failed(message))] *)
Definition or_failed {A : Type} (m : stm State unit A) (message : Failed) : W A := fun st =>
  let (r, st) := m st in (map_err (fun _ => message) r, st).

(** [path.join(..)] as text *)
Definition display (p : Path) : string := foldl (fun text name => text +:+ "/" +:+ name) root p.

Definition req_arguments (generation : Path) : list string :=
  ["req"; "-x509"; "-new"; "-newkey"; "ec"; "-pkeyopt"; "ec_paramgen_curve:P-256"; "-pkeyopt";
   "ec_param_enc:named_curve"; "-noenc"; "-keyout"; display (generation ++ [KEY_FILE])%list; "-out";
   display (generation ++ [CERT_FILE])%list; "-subj"; CERT_SUBJECT; "-not_after"; "99991231235959Z";
   "-addext"; "basicConstraints=critical,CA:FALSE"; "-addext"; "keyUsage=critical,digitalSignature";
   "-addext"; "extendedKeyUsage=serverAuth"]%string.

Definition fingerprint_arguments (generation : Path) : list string :=
  ["x509"; "-in"; display (generation ++ [CERT_FILE])%list; "-noout"; "-fingerprint"; "-sha256"]%string.

Definition fault (point : Point) : W unit := fun st =>
  (if faults tools (calls (world st)) point then Err "injected failure"%string else Ok tt, st).

Definition temporary_of (name : string) : string := name +:+ ".tmp".

Fixpoint remove_stale (paths : list Path) : W unit :=
  match paths with
  | [] => ret tt
  | p :: paths =>
      let! removed := tried (remove_file io p) in
      match removed with
      | Err (AlreadyExists | Other) => fail "a stale temporary file could not be removed"%string
      | _ => remove_stale paths
      end
  end.

Definition remove_stale_temporaries : W unit :=
  remove_stale [[temporary_of ENABLED]; [temporary_of RESET_PENDING]; tls [temporary_of CURRENT]].

Definition marker_exists (name : string) : W bool :=
  let! metadata := tried (symlink_metadata io [name]) in
  match metadata with
  | Ok _ => ret true
  | Err NotFound => ret false
  | _ => fail "a remote-management marker could not be checked"%string
  end.

Definition apply_group (p : Path) : W unit :=
  match ownership with
  | RemotedGroup gid => io_failure (lchown io p gid) "TLS file ownership could not be set"
  | OwnershipUnavailable => fail "the sl-remoted group is unavailable"%string
  end.

Definition fsync_directory (p : Path) : fsm unit := open_and_sync io p.

(** [fsync_directory(path.parent().unwrap_or("/"))]: the parent of the state
    directory itself is outside the tree, and opening it is a call like any. *)
Definition fsync_parent (p : Path) : fsm unit :=
  match p with [] => do! sync_all io in sync_all io | _ => fsync_directory (removelast p) end.

Definition ensure_directory (p : Path) (mode : Z) (group : bool) : W unit :=
  let! created := tried (create_dir io mode p) in
  match created with
  | Ok _ =>
      do! io_failure (set_permissions io p mode) "a state directory could not be created" in
      do! (if group then apply_group p else ret tt) in
      io_failure (fsync_parent p) "a state directory could not be created"
  | Err AlreadyExists =>
      let! metadata := tried (symlink_metadata io p) in
      match metadata with
      | Ok {| kind := Directory |} => ret tt
      | _ => fail "a state path is not a directory"%string
      end
  | _ => fail "a state directory could not be created"%string
  end.

(** [0o755], [0o750], [0o644], [0o640] *)
Definition o755 : Z := 493.
Definition o750 : Z := 488.
Definition o644 : Z := 420.
Definition o640 : Z := 416.

(** The closure of [create_marker] that writes and installs the marker. *)
Definition write_marker (name : string) : fsm unit :=
  do! create_new io o644 [temporary_of name] in
  do! set_permissions io [temporary_of name] o644 in
  do! sync_all io in
  do! rename io [temporary_of name] [name] in
  fsync_directory [].

Definition create_marker (name : string) : W unit :=
  do! ensure_directory [] o755 false in
  let! exists_ := marker_exists name in
  if exists_ : bool then ret tt
  else
    do! fault (CreateMarker name) in
    let! written := tried (write_marker name) in
    match written with
    | Ok _ => ret tt
    | _ =>
        let! _ := tried (remove_file io [temporary_of name]) in
        fail "a remote-management marker could not be written"%string
    end.

Definition remove_marker (name : string) : W unit :=
  let! exists_ := marker_exists name in
  if negb exists_ then ret tt
  else
    do! fault (RemoveMarker name) in
    io_failure (do! remove_file io [name] in fsync_directory [])
      "a remote-management marker could not be removed".

(** The body of the loop of [remove_unreferenced_generations], over the
    names still to visit. *)
Fixpoint remove_generations (referenced : option string) (removed : bool) (names : list string) : W bool :=
  match names with
  | [] => ret removed
  | name :: names =>
      do! io_failure (call io (fun _ => Ok tt) id) "TLS generations could not be listed" in
      match from_utf8 (bytes_of name) with
      | None => remove_generations referenced removed names
      | Some name =>
          if negb (is_generation_name name) || bool_decide (Some name = referenced)
          then remove_generations referenced removed names
          else
            let! metadata := tried (symlink_metadata io (tls [name])) in
            do! match metadata with
                | Ok {| kind := Directory |} =>
                    io_failure (remove_dir_all io (tls [name])) "an old TLS generation could not be removed"
                | _ => io_failure (remove_file io (tls [name])) "an old TLS generation could not be removed"
                end in
            remove_generations referenced true names
      end
  end.

Definition remove_unreferenced_generations : W unit :=
  do! fault RemoveGenerations in
  let! current := fsys (attempt (current_generation io)) in
  let referenced := match current with Ok name => name | _ => None end in
  let! entries := tried (read_dir io (tls [])) in
  match entries with
  | Ok entries =>
      let! removed := remove_generations referenced false entries in
      if removed : bool then
        io_failure (fsync_directory (tls [])) "an old TLS generation could not be removed"
      else ret tt
  | Err NotFound => ret tt
  | _ => fail "TLS generations could not be listed"%string
  end.

(** One turn of the loop over the key and the certificate. *)
Definition protect_file (p : Path) (mode : Z) : W unit :=
  let! metadata := tried (symlink_metadata io p) in
  do! match metadata with
      | Ok {| kind := Regular _ |} => ret tt
      | _ => fail "openssl did not write the expected files"%string
      end in
  do! io_failure (set_permissions io p mode) "TLS file permissions could not be set" in
  do! apply_group p in
  io_failure (open_and_sync io p) "a TLS file could not be synced".

(** The closure of [fill_generation] that writes the fingerprint. *)
Definition write_fingerprint (directory : Path) (fingerprint : string) : fsm unit :=
  let p := (directory ++ [FINGERPRINT_FILE])%list in
  do! create_new io o644 p in
  do! set_permissions io p o644 in
  do! write_all io p (bytes_of (fingerprint_file_contents fingerprint)) in
  do! sync_all io in
  fsync_directory directory.

Definition fill_generation (directory : Path) : W unit :=
  do! io_failure (set_permissions io directory o750) "a TLS generation directory could not be created" in
  do! apply_group directory in
  do! or_failed (openssl (req_arguments directory)) "openssl could not generate the TLS identity" in
  let! output := or_failed (openssl (fingerprint_arguments directory)) "openssl could not compute the fingerprint" in
  let! fingerprint := lift (ok_or (parse_openssl_fingerprint output) "openssl returned a malformed fingerprint"%string) in
  do! protect_file (directory ++ [KEY_FILE]) o640 in
  do! protect_file (directory ++ [CERT_FILE]) o644 in
  io_failure (write_fingerprint directory fingerprint) "the fingerprint could not be written".

Definition generate_identity : W string :=
  do! ensure_directory [] o755 false in
  do! ensure_directory (tls []) o750 true in
  do! remove_unreferenced_generations in
  let! bytes := or_failed (random 8) "randomness is unavailable" in
  let generation := generation_name bytes in
  let directory := tls [generation] in
  do! io_failure (create_dir io o750 directory) "a TLS generation directory could not be created" in
  let! written := attempt (fill_generation directory) in
  do! (if is_ok written then ret tt else let! _ := tried (remove_dir_all io directory) in ret tt) in
  do! lift written in
  ret generation.

(** The closure of [swap_current]. *)
Definition swap_link (generation : string) : fsm unit :=
  do! symlink io generation (tls [temporary_of CURRENT]) in
  do! rename io (tls [temporary_of CURRENT]) (tls [CURRENT]) in
  fsync_directory (tls []).

Definition swap_current (generation : string) : W unit :=
  do! fault SwapCurrent in
  let! swapped := tried (swap_link generation) in
  match swapped with
  | Ok _ => ret tt
  | _ =>
      let! _ := tried (remove_file io (tls [temporary_of CURRENT])) in
      fail "the TLS identity could not be installed"%string
  end.

Definition remove_current : W unit :=
  do! fault RemoveCurrent in
  let! removed := tried (remove_file io (tls [CURRENT])) in
  match removed with
  | Ok _ => io_failure (fsync_directory (tls [])) "the TLS identity could not be removed"
  | Err NotFound => ret tt
  | _ => fail "the TLS identity could not be removed"%string
  end.

Definition enable : W unit :=
  let! pending := marker_exists RESET_PENDING in
  if pending : bool then fail "a remote-management reset is pending"%string
  else
    let! identity := fsys (attempt (current_identity io)) in
    do! match identity with
        | Ok (Some _) => ret tt
        | Ok None =>
            let! generation := generate_identity in
            do! swap_current generation in
            remove_unreferenced_generations
        | _ => fail "the existing TLS identity is invalid"%string
        end in
    create_marker ENABLED.

Definition rotate : W unit :=
  let! generation := generate_identity in
  do! swap_current generation in
  remove_unreferenced_generations.

Definition boot_reset : W unit :=
  do! create_marker RESET_PENDING in
  do! remove_current in
  do! or_failed reset_enrollment "sl-authd could not reset enrollment" in
  do! remove_unreferenced_generations in
  remove_marker RESET_PENDING.

Definition run (m : Mode) : W unit :=
  do! remove_stale_temporaries in
  match m with
  | Enable => enable
  | Disable => remove_marker ENABLED
  | RotateTls => rotate
  | BootReset => boot_reset
  | ClearResetPending => remove_marker RESET_PENDING
  end.
End Modes.

(** ** [main] *)

(** [parse_mode], of the arguments as byte strings *)
Definition parse_mode (arguments : list string) : option Mode :=
  match arguments with
  | [argument] => text ← from_utf8 (bytes_of argument); Mode_parse text
  | _ => None
  end.

(** [main]: the exit code and the state it leaves; [group_id] looks up
    [REMOTED_GROUP]. *)
Definition main (io : Io) (tools : Tools) (root : string) (group_id : string -> option Z)
    (arguments : list string) (st : State) : Z * State :=
  match parse_mode arguments with
  | None => (2, st)
  | Some mode =>
      let go ownership :=
        match run io tools root ownership mode st with
        | (Ok _, st) => (0, st)
        | (_, st) => (1, st)
        end in
      if writes_identity mode then
        match group_id REMOTED_GROUP with
        | Some gid => go (RemotedGroup gid)
        | None => (1, st)
        end
      else go OwnershipUnavailable
  end.
End Worker.
