(* ===== verification/WorkerFacts.v ===== *)
(** * Facts about the remote-management worker

    What each part of a mode may change, and what its success means. *)
From S2P Require Import Prelude FileSystem FileSystemFacts RemoteState Worker.

Module WorkerFacts.
Import FileSystem FileSystemFacts RemoteState Worker.

(** ** Frames of worker actions *)

Section Frames.
Context (X : Path -> Prop).

Definition frame {E A : Type} (st : State) (m : stm State E A) : Prop :=
  framed X (world st) (world (m st).2).

Lemma frame_bind {E A B : Type} (m : stm State E A) (k : A -> stm State E B) st :
  frame st m -> (forall a st1, m st = (Ok a, st1) -> frame st1 (k a)) -> frame st (bind m k).
Proof.
  unfold frame, bind. intros Hm Hk. destruct (m st) as [[a|e|] st1] eqn:E1; simpl in *; [|done..].
  eapply framed_trans; [exact Hm|]. by apply Hk.
Qed.

Lemma frame_ret {E A : Type} (a : A) st : frame st (ret (E:=E) a).
Proof. apply framed_refl. Qed.
Lemma frame_fail {E A : Type} (e : E) st : frame st (fail (A:=A) e).
Proof. apply framed_refl. Qed.
Lemma frame_lift {E A : Type} (r : res A E) st : frame st (lift r).
Proof. apply framed_refl. Qed.

Lemma frame_fsys {E A : Type} (m : stm World E A) st :
  framed X (world st) (m (world st)).2 -> frame st (fsys m).
Proof. unfold frame, fsys. by destruct (m (world st)). Qed.

Lemma frame_io_failure {A : Type} (m : fsm A) message st :
  framed X (world st) (m (world st)).2 -> frame st (io_failure m message).
Proof. intros Hm. apply frame_fsys. by apply or_fail_framed. Qed.

Lemma frame_tried {A : Type} (m : fsm A) st :
  framed X (world st) (m (world st)).2 -> frame st (tried m).
Proof. intros Hm. apply frame_fsys. by apply attempt_framed. Qed.

Lemma frame_or_failed {A : Type} (m : stm State unit A) message st :
  frame st m -> frame st (or_failed m message).
Proof. unfold frame, or_failed. by destruct (m st). Qed.

Lemma frame_attempt {E F A : Type} (m : stm State E A) st : frame st m -> frame st (attempt (F:=F) m).
Proof. unfold frame, attempt. by destruct (m st). Qed.

Lemma frame_if {E A : Type} (b : bool) (m n : stm State E A) st :
  frame st m -> frame st n -> frame st (if b then m else n).
Proof. by destruct b. Qed.

Lemma advance_framed w : framed X w (advance w).
Proof. by apply framed_step. Qed.
End Frames.

Lemma frame_weaken (X Y : Path -> Prop) {E A : Type} st (m : stm State E A) :
  frame X st m -> (forall p, X p -> Y p) -> frame Y st m.
Proof. apply framed_weaken. Qed.

Lemma frame_nowhere (X : Path -> Prop) {E A : Type} st (m : stm State E A) : frame nowhere st m -> frame X st m.
Proof. apply nowhere_framed. Qed.

Create HintDb frames discriminated.
#[export] Hint Resolve frame_ret frame_fail frame_lift frame_if frame_io_failure frame_tried
  frame_attempt frame_or_failed framed_refl advance_framed
  symlink_metadata_framed read_link_framed read_framed sync_all_framed read_dir_framed
  open_and_sync_framed reading_framed : frames.
#[export] Hint Extern 2 (framed _ _ (symlink_metadata _ _ _).2) => apply nowhere_framed : frames.
#[export] Hint Extern 2 (framed _ _ (read_link _ _ _).2) => apply nowhere_framed : frames.
#[export] Hint Extern 2 (framed _ _ (read _ _ _).2) => apply nowhere_framed : frames.
#[export] Hint Extern 2 (framed _ _ (sync_all _ _).2) => apply nowhere_framed : frames.
#[export] Hint Extern 2 (framed _ _ (read_dir _ _ _).2) => apply nowhere_framed : frames.
#[export] Hint Extern 2 (framed _ _ (open_and_sync _ _ _).2) => apply nowhere_framed : frames.

(** The paths of the layout. *)
Definition marker_path (name : string) (p : Path) : Prop :=
  p = [] \/ p = [name] \/ p = [temporary_of name].
Definition unreferenced (referenced : option string) (p : Path) : Prop :=
  exists g q, p = tls (g :: q) /\ is_generation_name g = true /\ Some g <> referenced.
Definition generation_path : Path -> Prop := unreferenced None.
Definition link_path (p : Path) : Prop := p = tls [CURRENT] \/ p = tls [temporary_of CURRENT].

Section Worker.
Context (io : Io) (tools : Tools) (root : string) (ownership : Ownership).

(** Splits the binds and matches of an action; the leaves are calls. *)
Ltac framing :=
  repeat first
    [ progress auto with frames
    | apply frame_bind; [|intros ? ? ?]
    | apply frame_if
    | match goal with |- frame _ _ (match ?x with _ => _ end) => destruct x end ].

Lemma frame_symlink_metadata (X : Path -> Prop) p st : frame X st (tried (symlink_metadata io p)).
Proof. framing. Qed.

Lemma marker_exists_frame (X : Path -> Prop) name st : frame X st (marker_exists io name).
Proof. unfold marker_exists. framing. Qed.

Lemma remove_stale_frame paths : forall st, frame (fun p => p ∈ paths) st (remove_stale io paths).
Proof.
  induction paths as [|p paths IH]; intros st; simpl; [framing|].
  apply frame_bind.
  - apply frame_tried. eapply framed_weaken; [apply remove_file_framed|]. intros q <-. by left.
  - intros removed st1 _. assert (frame (fun q => q ∈ p :: paths) st1 (remove_stale io paths)) as Hrest.
    { eapply frame_weaken; [apply IH|]. intros q Hq. by right. }
    framing; exact Hrest.
Qed.

Lemma apply_group_frame p st : frame (eq p) st (apply_group io ownership p).
Proof.
  unfold apply_group. destruct ownership; [|framing]. apply frame_io_failure. by apply on_node_framed.
Qed.

Lemma fsync_parent_frame (X : Path -> Prop) p w : framed X w (fsync_parent io p w).2.
Proof.
  apply nowhere_framed. unfold fsync_parent, fsync_directory. destruct p; [|auto with frames].
  apply bind_framed; [auto with frames|]. intros. auto with frames.
Qed.

Lemma ensure_directory_frame p mode group st : frame (eq p) st (ensure_directory io ownership p mode group).
Proof.
  unfold ensure_directory. apply frame_bind; [apply frame_tried, create_node_framed|]. intros created st1 _.
  destruct created as [[]|[]|]; framing.
  - apply frame_io_failure. by apply on_node_framed.
  - apply apply_group_frame.
  - apply frame_io_failure, fsync_parent_frame.
Qed.

Lemma write_marker_framed name w : framed (marker_path name) w (write_marker io name w).2.
Proof.
  assert (forall p : Path, [temporary_of name] = p -> marker_path name p) as Ht by (intros p <-; unfold marker_path; auto).
  unfold write_marker. apply bind_framed; [eapply framed_weaken; [apply create_node_framed|exact Ht]|]. intros _ w1 _.
  apply bind_framed; [eapply framed_weaken; [by apply on_node_framed|exact Ht]|]. intros _ w2 _.
  apply bind_framed; [auto with frames|]. intros _ w3 _.
  apply bind_framed; [|intros _ w4 _; unfold fsync_directory; auto with frames].
  eapply framed_weaken; [apply rename_framed|]. unfold marker_path. intros p [->| ->]; auto.
Qed.

Lemma create_marker_frame name st : frame (marker_path name) st (create_marker io tools ownership name).
Proof.
  unfold create_marker. apply frame_bind.
  { eapply frame_weaken; [apply ensure_directory_frame|]. intros p <-. by left. }
  intros _ st1 _. apply frame_bind; [apply marker_exists_frame|]. intros [] st2 _; [framing|].
  apply frame_bind; [apply framed_refl|]. intros _ st3 _.
  apply frame_bind; [apply frame_tried, write_marker_framed|]. intros written st4 _.
  destruct written; framing; apply frame_tried;
    (eapply framed_weaken; [apply remove_file_framed|]); intros p <-; unfold marker_path; auto.
Qed.

Lemma remove_marker_frame name st : frame (eq [name]) st (remove_marker io tools name).
Proof.
  unfold remove_marker. apply frame_bind; [apply marker_exists_frame|]. intros [] st1 _; simpl; [|framing].
  apply frame_bind; [apply framed_refl|]. intros _ st2 _. apply frame_io_failure.
  apply bind_framed; [apply remove_file_framed|]. intros. unfold fsync_directory. auto with frames.
Qed.

Lemma remove_generations_frame referenced names : forall removed st,
  frame (unreferenced referenced) st (remove_generations io referenced removed names).
Proof.
  induction names as [|name names IH]; intros removed st; simpl; [framing|].
  apply frame_bind; [apply frame_io_failure, nowhere_framed, reading_framed|]. intros _ st1 _.
  destruct (from_utf8 (bytes_of name)) as [g|]; [|apply IH].
  destruct (is_generation_name g) eqn:Hg; simpl; [|apply IH].
  destruct (decide (Some g = referenced)) as [->|Hne].
  { rewrite bool_decide_eq_true_2 by done. apply IH. }
  rewrite bool_decide_eq_false_2 by done.
  apply frame_bind; [apply frame_symlink_metadata|]. intros metadata st2 _.
  assert (forall q : Path, tls [g] `prefix_of` q -> unreferenced referenced q) as Hx.
  { intros q [rest ->]. exists g, rest. done. }
  apply frame_bind; [|intros; apply IH].
  destruct metadata as [[[] ? ?]|e|]; apply frame_io_failure;
    (eapply framed_weaken; [first [apply remove_dir_all_framed|apply remove_file_framed]|]);
    intros q Hq; apply Hx; by subst || done.
Qed.

Lemma fault_frame (X : Path -> Prop) point st : frame X st (fault tools point).
Proof. unfold fault, frame. simpl. apply framed_refl. Qed.

Lemma fsync_framed (X : Path -> Prop) p w : framed X w (fsync_directory io p w).2.
Proof. unfold fsync_directory. auto with frames. Qed.

Lemma current_generation_framed (X : Path -> Prop) w : framed X w (current_generation io w).2.
Proof.
  apply nowhere_framed. unfold current_generation. apply bind_framed; [apply attempt_framed, read_link_framed|].
  intros target w1 _. destruct target as [target|[]|]; try apply framed_refl.
  destruct (is_generation_name target); apply framed_refl.
Qed.

(** Once the generation in use is known, only the others can go. *)
Lemma remove_unreferenced_frame referenced st :
  (forall r w, current_generation io (world st) = (r, w) ->
     match r with Ok name => name | _ => None end = referenced) ->
  frame (unreferenced referenced) st (remove_unreferenced_generations io tools).
Proof.
  intros Hr. unfold remove_unreferenced_generations. apply frame_bind; [apply fault_frame|]. intros u st1 Hf.
  assert (st1 = st) as -> by (unfold fault in Hf; by simplify_eq).
  apply frame_bind; [apply frame_fsys, attempt_framed, current_generation_framed|]. intros current st2 Hc.
  assert (match current with Ok name => name | _ => None end = referenced) as ->.
  { unfold fsys, attempt in Hc. destruct (current_generation io (world st)) as [r w] eqn:E. simpl in Hc.
    specialize (Hr _ _ eq_refl). destruct r; simplify_eq/=; done. }
  apply frame_bind; [apply frame_tried; auto with frames|]. intros entries st3 _.
  destruct entries as [entries|[]|]; framing; [apply remove_generations_frame|].
  apply frame_io_failure, fsync_framed.
Qed.

Lemma protect_file_frame p mode st : frame (eq p) st (protect_file io ownership p mode).
Proof.
  unfold protect_file. apply frame_bind; [apply frame_symlink_metadata|]. intros metadata st1 _.
  apply frame_bind; [framing|]. intros _ st2 _.
  apply frame_bind; [apply frame_io_failure; by apply on_node_framed|]. intros _ st3 _.
  apply frame_bind; [apply apply_group_frame|]. intros _ st4 _. framing.
Qed.

Lemma create_new_ok mode p w a w' : create_new io mode p w = (Ok a, w') ->
  reach (files w) p = Reachable /\ files w !! p = None /\
  files w' = <[p := {| kind := Regular []; mode := masked mode; group := None |}]> (files w).
Proof.
  unfold create_new, create_node, call. intros H. apply call_ok in H as (Hb & Hf & _).
  apply resolve_ok in Hb as [Hr Hb]. destruct (files w !! p) eqn:E; [done|]. done.
Qed.

Lemma on_node_ok p f w a w' : on_node io p f w = (Ok a, w') ->
  is_Some (files w !! p) /\ files w' = alter f p (files w).
Proof.
  unfold on_node, call. intros H. apply call_ok in H as (Hb & Hf & _).
  apply resolve_ok in Hb as [_ Hb]. destruct (files w !! p); [|done]. eauto.
Qed.

Lemma write_fingerprint_framed d fingerprint w :
  framed (eq (d ++ [FINGERPRINT_FILE])%list) w (write_fingerprint io d fingerprint w).2.
Proof.
  unfold write_fingerprint. cbv zeta. set (p := (d ++ [FINGERPRINT_FILE])%list).
  apply bind_framed; [apply create_node_framed|]. intros u1 w1 H1. apply create_new_ok in H1 as (_ & _ & H1).
  apply bind_framed; [by apply on_node_framed|]. intros u2 w2 H2. apply on_node_ok in H2 as (_ & H2).
  apply bind_framed.
  - apply write_all_framed. intros n. rewrite H2, lookup_alter_eq, H1, lookup_insert_eq. by intros [= <-].
  - intros _ w3 _. apply bind_framed; [auto with frames|]. intros _ w4 _. apply fsync_framed.
Qed.

(** What openssl does to the tree: the two files it is asked to write. *)
Class OpensslLaws := {
  openssl_req n g fs r fs' : is_generation_name g = true -> tree fs ->
    openssl_at tools n (req_arguments root (tls [g])) fs = (r, fs') ->
    tree fs' /\ (forall p, p <> tls [g; KEY_FILE] -> p <> tls [g; CERT_FILE] -> fs' !! p = fs !! p);
  openssl_fingerprint n g fs r fs' : is_generation_name g = true ->
    openssl_at tools n (fingerprint_arguments root (tls [g])) fs = (r, fs') -> fs' = fs;
  openssl_no_panic n arguments fs : (openssl_at tools n arguments fs).1 <> Panic
}.
Context {OL : OpensslLaws}.

Definition in_generation (g : string) (p : Path) : Prop := tls [g] `prefix_of` p.

Lemma openssl_frame g arguments st : is_generation_name g = true ->
  arguments = req_arguments root (tls [g]) \/ arguments = fingerprint_arguments root (tls [g]) ->
  frame (in_generation g) st (openssl tools arguments).
Proof.
  intros Hg Ha. unfold frame, openssl.
  destruct (openssl_at tools (calls (world st)) arguments (files (world st))) as [r fs] eqn:E. simpl.
  apply framed_step. intros T. destruct Ha as [->| ->].
  - destruct (openssl_req _ _ _ _ _ Hg T E) as [T' Hp]. split; [done|]. intros p Hn.
    apply Hp; intros ->; apply Hn; [by exists [KEY_FILE]|by exists [CERT_FILE]].
  - by rewrite (openssl_fingerprint _ _ _ _ _ Hg E).
Qed.

Lemma fill_generation_frame g st : is_generation_name g = true ->
  frame (in_generation g) st (fill_generation io tools root ownership (tls [g])).
Proof.
  intros Hg. assert (forall q, q = tls [g] -> in_generation g q) as H0 by (intros q ->; by exists []).
  assert (forall x (q : Path), (tls [g] ++ [x])%list = q -> in_generation g q) as H1 by (intros x q <-; by exists [x]).
  unfold fill_generation.
  apply frame_bind; [apply frame_io_failure; eapply framed_weaken; [by apply on_node_framed|auto]|]. intros _ st1 _.
  apply frame_bind; [eapply frame_weaken; [apply apply_group_frame|auto]|]. intros _ st2 _.
  apply frame_bind; [apply frame_or_failed, openssl_frame; auto|]. intros _ st3 _.
  apply frame_bind; [apply frame_or_failed, openssl_frame; auto|]. intros output st4 _.
  apply frame_bind; [apply framed_refl|]. intros fingerprint st5 _.
  apply frame_bind; [eapply frame_weaken; [apply protect_file_frame|apply H1]|]. intros _ st6 _.
  apply frame_bind; [eapply frame_weaken; [apply protect_file_frame|apply H1]|]. intros _ st7 _.
  apply frame_io_failure. eapply framed_weaken; [apply write_fingerprint_framed|apply H1].
Qed.

Lemma swap_current_frame g st : frame link_path st (swap_current io tools g).
Proof.
  unfold swap_current. apply frame_bind; [apply fault_frame|]. intros _ st1 _.
  apply frame_bind.
  - apply frame_tried. unfold swap_link.
    apply bind_framed; [eapply framed_weaken; [apply create_node_framed|]; intros p <-; unfold link_path; auto|].
    intros _ w1 _. apply bind_framed; [eapply framed_weaken; [apply rename_framed|]; unfold link_path; intuition|].
    intros _ w2 _. apply fsync_framed.
  - intros swapped st2 _. destruct swapped; framing; apply frame_tried;
      (eapply framed_weaken; [apply remove_file_framed|]); intros p <-; unfold link_path; auto.
Qed.

Lemma remove_current_frame st : frame (eq (tls [CURRENT])) st (remove_current io tools).
Proof.
  unfold remove_current. apply frame_bind; [apply fault_frame|]. intros _ st1 _.
  apply frame_bind; [apply frame_tried, remove_file_framed|]. intros removed st2 _.
  destruct removed as [|[]|]; framing. apply frame_io_failure, fsync_framed.
Qed.
End Worker.
End WorkerFacts.
