(* ===== verification/WorkerSpec.v ===== *)
(** * What the remote-management worker guarantees *)
From S2P Require Import Prelude FileSystem FileSystemFacts RemoteState Worker WorkerFacts.

Module WorkerSpec.
Import FileSystem FileSystemFacts RemoteState Worker WorkerFacts.

(** ** Identities *)

(** [tls/current] is a link to the generation [g]. *)
Definition named (fs : Files) (g : string) : Prop :=
  (exists n, fs !! tls [CURRENT] = Some n /\ kind n = Symlink g) /\ is_generation_name g = true.

Definition is_regular (fs : Files) (p : Path) : Prop :=
  exists n contents, fs !! p = Some n /\ kind n = Regular contents.

(** A generation with everything an identity needs. *)
Record complete (fs : Files) (g : string) : Prop := {
  complete_directory : is_directory fs (tls [g]);
  complete_key : is_regular fs (tls [g; KEY_FILE]);
  complete_cert : is_regular fs (tls [g; CERT_FILE]);
  complete_fingerprint : exists n contents fingerprint, fs !! tls [g; FINGERPRINT_FILE] = Some n /\
    kind n = Regular contents /\ parse_fingerprint_file contents = Some fingerprint
}.

(** Whatever [tls/current] names is complete. *)
Definition valid (fs : Files) : Prop := forall g, named fs g -> complete fs g.

(** The modes and the group the worker leaves on a generation's files. *)
Definition has (fs : Files) (p : Path) (m gid : Z) : Prop :=
  exists n, fs !! p = Some n /\ mode n = m /\ group n = Some gid.
Definition protected (fs : Files) (g : string) (gid : Z) : Prop :=
  has fs (tls [g]) o750 gid /\ has fs (tls [g; KEY_FILE]) o640 gid /\ has fs (tls [g; CERT_FILE]) o644 gid.

Lemma current_not_generation : is_generation_name CURRENT = false.
Proof. reflexivity. Qed.
Lemma temporary_not_generation : is_generation_name (temporary_of CURRENT) = false.
Proof. reflexivity. Qed.

Lemma complete_agree fs t g : (forall q, t !! tls (g :: q) = fs !! tls (g :: q)) -> complete fs g -> complete t g.
Proof. intros Ha [H1 H2 H3 H4]. split; unfold is_directory, is_regular; rewrite ?Ha; done. Qed.

Lemma protected_agree fs t g gid : (forall q, t !! tls (g :: q) = fs !! tls (g :: q)) ->
  protected fs g gid -> protected t g gid.
Proof. intros Ha (H1 & H2 & H3). unfold protected, has. by rewrite !Ha. Qed.

Lemma named_unique fs g g' : named fs g -> named fs g' -> g = g'.
Proof. intros [(n & Hn & Hk) _] [(n' & Hn' & Hk') _]. congruence. Qed.

Lemma named_agree fs t g : t !! tls [CURRENT] = fs !! tls [CURRENT] -> named t g -> named fs g.
Proof. unfold named. by intros ->. Qed.

Lemma valid_agree fs t : valid fs -> t !! tls [CURRENT] = fs !! tls [CURRENT] ->
  (forall g q, named fs g -> t !! tls (g :: q) = fs !! tls (g :: q)) -> valid t.
Proof.
  intros V Hc Ha g Hg. apply (named_agree _ _ _ Hc) in Hg. apply (complete_agree fs); [|by apply V].
  intros q. by apply Ha.
Qed.

(** ** Properties of every tree gone through *)
Definition tree_of (st : State) : Files := files (world st).

Definition keeps (I : Files -> Prop) {E A : Type} (st : State) (m : stm State E A) : Prop :=
  exists new, past (world (m st).2) = (past (world st) ++ new)%list /\
    forall t, t ∈ (new ++ [tree_of (m st).2])%list -> tree t /\ I t.

Lemma keeps_end (I : Files -> Prop) {E A : Type} st (m : stm State E A) : keeps I st m -> tree (tree_of (m st).2) /\ I (tree_of (m st).2).
Proof. intros (new & _ & Ht). apply Ht, elem_of_app. right. by left. Qed.

Lemma keeps_bind (I : Files -> Prop) {E A B : Type} (m : stm State E A) (k : A -> stm State E B) st :
  keeps I st m -> (forall a st1, m st = (Ok a, st1) -> tree (tree_of st1) -> I (tree_of st1) -> keeps I st1 (k a)) ->
  keeps I st (bind m k).
Proof.
  intros Hm Hk. pose proof (keeps_end _ _ _ Hm) as [T HI]. destruct Hm as (n1 & Hp1 & Ht1).
  unfold keeps, bind. destruct (m st) as [[a|e|] st1] eqn:E1; simpl in *; [|by exists n1..].
  destruct (Hk a st1 eq_refl T HI) as (n2 & Hp2 & Ht2). exists (n1 ++ n2)%list.
  split; [by rewrite Hp2, Hp1, app_assoc|]. intros t Ht. rewrite <- app_assoc in Ht.
  apply elem_of_app in Ht as [Ht|Ht]; [apply Ht1, elem_of_app; by left|by apply Ht2].
Qed.

Lemma keeps_frame (I : Files -> Prop) (X : Path -> Prop) {E A : Type} st (m : stm State E A) :
  frame X st m -> tree (tree_of st) ->
  (forall t, (forall p, ~ X p -> t !! p = tree_of st !! p) -> I t) -> keeps I st m.
Proof.
  intros Hf T HI. destruct (Hf T) as (new & Hp & Ht). exists new. split; [done|].
  intros t Hin. destruct (Ht t Hin) as [Tt Et]. auto.
Qed.

Lemma keeps_ret (I : Files -> Prop) {E A : Type} (a : A) st : tree (tree_of st) -> I (tree_of st) -> keeps I st (ret (E:=E) a).
Proof.
  intros T HI. exists []. rewrite app_nil_r. split; [done|]. intros t Ht. by apply list_elem_of_singleton in Ht as ->.
Qed.

Lemma frame_end (X : Path -> Prop) {E A : Type} st (m : stm State E A) r st' : frame X st m -> m st = (r, st') ->
  tree (tree_of st) -> tree (tree_of st') /\ forall p, ~ X p -> tree_of st' !! p = tree_of st !! p.
Proof. intros Hf Hm T. unfold frame in Hf. rewrite Hm in Hf. by apply framed_tree in Hf. Qed.

Section Guarantees.
Context (io : Io) (tools : Tools) (root : string) (ownership : Ownership).
Context {OL : OpensslLaws tools root}.

(** ** What success of the parts means *)

Lemma io_failure_ok {A : Type} (m : fsm A) message st a st' : io_failure m message st = (Ok a, st') ->
  exists w, m (world st) = (Ok a, w) /\ st' = {| world := w; resets := resets st |}.
Proof.
  unfold io_failure, fsys, or_fail. destruct (m (world st)) as [[b|e|] w]; intros; simplify_eq/=. eauto.
Qed.

Lemma tried_ok {A : Type} (m : fsm A) st r st' : tried m st = (Ok r, st') ->
  exists w, m (world st) = (r, w) /\ st' = {| world := w; resets := resets st |}.
Proof.
  unfold tried, fsys, attempt. destruct (m (world st)) as [[b|e|] w]; intros; simplify_eq/=; eauto.
Qed.

Lemma metadata_ok p w n w' : symlink_metadata io p w = (Ok n, w') -> files w !! p = Some n /\ files w' = files w.
Proof.
  unfold symlink_metadata, call. intros H. apply call_ok in H as (Hb & Hf & _).
  apply resolve_ok in Hb as [_ Hb]. destruct (files w !! p); simplify_eq/=. by split; [|].
Qed.

Lemma sync_ok p w a w' : open_and_sync io p w = (Ok a, w') -> files w' = files w.
Proof.
  unfold open_and_sync. intros H. apply bind_inv in H as (r & w1 & H1 & H2). destruct r as [u| |]; [|by destruct H2..].
  apply call_ok in H1 as (_ & H1 & _). unfold sync_all, call in H2. apply call_ok in H2 as (_ & H2 & _).
  by rewrite H2, H1.
Qed.

Lemma apply_group_ok p st a st' : apply_group io ownership p st = (Ok a, st') ->
  exists gid, ownership = RemotedGroup gid /\ is_Some (tree_of st !! p) /\
    tree_of st' = alter (fun n => {| kind := kind n; mode := mode n; group := Some gid |}) p (tree_of st).
Proof.
  unfold apply_group. destruct ownership as [gid|]; [|done]. intros H.
  apply io_failure_ok in H as (w & H & ->). apply on_node_ok in H as [H1 H2]. by exists gid.
Qed.

Lemma protect_file_ok p m st a st' : protect_file io ownership p m st = (Ok a, st') ->
  exists gid, ownership = RemotedGroup gid /\ is_regular (tree_of st') p /\ has (tree_of st') p m gid.
Proof.
  unfold protect_file. intros H. inv_bind H. destruct r as [metadata| |]; [|by destruct H..].
  apply tried_ok in Hm as (w1 & Hm & ->). inv_bind H.
  destruct metadata as [[[|contents|] ? ?]| |]; simpl in Hm0; try (by unfold fail in Hm0; simplify_eq; destruct H).
  unfold ret in Hm0. simplify_eq. apply metadata_ok in Hm as [Hn Hw1].
  inv_bind H. destruct r as [u| |]; [|by destruct H..]. apply io_failure_ok in Hm as (w2 & Hm & ->).
  apply on_node_ok in Hm as [_ Hw2]. simpl in Hw2.
  inv_bind H. destruct r as [u'| |]; [|by destruct H..]. apply apply_group_ok in Hm as (gid & Ho & _ & Hc).
  apply io_failure_ok in H as (w3 & H & ->). apply sync_ok in H. unfold tree_of in *. simpl in *.
  exists gid. split; [done|]. unfold is_regular, has.
  rewrite H, Hc, Hw2, Hw1, !lookup_alter_eq, Hn. simpl. split; [by eexists _, _|by eexists].
Qed.

Lemma write_all_ok p bytes w a w' : write_all io p bytes w = (Ok a, w') ->
  files w' = alter (fun n => {| kind := Regular bytes; mode := mode n; group := group n |}) p (files w).
Proof. unfold write_all. destruct (fails io (calls w)); intros; by simplify_eq. Qed.

Lemma write_fingerprint_ok d fingerprint st a st' :
  io_failure (write_fingerprint io d fingerprint) "the fingerprint could not be written" st = (Ok a, st') ->
  exists n, tree_of st' !! (d ++ [FINGERPRINT_FILE])%list = Some n /\
    kind n = Regular (bytes_of (fingerprint_file_contents fingerprint)).
Proof.
  intros H. apply io_failure_ok in H as (w & H & ->). unfold write_fingerprint in H. cbv zeta in H.
  inv_bind H. destruct r as [u1| |]; [|by destruct H..]. apply create_new_ok in Hm as (_ & _ & H1).
  inv_bind H. destruct r as [u2| |]; [|by destruct H..]. apply on_node_ok in Hm as (_ & H2).
  inv_bind H. destruct r as [u3| |]; [|by destruct H..]. apply write_all_ok in Hm.
  inv_bind H. destruct r as [u4| |]; [|by destruct H..].
  unfold sync_all, call in Hm0. apply call_ok in Hm0 as (_ & H4 & _). apply sync_ok in H.
  unfold tree_of. simpl. rewrite H, H4, Hm, H2, H1. unfold id. rewrite !lookup_alter_eq, lookup_insert_eq.
  simpl. by eexists.
Qed.

Lemma or_failed_ok {A : Type} (m : stm State unit A) message st a st' :
  or_failed m message st = (Ok a, st') -> m st = (Ok a, st').
Proof. unfold or_failed. destruct (m st) as [[b|e|] st1]; intros; by simplify_eq/=. Qed.

Lemma alter_directory (f : Node -> Node) p fs : (forall n, kind (f n) = kind n) ->
  is_directory fs p -> is_directory (alter f p fs) p.
Proof. intros Hf (n & Hn & Hk). exists (f n). by rewrite lookup_alter_eq, Hn, Hf. Qed.

(** A directory given its mode and its group. *)
Lemma directory_ok g st a st' message : tree (tree_of st) -> is_directory (tree_of st) (tls [g]) ->
  (do! io_failure (set_permissions io (tls [g]) o750) message in apply_group io ownership (tls [g])) st = (Ok a, st') ->
  exists gid, ownership = RemotedGroup gid /\ tree (tree_of st') /\
    has (tree_of st') (tls [g]) o750 gid /\ is_directory (tree_of st') (tls [g]).
Proof.
  intros T (n & Hn & Hk) H.
  assert (frame (eq (tls [g])) st (do! io_failure (set_permissions io (tls [g]) o750) message in apply_group io ownership (tls [g]))) as F.
  { apply frame_bind; [apply frame_io_failure; by apply on_node_framed|]. intros. apply apply_group_frame. }
  destruct (frame_end _ _ _ _ _ F H T) as [T' _].
  inv_bind H. destruct r as [u| |]; [|by destruct H..]. apply io_failure_ok in Hm as (w & Hm & ->).
  apply on_node_ok in Hm as [_ Hw]. apply apply_group_ok in H as (gid & Ho & _ & Hc).
  exists gid. split_and!; [done..| |]; unfold has, is_directory, tree_of in *; simpl in Hc;
    rewrite Hc, Hw, !lookup_alter_eq, Hn; simpl; by eexists.
Qed.

Lemma openssl_ok g arguments st a st' : is_generation_name g = true -> tree (tree_of st) ->
  arguments = req_arguments root (tls [g]) \/ arguments = fingerprint_arguments root (tls [g]) ->
  openssl tools arguments st = (Ok a, st') ->
  tree (tree_of st') /\
  forall p, p <> tls [g; KEY_FILE] -> p <> tls [g; CERT_FILE] -> tree_of st' !! p = tree_of st !! p.
Proof.
  intros Hg T Ha. unfold openssl, tree_of.
  destruct (openssl_at tools (calls (world st)) arguments (files (world st))) as [r fs] eqn:E.
  intros H. simplify_eq. simpl. destruct Ha as [->| ->].
  - exact (openssl_req tools root _ _ _ _ _ Hg T E).
  - by rewrite (openssl_fingerprint tools root _ _ _ _ _ Hg E).
Qed.

(** A directory filled without an error is a complete, protected generation. *)
Lemma fill_generation_ok g st a st' : is_generation_name g = true -> tree (tree_of st) ->
  is_directory (tree_of st) (tls [g]) ->
  fill_generation io tools root ownership (tls [g]) st = (Ok a, st') ->
  exists gid, ownership = RemotedGroup gid /\ complete (tree_of st') g /\ protected (tree_of st') g gid.
Proof.
  intros Hg T Hd H. unfold fill_generation in H.
  inv_bind H. destruct r as [u1| |]; [|by destruct H..]. inv_bind H. destruct r as [u2| |]; [|by destruct H..].
  destruct (directory_ok g st u2 c0 "a TLS generation directory could not be created" T Hd) as (gid & Ho & T2 & D2 & I2).
  { by rewrite (bind_ok _ _ _ _ _ Hm). }
  clear Hm Hm0 Hd T. inv_bind H. destruct r as [u3| |]; [|by destruct H..].
  apply or_failed_ok, (openssl_ok g) in Hm as [T3 P3]; [|done|done|by left].
  inv_bind H. destruct r as [output| |]; [|by destruct H..].
  apply or_failed_ok, (openssl_ok g) in Hm as [T4 P4]; [|done|done|by right].
  inv_bind H. unfold lift in Hm. destruct (parse_openssl_fingerprint output) as [f|] eqn:Hf;
    injection Hm as <- <-; [|by destruct H].
  apply parse_openssl_canonical in Hf.
  inv_bind H. destruct r as [u5| |]; [|by destruct H..].
  destruct (frame_end _ _ _ _ _ (protect_file_frame io _ _ _ _) Hm T4) as [T5 P5].
  apply protect_file_ok in Hm as (gid5 & Ho5 & R5 & H5).
  inv_bind H. destruct r as [u6| |]; [|by destruct H..].
  destruct (frame_end _ _ _ _ _ (protect_file_frame io _ _ _ _) Hm T5) as [T6 P6].
  apply protect_file_ok in Hm as (gid6 & Ho6 & R6 & H6).
  pose proof (frame_io_failure _ (write_fingerprint io (tls [g]) f) "the fingerprint could not be written" c4
    (write_fingerprint_framed io (tls [g]) f (world c4))) as F7.
  destruct (frame_end _ _ _ _ _ F7 H T6) as [T7 P7]. apply write_fingerprint_ok in H as (n7 & Hn7 & Hk7).
  assert (gid5 = gid) as -> by congruence. assert (gid6 = gid) as -> by congruence. clear Ho5 Ho6.
  assert (tree_of st' !! tls [g] = tree_of c0 !! tls [g]) as E0.
  { rewrite P7, P6, P5, P4, P3 by (intros [=]). done. }
  assert (tree_of st' !! tls [g; KEY_FILE] = tree_of c3 !! tls [g; KEY_FILE]) as E1.
  { rewrite P7, P6 by (intros [=]). done. }
  assert (tree_of st' !! tls [g; CERT_FILE] = tree_of c4 !! tls [g; CERT_FILE]) as E2.
  { rewrite P7 by (intros [=]). done. }
  exists gid. split; [done|]. split.
  - split; unfold is_directory, is_regular; rewrite ?E0, ?E1, ?E2; [done..|].
    exists n7, (bytes_of (fingerprint_file_contents f)), f. split_and!; [done..|]. by apply parse_fingerprint_round_trip.
  - unfold protected, has. rewrite E0, E1, E2. done.
Qed.

(** ** What holds of every tree gone through *)

Context (read_link_works : forall n, fails_read_link io n = false).

(** Names are sixteen random hexadecimal digits. *)
Context (random_fills : forall n N bytes, random_at tools n N = Some bytes ->
  List.length bytes = N /\ Forall is_byte bytes).

Lemma current_generation_named w r w' g : tree (files w) -> current_generation io w = (r, w') ->
  named (files w) g -> r = Ok (Some g).
Proof.
  intros T Hc [(n & Hn & Hk) Hg]. destruct n as [k m gr]. simpl in Hk. subst k.
  unfold current_generation, attempt, bind, read_link, call_failing in Hc.
  rewrite read_link_works, (resolve_present _ _ _ T), Hn in Hc by (rewrite Hn; by eexists). simpl in Hc.
  rewrite Hg in Hc. unfold ret in Hc. by simplify_eq.
Qed.

Lemma remove_unreferenced_keeps st : tree (tree_of st) -> valid (tree_of st) ->
  keeps valid st (remove_unreferenced_generations io tools).
Proof.
  intros T V. destruct (current_generation io (world st)) as [r w] eqn:Hc.
  apply (keeps_frame _ (unreferenced (match r with Ok name => name | _ => None end))).
  - apply remove_unreferenced_frame. intros r' w' Hr. rewrite Hc in Hr. by simplify_eq.
  - done.
  - intros t Ht. apply (valid_agree (tree_of st)); [done|apply Ht|].
    + intros (g & q & [= <-] & Hg & _). by rewrite current_not_generation in Hg.
    + intros g q Hn. apply Ht. intros (g' & q' & [= <- <-] & _ & Hne).
      rewrite (current_generation_named _ _ _ _ T Hc Hn) in Hne. done.
Qed.

Definition fill_new (g : string) : W string :=
  let directory := tls [g] in
  do! io_failure (create_dir io o750 directory) "a TLS generation directory could not be created" in
  let! written := attempt (fill_generation io tools root ownership directory) in
  do! (if is_ok written then ret tt else let! _ := tried (remove_dir_all io directory) in ret tt) in
  do! lift written in
  ret g.

Lemma fill_new_frame g st : is_generation_name g = true -> frame (in_generation g) st (fill_new g).
Proof.
  intros Hg. unfold fill_new. cbv zeta. apply frame_bind.
  { apply frame_io_failure. eapply framed_weaken; [apply create_node_framed|]. intros p <-. by exists []. }
  intros _ st1 _. apply frame_bind; [by apply frame_attempt, fill_generation_frame|]. intros written st2 _.
  apply frame_bind.
  - apply frame_if; [apply framed_refl|]. apply frame_bind; [apply frame_tried, remove_dir_all_framed|].
    intros. apply framed_refl.
  - intros _ st3 _. apply frame_bind; [apply framed_refl|]. intros. apply framed_refl.
Qed.

Lemma fill_new_keeps g st : is_generation_name g = true -> tree (tree_of st) -> valid (tree_of st) ->
  keeps valid st (fill_new g).
Proof.
  intros Hg T V. destruct (tree_of st !! tls [g]) as [n|] eqn:Hn.
  - (* the name is taken: nothing happens *)
    apply keeps_bind.
    + apply (keeps_frame _ nowhere); [|done|].
      * apply frame_io_failure, call_failing_framed. intros a _ Hb. apply resolve_ok in Hb as [_ Hb].
        unfold tree_of in Hn. by rewrite Hn in Hb.
      * intros t Ht. apply (valid_agree (tree_of st)); [done|by apply Ht; intros []|]. intros. by apply Ht; intros [].
    + intros a st1 H1. apply io_failure_ok in H1 as (w & H1 & _). unfold create_dir, create_node, call in H1.
      apply call_ok in H1 as (Hb & _). apply resolve_ok in Hb as [_ Hb]. unfold tree_of in Hn. by rewrite Hn in Hb.
  - apply (keeps_frame _ (in_generation g)); [by apply fill_new_frame|done|].
    intros t Ht. apply (valid_agree (tree_of st)); [done|apply Ht|].
    + intros [q [= <- _]]. by rewrite current_not_generation in Hg.
    + intros g' q Hn'. apply Ht. intros [q' [= -> _]].
      destruct (complete_directory _ _ (V _ Hn')) as (d & Hd & _). congruence.
Qed.

Lemma fill_new_ok g st g' st' : is_generation_name g = true -> tree (tree_of st) -> fill_new g st = (Ok g', st') ->
  g' = g /\ exists gid, ownership = RemotedGroup gid /\ complete (tree_of st') g /\ protected (tree_of st') g gid.
Proof.
  intros Hg T H. unfold fill_new in H. cbv zeta in H.
  inv_bind H. destruct r as [u1| |]; [|by destruct H..].
  assert (frame (eq (tls [g])) st (io_failure (create_dir io o750 (tls [g])) "a TLS generation directory could not be created")) as F1.
  { apply frame_io_failure, create_node_framed. }
  destruct (frame_end _ _ _ _ _ F1 Hm T) as [T1 _]. apply io_failure_ok in Hm as (w1 & Hm & ->).
  unfold create_dir, create_node, call in Hm. apply call_ok in Hm as (_ & Hw1 & _).
  inv_bind H. unfold attempt in Hm. 
  destruct (fill_generation io tools root ownership (tls [g]) _) as [w st2] eqn:Hf.
  destruct w as [u2|e|]; injection Hm as <- <-; simpl in H; [| |by destruct H].
  - unfold bind, lift, ret in H. injection H as <- <-. split; [done|].
    eapply fill_generation_ok in Hf as (gid & Ho & Hc & Hp); [by exists gid|done|done|].
    unfold tree_of. simpl. rewrite Hw1. eexists. by rewrite lookup_insert_eq.
  - inv_bind H. destruct r; [|by destruct H..]. by rewrite bind_lift in H.
Qed.

(** A part that stays away from the link and the generations. *)
Lemma keeps_valid_frame (X : Path -> Prop) {E A : Type} st (m : stm State E A) :
  frame X st m -> tree (tree_of st) -> valid (tree_of st) -> ~ X (tls [CURRENT]) ->
  (forall g q, X (tls (g :: q)) -> is_generation_name g = true -> False) -> keeps valid st m.
Proof.
  intros F T V Hc Hg. apply (keeps_frame _ X); [done..|]. intros t Ht.
  apply (valid_agree (tree_of st)); [done|by apply Ht|]. intros g q [_ Hn]. apply Ht. intros Hx. by eapply Hg.
Qed.

Lemma ensure_directory_keeps p m gr st : p = [] \/ p = tls [] -> tree (tree_of st) -> valid (tree_of st) ->
  keeps valid st (ensure_directory io ownership p m gr).
Proof.
  intros Hp T V. apply (keeps_valid_frame (eq p)); [apply ensure_directory_frame|done|done|..].
  - by destruct Hp as [->| ->].
  - intros g q ->. by destruct Hp.
Qed.

Lemma generate_identity_unfold : generate_identity io tools root ownership =
  (do! ensure_directory io ownership [] o755 false in
   do! ensure_directory io ownership (tls []) o750 true in
   do! remove_unreferenced_generations io tools in
   let! bytes := or_failed (random tools 8) "randomness is unavailable" in
   fill_new (generation_name bytes)).
Proof. reflexivity. Qed.

Lemma random_ok message st bytes st' : or_failed (random tools 8) message st = (Ok bytes, st') ->
  is_generation_name (generation_name bytes) = true /\ tree_of st' = tree_of st.
Proof.
  intros H. apply or_failed_ok in H. unfold random in H.
  destruct (random_at tools (calls (world st)) 8) as [b|] eqn:Hr; simplify_eq/=.
  apply random_fills in Hr as [Hl Hb]. split; [by apply generation_name_valid|done].
Qed.

Lemma random_keeps message st : tree (tree_of st) -> valid (tree_of st) ->
  keeps valid st (or_failed (random tools 8) message).
Proof.
  intros T V. apply (keeps_valid_frame nowhere); [|done|done|by intros []|by intros ? ? []].
  apply frame_or_failed. unfold frame, random. simpl. apply advance_framed.
Qed.

Lemma generate_keeps st : tree (tree_of st) -> valid (tree_of st) ->
  keeps valid st (generate_identity io tools root ownership).
Proof.
  intros T V. rewrite generate_identity_unfold. apply keeps_bind; [apply ensure_directory_keeps; auto|].
  intros _ st1 _ T1 V1. apply keeps_bind; [apply ensure_directory_keeps; auto|].
  intros _ st2 _ T2 V2. apply keeps_bind; [by apply remove_unreferenced_keeps|].
  intros _ st3 _ T3 V3. apply keeps_bind; [by apply random_keeps|].
  intros bytes st4 H4 T4 V4. apply random_ok in H4 as [Hg _]. by apply fill_new_keeps.
Qed.

Lemma generate_ok st g st' : tree (tree_of st) -> valid (tree_of st) ->
  generate_identity io tools root ownership st = (Ok g, st') ->
  is_generation_name g = true /\
  exists gid, ownership = RemotedGroup gid /\ complete (tree_of st') g /\ protected (tree_of st') g gid.
Proof.
  intros T V H. rewrite generate_identity_unfold in H.
  inv_bind H. destruct r as [u1| |]; [|by destruct H..].
  pose proof (keeps_end _ _ _ (ensure_directory_keeps [] o755 false st ltac:(by left) T V)) as K1.
  rewrite Hm in K1. cbn [snd] in K1. destruct K1 as [T1 V1]. clear Hm.
  inv_bind H. destruct r as [u2| |]; [|by destruct H..].
  pose proof (keeps_end _ _ _ (ensure_directory_keeps (tls []) o750 true c ltac:(by right) T1 V1)) as K2.
  rewrite Hm in K2. cbn [snd] in K2. destruct K2 as [T2 V2]. clear Hm.
  inv_bind H. destruct r as [u3| |]; [|by destruct H..].
  pose proof (keeps_end _ _ _ (remove_unreferenced_keeps _ T2 V2)) as K3.
  rewrite Hm in K3. cbn [snd] in K3. destruct K3 as [T3 V3]. clear Hm.
  inv_bind H. destruct r as [bytes| |]; [|by destruct H..]. apply random_ok in Hm as [Hg Ht].
  rewrite <- Ht in T3. destruct (fill_new_ok _ _ _ _ Hg T3 H) as [-> Hc]. done.
Qed.

(** The trees of a swap: nothing but the link and its temporary changes, and
    the link is the old one or names [g]. *)
Definition swapping (fs : Files) (g : string) (t : Files) : Prop :=
  (forall p, ~ link_path p -> t !! p = fs !! p) /\
  (t !! tls [CURRENT] = fs !! tls [CURRENT] \/ exists n, t !! tls [CURRENT] = Some n /\ kind n = Symlink g).

Lemma swapping_valid fs g t : valid fs -> complete fs g -> swapping fs g t -> valid t.
Proof.
  intros V C [Ht [Hc|(n & Hn & Hk)]].
  - apply (valid_agree fs); [done..|]. intros g' q [_ Hg']. apply Ht.
    intros [[= ->]|[= -> _]]; [by rewrite current_not_generation in Hg'|by rewrite temporary_not_generation in Hg'].
  - intros g' [(n' & Hn' & Hk') Hg']. assert (g' = g) as -> by congruence.
    apply (complete_agree fs); [|done]. intros q. apply Ht.
    intros [[= ->]|[= -> _]]; [by rewrite current_not_generation in Hg'|by rewrite temporary_not_generation in Hg'].
Qed.

Lemma swapping_step fs g (X : Path -> Prop) {E A : Type} st (m : stm State E A) : frame X st m -> tree (tree_of st) ->
  swapping fs g (tree_of st) -> (forall p, X p -> link_path p) -> ~ X (tls [CURRENT]) ->
  keeps (swapping fs g) st m.
Proof.
  intros F T [Hs Hc] Hx Hn. apply (keeps_frame _ X); [done..|]. intros t Ht. split.
  - intros p Hp. rewrite Ht; [by apply Hs|]. intros Hxp. by apply Hp, Hx.
  - by rewrite (Ht _ Hn).
Qed.

(** [tried] over a sequence is the sequence of its parts. *)
Lemma keeps_tried (I : Files -> Prop) {A : Type} (m : fsm A) st : keeps I st (fsys (E:=IoError) m) -> keeps I st (tried m).
Proof. unfold keeps, tried, fsys, attempt. by destruct (m (world st)) as [[]]. Qed.

Lemma keeps_fsys_bind (I : Files -> Prop) {A B : Type} (m : fsm A) (k : A -> fsm B) st :
  keeps I st (let! a := fsys (E:=IoError) m in fsys (k a)) -> keeps I st (fsys (bind m k)).
Proof. unfold keeps, fsys, bind. by destruct (m (world st)) as [[]]. Qed.

Lemma fsys_ok {E A : Type} (m : stm World E A) st a st' : fsys m st = (Ok a, st') ->
  exists w, m (world st) = (Ok a, w) /\ st' = {| world := w; resets := resets st |}.
Proof. unfold fsys. destruct (m (world st)) as [r w]. intros H. simplify_eq. by exists w. Qed.

Lemma symlink_ok target p w a w' : symlink io target p w = (Ok a, w') ->
  files w' = <[p := {| kind := Symlink target; mode := 511; group := None |}]> (files w).
Proof. unfold symlink, create_node, call. intros H. by apply call_ok in H as (_ & H & _). Qed.

Lemma rename_ok p q w a w' : rename io p q w = (Ok a, w') ->
  exists n, files w !! p = Some n /\ files w' = <[q := n]> (delete p (files w)).
Proof.
  unfold rename, call. intros H. apply call_ok in H as (Hb & H & _). apply resolve_ok in Hb as [_ Hb].
  destruct (files w !! p) as [n|]; [by exists n|done].
Qed.

Lemma keeps_call (I : Files -> Prop) (X : Path -> Prop) {A : Type} failing (body : Files -> res A IoError) effect st :
  framed X (world st) (call_failing failing body effect (world st)).2 ->
  tree (tree_of st) -> I (tree_of st) ->
  (forall a, body (tree_of st) = Ok a -> I (effect (tree_of st))) ->
  keeps I st (fsys (E:=IoError) (call_failing failing body effect)).
Proof.
  intros F T HI Hb. unfold tree_of in *. apply framed_tree in F as [T' _]; [|done]. revert T'.
  unfold keeps, fsys, call_failing, tree_of.
  assert (forall fs, tree fs -> I fs -> forall t, t ∈ ([files (world st)] ++ [fs])%list -> tree t /\ I t) as Ht.
  { intros fs Tf If t Ht. apply elem_of_cons in Ht as [->|Ht]; [done|]. by apply list_elem_of_singleton in Ht as ->. }
  destruct (failing (calls (world st))); [|destruct (body (files (world st))) as [a|e|] eqn:Hk];
    simpl; intros T'; exists [files (world st)]; (split; [done|]); apply Ht; eauto.
Qed.

(** A rename of the new link over the old one. *)
Lemma rename_keeps fs g st n : tree (tree_of st) -> swapping fs g (tree_of st) ->
  tree_of st !! tls [temporary_of CURRENT] = Some n -> kind n = Symlink g ->
  keeps (swapping fs g) st (fsys (E:=IoError) (rename io (tls [temporary_of CURRENT]) (tls [CURRENT]))).
Proof.
  intros T [Hs Hc] Hn Hk. refine (keeps_call _ _ _ _ _ _ (rename_framed io _ _ (world st)) T _ _); [by split|].
  intros _ _. rewrite Hn. split.
  - intros p Hp. unfold link_path in Hp. rewrite lookup_insert_ne by (intros <-; apply Hp; by left).
    rewrite lookup_delete_ne by (intros <-; apply Hp; by right). by apply Hs.
  - right. exists n. by rewrite lookup_insert_eq.
Qed.

Lemma swap_current_keeps g st : tree (tree_of st) -> keeps (swapping (tree_of st) g) st (swap_current io tools g).
Proof.
  intros T. assert (swapping (tree_of st) g (tree_of st)) as S0 by (split; auto).
  assert (forall p, tls [temporary_of CURRENT] = p -> link_path p) as Hl by (intros p <-; by right).
  assert (tls [temporary_of CURRENT] <> tls [CURRENT]) as Hne by done.
  unfold swap_current. apply keeps_bind; [apply (swapping_step _ _ nowhere); [apply fault_frame|done|done|by intros p []|by intros []]|].
  intros u st0 H0 _ _. unfold fault in H0. destruct (faults tools _ _); simplify_eq/=. 
  apply keeps_bind.
  - apply keeps_tried, keeps_fsys_bind, keeps_bind.
    { apply (swapping_step _ _ (eq (tls [temporary_of CURRENT]))); [|done..]. apply frame_fsys, create_node_framed. }
    intros u1 st1 H1 T1 S1. apply fsys_ok in H1 as (w1 & H1 & ->). apply symlink_ok in H1.
    apply keeps_fsys_bind, keeps_bind.
    { eapply rename_keeps; [done|done|unfold tree_of; simpl; by rewrite H1, lookup_insert_eq|done]. }
    intros _ st2 _ T2 S2. apply (swapping_step _ _ nowhere); [|done|done|by intros p []|by intros []].
    apply frame_fsys, fsync_framed.
  - intros swapped st1 _ T1 S1. assert (forall (u : Failed) st, tree (tree_of st) -> swapping (tree_of st0) g (tree_of st) ->
      keeps (swapping (tree_of st0) g) st (fail (A:=unit) u)) as Hf.
    { intros. by apply (swapping_step _ _ nowhere); [apply frame_fail|done|done|intros p []|intros []]. }
    destruct swapped; [by apply keeps_ret|..];
      (apply keeps_bind; [|intros; by apply Hf];
       apply (swapping_step _ _ (eq (tls [temporary_of CURRENT]))); [apply frame_tried, remove_file_framed|done..]).
Qed.

Lemma swap_link_ok g w a w' : swap_link io g w = (Ok a, w') ->
  exists n, files w' !! tls [CURRENT] = Some n /\ kind n = Symlink g.
Proof.
  unfold swap_link. intros H. inv_bind H. destruct r as [u1| |]; [|by destruct H..]. apply symlink_ok in Hm.
  inv_bind H. destruct r as [u2| |]; [|by destruct H..]. apply rename_ok in Hm0 as (n & Hn & Hw).
  apply sync_ok in H. exists n. rewrite H, Hw, lookup_insert_eq. split; [done|].
  rewrite Hm, lookup_insert_eq in Hn. by simplify_eq.
Qed.

Lemma swap_current_ok g st a st' : swap_current io tools g st = (Ok a, st') ->
  exists n, tree_of st' !! tls [CURRENT] = Some n /\ kind n = Symlink g.
Proof.
  unfold swap_current. intros H. inv_bind H. destruct r as [u1| |]; [|by destruct H..].
  inv_bind H. destruct r as [u2| |]; [|by destruct H..]. apply tried_ok in Hm0 as (w & Hm0 & ->).
  destruct u2 as [u2| |].
  - unfold ret in H. simplify_eq. by apply swap_link_ok in Hm0.
  - inv_bind H. destruct r; [by unfold fail in H|by destruct H..].
  - inv_bind H. destruct r; [by unfold fail in H|by destruct H..].
Qed.
End Guarantees.
End WorkerSpec.
