(* ===== verification/WorkerProps.v ===== *)
(** * The modes of the remote-management worker

    What every tree gone through satisfies, and what a success means. *)
From S2P Require Import Prelude FileSystem FileSystemFacts RemoteState Worker WorkerFacts WorkerSpec.

Module WorkerProps.
Import FileSystem FileSystemFacts RemoteState Worker WorkerFacts WorkerSpec.

Lemma keeps_weaken (I J : Files -> Prop) {E A : Type} st (m : stm State E A) :
  keeps I st m -> (forall t, tree t -> I t -> J t) -> keeps J st m.
Proof.
  intros (new & Hp & Ht) Hij. exists new. split; [done|]. intros t Hin. destruct (Ht t Hin). auto.
Qed.

(** A directory is listed with all its names. *)
Definition lists_everything (io : Io) : Prop := forall n names x, x ∈ names -> x ∈ listing io n names.

(** ** Generations that disappear *)

Lemma generation_digits_ascii g : is_generation_name g = true -> Forall (fun b => b < 128) (bytes_of g).
Proof.
  unfold is_generation_name. destruct (strip_prefix GENERATION_PREFIX g) as [d|] eqn:Hp; [|done].
  apply strip_prefix_spec in Hp as ->. intros H. bool_hyps. rewrite bytes_of_app. apply Forall_app.
  split; [repeat constructor|].
  match goal with H : forallb _ _ = true |- _ => rewrite forallb_forall in H; rename H into Hx end.
  apply Forall_forall. intros b Hb. apply list_elem_of_In, Hx in Hb.
  unfold is_lower_hex, is_ascii_digit, in_range in Hb. apply orb_true_iff in Hb as [Hb|Hb]; bool_hyps; lia.
Qed.

Lemma generation_text g : is_generation_name g = true -> from_utf8 (bytes_of g) = Some g.
Proof. intros Hg. by apply from_utf8_ascii, generation_digits_ascii. Qed.

Lemma children_complete fs p x : is_Some (fs !! (p ++ [x])%list) -> x ∈ children fs p.
Proof.
  intros [n Hn]. unfold children. apply list_elem_of_omap. exists ((p ++ [x])%list, n).
  split; [by apply elem_of_map_to_list|]. cbn. rewrite removelast_snoc, decide_True by (by split; [apply snoc_not_nil|]).
  by rewrite last_snoc.
Qed.

Definition gone (t : Files) (g : string) : Prop := forall q, t !! tls (g :: q) = None.

Section Removal.
Context (io : Io) (tools : Tools) (root : string) (ownership : Ownership).

Lemma tried_same {A : Type} failing (body : Files -> res A IoError) st r st' :
  tried (call_failing failing body id) st = (Ok r, st') -> tree_of st' = tree_of st /\ resets st' = resets st.
Proof.
  intros H. apply tried_ok in H as (w & H & ->). split; [|done]. unfold tree_of. simpl.
  unfold call_failing in H. destruct (failing _); [by simplify_eq|]. by destruct (body _); simplify_eq.
Qed.

(** One entry of the listing, removed. *)
Definition remove_entry (g : string) : W unit :=
  let! metadata := tried (symlink_metadata io (tls [g])) in
  match metadata with
  | Ok {| kind := Directory |} =>
      io_failure (remove_dir_all io (tls [g])) "an old TLS generation could not be removed"
  | _ => io_failure (remove_file io (tls [g])) "an old TLS generation could not be removed"
  end.

Lemma remove_entry_frame g st : frame (in_generation g) st (remove_entry g).
Proof.
  unfold remove_entry. apply frame_bind; [apply frame_symlink_metadata|]. intros metadata st2 _.
  destruct metadata as [[[] ? ?]|e|]; apply frame_io_failure;
    first [apply remove_dir_all_framed|eapply framed_weaken; [apply remove_file_framed|]; by intros q <-; exists []].
Qed.

Lemma remove_entry_ok g st r st' : tree (tree_of st) -> remove_entry g st = (Ok r, st') ->
  gone (tree_of st') g /\ (forall p, tree_of st !! p = None -> tree_of st' !! p = None).
Proof.
  intros T H. unfold remove_entry in H. inv_bind H. destruct r0 as [metadata| |]; [|by destruct H..].
  unfold symlink_metadata, call in Hm. apply tried_same in Hm as [Hs _]. rewrite <- Hs in T |- *. clear Hs.
  assert (forall st1, io_failure (remove_file io (tls [g])) "an old TLS generation could not be removed" c = (Ok r, st1) ->
    gone (tree_of st1) g /\ (forall p, tree_of c !! p = None -> tree_of st1 !! p = None)) as Hfile.
  { intros st1 H1. apply io_failure_ok in H1 as (w & H1 & ->).
    unfold remove_file, call in H1. apply call_ok in H1 as (Hb & Hw & _). apply resolve_ok in Hb as [_ Hb].
    unfold tree_of, gone in *. simpl. rewrite Hw. split.
    - intros q. destruct q as [|x q]; [by rewrite lookup_delete_eq|].
      rewrite lookup_delete_ne by done. apply eq_None_not_Some. intros Hq.
      destruct (tree_above _ (tls [g]) (x :: q) T Hq) as (n & Hn & Hk); [done|]. rewrite Hn in Hb.
      destruct n as [[]]; simpl in *; done.
    - intros p Hp. by apply lookup_delete_None; right. }
  assert (forall st1, io_failure (remove_dir_all io (tls [g])) "an old TLS generation could not be removed" c = (Ok r, st1) ->
    gone (tree_of st1) g /\ (forall p, tree_of c !! p = None -> tree_of st1 !! p = None)) as Hdir.
  { intros st1 H1. apply io_failure_ok in H1 as (w & H1 & ->).
    pose proof (remove_dir_all_ok _ _ _ _ _ H1) as Hw. unfold tree_of, gone in *. simpl. split.
    - intros q. rewrite Hw. unfold below. rewrite bool_decide_eq_true_2; [done|]. by exists q.
    - intros p Hp. rewrite Hw. by destruct (below _ p). }
  destruct metadata as [[[]]| |]; auto.
Qed.

Lemma remove_generations_ok referenced names : forall removed st r st', tree (tree_of st) ->
  remove_generations io referenced removed names st = (Ok r, st') ->
  (forall p, tree_of st !! p = None -> tree_of st' !! p = None) /\
  forall g, g ∈ names -> is_generation_name g = true -> Some g <> referenced -> gone (tree_of st') g.
Proof.
  induction names as [|name names IH]; intros removed st r st' T H; simpl in H.
  { unfold ret in H. simplify_eq. split; [done|]. intros g Hg. by apply elem_of_nil in Hg. }
  inv_bind H. destruct r0 as [u| |]; [|by destruct H..].
  assert (tree_of c = tree_of st) as Hc.
  { apply io_failure_ok in Hm as (w & Hm & ->). unfold call in Hm. by apply call_ok in Hm as (_ & Hm & _). }
  rewrite <- Hc in T |- *. clear Hc Hm.
  assert (forall referenced0, from_utf8 (bytes_of name) <> Some referenced0 \/ is_generation_name referenced0 = false \/
      Some referenced0 = referenced -> remove_generations io referenced removed names c = (Ok r, st') ->
    (from_utf8 (bytes_of name) = None \/ from_utf8 (bytes_of name) = Some referenced0) ->
    (forall p, tree_of c !! p = None -> tree_of st' !! p = None) /\
    forall g, g ∈ name :: names -> is_generation_name g = true -> Some g <> referenced -> gone (tree_of st') g) as Hskip.
  { intros x Hx H' Hu. apply IH in H' as [H1 H2]; [|done]. split; [done|]. intros g Hg Hn Hr.
    apply elem_of_cons in Hg as [->|Hg]; [|by apply H2]. rewrite generation_text in Hx, Hu by done.
    destruct Hu as [Hu|Hu]; simplify_eq. destruct Hx as [Hx|[Hx|Hx]]; congruence. }
  destruct (from_utf8 (bytes_of name)) as [g0|] eqn:Hu.
  2: { eapply (Hskip ""); [by left|exact H|by left]. }
  destruct (is_generation_name g0) eqn:Hn0; simpl in H; [|by eapply (Hskip g0); auto].
  destruct (bool_decide (Some g0 = referenced)) eqn:Hr0.
  { apply bool_decide_eq_true in Hr0. by eapply (Hskip g0); auto. }
  clear Hskip. inv_bind H. destruct r0 as [metadata| |]; [|by destruct H..]. inv_bind H.
  destruct r0 as [u1| |]; [|by destruct H..].
  assert (remove_entry g0 c = (Ok u1, c1)) as Hm1 by (unfold remove_entry; by rewrite (bind_ok _ _ _ _ _ Hm)).
  clear Hm Hm0 c0. rename c1 into c0, Hm1 into Hm.
  destruct (frame_end _ _ _ _ _ (remove_entry_frame g0 c) Hm T) as [T0 _].
  apply remove_entry_ok in Hm as [Hg1 Hm1]; [|done]. apply IH in H as [H1 H2]; [|done]. split; [auto|].
  intros g Hg Hn Hr. apply elem_of_cons in Hg as [->|Hg]; [|by apply H2].
  rewrite generation_text in Hu by done. simplify_eq. intros q. apply H1, Hg1.
Qed.
(** Every generation but the referenced one is removed. *)
Lemma remove_unreferenced_ok st r w a st' : lists_everything io -> tree (tree_of st) ->
  current_generation io (world st) = (r, w) ->
  remove_unreferenced_generations io tools st = (Ok a, st') ->
  forall g, is_generation_name g = true -> Some g <> match r with Ok name => name | _ => None end ->
  gone (tree_of st') g.
Proof.
  intros L T Hc H g Hg Hr. unfold remove_unreferenced_generations in H.
  inv_bind H. destruct r0 as [u0| |]; [|by destruct H..]. unfold fault in Hm.
  assert (c = st) as -> by (by injection Hm). clear Hm.
  inv_bind H. unfold fsys, attempt in Hm. rewrite Hc in Hm.
  destruct r0 as [cur| |]; [|by destruct H..]. assert (cur = r /\ world c = w) as [-> Hw].
  { destruct r; [by injection Hm as <- <-..|done]. }
  pose proof (current_generation_framed io nowhere (world st)) as F. rewrite Hc in F. cbn [snd] in F. rewrite <- Hw in F.
  destruct (framed_tree _ _ _ F T) as [Tc Ec]. clear F Hm.
  inv_bind H. destruct r0 as [entries| |]; [|by destruct H..].
  pose proof (read_dir_framed io (tls []) (world c)) as F. apply tried_ok in Hm as (w2 & Hm & ->).
  rewrite Hm in F. destruct (framed_tree _ _ _ F Tc) as [T0 E0]. cbn [snd] in T0, E0.
  destruct entries as [names|[]|]; [| |by unfold fail in H..].
  - unfold read_dir, call in Hm. apply call_ok in Hm as (Hb & _). apply resolve_ok in Hb as [_ Hb].
    destruct (files (world c) !! tls []) as [n|] eqn:Hn; [|done]. destruct n as [[]]; simpl in Hb; simplify_eq.
    inv_bind H. destruct r0 as [removed| |]; [|by destruct H..].
    apply remove_generations_ok in Hm as [H1 H2]; [|exact T0].
    assert (gone (tree_of c0) g) as Hgone.
    { destruct (files w2 !! tls [g]) as [n|] eqn:Hn2.
      - apply H2; [|done|done]. apply L, children_complete. change (tls [] ++ [g])%list with (tls [g]).
        exists n. rewrite <- Hn2. symmetry. apply E0; by intros [].
      - intros q. apply H1. change (files w2 !! tls (g :: q) = None). apply eq_None_not_Some. intros Hq.
        destruct q as [|x q]; [rewrite Hn2 in Hq; by apply is_Some_None in Hq|].
        destruct (tree_above _ (tls [g]) (x :: q) T0 Hq) as (n & Hn' & _); [done|congruence]. }
    destruct removed; [|unfold ret in H; by simplify_eq].
    apply io_failure_ok in H as (w3 & H & ->). apply sync_ok in H. intros q. unfold tree_of. cbn [world]. rewrite H. apply Hgone.
  - unfold ret in H. simplify_eq. intros q. unfold tree_of. cbn [world]. rewrite E0 by (by intros []).
    apply eq_None_not_Some. intros Hq. destruct (tree_above _ (tls []) (g :: q) Tc Hq) as (n & Hn & _); [done|].
    unfold read_dir, call, call_failing in Hm. destruct (fails io _); [done|].
    rewrite (resolve_present _ _ _ Tc), Hn in Hm by (by exists n). destruct n as [[]]; simpl in Hm; simplify_eq.
Qed.
End Removal.
(** ** Actions that do not ask for a reset of the enrollment *)
Definition discreet {E A : Type} (m : stm State E A) : Prop := forall st, resets (m st).2 = resets st.

Lemma discreet_bind {E A B : Type} (m : stm State E A) (k : A -> stm State E B) :
  discreet m -> (forall a, discreet (k a)) -> discreet (bind m k).
Proof.
  intros Hm Hk st. specialize (Hm st). unfold bind. destruct (m st) as [[a|e|] st1]; simpl in *; [|done..].
  by rewrite (Hk a st1).
Qed.
Lemma discreet_fsys {E A : Type} (m : stm World E A) : discreet (fsys m).
Proof. intros st. unfold fsys. by destruct (m (world st)). Qed.
Lemma discreet_ret {E A : Type} (a : A) : discreet (ret (E:=E) a).
Proof. done. Qed.
Lemma discreet_fail {E A : Type} (e : E) : discreet (fail (A:=A) e).
Proof. done. Qed.
Lemma discreet_if {E A : Type} (b : bool) (m n : stm State E A) : discreet m -> discreet n -> discreet (if b then m else n).
Proof. by destruct b. Qed.

Create HintDb discreet discriminated.
#[export] Hint Resolve discreet_ret discreet_fail discreet_if : discreet.
#[export] Hint Extern 1 (discreet (tried _)) => apply discreet_fsys : discreet.
#[export] Hint Extern 1 (discreet (io_failure _ _)) => apply discreet_fsys : discreet.
#[export] Hint Extern 1 (discreet (fsys _)) => apply discreet_fsys : discreet.
#[export] Hint Extern 1 (discreet (fault _ _)) => by intros ? : discreet.
#[export] Hint Extern 3 (discreet (bind _ _)) => apply discreet_bind; [|intros] : discreet.
#[export] Hint Extern 4 (discreet (match ?x with _ => _ end)) => destruct x : discreet.
#[export] Hint Extern 4 (discreet (let (_, _) := ?x in _)) => destruct x : discreet.

Section Quiet.
Context (io : Io) (tools : Tools) (ownership : Ownership).
Ltac discreeten := auto 30 with discreet.

Lemma remove_stale_discreet paths : discreet (remove_stale io paths).
Proof. induction paths as [|p paths IH]; simpl; discreeten. Qed.
Lemma marker_exists_discreet name : discreet (marker_exists io name).
Proof. unfold marker_exists. discreeten. Qed.
Lemma ensure_directory_discreet p m gr : discreet (ensure_directory io ownership p m gr).
Proof. unfold ensure_directory, apply_group. discreeten. Qed.
#[local] Hint Resolve marker_exists_discreet ensure_directory_discreet : discreet.
Lemma create_marker_discreet name : discreet (create_marker io tools ownership name).
Proof. unfold create_marker. discreeten. Qed.
Lemma remove_marker_discreet name : discreet (remove_marker io tools name).
Proof. unfold remove_marker. discreeten. Qed.
Lemma remove_current_discreet : discreet (remove_current io tools).
Proof. unfold remove_current. discreeten. Qed.
Lemma remove_generations_discreet referenced names : forall removed, discreet (remove_generations io referenced removed names).
Proof.
  induction names as [|name names IH]; intros removed; simpl; discreeten.
Qed.
#[local] Hint Resolve remove_generations_discreet : discreet.
Lemma remove_unreferenced_discreet : discreet (remove_unreferenced_generations io tools).
Proof. unfold remove_unreferenced_generations. discreeten. Qed.
End Quiet.
End WorkerProps.
