(* ===== verification/WorkerModes.v ===== *)
(** * The five modes of the worker

    The theorems about whole runs: the identity named by [tls/current] is
    complete at every instant, a boot reset is restartable, and what a
    success of each mode leaves. *)
From S2P Require Import Prelude FileSystem FileSystemFacts RemoteState Worker WorkerFacts WorkerSpec WorkerProps.

Module WorkerModes.
Import FileSystem FileSystemFacts RemoteState Worker WorkerFacts WorkerSpec WorkerProps.

(** Neither a marker nor its temporary is part of the identity. *)
Lemma marker_path_apart name p : name <> "tls" -> temporary_of name <> "tls" -> marker_path name p -> forall q, p <> tls q.
Proof. intros H1 H2 [->|[->| ->]] q [=]; [by destruct H1|by destruct H2]. Qed.

Section Identity.
Context (io : Io) (tools : Tools) (root : string) (ownership : Ownership).
Context {OL : OpensslLaws tools root}.
Context (read_link_works : forall n, fails_read_link io n = false).
Context (random_fills : forall n N bytes, random_at tools n N = Some bytes ->
  List.length bytes = N /\ Forall is_byte bytes).

(** The three steps both writers share. *)
Definition new_identity : W unit :=
  let! generation := generate_identity io tools root ownership in
  do! swap_current io tools generation in
  remove_unreferenced_generations io tools.

Lemma new_identity_keeps st : tree (tree_of st) -> valid (tree_of st) -> keeps valid st new_identity.
Proof.
  intros T V. unfold new_identity. apply keeps_bind; [by apply generate_keeps|].
  intros g st1 H1 T1 V1. apply (generate_ok io tools root ownership read_link_works random_fills) in H1
    as (Hg & gid & _ & C & _); [|done..].
  apply keeps_bind.
  - eapply keeps_weaken; [by apply swap_current_keeps|]. intros t _. by apply swapping_valid.
  - intros _ st2 _ T2 V2. by apply remove_unreferenced_keeps.
Qed.

Lemma marker_keeps name st {A : Type} (m : W A) : name <> "tls" -> temporary_of name <> "tls" ->
  frame (marker_path name) st m -> tree (tree_of st) -> valid (tree_of st) -> keeps valid st m.
Proof.
  intros N1 N2 F T V. apply (keeps_valid_frame (marker_path name)); [done..| |].
  - intros Hp. by eapply marker_path_apart in Hp.
  - intros g q Hp. by eapply marker_path_apart in Hp.
Qed.

Lemma still_keeps st {E A : Type} (m : stm State E A) : frame nowhere st m -> tree (tree_of st) -> valid (tree_of st) -> keeps valid st m.
Proof. intros F T V. by apply (keeps_valid_frame nowhere); [..|intros []|intros ? ? []]. Qed.

Lemma create_marker_keeps name st : name <> "tls" -> temporary_of name <> "tls" ->
  tree (tree_of st) -> valid (tree_of st) -> keeps valid st (create_marker io tools ownership name).
Proof. intros N1 N2 T V. by apply (marker_keeps name); [..|apply create_marker_frame|done|done]. Qed.

Lemma remove_marker_keeps name st : name <> "tls" -> temporary_of name <> "tls" ->
  tree (tree_of st) -> valid (tree_of st) -> keeps valid st (remove_marker io tools name).
Proof.
  intros N1 N2 T V. apply (marker_keeps name); [done..| |done|done].
  eapply frame_weaken; [apply remove_marker_frame|]. intros p <-. by right; left.
Qed.

Lemma remove_current_keeps st : tree (tree_of st) -> valid (tree_of st) -> keeps valid st (remove_current io tools).
Proof.
  intros T V. unfold remove_current. apply keeps_bind; [apply still_keeps; [apply fault_frame|done..]|].
  intros u st0 H0 T0 V0. apply keeps_bind.
  - apply keeps_tried. refine (keeps_call _ _ _ _ _ _ (remove_file_framed io _ (world st0)) T0 _ _); [done|].
    intros _ _ g [(n & Hn & _) _]. by rewrite lookup_delete_eq in Hn.
  - intros removed st1 _ T1 V1. apply still_keeps; [|done..].
    destruct removed as [|[]|]; auto with frames.
Qed.

Lemma remove_stale_keeps st : tree (tree_of st) -> valid (tree_of st) -> keeps valid st (remove_stale_temporaries io).
Proof.
  intros T V. eapply (keeps_valid_frame _); [apply remove_stale_frame|done|done|..].
  - intros Hp. repeat (apply elem_of_cons in Hp as [Hp|Hp]; [by injection Hp|]). by apply elem_of_nil in Hp.
  - intros g q Hp Hg. repeat (apply elem_of_cons in Hp as [Hp|Hp]; [by simplify_eq|]). by apply elem_of_nil in Hp.
Qed.

Lemma current_identity_framed w : framed nowhere w (current_identity io w).2.
Proof.
  assert (forall p b w, framed nowhere w (is_kind io p b w).2) as Hk.
  { intros p b w1. unfold is_kind. apply bind_framed; [apply attempt_framed, symlink_metadata_framed|].
    intros. apply framed_refl. }
  assert (forall w, framed nowhere w (current_fingerprint io w).2) as Hf.
  { intros w1. unfold current_fingerprint. apply bind_framed; [apply current_generation_framed|].
    intros [g|] w2 _; [|apply framed_refl]. apply bind_framed; [apply or_fail_framed, read_framed|].
    intros contents w3 _. destruct (parse_fingerprint_file contents); apply framed_refl. }
  unfold current_identity. apply bind_framed; [apply current_generation_framed|].
  intros [g|] w1 _; [|apply framed_refl].
  repeat (apply bind_framed; [apply Hk|]; intros [] ? _; simpl; [|apply framed_refl]).
  apply bind_framed; [apply Hf|]. intros. apply framed_refl.
Qed.

Lemma enable_keeps st : tree (tree_of st) -> valid (tree_of st) -> keeps valid st (enable io tools root ownership).
Proof.
  intros T V. unfold enable. apply keeps_bind; [apply still_keeps; [apply marker_exists_frame|done..]|].
  intros [] st1 _ T1 V1; [apply still_keeps; [apply frame_fail|done..]|].
  apply keeps_bind; [apply still_keeps; [apply frame_fsys, attempt_framed, current_identity_framed|done..]|].
  intros identity st2 _ T2 V2. apply keeps_bind; [|intros; by apply create_marker_keeps].
  destruct identity as [[g|]| |]; [by apply keeps_ret| |apply still_keeps; [apply frame_fail|done..]..].
  by apply new_identity_keeps.
Qed.

Lemma boot_reset_keeps st : tree (tree_of st) -> valid (tree_of st) -> keeps valid st (boot_reset io tools ownership).
Proof.
  intros T V. unfold boot_reset. apply keeps_bind; [by apply create_marker_keeps|].
  intros _ st1 _ T1 V1. apply keeps_bind; [by apply remove_current_keeps|].
  intros _ st2 _ T2 V2. apply keeps_bind.
  { apply still_keeps; [|done..]. apply frame_or_failed. apply advance_framed. }
  intros _ st3 _ T3 V3. apply keeps_bind; [by apply remove_unreferenced_keeps|].
  intros _ st4 _ T4 V4. by apply remove_marker_keeps.
Qed.

(** Every mode keeps the identity complete. *)
Lemma run_keeps m st : tree (tree_of st) -> valid (tree_of st) -> keeps valid st (run io tools root ownership m).
Proof.
  intros T V. unfold run. apply keeps_bind; [by apply remove_stale_keeps|]. intros _ st1 _ T1 V1.
  destruct m; [by apply enable_keeps|by apply remove_marker_keeps|by apply new_identity_keeps
    |by apply boot_reset_keeps|by apply remove_marker_keeps].
Qed.

End Identity.
(** ** The boot reset *)
Section Reset.
Context (io : Io) (tools : Tools) (root : string) (ownership : Ownership).
Context (lists : lists_everything io).

Definition marked (t : Files) : Prop := is_Some (t !! [RESET_PENDING]).

(** Neither the link nor a generation has changed. *)
Definition untouched (fs t : Files) : Prop :=
  t !! tls [CURRENT] = fs !! tls [CURRENT] /\
  forall g q, is_generation_name g = true -> t !! tls (g :: q) = fs !! tls (g :: q).

(** No link and no generation is left. *)
Definition wiped (t : Files) : Prop :=
  t !! tls [CURRENT] = None /\ forall g, is_generation_name g = true -> gone t g.

Lemma untouched_frame (X : Path -> Prop) fs {E A : Type} st (m : stm State E A) : frame X st m -> tree (tree_of st) ->
  untouched fs (tree_of st) -> ~ X (tls [CURRENT]) ->
  (forall g q, X (tls (g :: q)) -> is_generation_name g = true -> False) -> keeps (untouched fs) st m.
Proof.
  intros F T [U1 U2] Hc Hg. apply (keeps_frame _ X); [done..|]. intros t Ht. split.
  - by rewrite Ht.
  - intros g q Hn. rewrite Ht; [by apply U2|]. intros Hx. by eapply Hg.
Qed.

Lemma wiped_frame (X : Path -> Prop) {E A : Type} st (m : stm State E A) : frame X st m -> tree (tree_of st) ->
  wiped (tree_of st) -> ~ X (tls [CURRENT]) ->
  (forall g q, X (tls (g :: q)) -> is_generation_name g = true -> False) -> keeps wiped st m.
Proof.
  intros F T [U1 U2] Hc Hg. apply (keeps_frame _ X); [done..|]. intros t Ht. split.
  - by rewrite Ht.
  - intros g Hn q. rewrite Ht; [by apply U2|]. intros Hx. by eapply Hg.
Qed.

Lemma marked_frame (X : Path -> Prop) {E A : Type} st (m : stm State E A) : frame X st m -> tree (tree_of st) ->
  marked (tree_of st) -> ~ X [RESET_PENDING] -> keeps marked st m.
Proof.
  intros F T Hm Hx. apply (keeps_frame _ X); [done..|]. intros t Ht. unfold marked. by rewrite Ht.
Qed.

Lemma marker_exists_ok name st b st' : marker_exists io name st = (Ok b, st') ->
  tree_of st' = tree_of st /\ (b = true -> is_Some (tree_of st !! [name])) /\
  (tree (tree_of st) -> b = false -> tree_of st !! [name] = None).
Proof.
  unfold marker_exists. intros H. inv_bind H. destruct r as [metadata| |]; [|by destruct H..].
  pose proof Hm as Hs. unfold symlink_metadata, call in Hs. apply tried_same in Hs as [Hs _].
  apply tried_ok in Hm as (w & Hm & ->).
  destruct metadata as [n|[]|]; unfold ret, fail in H; simplify_eq; (split; [done|]).
  - apply metadata_ok in Hm as [Hn _]. split; [|done]. intros _. by exists n.
  - split; [done|]. intros T _. unfold tree_of in *. destruct (files (world st) !! [name]) as [n|] eqn:Hn; [|done].
    unfold symlink_metadata, call, call_failing in Hm. destruct (fails io _); [by simplify_eq|].
    rewrite (resolve_present _ _ _ T), Hn in Hm by (by exists n). by simplify_eq.
Qed.

Lemma create_marker_ok name st a st' : create_marker io tools ownership name st = (Ok a, st') ->
  is_Some (tree_of st' !! [name]).
Proof.
  unfold create_marker. intros H. inv_bind H. destruct r as [u| |]; [|by destruct H..].
  inv_bind H. destruct r as [[]| |]; [| |by destruct H..].
  - unfold ret in H. simplify_eq. apply marker_exists_ok in Hm0 as (Ht & Hs & _). rewrite Ht. auto.
  - inv_bind H. destruct r as [u1| |]; [|by destruct H..]. inv_bind H. destruct r as [u2| |]; [|by destruct H..].
    apply tried_ok in Hm2 as (w & Hm2 & ->). destruct u2 as [u2| |].
    + unfold ret in H. simplify_eq. unfold write_marker in Hm2.
      inv_bind Hm2. destruct r as [v1| |]; [|by destruct Hm2..]. inv_bind Hm2. destruct r as [v2| |]; [|by destruct Hm2..].
      inv_bind Hm2. destruct r as [v3| |]; [|by destruct Hm2..]. inv_bind Hm2. destruct r as [v4| |]; [|by destruct Hm2..].
      apply rename_ok in Hm6 as (n & _ & Hw). apply sync_ok in Hm2. exists n. unfold tree_of. cbn [world].
      by rewrite Hm2, Hw, lookup_insert_eq.
    + inv_bind H. destruct r; [by unfold fail in H|by destruct H..].
    + inv_bind H. destruct r; [by unfold fail in H|by destruct H..].
Qed.

Lemma remove_marker_ok name st a st' : tree (tree_of st) -> remove_marker io tools name st = (Ok a, st') ->
  tree_of st' !! [name] = None.
Proof.
  intros T. unfold remove_marker. intros H. inv_bind H. destruct r as [b| |]; [|by destruct H..].
  apply marker_exists_ok in Hm as (Ht & _ & Hf). destruct b; simpl in H.
  - inv_bind H. destruct r as [u1| |]; [|by destruct H..]. apply io_failure_ok in H as (w & H & ->).
    inv_bind H. destruct r as [u2| |]; [|by destruct H..]. unfold remove_file, call in Hm0.
    apply call_ok in Hm0 as (_ & Hw & _). apply sync_ok in H. unfold tree_of. cbn [world].
    by rewrite H, Hw, lookup_delete_eq.
  - unfold ret in H. simplify_eq. rewrite Ht. auto.
Qed.

Lemma remove_current_ok st a st' : tree (tree_of st) -> remove_current io tools st = (Ok a, st') ->
  tree_of st' !! tls [CURRENT] = None.
Proof.
  intros T. unfold remove_current. intros H. inv_bind H. destruct r as [u| |]; [|by destruct H..].
  assert (c = st) as -> by (unfold fault in Hm; by injection Hm). clear Hm.
  inv_bind H. destruct r as [removed| |]; [|by destruct H..]. apply tried_ok in Hm as (w & Hm & ->).
  destruct removed as [v|[]|]; [| |by unfold fail in H..].
  - apply io_failure_ok in H as (w' & H & ->). apply sync_ok in H. unfold remove_file, call in Hm.
    apply call_ok in Hm as (_ & Hw & _). unfold tree_of. cbn [world] in *. by rewrite H, Hw, lookup_delete_eq.
  - unfold ret in H. simplify_eq. unfold tree_of. cbn [world].
    unfold remove_file, call, call_failing in Hm. destruct (fails io _); [by simplify_eq|].
    unfold tree_of in T. destruct (files (world st) !! tls [CURRENT]) as [n|] eqn:Hn.
    + rewrite (resolve_present _ _ _ T), Hn in Hm by (by exists n). destruct n as [[]]; simpl in Hm; by simplify_eq.
    + destruct (resolve (files (world st)) _ _) as [|e|]; simplify_eq; done.
Qed.
Lemma reset_enrollment_ok message st a st' : or_failed (reset_enrollment tools) message st = (Ok a, st') ->
  tree_of st' = tree_of st /\ resets st' = (resets st ++ [(tree_of st, true)])%list.
Proof.
  intros H. apply or_failed_ok in H. unfold reset_enrollment in H.
  destruct (reset_at tools (calls (world st))); [|done]. by injection H as _ <-.
Qed.

Lemma no_reference st : tree (tree_of st) -> tree_of st !! tls [CURRENT] = None ->
  match (current_generation io (world st)).1 with Ok name => name | _ => None end = None.
Proof.
  unfold tree_of. intros T Hn. unfold current_generation, bind, attempt, read_link, call_failing.
  destruct (fails_read_link io _); [done|]. unfold resolve. rewrite Hn. by destruct (reach _ _).
Qed.

(** The part of the reset that destroys, under the marker. *)
Definition destroy : W unit :=
  do! remove_current io tools in
  do! or_failed (reset_enrollment tools) "sl-authd could not reset enrollment" in
  remove_unreferenced_generations io tools.

Lemma boot_reset_parts st : boot_reset io tools ownership st =
  (do! create_marker io tools ownership RESET_PENDING in do! destroy in remove_marker io tools RESET_PENDING) st.
Proof.
  unfold boot_reset, destroy, bind. destruct (create_marker _ _ _ _ st) as [[]]; [|done..].
  destruct (remove_current io tools _) as [[]]; [|done..]. by destruct (or_failed _ _ _) as [[]].
Qed.

Lemma destroy_frame st : frame (fun p => exists q, p = tls q) st destroy.
Proof.
  unfold destroy. apply frame_bind.
  { eapply frame_weaken; [apply remove_current_frame|]. intros p <-. by eexists. }
  intros _ st1 _. apply frame_bind; [apply frame_or_failed, advance_framed|]. intros _ st2 _.
  eapply (frame_weaken (unreferenced (match (current_generation io (world st2)).1 with Ok name => name | _ => None end))).
  { apply remove_unreferenced_frame. intros r w Hr. by rewrite Hr. }
  intros p (g & q & -> & _). by eexists.
Qed.

Lemma destroy_ok st a st' : tree (tree_of st) -> destroy st = (Ok a, st') ->
  wiped (tree_of st') /\ exists asked, resets st' = (resets st ++ [(asked, true)])%list.
Proof.
  intros T H. unfold destroy in H. inv_bind H. destruct r as [u1| |]; [|by destruct H..].
  destruct (frame_end _ _ _ _ _ (remove_current_frame io tools st) Hm T) as [T1 _].
  pose proof (remove_current_discreet io tools st) as Q1. rewrite Hm in Q1. cbn [snd] in Q1.
  apply remove_current_ok in Hm; [|done].
  inv_bind H. destruct r as [u2| |]; [|by destruct H..].
  apply reset_enrollment_ok in Hm0 as [E2 R2]. rewrite <- E2 in T1, Hm.
  pose proof (remove_unreferenced_discreet io tools c0) as Q3. rewrite H in Q3. cbn [snd] in Q3.
  pose proof (no_reference c0 T1 Hm) as Hnone.
  destruct (current_generation io (world c0)) as [r w] eqn:Hc. cbn [fst] in Hnone.
  assert (frame (unreferenced None) c0 (remove_unreferenced_generations io tools)) as F.
  { apply remove_unreferenced_frame. intros r' w' Hr. rewrite Hc in Hr. by simplify_eq. }
  destruct (frame_end _ _ _ _ _ F H T1) as [_ E3].
  split; [split|].
  - rewrite E3; [done|]. intros (g & q & [= <-] & Hg & _). by rewrite current_not_generation in Hg.
  - intros g Hg. eapply remove_unreferenced_ok; [done|done|done|done|done|]. by rewrite Hnone.
  - exists (tree_of c). by rewrite Q3, R2, Q1.
Qed.

(** The daemon is asked once, after the link is gone and under the marker. *)
Lemma destroy_asks st r st' : tree (tree_of st) -> marked (tree_of st) -> destroy st = (r, st') ->
  resets st' = resets st \/
  exists asked agreed, resets st' = (resets st ++ [(asked, agreed)])%list /\
    marked asked /\ asked !! tls [CURRENT] = None.
Proof.
  intros T M H. unfold destroy in H. inv_bind H.
  destruct (frame_end _ _ _ _ _ (remove_current_frame io tools st) Hm T) as [T1 E1].
  pose proof (remove_current_discreet io tools st) as Q1. rewrite Hm in Q1. cbn [snd] in Q1.
  destruct r0 as [u1| |]; [|destruct H as [-> ->]; by left..].
  apply remove_current_ok in Hm; [|done]. right.
  exists (tree_of c), (reset_at tools (calls (world c))).
  unfold marked. rewrite E1 by done. split_and!; [|done|done].
  unfold bind, or_failed, reset_enrollment in H. destruct (reset_at tools (calls (world c))); simpl in H.
  - pose proof (remove_unreferenced_discreet io tools
      {| world := advance (world c); resets := resets c ++ [(files (world c), true)] |}) as Q3.
    rewrite H in Q3. cbn [snd] in Q3. by rewrite Q3, <- Q1.
  - injection H as _ <-. by rewrite <- Q1.
Qed.

Definition prepare_reset : W unit :=
  do! remove_stale_temporaries io in create_marker io tools ownership RESET_PENDING.

Lemma prepare_reset_keeps fs st : tree (tree_of st) -> untouched fs (tree_of st) -> keeps (untouched fs) st prepare_reset.
Proof.
  intros T U. unfold prepare_reset. apply keeps_bind.
  - eapply (untouched_frame _); [apply remove_stale_frame|done|done|..].
    + intros Hp. repeat (apply elem_of_cons in Hp as [Hp|Hp]; [by injection Hp|]). by apply elem_of_nil in Hp.
    + intros g q Hp Hg. repeat (apply elem_of_cons in Hp as [Hp|Hp]; [by simplify_eq|]). by apply elem_of_nil in Hp.
  - intros _ st1 _ T1 U1. apply (untouched_frame (marker_path RESET_PENDING)); [apply create_marker_frame|done|done|..].
    + intros Hp. by eapply marker_path_apart in Hp.
    + intros g q Hp. by eapply marker_path_apart in Hp.
Qed.

Lemma prepare_reset_discreet : discreet prepare_reset.
Proof. apply discreet_bind; [apply remove_stale_discreet|]. intros. apply create_marker_discreet. Qed.

Lemma prepare_reset_ok st a st' : prepare_reset st = (Ok a, st') -> marked (tree_of st').
Proof.
  unfold prepare_reset. intros H. inv_bind H. destruct r as [u| |]; [|by destruct H..]. by eapply create_marker_ok.
Qed.

Lemma run_boot_reset st : run io tools root ownership BootReset st =
  (do! prepare_reset in do! destroy in remove_marker io tools RESET_PENDING) st.
Proof.
  unfold run, prepare_reset, bind. destruct (remove_stale_temporaries io st) as [[]]; [|done..].
  rewrite boot_reset_parts. unfold bind. by destruct (create_marker _ _ _ _ _) as [[]].
Qed.

Lemma run_boot_reset_keeps st : tree (tree_of st) ->
  keeps (fun t => marked t \/ untouched (tree_of st) t \/ wiped t /\
      exists asked, resets (run io tools root ownership BootReset st).2 = (resets st ++ [(asked, true)])%list)
    st (run io tools root ownership BootReset).
Proof.
  intros T. set (finished := exists asked, _).
  enough (keeps (fun t => marked t \/ untouched (tree_of st) t \/ wiped t /\ finished) st
    (do! prepare_reset in do! destroy in remove_marker io tools RESET_PENDING)) as K.
  { revert K. unfold keeps. by rewrite run_boot_reset. }
  apply keeps_bind.
  { eapply keeps_weaken; [by apply prepare_reset_keeps|]. auto. }
  intros u1 st1 H1 T1 _. pose proof (prepare_reset_discreet st) as Q1. rewrite H1 in Q1. cbn [snd] in Q1.
  pose proof (prepare_reset_ok _ _ _ H1) as M1. apply keeps_bind.
  { eapply keeps_weaken; [apply (marked_frame _ _ _ (destroy_frame st1)); [done|done|by intros [q Hq]]|]. auto. }
  intros u2 st2 H2 T2 _. destruct (destroy_ok _ _ _ T1 H2) as [W2 [asked R2]].
  assert (finished) as F.
  { exists asked. rewrite run_boot_reset. rewrite (bind_ok _ _ _ _ _ H1), (bind_ok _ _ _ _ _ H2).
    by rewrite (remove_marker_discreet io tools RESET_PENDING st2), R2, Q1. }
  eapply keeps_weaken.
  - apply (wiped_frame _ _ _ (remove_marker_frame io tools RESET_PENDING st2)); try done.
  - auto.
Qed.

(** C17. A boot reset can be interrupted anywhere.  In every tree gone
    through, the reset is marked as pending, or the identity has not been
    touched, or no identity is left and [sl-authd] has agreed to reset the
    enrollment, which it is asked at most once, with the marker in place and
    the identity already unusable.  A success leaves no identity and no
    marker. *)
Theorem boot_reset_restartable st r st' : tree (tree_of st) ->
  run io tools root ownership BootReset st = (r, st') ->
  let finished := exists asked, resets st' = (resets st ++ [(asked, true)])%list in
  (exists new, past (world st') = (past (world st) ++ new)%list /\
     forall t, t ∈ (new ++ [tree_of st'])%list ->
       tree t /\ (marked t \/ untouched (tree_of st) t \/ wiped t /\ finished)) /\
  (resets st' = resets st \/
   exists asked agreed, resets st' = (resets st ++ [(asked, agreed)])%list /\
     marked asked /\ asked !! tls [CURRENT] = None) /\
  (forall u, r = Ok u -> finished /\ wiped (tree_of st') /\ ~ marked (tree_of st')).
Proof.
  intros T Hrun finished. pose proof (run_boot_reset_keeps st T) as K. unfold keeps in K. rewrite Hrun in K.
  split; [exact K|]. clear K. rewrite run_boot_reset in Hrun. inv_bind Hrun.
  pose proof (prepare_reset_discreet st) as Q1. rewrite Hm in Q1. cbn [snd] in Q1.
  destruct r0 as [u1| |]; [|destruct Hrun as [-> ->]; by split; [left|]..].
  assert (tree (tree_of c)) as T1.
  { pose proof (keeps_end _ _ _ (prepare_reset_keeps (tree_of st) st T ltac:(done))) as [T1 _]. by rewrite Hm in T1. }
  apply prepare_reset_ok in Hm as M1. inv_bind Hrun.
  pose proof (destroy_asks _ _ _ T1 M1 Hm0) as A2. rewrite Q1 in A2.
  destruct r0 as [u2| |]; [|destruct Hrun as [-> ->]; by split..].
  pose proof (remove_marker_discreet io tools RESET_PENDING c0) as Q3. rewrite Hrun in Q3. cbn [snd] in Q3.
  destruct (frame_end _ _ _ _ _ (destroy_frame c) Hm0 T1) as [T2 _].
  apply destroy_ok in Hm0 as [W2 [asked R2]]; [|done]. unfold finished. rewrite Q3. split; [done|].
  intros u ->. split_and!; [exists asked; by rewrite R2, Q1| |].
  - destruct (frame_end _ _ _ _ _ (remove_marker_frame io tools RESET_PENDING c0) Hrun T2) as [_ E3].
    destruct W2 as [C2 G2]. split; [by rewrite E3|]. intros g Hg q. rewrite E3 by done. by apply G2.
  - apply remove_marker_ok in Hrun; [|done]. unfold marked. rewrite Hrun. by intros []%is_Some_None.
Qed.
End Reset.
(** ** What a new identity is *)
Section Success.
Context (io : Io) (tools : Tools) (root : string) (ownership : Ownership).
Context {OL : OpensslLaws tools root}.
Context (read_link_works : forall n, fails_read_link io n = false).
Context (random_fills : forall n N bytes, random_at tools n N = Some bytes ->
  List.length bytes = N /\ Forall is_byte bytes).
Context (lists : lists_everything io).

Definition elsewhere (p : Path) : Prop := p <> tls [CURRENT].

(** [generate_identity] up to the choice of the name. *)
Definition prepare_identity : W (list Z) :=
  do! ensure_directory io ownership [] o755 false in
  do! ensure_directory io ownership (tls []) o750 true in
  do! remove_unreferenced_generations io tools in
  or_failed (random tools 8) "randomness is unavailable".

Lemma generate_identity_parts st : generate_identity io tools root ownership st =
  (let! bytes := prepare_identity in fill_new io tools root ownership (generation_name bytes)) st.
Proof.
  unfold generate_identity, prepare_identity, bind.
  destruct (ensure_directory _ _ [] _ _ st) as [[]]; [|done..].
  destruct (ensure_directory _ _ _ _ _ _) as [[]]; [|done..].
  by destruct (remove_unreferenced_generations io tools _) as [[]].
Qed.

Lemma remove_unreferenced_elsewhere st : frame elsewhere st (remove_unreferenced_generations io tools).
Proof.
  eapply (frame_weaken (unreferenced (match (current_generation io (world st)).1 with Ok name => name | _ => None end))).
  { apply remove_unreferenced_frame. intros r w Hr. by rewrite Hr. }
  intros p (g & q & -> & Hg & _) [= ->]. by rewrite current_not_generation in Hg.
Qed.

Lemma prepare_identity_elsewhere st : frame elsewhere st prepare_identity.
Proof.
  unfold prepare_identity. apply frame_bind; [eapply frame_weaken; [apply ensure_directory_frame|]; by intros p <-|].
  intros _ st1 _. apply frame_bind; [eapply frame_weaken; [apply ensure_directory_frame|]; by intros p <-|].
  intros _ st2 _. apply frame_bind; [apply remove_unreferenced_elsewhere|].
  intros _ st3 _. apply frame_or_failed, advance_framed.
Qed.

Lemma prepare_identity_keeps st : tree (tree_of st) -> valid (tree_of st) -> keeps valid st prepare_identity.
Proof.
  intros T V. unfold prepare_identity. apply keeps_bind; [apply ensure_directory_keeps; auto|].
  intros _ st1 _ T1 V1. apply keeps_bind; [apply ensure_directory_keeps; auto|].
  intros _ st2 _ T2 V2. apply keeps_bind; [by apply remove_unreferenced_keeps|].
  intros _ st3 _ T3 V3. by apply random_keeps.
Qed.

(** The new generation is not the one in use, which stays in use. *)
Lemma generate_fresh st g st' : tree (tree_of st) -> valid (tree_of st) ->
  generate_identity io tools root ownership st = (Ok g, st') ->
  ~ named (tree_of st) g /\ tree_of st' !! tls [CURRENT] = tree_of st !! tls [CURRENT].
Proof.
  intros T V H. pose proof H as G. rewrite generate_identity_parts in H. inv_bind H.
  pose proof (keeps_end _ _ _ (prepare_identity_keeps st T V)) as K. rewrite Hm in K. cbn [snd] in K.
  destruct K as [T1 V1]. destruct (frame_end _ _ _ _ _ (prepare_identity_elsewhere st) Hm T) as [_ E1].
  assert (tree_of c !! tls [CURRENT] = tree_of st !! tls [CURRENT]) as Ec by (apply E1; unfold elsewhere; tauto).
  destruct r as [bytes| |]; [|by destruct H..].
  apply (generate_ok io tools root ownership read_link_works random_fills) in G as (Hg & _); [|done..].
  assert (generation_name bytes = g) as Hb.
  { unfold fill_new in H. cbv zeta in H. inv_bind H. destruct r; [|by destruct H..].
    inv_bind H. destruct r; [|by destruct H..]. inv_bind H. destruct r; [|by destruct H..].
    inv_bind H. destruct r; [|by destruct H..]. by injection H. }
  rewrite Hb in H. split.
  - intros Hn. apply (named_agree _ _ _ (eq_sym Ec)) in Hn. destruct (complete_directory _ _ (V1 _ Hn)) as (d & Hd & _).
    unfold fill_new in H. cbv zeta in H. inv_bind H. destruct r; [|by destruct H..].
    apply io_failure_ok in Hm0 as (w & Hm0 & _). unfold create_dir, create_node, call in Hm0.
    apply call_ok in Hm0 as (Hbody & _). apply resolve_ok in Hbody as [_ Hbody]. unfold tree_of in Hd. by rewrite Hd in Hbody.
  - destruct (frame_end _ _ _ _ _ (fill_new_frame io tools root ownership g c Hg) H T1) as [_ E2].
    rewrite E2; [done|]. intros [q [= <- _]]. by rewrite current_not_generation in Hg.
Qed.

Lemma new_identity_ok st a st' : tree (tree_of st) -> valid (tree_of st) ->
  new_identity io tools root ownership st = (Ok a, st') ->
  exists g gid, ownership = RemotedGroup gid /\ named (tree_of st') g /\ complete (tree_of st') g /\
    protected (tree_of st') g gid /\ ~ named (tree_of st) g /\
    forall g', is_generation_name g' = true -> g' <> g -> gone (tree_of st') g'.
Proof.
  intros T V H. unfold new_identity in H. inv_bind H.
  pose proof (keeps_end _ _ _ (generate_keeps io tools root ownership read_link_works random_fills st T V)) as K.
  rewrite Hm in K. cbn [snd] in K. destruct K as [T1 V1].
  destruct r as [g| |]; [|by destruct H..]. destruct (generate_fresh _ _ _ T V Hm) as [Hfresh _].
  apply (generate_ok io tools root ownership read_link_works random_fills) in Hm as (Hg & gid & Ho & C & P); [|done..].
  inv_bind H. pose proof (swap_current_frame io tools g c) as F2.
  destruct (frame_end _ _ _ _ _ F2 Hm T1) as [T2 E2].
  destruct r as [u| |]; [|by destruct H..]. apply swap_current_ok in Hm.
  assert (forall q, tree_of c0 !! tls (g :: q) = tree_of c !! tls (g :: q)) as A2.
  { intros q. apply E2. intros [[= -> _]|[= -> _]];
      [by rewrite current_not_generation in Hg|by rewrite temporary_not_generation in Hg]. }
  assert (named (tree_of c0) g) as N2 by (by split).
  destruct (current_generation io (world c0)) as [r w] eqn:Hc.
  pose proof (current_generation_named io read_link_works _ _ _ _ T2 Hc N2) as ->.
  assert (frame (unreferenced (Some g)) c0 (remove_unreferenced_generations io tools)) as F3.
  { apply remove_unreferenced_frame. intros r' w' Hr. rewrite Hc in Hr. by simplify_eq. }
  destruct (frame_end _ _ _ _ _ F3 H T2) as [_ E3].
  assert (forall q, tree_of st' !! tls (g :: q) = tree_of c !! tls (g :: q)) as A3.
  { intros q. rewrite E3; [apply A2|]. by intros (? & ? & [= <- <-] & _ & ?). }
  exists g, gid. split_and!; [done| |by eapply complete_agree|by eapply protected_agree|done|].
  - apply (named_agree _ (tree_of c0)); [|done]. symmetry. apply E3. intros (g' & q & [= <-] & Hg' & _).
    by rewrite current_not_generation in Hg'.
  - intros g' Hg' Hne. eapply remove_unreferenced_ok; [done..|]. cbn. congruence.
Qed.
Lemma current_generation_ok w r w' : tree (files w) -> current_generation io w = (Ok r, w') ->
  match r with Some g => named (files w) g | None => files w !! tls [CURRENT] = None end.
Proof.
  intros T. unfold current_generation, bind, attempt, read_link, call_failing. rewrite read_link_works.
  destruct (files w !! tls [CURRENT]) as [n|] eqn:Hn.
  - rewrite (resolve_present _ _ _ T), Hn by (by exists n). destruct n as [[| |target] m gr]; simpl; [done..|].
    destruct (is_generation_name target) eqn:Hg; [|done]. intros H. unfold ret in H. simplify_eq.
    split; [|done]. by eexists.
  - unfold resolve. rewrite Hn. destruct (reach _ _); simpl; intros H; unfold ret in H; by simplify_eq.
Qed.

Lemma current_identity_ok w r w' : tree (files w) -> current_identity io w = (Ok r, w') ->
  match r with Some g => named (files w) g | None => files w !! tls [CURRENT] = None end.
Proof.
  intros T H. unfold current_identity in H. inv_bind H. destruct r0 as [cur| |]; [|by destruct H..].
  apply current_generation_ok in Hm; [|done]. destruct cur as [g|]; [|unfold ret in H; by simplify_eq].
  repeat (inv_bind H; destruct r0 as [[]| |]; simpl in H; [|by unfold fail in H|by destruct H..]).
  inv_bind H. destruct r0; [|by destruct H..]. unfold ret in H. by simplify_eq.
Qed.

Lemma stale_end st r st' : tree (tree_of st) -> valid (tree_of st) -> remove_stale_temporaries io st = (r, st') ->
  tree (tree_of st') /\ valid (tree_of st') /\ tree_of st' !! tls [CURRENT] = tree_of st !! tls [CURRENT] /\
  (forall name, name <> temporary_of ENABLED -> name <> temporary_of RESET_PENDING ->
     tree_of st' !! [name] = tree_of st !! [name]).
Proof.
  intros T V H. pose proof (keeps_end _ _ _ (remove_stale_keeps io st T V)) as K. rewrite H in K. cbn [snd] in K.
  destruct K as [T' V']. destruct (frame_end _ _ _ _ _ (remove_stale_frame io _ st) H T) as [_ E].
  split_and!; [done..| |].
  - apply E. intros Hp. repeat (apply elem_of_cons in Hp as [Hp|Hp]; [by injection Hp|]). by apply elem_of_nil in Hp.
  - intros name N1 N2. apply E. intros Hp.
    repeat (apply elem_of_cons in Hp as [Hp|Hp]; [by injection Hp|]). by apply elem_of_nil in Hp.
Qed.

(** A rotation that succeeds leaves [tls/current] naming a complete
    generation that was not in use before, whose directory, key and
    certificate have the documented modes and belong to the group of
    [sl-remoted]; every other generation is gone. *)
Theorem rotate_replaces_identity st u st' : tree (tree_of st) -> valid (tree_of st) ->
  run io tools root ownership RotateTls st = (Ok u, st') ->
  exists g gid, ownership = RemotedGroup gid /\ named (tree_of st') g /\ complete (tree_of st') g /\
    protected (tree_of st') g gid /\ ~ named (tree_of st) g /\
    forall g', is_generation_name g' = true -> g' <> g -> gone (tree_of st') g'.
Proof.
  intros T V H. unfold run in H. inv_bind H. destruct (stale_end _ _ _ T V Hm) as (T1 & V1 & E1 & _).
  destruct r as [v| |]; [|by destruct H..].
  destruct (new_identity_ok _ _ _ T1 V1 H) as (g & gid & Ho & N & C & P & F & O).
  exists g, gid. split_and!; try done. intros Hn. apply F. by apply (named_agree _ (tree_of st)).
Qed.

Definition tls_path (p : Path) : Prop := p = [] \/ exists q, p = tls q.

Lemma prepare_identity_frame st : frame tls_path st prepare_identity.
Proof.
  unfold prepare_identity. apply frame_bind; [eapply frame_weaken; [apply ensure_directory_frame|]; intros p <-; by left|].
  intros _ st1 _. apply frame_bind; [eapply frame_weaken; [apply ensure_directory_frame|]; intros p <-; right; by eexists|].
  intros _ st2 _. apply frame_bind; [|intros; apply frame_or_failed, advance_framed].
  eapply (frame_weaken (unreferenced (match (current_generation io (world st2)).1 with Ok name => name | _ => None end))).
  { apply remove_unreferenced_frame. intros r w Hr. by rewrite Hr. }
  intros p (g & q & -> & _). right. by eexists.
Qed.

Lemma prepare_identity_name st bytes st' : prepare_identity st = (Ok bytes, st') ->
  is_generation_name (generation_name bytes) = true.
Proof.
  unfold prepare_identity. intros H. repeat (inv_bind H; destruct r; [|by destruct H..]).
  by apply (random_ok tools random_fills) in H as [Hg _].
Qed.

Lemma new_identity_frame st : frame tls_path st (new_identity io tools root ownership).
Proof.
  enough (frame tls_path st (let! bytes := prepare_identity in
    let! g := fill_new io tools root ownership (generation_name bytes) in
    do! swap_current io tools g in remove_unreferenced_generations io tools)) as F.
  { revert F. unfold frame, new_identity, bind. rewrite generate_identity_parts. unfold bind.
    by destruct (prepare_identity st) as [[]]. }
  apply frame_bind; [apply prepare_identity_frame|]. intros bytes st1 H1. apply prepare_identity_name in H1.
  apply frame_bind.
  { eapply frame_weaken; [by apply fill_new_frame|]. intros p [q ->]. right. by eexists. }
  intros g st2 _. apply frame_bind.
  { eapply frame_weaken; [apply swap_current_frame|]. intros p [->| ->]; right; by eexists. }
  intros _ st3 _. eapply (frame_weaken (unreferenced (match (current_generation io (world st3)).1 with Ok name => name | _ => None end))).
  { apply remove_unreferenced_frame. intros r w Hr. by rewrite Hr. }
  intros p (g' & q & -> & _). right. by eexists.
Qed.

(** The identity an enable goes on with. *)
Lemma enable_ok st u st' : tree (tree_of st) -> valid (tree_of st) -> enable io tools root ownership st = (Ok u, st') ->
  ~ marked (tree_of st) /\ is_Some (tree_of st' !! [ENABLED]) /\ ~ marked (tree_of st') /\
  exists g, named (tree_of st') g /\ complete (tree_of st') g /\
    (named (tree_of st) g \/
     tree_of st !! tls [CURRENT] = None /\ exists gid, ownership = RemotedGroup gid /\ protected (tree_of st') g gid).
Proof.
  intros T V H.
  pose proof (keeps_end _ _ _ (enable_keeps io tools root ownership read_link_works random_fills st T V)) as K.
  rewrite H in K. destruct K as [_ V']. unfold enable in H. inv_bind H. destruct r as [b| |]; [|by destruct H..].
  apply marker_exists_ok in Hm as (E1 & _ & N1). destruct b; [by unfold fail in H|]. specialize (N1 T eq_refl).
  rewrite <- E1 in T, V, N1. inv_bind H.
  pose proof (frame_fsys nowhere (E:=Failed) (attempt (current_identity io)) c
    ltac:(apply attempt_framed, current_identity_framed)) as F2.
  destruct (frame_end _ _ _ _ _ F2 Hm T) as [T2 E2]. clear F2.
  destruct r as [identity| |]; [|by destruct H..].
  assert (current_identity io (world c) = (identity, world c0)) as Hid.
  { unfold fsys, attempt in Hm. destruct (current_identity io (world c)) as [[]]; by simplify_eq/=. }
  assert (tree_of c0 = tree_of c) as Ec by (apply map_eq; intros p; apply E2; by intros []).
  clear Hm E2. rewrite <- Ec in E1, T, V, N1. inv_bind H. destruct r as [v| |]; [|by destruct H..].
  pose proof (create_marker_frame io tools ownership ENABLED c1) as F4.
  assert (forall c1, tree (tree_of c1) -> frame (marker_path ENABLED) c1 (create_marker io tools ownership ENABLED) ->
    create_marker io tools ownership ENABLED c1 = (Ok u, st') ->
    tree_of st' !! [RESET_PENDING] = tree_of c1 !! [RESET_PENDING] /\ forall q, tree_of st' !! tls q = tree_of c1 !! tls q) as A4.
  { clear. intros c1 T F H. destruct (frame_end _ _ _ _ _ F H T) as [_ E]. split; [|intros q]; apply E.
    - intros [|[|]]; done.
    - intros Hp. by eapply marker_path_apart in Hp. }
  assert (is_Some (tree_of st' !! [ENABLED])) as M4 by (by eapply create_marker_ok).
  unfold marked. rewrite <- E1, N1. split; [by intros []%is_Some_None|]. split; [done|].
  destruct identity as [[g|]| |]; [| |by unfold fail in Hm..].
  - unfold ret in Hm. injection Hm as _ ->. destruct (A4 c1 T F4 H) as [-> A]. rewrite N1.
    split; [by intros []%is_Some_None|].
    apply current_identity_ok in Hid; [|unfold tree_of in *; by rewrite <- Ec]. exists g.
    change (named (tree_of c) g) in Hid. rewrite <- Ec in Hid.
    assert (named (tree_of st') g) as Hn by (apply (named_agree _ (tree_of c1)); [by rewrite A|done]).
    split_and!; [done|by apply V'|by left].
  - apply current_identity_ok in Hid; [|unfold tree_of in *; by rewrite <- Ec].
    destruct (frame_end _ _ _ _ _ (new_identity_frame c0) Hm T2) as [T3 E3].
    destruct (new_identity_ok _ _ _ T2 V Hm) as (g & gid & Ho & Hn & _ & P & _).
    destruct (A4 c1 T3 F4 H) as [-> A]. rewrite E3, N1 by (intros [|[]]; done).
    split; [by intros []%is_Some_None|]. exists g.
    assert (named (tree_of st') g) as Hn' by (apply (named_agree _ (tree_of c1)); [by rewrite A|done]).
    split_and!; [done|by apply V'|]. right. split; [by rewrite Ec|]. exists gid. split; [done|].
    eapply protected_agree; [|exact P]. intros q. apply A.
Qed.

End Success.

(** The executable takes exactly one argument, the name of a mode;
    anything else exits with 2 and touches nothing.  The two modes that write
    an identity exit with 1 before touching anything when the group of
    [sl-remoted] does not exist; otherwise the exit code says whether the run
    succeeded.  The other modes never set an owner. *)
Theorem main_exit io tools root group_id arguments st :
  let '(code, st') := main io tools root group_id arguments st in
  (code = 2 <-> forall m, arguments <> [Mode_name m]) /\
  (code = 2 -> st' = st) /\
  forall m, arguments = [Mode_name m] ->
    (writes_identity m = true -> group_id REMOTED_GROUP = None -> code = 1 /\ st' = st) /\
    (forall ownership,
       ownership = match group_id REMOTED_GROUP with Some gid => RemotedGroup gid | None => OwnershipUnavailable end ->
       writes_identity m = false \/ is_Some (group_id REMOTED_GROUP) ->
       exists r, run io tools root (if writes_identity m then ownership else OwnershipUnavailable) m st = (r, st') /\
         code = if is_ok r then 0 else 1).
Proof.
  assert (forall a m, Mode_parse a = Some m <-> a = Mode_name m) as Hparse.
  { intros a m. split; [|intros ->; by destruct m]. unfold Mode_parse.
    repeat match goal with |- context [String.eqb a ?s] => destruct (String.eqb_spec a s) as [->|_] end;
      try (intros [= <-]; reflexivity); done. }
  assert (forall m, parse_mode [Mode_name m] = Some m) as Hp by (by intros []).
  assert (forall m, parse_mode arguments = Some m <-> arguments = [Mode_name m]) as Hm.
  { intros m. split; [|by intros ->]. unfold parse_mode. destruct arguments as [|a [|]]; [done| |done].
    unfold from_utf8. rewrite string_of_bytes_of. destruct (is_utf8 (bytes_of a)); [|done]. cbn [mbind option_bind].
    by intros ->%Hparse. }
  unfold main. destruct (parse_mode arguments) as [m|] eqn:Hpm.
  - assert (forall m', arguments = [Mode_name m'] -> m' = m) as Hu by (intros m' Ha; apply Hm in Ha; congruence).
    clear Hpm. pose proof (proj1 (Hm m) eq_refl) as Hpm. destruct (writes_identity m) eqn:Hw; [destruct (group_id REMOTED_GROUP) as [gid|] eqn:Hgid|].
    2: { split_and!; [split; [done|]; intros H; by destruct (H m)|done|].
         intros m' ->%Hu. split; [done|]. intros ? _ [|[]%is_Some_None]; congruence. }
    all: match goal with |- context [run ?a ?b ?c ?d ?e ?f] => destruct (run a b c d e f) as [[u|e0|] st1] eqn:Hr end;
      (split_and!; [split; [done|]; intros H; by destruct (H m)|done|]); intros m' ->%Hu;
      (split; [congruence|]); intros ow -> _; rewrite Hw; eexists; (split; [exact Hr|done]).
  - split_and!; [|done|].
    + split; [intros _ m ->; by rewrite Hp in Hpm|done].
    + intros m ->. by rewrite Hp in Hpm.
Qed.
End WorkerModes.
