(* ===== verification/WorkerExamples.v ===== *)
(** * The worker at work

    A concrete state directory, an openssl that writes its two files, and
    the instances of the theorems of the modes there. *)
From S2P Require Import Prelude FileSystem FileSystemFacts RemoteState Worker WorkerFacts WorkerSpec WorkerProps WorkerModes.

Module WorkerExamples.
Import FileSystem FileSystemFacts RemoteState Worker WorkerFacts WorkerSpec WorkerProps WorkerModes.

Definition toy_fingerprint : string := string_of (map (fun i => if Nat.eqb (i mod 3) 2 then 58 else 65) (seq 0 95)).

Definition toy_root : string := "/state/remote".

(** Deciding the properties of a given tree. *)
Definition directoryb (fs : Files) (p : Path) : bool :=
  match fs !! p with Some {| kind := Directory |} => true | _ => false end.
Definition treeb (fs : Files) : bool :=
  forallb (fun '(p, _) => match p : Path with [] => true | _ => directoryb fs (removelast p) end) (map_to_list fs).

Lemma directoryb_ok fs p : directoryb fs p = true -> is_directory fs p.
Proof. unfold directoryb, is_directory. destruct (fs !! p) as [[[]]|]; try done. intros _. by eexists. Qed.

Lemma treeb_ok fs : treeb fs = true -> tree fs.
Proof.
  unfold treeb. rewrite forallb_forall. intros H p [n Hn] Hp. apply elem_of_map_to_list, list_elem_of_In, H in Hn.
  destruct p; [done|]. by apply directoryb_ok.
Qed.

(** An openssl that writes a key and a certificate where there were none. *)
Definition toy_openssl (n : nat) (arguments : list string) (fs : Files) : res (list Z) unit * Files :=
  match List.find (fun g => bool_decide (arguments = req_arguments toy_root (tls [g]))) (children fs (tls [])) with
  | Some g =>
      match fs !! tls [g], fs !! tls [g; KEY_FILE], fs !! tls [g; CERT_FILE] with
      | Some {| kind := Directory |}, None, None =>
          (Ok [], <[tls [g; KEY_FILE] := {| kind := Regular [1]; mode := 384; group := None |}]>
            (<[tls [g; CERT_FILE] := {| kind := Regular [2]; mode := 384; group := None |}]> fs))
      | _, _, _ => (Err tt, fs)
      end
  | None => (Ok (bytes_of (OPENSSL_FINGERPRINT_PREFIX +:+ fingerprint_file_contents toy_fingerprint)), fs)
  end.

Definition toy_tools : Tools := {|
  openssl_at := toy_openssl;
  reset_at _ := true;
  random_at _ N := Some (replicate N 7);
  faults _ _ := false
|}.

Definition toy_io : Io := {|
  fails _ := false; fails_read_link _ := false; partial_write _ := []; partial_removal _ _ := false;
  listing _ names := names
|}.

Lemma append_cancel_l (a b c : string) : a +:+ b = a +:+ c -> b = c.
Proof. intros H. apply bytes_of_inj. apply (f_equal bytes_of) in H. rewrite !bytes_of_app in H. by apply app_inv_head in H. Qed.
Lemma append_cancel_r (a b c : string) : b +:+ a = c +:+ a -> b = c.
Proof. intros H. apply bytes_of_inj. apply (f_equal bytes_of) in H. rewrite !bytes_of_app in H. by apply app_inv_tail in H. Qed.

Lemma key_path_inj g g' : display toy_root (tls [g; KEY_FILE]) = display toy_root (tls [g'; KEY_FILE]) -> g = g'.
Proof. unfold display. cbn [foldl tls]. intros H. apply append_cancel_r in H. do 2 apply append_cancel_l in H. done. Qed.

#[export] Instance toy_laws : OpensslLaws toy_tools toy_root.
Proof.
  assert (forall g g', req_arguments toy_root (tls [g]) = req_arguments toy_root (tls [g']) -> g = g') as Hinj.
  { intros g g' H. apply key_path_inj. exact (f_equal (fun l => nth 11 l EmptyString) H). }
  split.
  - intros n g fs r fs' Hg T. cbn [openssl_at toy_tools]. unfold toy_openssl.
    destruct (List.find _ _) as [g'|] eqn:Hf; [|intros H; by simplify_eq].
    apply List.find_some in Hf as [_ Hf]. apply bool_decide_eq_true in Hf. apply Hinj in Hf as <-.
    destruct (fs !! tls [g]) as [[[]]|] eqn:Hd; try (intros H; by simplify_eq).
    destruct (fs !! tls [g; KEY_FILE]) eqn:Hk; [intros H; by simplify_eq|].
    destruct (fs !! tls [g; CERT_FILE]) eqn:Hc; [intros H; by simplify_eq|]. intros H. simplify_eq. split.
    + assert (forall fs2 x, tree fs2 -> is_directory fs2 (tls [g]) -> fs2 !! tls [g; x] = None ->
        forall m, tree (<[tls [g; x] := m]> fs2)) as Ht.
      { intros fs2 x T2 D2 N2 m q [k Hq] Hne.
        assert (forall d, is_directory fs2 d -> is_directory (<[tls [g; x] := m]> fs2) d) as Hd2.
        { intros d (y & Hy & Hky). exists y. split; [|done]. apply lookup_insert_Some. right. split; [|done]. intros <-. congruence. }
        apply Hd2. destruct (decide (q = tls [g; x])) as [->|Hn]; [exact D2|].
        rewrite lookup_insert_ne in Hq by done. apply T2; [by exists k|done]. }
      apply Ht; [|by eexists; rewrite lookup_insert_ne|by rewrite lookup_insert_ne].
      apply Ht; [done|by eexists|done].
    + intros p Hp1 Hp2. by rewrite !lookup_insert_ne by done.
  - intros n g fs r fs' Hg. cbn [openssl_at toy_tools]. unfold toy_openssl.
    destruct (List.find _ _) as [g'|] eqn:Hf; [|intros H; by simplify_eq].
    apply List.find_some in Hf as [_ Hf]. apply bool_decide_eq_true in Hf. done.
  - intros n arguments fs. cbn [openssl_at toy_tools]. unfold toy_openssl. by repeat case_match.
Qed.

Definition old_generation : string := generation_name (replicate 8 1).

Definition toy_node (k : Kind) : Node := {| kind := k; mode := 420; group := None |}.
Definition empty_files : Files := <[[] := toy_node Directory]> ∅.
Definition enrolled_files : Files :=
  <[tls [CURRENT] := toy_node (Symlink old_generation)]>
  (<[tls [old_generation; KEY_FILE] := toy_node (Regular [])]>
  (<[tls [old_generation; CERT_FILE] := toy_node (Regular [])]>
  (<[tls [old_generation; FINGERPRINT_FILE] := toy_node (Regular (bytes_of (fingerprint_file_contents toy_fingerprint)))]>
  (<[tls [old_generation] := toy_node Directory]>
  (<[tls [] := toy_node Directory]> empty_files))))).

Definition toy_state (fs : Files) : State := {| world := {| files := fs; calls := 0; past := [] |}; resets := [] |}.
Definition after (m : Mode) (fs : Files) : res unit Failed * State :=
  run toy_io toy_tools toy_root (RemotedGroup 90) m (toy_state fs).

Example empty_enables : (after Enable empty_files).1 = Ok tt.
Proof. vm_compute. reflexivity. Qed.
Example enrolled_rotates : (after RotateTls enrolled_files).1 = Ok tt.
Proof. vm_compute. reflexivity. Qed.
Example enrolled_resets : (after BootReset enrolled_files).1 = Ok tt.
Proof. vm_compute. reflexivity. Qed.

(** When reading the link fails, the sweep takes the generation in use for
    an unreferenced one.  If no new identity can be made afterwards, the link
    is left naming a directory that is gone. *)
Definition unreadable_io : Io := {|
  fails _ := false; fails_read_link _ := true; partial_write _ := []; partial_removal _ _ := false;
  listing _ names := names
|}.
Definition no_randomness : Tools := {|
  openssl_at := toy_openssl; reset_at _ := true; random_at _ _ := None; faults _ _ := false
|}.

Lemma lost_identity :
  let '(r, st') := run unreadable_io no_randomness toy_root (RemotedGroup 90) RotateTls (toy_state enrolled_files) in
  r = Err "randomness is unavailable"%string /\ named (tree_of st') old_generation /\
  ~ complete (tree_of st') old_generation.
Proof.
  assert (forall fs, fs !! tls [old_generation] = None -> ~ complete fs old_generation) as Hc.
  { intros fs Hn [(n & Hd & _) _ _ _]. congruence. }
  destruct (run _ _ _ _ _ _) as [r st'] eqn:E. apply (f_equal (fun p =>
    (p.1, tree_of p.2 !! tls [CURRENT], tree_of p.2 !! tls [old_generation]))) in E.
  vm_compute in E. injection E as <- E1 E2. split; [done|]. split; [|by apply Hc].
  split; [|reflexivity]. eexists. split; [symmetry; exact E1|reflexivity].
Qed.

(** ** Instances of the theorems *)

Lemma toy_lists : lists_everything toy_io.
Proof. by intros n names x. Qed.
Lemma toy_reads n : fails_read_link toy_io n = false.
Proof. done. Qed.
Lemma toy_random n N bytes : random_at toy_tools n N = Some bytes -> List.length bytes = N /\ Forall is_byte bytes.
Proof. intros [= <-]. split; [apply length_replicate|]. apply Forall_replicate. unfold is_byte. lia. Qed.

Lemma enrolled_tree : tree enrolled_files.
Proof. apply treeb_ok. vm_compute. reflexivity. Qed.
Lemma empty_tree : tree empty_files.
Proof. apply treeb_ok. vm_compute. reflexivity. Qed.

Lemma enrolled_valid : valid enrolled_files.
Proof.
  intros g [(n & Hn & Hk) _]. assert (g = old_generation) as ->.
  { assert (enrolled_files !! tls [CURRENT] = Some (toy_node (Symlink old_generation))) as E by reflexivity.
    rewrite E in Hn. injection Hn as <-. by injection Hk. }
  split.
  - by apply directoryb_ok.
  - eexists _, _. split; reflexivity.
  - eexists _, _. split; reflexivity.
  - eexists _, _, toy_fingerprint. split_and!; reflexivity.
Qed.
Lemma empty_valid : valid empty_files.
Proof. intros g [(n & Hn & _) _]. assert (empty_files !! tls [CURRENT] = None) as E by reflexivity. congruence. Qed.


Lemma boot_reset_restartable_witness :
  (after BootReset enrolled_files).1 = Ok tt /\ wiped (tree_of (after BootReset enrolled_files).2) /\
  ~ marked (tree_of (after BootReset enrolled_files).2).
Proof.
  destruct (after BootReset enrolled_files) as [r st'] eqn:E.
  assert (r = Ok tt) as ->.
  { apply (f_equal fst) in E. rewrite enrolled_resets in E. by symmetry. }
  destruct (boot_reset_restartable toy_io toy_tools toy_root (RemotedGroup 90) toy_lists
    (toy_state enrolled_files) _ st' enrolled_tree E) as (_ & _ & H).
  split; [reflexivity|]. exact (proj2 (H tt eq_refl)).
Defined.

Lemma rotate_replaces_identity_witness : exists g,
  named (tree_of (after RotateTls enrolled_files).2) g /\ ~ named enrolled_files g.
Proof.
  destruct (after RotateTls enrolled_files) as [r st'] eqn:E.
  assert (r = Ok tt) as ->.
  { apply (f_equal fst) in E. rewrite enrolled_rotates in E. by symmetry. }
  destruct (rotate_replaces_identity toy_io toy_tools toy_root (RemotedGroup 90) toy_reads toy_random toy_lists
    (toy_state enrolled_files) tt st' enrolled_tree enrolled_valid E) as (g & gid & _ & H & _ & _ & F & _).
  exists g. split; [exact H|exact F].
Defined.


Lemma layout_formats_witness :
  is_generation_name (generation_name (replicate 8 7)) = true /\
  parse_fingerprint_file (bytes_of (fingerprint_file_contents toy_fingerprint)) = Some toy_fingerprint.
Proof.
  destruct (layout_formats (replicate 8 7) toy_fingerprint (bytes_of (fingerprint_file_contents toy_fingerprint)))
    as (H1 & H2 & _); [apply bytes_of_range|].
  split.
  - apply H1; [reflexivity|]. apply Forall_replicate. unfold is_byte. lia.
  - apply H2. split; reflexivity.
Defined.
End WorkerExamples.
