(* ===== verification/Text.v ===== *)
(** * Text

    What the daemons use of Rust's [str] and integers: characters of a UTF-8
    string, [trim], [lines], [split_once], [parse] and decimal display. *)
From S2P Require Import Prelude.

Module Text.

(** ** Characters *)

(** The characters of a well-formed string, each with its bytes. *)
Fixpoint segments (bytes : list Z) : list (Z * list Z) :=
  match bytes with
  | [] => []
  | a :: rest =>
      if a <? 128 then (a, [a]) :: segments rest
      else if a <? 224 then
        match rest with
        | b :: rest => (Z.land a 31 * 64 + Z.land b 63, [a; b]) :: segments rest
        | _ => []
        end
      else if a <? 240 then
        match rest with
        | b :: c :: rest => (Z.land a 15 * 4096 + Z.land b 63 * 64 + Z.land c 63, [a; b; c]) :: segments rest
        | _ => []
        end
      else
        match rest with
        | b :: c :: d :: rest =>
            (Z.land a 7 * 262144 + Z.land b 63 * 4096 + Z.land c 63 * 64 + Z.land d 63, [a; b; c; d]) :: segments rest
        | _ => []
        end
  end.

Definition chars (s : string) : list Z := map fst (segments (bytes_of s)).

(** [char::is_control]: the category Cc. *)
Definition is_control (c : Z) : bool := (c <? 32) || in_range 127 159 c.

(** [char::is_whitespace]: the property White_Space. *)
Definition is_whitespace (c : Z) : bool :=
  in_range 9 13 c || (c =? 32) || (c =? 133) || (c =? 160) || (c =? 5760) || in_range 8192 8202 c
  || (c =? 8232) || (c =? 8233) || (c =? 8239) || (c =? 8287) || (c =? 12288).

Fixpoint drop_while {A : Type} (f : A -> bool) (l : list A) : list A :=
  match l with
  | [] => []
  | x :: l => if f x then drop_while f l else x :: l
  end.

Definition trim_segments (l : list (Z * list Z)) : list (Z * list Z) :=
  let white := fun c : Z * list Z => is_whitespace c.1 in
  rev (drop_while white (rev (drop_while white l))).

(** [str::trim] *)
Definition trim (s : string) : string :=
  string_of (List.concat (map snd (trim_segments (segments (bytes_of s))))).

Definition is_empty (s : string) : bool := String.eqb s "".

(** ** Splitting *)

(** [str::split_once] at an ASCII character *)
Fixpoint split_once_bytes (at_ : Z) (bytes : list Z) : option (list Z * list Z) :=
  match bytes with
  | [] => None
  | b :: bytes =>
      if b =? at_ then Some ([], bytes)
      else '(before, after) ← split_once_bytes at_ bytes; Some (b :: before, after)
  end.

Definition split_once (at_ : Z) (s : string) : option (string * string) :=
  '(before, after) ← split_once_bytes at_ (bytes_of s); Some (string_of before, string_of after).

Definition contains (c : Z) (s : string) : bool := existsb (Z.eqb c) (bytes_of s).

(** [str::lines] *)
Fixpoint lines_from (line : list Z) (bytes : list Z) : list (list Z) :=
  match bytes with
  | [] => match line with [] => [] | _ => [rev line] end
  | b :: bytes =>
      if b =? 10 then rev (match line with 13 :: line => line | _ => line end) :: lines_from [] bytes
      else lines_from (b :: line) bytes
  end.

Definition lines (s : string) : list string := map string_of (lines_from [] (bytes_of s)).

(** ** Numbers *)

Fixpoint decimal_digits (fuel : nat) (z : Z) (below : list Z) : list Z :=
  match fuel with
  | O => below
  | S fuel =>
      let below := (48 + z mod 10) :: below in
      if z <? 10 then below else decimal_digits fuel (z / 10) below
  end.

(** [Display] of an unsigned integer of at most 64 bits, and of [i32] *)
Definition display_unsigned (z : Z) : string := string_of (decimal_digits 20 z []).
Definition display_signed (z : Z) : string :=
  if z <? 0 then "-" +:+ display_unsigned (- z) else display_unsigned z.

Fixpoint parse_digits (limit : Z) (value : Z) (digits : list Z) : option Z :=
  match digits with
  | [] => Some value
  | d :: digits =>
      if is_ascii_digit d && (value * 10 + (d - 48) <=? limit)
      then parse_digits limit (value * 10 + (d - 48)) digits else None
  end.

(** [str::parse] of an unsigned integer of maximum [limit] *)
Definition parse_unsigned (limit : Z) (s : string) : option Z :=
  match bytes_of s with
  | [] => None
  | 43 :: [] => None
  | 43 :: digits => parse_digits limit 0 digits
  | digits => parse_digits limit 0 digits
  end.

(** ** Facts *)

Lemma split_once_spec at_ s before after : is_byte at_ -> split_once at_ s = Some (before, after) ->
  s = before +:+ string_of [at_] +:+ after /\ contains at_ before = false.
Proof.
  intros Hb H. unfold split_once in H.
  destruct (split_once_bytes at_ (bytes_of s)) as [[b a]|] eqn:Hs; [|done]. cbn in H. simplify_eq.
  assert (forall l b a, split_once_bytes at_ l = Some (b, a) ->
    l = (b ++ at_ :: a)%list /\ existsb (Z.eqb at_) b = false) as Hl.
  { induction l as [|x l IH]; intros b' a' H; simpl in H; [done|].
    destruct (Z.eqb_spec x at_) as [->|Hne]; [by simplify_eq|].
    destruct (split_once_bytes at_ l) as [[b1 a1]|]; [|done]. cbn in H. simplify_eq.
    destruct (IH _ _ eq_refl) as [-> He]. split; [done|]. simpl. rewrite He. rewrite (proj2 (Z.eqb_neq at_ x)); [done|congruence]. }
  pose proof (bytes_of_range s) as Hr. apply Hl in Hs as [Hs He]. rewrite Hs in Hr.
  apply Forall_app in Hr as [H1 H2]. inversion H2 as [|? ? H3 H4]; subst. split.
  - apply bytes_of_inj. rewrite Hs, !bytes_of_app, !bytes_of_string_of by (done || by constructor). done.
  - unfold contains. by rewrite bytes_of_string_of.
Qed.

Lemma parse_unsigned_range limit s v : parse_unsigned limit s = Some v -> 0 <= limit -> 0 <= v <= limit.
Proof.
  assert (forall digits v0, 0 <= v0 <= limit -> parse_digits limit v0 digits = Some v -> 0 <= v <= limit) as Hd.
  { induction digits as [|d digits IH]; intros v0 H0 H; simpl in H; [by simplify_eq|].
    destruct (is_ascii_digit d && _) eqn:E; [|done]. apply andb_true_iff in E as [E1 E2].
    unfold is_ascii_digit, in_range in E1. bool_hyps. apply IH in H; [done|lia]. }
  unfold parse_unsigned. intros H Hl. destruct (bytes_of s) as [|b l]; [done|].
  repeat case_match; try done; by eapply Hd; [|exact H]; lia.
Qed.

(** Decimal numerals are made of digits, and are read back. *)
Lemma decimal_digits_range fuel : forall z below, 0 <= z -> Forall (fun d => 48 <= d <= 57) below ->
  Forall (fun d => 48 <= d <= 57) (decimal_digits fuel z below).
Proof.
  induction fuel as [|fuel IH]; intros z below Hz Hb; simpl; [done|].
  pose proof (Z.mod_pos_bound z 10 ltac:(lia)). assert (Forall (fun d => 48 <= d <= 57) ((48 + z mod 10) :: below)) by (constructor; [lia|done]).
  destruct (z <? 10); [done|]. apply IH; [apply Z.div_pos; lia|done].
Qed.

Lemma decimal_digits_nonempty fuel : forall z below, below <> [] -> decimal_digits fuel z below <> [].
Proof. induction fuel as [|fuel IH]; intros z below Hb; simpl; [done|]. destruct (z <? 10); [done|]. by apply IH. Qed.

Lemma display_unsigned_bytes z : 0 <= z -> bytes_of (display_unsigned z) = decimal_digits 20 z [].
Proof.
  intros Hz. apply bytes_of_string_of. eapply Forall_impl; [by apply decimal_digits_range|]. unfold is_byte. lia.
Qed.

Lemma display_unsigned_digits z : 0 <= z -> Forall (fun d => 48 <= d <= 57) (bytes_of (display_unsigned z)).
Proof. intros Hz. rewrite display_unsigned_bytes by done. by apply decimal_digits_range. Qed.

Lemma decimal_digits_S fuel z below : decimal_digits (S fuel) z below =
  if z <? 10 then (48 + z mod 10) :: below else decimal_digits fuel (z / 10) ((48 + z mod 10) :: below).
Proof. done. Qed.

Lemma parse_decimal_digits limit fuel : forall z below, 0 <= z <= limit -> z < 10 ^ Z.of_nat (S fuel) ->
  parse_digits limit 0 (decimal_digits (S fuel) z below) = parse_digits limit z below.
Proof.
  assert (Hone : forall v d below, 0 <= d < 10 -> v * 10 + d <= limit ->
    parse_digits limit v ((48 + d) :: below) = parse_digits limit (v * 10 + d) below).
  { intros v d below Hd Hv. cbn [parse_digits]. unfold is_ascii_digit, in_range.
    replace (48 + d - 48) with d by lia. by rewrite !(proj2 (Z.leb_le _ _)) by lia. }
  induction fuel as [|fuel IH]; intros z below Hz Hf; rewrite decimal_digits_S; pose proof (Z.div_mod z 10 ltac:(lia));
    pose proof (Z.mod_pos_bound z 10 ltac:(lia)); destruct (Z.ltb_spec z 10).
  1,3: rewrite Z.mod_small by lia; by rewrite Hone by lia.
  { change (10 ^ Z.of_nat 1) with 10 in Hf. lia. }
  rewrite IH; [rewrite Hone by lia; f_equal; lia| |].
  - split; [apply Z.div_pos; lia|]. lia.
  - apply Z.div_lt_upper_bound; [lia|]. rewrite (Nat2Z.inj_succ (S fuel)), Z.pow_succ_r in Hf by lia. lia.
Qed.

Lemma parse_display_unsigned limit z : 0 <= z <= limit -> z < 10 ^ 20 -> parse_unsigned limit (display_unsigned z) = Some z.
Proof.
  intros Hz Hs. unfold parse_unsigned. rewrite display_unsigned_bytes by lia.
  pose proof (decimal_digits_range 20 z [] ltac:(lia) ltac:(done)) as Hd.
  pose proof (parse_decimal_digits limit 19 z [] Hz Hs) as Hp.
  destruct (decimal_digits 20 z []) as [|d l] eqn:E.
  { exfalso. revert E. rewrite decimal_digits_S. destruct (z <? 10); [done|]. by apply decimal_digits_nonempty. }
  inversion Hd as [|? ? H1 H2]; subst. assert (Hne : d <> 43) by lia. clear - Hp Hne.
  repeat (destruct d as [|d|d]; try exact Hp; try done).
Qed.

Lemma string_app_assoc (a b c : string) : a +:+ (b +:+ c) = (a +:+ b) +:+ c.
Proof. induction a as [|x a IH]; [done|]. exact (f_equal (String x) IH). Qed.
End Text.
