(* ===== verification/IpAddr.v ===== *)
(** * IP addresses

    Rust's [std::net::IpAddr]: its parser, its display and the predicates the
    daemons use.  An address is its bits. *)
From S2P Require Import Prelude Text.

Module IpAddr.
Import Text.

Inductive IpAddr := V4 (bits : Z) | V6 (bits : Z).

#[export] Instance IpAddr_eq_dec : EqDecision IpAddr.
Proof. solve_decision. Defined.

Definition is_ipv4 (a : IpAddr) : bool := match a with V4 _ => true | V6 _ => false end.
Definition is_ipv6 (a : IpAddr) : bool := negb (is_ipv4 a).

(** The octets of an IPv4 address and the segments of an IPv6 one. *)
Definition octet (bits : Z) (i : Z) : Z := Z.land (Z.shiftr bits (24 - 8 * i)) 255.
Definition octets (bits : Z) : list Z := map (octet bits) [0; 1; 2; 3].
Definition segment (bits : Z) (i : Z) : Z := Z.land (Z.shiftr bits (112 - 16 * i)) 65535.
Definition segments (bits : Z) : list Z := map (segment bits) [0; 1; 2; 3; 4; 5; 6; 7].
Definition of_segments (l : list Z) : Z := foldl (fun bits s => bits * 65536 + s) 0 l.
Definition of_octets (l : list Z) : Z := foldl (fun bits o => bits * 256 + o) 0 l.

Definition is_loopback (a : IpAddr) : bool :=
  match a with V4 bits => octet bits 0 =? 127 | V6 bits => bits =? 1 end.
Definition is_unspecified (a : IpAddr) : bool :=
  match a with V4 bits => bits =? 0 | V6 bits => bits =? 0 end.
Definition is_multicast (a : IpAddr) : bool :=
  match a with
  | V4 bits => in_range 224 239 (octet bits 0)
  | V6 bits => Z.land (segment bits 0) 65280 =? 65280
  end.
Definition is_v4_link_local (bits : Z) : bool := (octet bits 0 =? 169) && (octet bits 1 =? 254).

(** [Ipv6Addr::to_ipv4_mapped] *)
Definition to_ipv4_mapped (bits : Z) : option Z :=
  if Z.shiftr bits 32 =? 65535 then Some (Z.land bits 4294967295) else None.

(** ** Display *)

Definition display_v4 (bits : Z) : string :=
  match map display_unsigned (octets bits) with
  | [a; b; c; d] => a +:+ "." +:+ b +:+ "." +:+ c +:+ "." +:+ d
  | _ => ""
  end.

(** [{:x}] of a segment *)
Definition hex_digits (s : Z) : string :=
  string_of (drop_while (Z.eqb 48)
    (map (fun i => lower_digit (Z.land (Z.shiftr s i) 15)) [12; 8; 4]) ++ [lower_digit (Z.land s 15)]).

Fixpoint longest_zeroes (l : list Z) (i : nat) (current longest : nat * nat) : nat * nat :=
  match l with
  | [] => longest
  | s :: l =>
      if s =? 0 then
        let current := (if Nat.eqb current.2 0 then i else current.1, S current.2) in
        longest_zeroes l (S i) current (if Nat.ltb longest.2 current.2 then current else longest)
      else longest_zeroes l (S i) (0%nat, 0%nat) longest
  end.

Fixpoint join_colons (l : list string) : string :=
  match l with
  | [] => ""
  | [s] => s
  | s :: l => s +:+ ":" +:+ join_colons l
  end.

Definition display_v6 (bits : Z) : string :=
  match to_ipv4_mapped bits with
  | Some v4 => "::ffff:" +:+ display_v4 v4
  | None =>
      let s := segments bits in
      let '(start, len) := longest_zeroes s 0 (0%nat, 0%nat) (0%nat, 0%nat) in
      if Nat.ltb 1 len then
        join_colons (map hex_digits (firstn start s)) +:+ "::" +:+ join_colons (map hex_digits (skipn (start + len) s))
      else join_colons (map hex_digits s)
  end.

Definition display (a : IpAddr) : string :=
  match a with V4 bits => display_v4 bits | V6 bits => display_v6 bits end.

(** ** The parser ([core::net::parser])

    A reader consumes a prefix of the bytes or fails without consuming. *)
Definition reader (A : Type) : Type := list Z -> option (A * list Z).

Definition digit_value (radix : Z) (b : Z) : option Z :=
  let v := if is_ascii_digit b then b - 48
           else if in_range 97 122 b then b - 87
           else if in_range 65 90 b then b - 55 else radix in
  if v <? radix then Some v else None.

Fixpoint read_digits (radix : Z) (room : nat) (value : Z) (count : nat) (bytes : list Z) : option (Z * nat * list Z) :=
  match bytes with
  | b :: rest =>
      match digit_value radix b with
      | Some d => match room with O => None | S room => read_digits radix room (value * radix + d) (S count) rest end
      | None => Some (value, count, bytes)
      end
  | [] => Some (value, count, bytes)
  end.

Definition read_number (radix : Z) (max_digits : nat) (allow_zero_prefix : bool) (limit : Z) : reader Z := fun bytes =>
  match read_digits radix max_digits 0 0 bytes with
  | None | Some (_, O, _) => None
  | Some (value, count, rest) =>
      let leading_zero := match bytes with 48 :: _ => true | _ => false end in
      if negb allow_zero_prefix && leading_zero && Nat.ltb 1 count then None
      else if value <=? limit then Some (value, rest) else None
  end.

Definition read_char (c : Z) : reader unit := fun bytes =>
  match bytes with b :: rest => if b =? c then Some (tt, rest) else None | [] => None end.

Definition read_separator {A : Type} (c : Z) (index : nat) (inner : reader A) : reader A := fun bytes =>
  match index with
  | O => inner bytes
  | _ => '(_, rest) ← read_char c bytes; inner rest
  end.

Fixpoint read_octets (n index : nat) (bits : Z) : reader Z := fun bytes =>
  match n with
  | O => Some (bits, bytes)
  | S n =>
      '(o, rest) ← read_separator 46 index (read_number 10 3 false 255) bytes;
      read_octets n (S index) (bits * 256 + o) rest
  end.

Definition read_ipv4_addr : reader Z := read_octets 4 0 0.

(** [read_groups]: the groups read, and whether the last two were an
    embedded IPv4 address. *)
Fixpoint read_groups (room index : nat) (bytes : list Z) : list Z * bool * list Z :=
  match room with
  | O => ([], false, bytes)
  | S room' =>
      let embedded := if Nat.ltb 0 room' then read_separator 58 index read_ipv4_addr bytes else None in
      match embedded with
      | Some (v4, rest) => ([Z.shiftr v4 16; Z.land v4 65535], true, rest)
      | None =>
          match read_separator 58 index (read_number 16 4 true 65535) bytes with
          | Some (g, rest) =>
              let '(groups, v4, rest) := read_groups room' (S index) rest in (g :: groups, v4, rest)
          | None => ([], false, bytes)
          end
      end
  end.

Definition read_ipv6_addr : reader Z := fun bytes =>
  let '(head, head_ipv4, rest) := read_groups 8 0 bytes in
  if Nat.eqb (List.length head) 8 then Some (of_segments head, rest)
  else if (head_ipv4 : bool) then None
  else
    '(_, rest) ← read_char 58 rest;
    '(_, rest) ← read_char 58 rest;
    let '(tail, _, rest) := read_groups (8 - (List.length head + 1)) 0 rest in
    let zeroes := replicate (8 - List.length head - List.length tail) 0 in
    Some (of_segments (head ++ zeroes ++ tail), rest).

(** [str::parse::<IpAddr>] *)
Definition parse (s : string) : option IpAddr :=
  let finish (r : option (IpAddr * list Z)) := match r with Some (a, []) => Some a | _ => None end in
  let bytes := bytes_of s in
  match read_ipv4_addr bytes with
  | Some (bits, rest) => finish (Some (V4 bits, rest))
  | None => finish ('(bits, rest) ← read_ipv6_addr bytes; Some (V6 bits, rest))
  end.

Example parse_samples :
  map (fun s => display <$> parse s)
    ["192.168.1.20"; "10.0.0.01"; "256.1.1.1"; "1.2.3"; "::"; "::1"; "2001:DB8::1"; "fe80:0:0:1::"; "1::2::3";
     "::ffff:10.1.2.3"; "1:2:3:4:5:6:7:8"; "1:2:3:4:5:6:7.8.9.10"; "1:2:3:4:5:6:7:8:9"; "::1:2:3:4:5:6:7"; "12345::"] =
  [Some "192.168.1.20"; None; None; None; Some "::"; Some "::1"; Some "2001:db8::1"; Some "fe80:0:0:1::"; None;
   Some "::ffff:10.1.2.3"; Some "1:2:3:4:5:6:7:8"; Some "1:2:3:4:5:6:708:90a"; None; Some "0:1:2:3:4:5:6:7"; None]%string.
Proof. vm_compute. reflexivity. Qed.

(** ** The prefix of an address ([remoted/src/network.rs]'s [mask]) *)
Definition width (a : IpAddr) : Z := if is_ipv4 a then 32 else 128.

(** A well-formed address *)
Definition wf (a : IpAddr) : Prop :=
  match a with V4 bits => 0 <= bits < 2 ^ 32 | V6 bits => 0 <= bits < 2 ^ 128 end.

Lemma read_digits_range radix room : forall value count bytes v c rest,
  0 < radix -> 0 <= value -> read_digits radix room value count bytes = Some (v, c, rest) -> 0 <= v.
Proof.
  induction room as [|room IH]; intros value count bytes v c rest Hr Hv H; destruct bytes as [|b bytes]; simpl in H; simplify_eq; try done.
  - destruct (digit_value radix b); [done|by simplify_eq].
  - destruct (digit_value radix b) as [d|] eqn:Hd; [|by simplify_eq].
    eapply IH; [done| |exact H]. unfold digit_value in Hd.
    assert (0 <= d); [|nia]. case_match; [|done]. simplify_eq. unfold is_ascii_digit, in_range in *.
    repeat case_match; bool_hyps; lia.
Qed.

Lemma read_number_range radix n z limit bytes v rest : 0 < radix ->
  read_number radix n z limit bytes = Some (v, rest) -> 0 <= v <= limit.
Proof.
  unfold read_number. intros Hr H. destruct (read_digits _ _ _ _ _) as [[[v' [|c]] r']|] eqn:Hd; [done| |done].
  apply read_digits_range in Hd; [|done|lia]. destruct (negb z && _ && _); [done|].
  destruct (Z.leb_spec v' limit); [|done]. simplify_eq. lia.
Qed.

Lemma read_separator_some {A : Type} c index (inner : reader A) bytes a rest :
  read_separator c index inner bytes = Some (a, rest) -> exists b, inner b = Some (a, rest).
Proof.
  unfold read_separator. destruct index; [eauto|]. destruct (read_char c bytes) as [[[] r]|]; [|done]. cbn. eauto.
Qed.

Lemma read_octets_range n : forall index bits bytes v rest,
  0 <= bits -> read_octets n index bits bytes = Some (v, rest) ->
  bits * 256 ^ Z.of_nat n <= v < (bits + 1) * 256 ^ Z.of_nat n.
Proof.
  induction n as [|n IH]; intros index bits bytes v rest Hb H; simpl in H; [simplify_eq; lia|].
  destruct (read_separator _ _ _ _) as [[o r]|] eqn:Ho; [|done]. cbn in H.
  apply read_separator_some in Ho as [b Ho]. apply read_number_range in Ho; [|lia].
  apply IH in H; [|lia]. rewrite Nat2Z.inj_succ, Z.pow_succ_r by lia.
  assert (0 < 256 ^ Z.of_nat n) by (apply Z.pow_pos_nonneg; lia). nia.
Qed.

Lemma read_groups_range room : forall index bytes groups v4 rest, read_groups room index bytes = (groups, v4, rest) ->
  Forall (fun g => 0 <= g < 65536) groups /\ (List.length groups <= room)%nat.
Proof.
  induction room as [|room IH]; intros index bytes groups v4 rest H; simpl in H; [by simplify_eq; split; [constructor|simpl; lia]|].
  destruct (if Nat.ltb 0 room then read_separator 58 index read_ipv4_addr bytes else None) as [[a r]|] eqn:He.
  - destruct room as [|room]; [done|]. simpl in He. apply read_separator_some in He as [b He].
    apply read_octets_range in He; [|lia]. simplify_eq. split; [|simpl; lia].
    assert (0 <= a < 2 ^ 32) by lia. repeat constructor; try (apply Z.shiftr_nonneg; lia).
    + rewrite Z.shiftr_div_pow2 by lia. apply Z.div_lt_upper_bound; lia.
    + apply Z.land_nonneg. lia.
    + change 65535 with (Z.ones 16). rewrite Z.land_ones by lia. apply Z.mod_pos_bound. lia.
  - destruct (read_separator 58 index (read_number 16 4 true 65535) bytes) as [[g r]|] eqn:Hg; [|by simplify_eq; split; [constructor|simpl; lia]].
    apply read_separator_some in Hg as [b Hg]. apply read_number_range in Hg; [|lia].
    destruct (read_groups room (S index) r) as [[gs v] r'] eqn:Hr. simplify_eq.
    apply IH in Hr as [H1 H2]. split; [constructor; [lia|done]|simpl; lia].
Qed.

Lemma of_segments_range l : Forall (fun g => 0 <= g < 65536) l -> 0 <= of_segments l < 65536 ^ Z.of_nat (List.length l).
Proof.
  unfold of_segments. induction l as [|s l IH] using rev_ind; intros Hl; [simpl; lia|].
  apply Forall_app in Hl as [Hl Hs]. inversion Hs; subst. rewrite foldl_app, length_app. simpl.
  rewrite Nat2Z.inj_add. change (Z.of_nat 1) with 1. rewrite Z.pow_add_r by lia. specialize (IH Hl). lia.
Qed.

Lemma parse_wf s a : parse s = Some a -> wf a.
Proof.
  unfold parse. destruct (read_ipv4_addr (bytes_of s)) as [[bits rest]|] eqn:H4.
  - destruct rest; [|done]. intros [= <-]. apply read_octets_range in H4; [|lia]. simpl in *. lia.
  - unfold read_ipv6_addr. destruct (read_groups 8 0 (bytes_of s)) as [[head v4] rest] eqn:Hh.
    apply read_groups_range in Hh as [Hh Hl]. destruct (Nat.eqb_spec (List.length head) 8) as [H8|H8].
    + cbn. destruct rest; [|done]. intros [= <-]. apply of_segments_range in Hh. rewrite H8 in Hh. simpl in *. lia.
    + destruct v4; [done|]. destruct (read_char 58 rest) as [[[] r1]|]; [|done]. cbn.
      destruct (read_char 58 r1) as [[[] r2]|]; [|done]. cbn.
      destruct (read_groups (8 - (List.length head + 1)) 0 r2) as [[tail v6] r3] eqn:Ht.
      apply read_groups_range in Ht as [Ht Hn]. cbn. destruct r3; [|done]. intros [= <-].
      set (l := (head ++ replicate (8 - List.length head - List.length tail) 0 ++ tail)%list).
      assert (0 <= of_segments l < 65536 ^ Z.of_nat (List.length l)) as Hr.
      { apply of_segments_range. apply Forall_app; split; [done|]. apply Forall_app; split; [|done].
        apply Forall_replicate. lia. }
      assert (List.length l = 8%nat) as Hl8 by (unfold l; rewrite !length_app, length_replicate; lia).
      rewrite Hl8 in Hr. simpl in *. lia.
Qed.
End IpAddr.
