(* ===== verification/IpAddrFacts.v ===== *)
(** * Displaying and parsing IP addresses

    The display of an address parses back to it. *)
From S2P Require Import Prelude Text IpAddr.

Module IpAddrFacts.
Import Text IpAddr.

(** ** Numbers *)
Definition stops (radix : Z) (rest : list Z) : Prop :=
  match rest with b :: _ => digit_value radix b = None | [] => True end.

Definition numeral (radix : Z) (ds : list Z) : Z :=
  foldl (fun v b => v * radix + match digit_value radix b with Some d => d | None => 0 end) 0 ds.

Lemma read_digits_app radix ds : forall room v c rest,
  Forall (fun b => is_Some (digit_value radix b)) ds -> (List.length ds <= room)%nat -> stops radix rest ->
  read_digits radix room v c (ds ++ rest) =
  Some (foldl (fun v b => v * radix + match digit_value radix b with Some d => d | None => 0 end) v ds, (c + List.length ds)%nat, rest).
Proof.
  induction ds as [|b ds IH]; intros room v c rest Hd Hl Hs; simpl.
  - rewrite Nat.add_0_r. destruct rest as [|b rest]; destruct room; simpl in *; try done; by rewrite Hs.
  - inversion Hd as [|? ? [d Hb] Hd']; subst. simpl in Hl. destruct room as [|room]; [lia|]. simpl. rewrite Hb.
    rewrite IH by (done || lia). do 3 f_equal. lia.
Qed.

Definition good_numeral (radix : Z) (max : nat) (zero : bool) (limit : Z) (ds : list Z) (v : Z) : bool :=
  forallb (fun b => match digit_value radix b with Some _ => true | None => false end) ds
  && Nat.ltb 0 (List.length ds) && Nat.leb (List.length ds) max
  && (zero || negb (match ds with 48 :: _ => true | _ => false end) || Nat.leb (List.length ds) 1)
  && (numeral radix ds =? v) && (v <=? limit).

Lemma read_number_app radix max zero limit ds v rest : good_numeral radix max zero limit ds v = true -> stops radix rest ->
  read_number radix max zero limit (ds ++ rest) = Some (v, rest).
Proof.
  unfold good_numeral. intros H Hs. rewrite !andb_true_iff in H. destruct H as (((((Hd & H0) & Hm) & Hz) & Hv) & Hlim).
  apply Nat.ltb_lt in H0. apply Nat.leb_le in Hm. apply Z.eqb_eq in Hv. rewrite forallb_forall in Hd.
  unfold read_number. rewrite read_digits_app; [|apply Forall_forall; intros b Hb;
    apply list_elem_of_In, Hd in Hb; by destruct (digit_value radix b)|done|done].
  change (foldl _ 0 ds) with (numeral radix ds). rewrite Hv, Hlim.
  destruct (List.length ds) as [|n] eqn:Hn; [lia|]. rewrite Nat.add_0_l.
  assert (match (ds ++ rest)%list with 48 :: _ => true | _ => false end = match ds with 48 :: _ => true | _ => false end) as ->.
  { by destruct ds. }
  replace (negb zero && _ && Nat.ltb 1 (S n)) with false; [done|].
  rewrite Nat.leb_antisym in Hz. destruct zero, (match ds with 48 :: _ => true | _ => false end), (Nat.ltb 1 (S n)); done.
Qed.

Fixpoint range_from (n : nat) (z : Z) : list Z := match n with O => [] | S n => z :: range_from n (z + 1) end.
Definition range (n : nat) : list Z := range_from n 0.
Lemma range_from_in n : forall a z, a <= z < a + Z.of_nat n -> In z (range_from n a).
Proof.
  induction n as [|n IH]; intros a z Hz; simpl; [lia|].
  destruct (decide (a = z)) as [->|Hne]; [by left|right]. apply IH. lia.
Qed.
Lemma range_in n z : 0 <= z < Z.of_nat n -> In z (range n).
Proof. intros Hz. apply range_from_in. lia. Qed.

Lemma octets_good : forallb (fun o => good_numeral 10 3 false 255 (bytes_of (display_unsigned o)) o) (range 256) = true.
Proof. vm_compute. reflexivity. Qed.

Lemma hex_good : forallb (fun g => good_numeral 16 4 true 65535 (bytes_of (hex_digits g)) g) (range (Z.to_nat 65536)) = true.
Proof. vm_compute. reflexivity. Qed.

Definition group (g : Z) : Prop := 0 <= g < 65536.

Lemma hex_ok g : group g -> good_numeral 16 4 true 65535 (bytes_of (hex_digits g)) g = true.
Proof.
  intros Hg. refine (proj1 (forallb_forall _ _) hex_good g _). apply range_in. unfold group in Hg. lia.
Qed.

Lemma read_octet o rest : 0 <= o < 256 -> stops 10 rest ->
  read_number 10 3 false 255 (bytes_of (display_unsigned o) ++ rest) = Some (o, rest).
Proof.
  intros Ho Hs. apply read_number_app; [|done]. pose proof octets_good as H. rewrite forallb_forall in H.
  apply H, range_in. lia.
Qed.

Lemma read_group g rest : 0 <= g < 65536 -> stops 16 rest ->
  read_number 16 4 true 65535 (bytes_of (hex_digits g) ++ rest) = Some (g, rest).
Proof.
  intros Hg Hs. apply read_number_app; [by apply hex_ok|done].
Qed.

(** ** Bits *)
Lemma octet_range bits i : 0 <= octet bits i < 256.
Proof. unfold octet. change 255 with (Z.ones 8). rewrite Z.land_ones by lia. apply Z.mod_pos_bound. lia. Qed.
Lemma segment_range bits i : 0 <= segment bits i < 65536.
Proof. unfold segment. change 65535 with (Z.ones 16). rewrite Z.land_ones by lia. apply Z.mod_pos_bound. lia. Qed.

Lemma push_octet bits k : 0 <= k -> Z.shiftr bits (8 * (k + 1)) * 256 + Z.land (Z.shiftr bits (8 * k)) 255 = Z.shiftr bits (8 * k).
Proof.
  intros Hk. change 255 with (Z.ones 8). rewrite Z.land_ones, !Z.shiftr_div_pow2 by lia.
  replace (8 * (k + 1)) with (8 * k + 8) by lia. rewrite Z.pow_add_r, <- Z.div_div by lia.
  pose proof (Z.div_mod (bits / 2 ^ (8 * k)) (2 ^ 8) ltac:(lia)). lia.
Qed.
Lemma push_segment bits k : 0 <= k ->
  Z.shiftr bits (16 * (k + 1)) * 65536 + Z.land (Z.shiftr bits (16 * k)) 65535 = Z.shiftr bits (16 * k).
Proof.
  intros Hk. change 65535 with (Z.ones 16). rewrite Z.land_ones, !Z.shiftr_div_pow2 by lia.
  replace (16 * (k + 1)) with (16 * k + 16) by lia. rewrite Z.pow_add_r, <- Z.div_div by lia.
  pose proof (Z.div_mod (bits / 2 ^ (16 * k)) (2 ^ 16) ltac:(lia)). lia.
Qed.

Lemma shiftr_small bits n : 0 <= n -> 0 <= bits < 2 ^ n -> Z.shiftr bits n = 0.
Proof. intros Hn Hb. rewrite Z.shiftr_div_pow2 by lia. by apply Z.div_small. Qed.

Lemma of_octets_octets bits : 0 <= bits < 2 ^ 32 -> of_octets (octets bits) = bits.
Proof.
  intros Hb. unfold of_octets, octets, octet. cbn [map foldl].
  pose proof (push_octet bits 3 ltac:(lia)) as H3. pose proof (push_octet bits 2 ltac:(lia)) as H2.
  pose proof (push_octet bits 1 ltac:(lia)) as H1. pose proof (push_octet bits 0 ltac:(lia)) as H0.
  rewrite (shiftr_small bits (8 * (3 + 1))) in H3 by lia.
  change (24 - 8 * 0) with 24. change (24 - 8 * 1) with 16. change (24 - 8 * 2) with 8. change (24 - 8 * 3) with 0.
  change (8 * 3) with 24 in *. change (8 * (2 + 1)) with 24 in *. change (8 * 2) with 16 in *.
  change (8 * (1 + 1)) with 16 in *. change (8 * 1) with 8 in *. change (8 * (0 + 1)) with 8 in *. change (8 * 0) with 0 in *.
  rewrite Z.shiftr_0_r in *. lia.
Qed.

Lemma of_segments_segments bits : 0 <= bits < 2 ^ 128 -> of_segments (segments bits) = bits.
Proof.
  intros Hb. unfold of_segments, segments, segment. cbn [map foldl].
  pose proof (push_segment bits 7 ltac:(lia)) as H7. pose proof (push_segment bits 6 ltac:(lia)) as H6.
  pose proof (push_segment bits 5 ltac:(lia)) as H5. pose proof (push_segment bits 4 ltac:(lia)) as H4.
  pose proof (push_segment bits 3 ltac:(lia)) as H3. pose proof (push_segment bits 2 ltac:(lia)) as H2.
  pose proof (push_segment bits 1 ltac:(lia)) as H1. pose proof (push_segment bits 0 ltac:(lia)) as H0.
  rewrite (shiftr_small bits (16 * (7 + 1))) in H7 by lia.
  change (112 - 16 * 0) with (16 * 7). change (112 - 16 * 1) with (16 * 6). change (112 - 16 * 2) with (16 * 5).
  change (112 - 16 * 3) with (16 * 4). change (112 - 16 * 4) with (16 * 3). change (112 - 16 * 5) with (16 * 2).
  change (112 - 16 * 6) with (16 * 1). change (112 - 16 * 7) with (16 * 0).
  change (6 + 1) with 7 in *. change (5 + 1) with 6 in *. change (4 + 1) with 5 in *. change (3 + 1) with 4 in *.
  change (2 + 1) with 3 in *. change (1 + 1) with 2 in *. change (0 + 1) with 1 in *.
  change (16 * 0) with 0 in *. rewrite Z.shiftr_0_r in *. lia.
Qed.

(** ** IPv4 *)
Lemma display_v4_bytes bits : bytes_of (display_v4 bits) =
  (bytes_of (display_unsigned (octet bits 0)) ++ 46 :: bytes_of (display_unsigned (octet bits 1)) ++
   46 :: bytes_of (display_unsigned (octet bits 2)) ++ 46 :: bytes_of (display_unsigned (octet bits 3)))%list.
Proof. unfold display_v4, octets. cbn [map]. by rewrite !bytes_of_app. Qed.

Lemma read_display_v4 bits rest : 0 <= bits < 2 ^ 32 -> stops 10 rest ->
  read_ipv4_addr (bytes_of (display_v4 bits) ++ rest) = Some (bits, rest).
Proof.
  intros Hb Hs. rewrite display_v4_bytes. repeat (rewrite <- app_assoc; cbn [app]).
  unfold read_ipv4_addr. cbn [read_octets read_separator].
  rewrite read_octet by (done || apply octet_range). cbn [mbind option_bind read_char].
  change (46 =? 46) with true. cbn iota. cbn [mbind option_bind].
  rewrite read_octet by (done || apply octet_range). cbn [mbind option_bind read_char].
  change (46 =? 46) with true. cbn iota. cbn [mbind option_bind].
  rewrite read_octet by (done || apply octet_range). cbn [mbind option_bind read_char].
  change (46 =? 46) with true. cbn iota. cbn [mbind option_bind].
  rewrite read_octet by (done || apply octet_range). cbn [mbind option_bind].
  f_equal. f_equal. exact (of_octets_octets bits Hb).
Qed.

Lemma parse_display_v4 bits : 0 <= bits < 2 ^ 32 -> parse (display_v4 bits) = Some (V4 bits).
Proof.
  intros Hb. unfold parse. pose proof (read_display_v4 bits [] Hb I) as H. rewrite app_nil_r in H. by rewrite H.
Qed.

(** ** IPv6 *)

(** An IPv4 address contains a dot. *)
Lemma read_digits_suffix radix ds : forall room v c v' c' rest, read_digits radix room v c ds = Some (v', c', rest) ->
  exists p, ds = (p ++ rest)%list.
Proof.
  induction ds as [|b ds IH]; intros room v c v' c' rest H; [destruct room; simpl in H; simplify_eq; by exists []|].
  destruct room as [|room]; simpl in H; destruct (digit_value radix b) as [d|]; simplify_eq; try (by exists []).
  apply IH in H as [p ->]. by exists (b :: p).
Qed.

Lemma read_number_suffix radix max zero limit ds v rest : read_number radix max zero limit ds = Some (v, rest) ->
  exists p, ds = (p ++ rest)%list.
Proof.
  unfold read_number. destruct (read_digits radix max 0 0 ds) as [[[v' [|c]] r]|] eqn:H; [done| |done].
  destruct (negb zero && _ && _); [done|]. destruct (v' <=? limit); [|done]. intros [= <- <-].
  by eapply read_digits_suffix.
Qed.

Lemma read_ipv4_dot bytes : 46 ∉ bytes -> read_ipv4_addr bytes = None.
Proof.
  intros Hd. unfold read_ipv4_addr. cbn [read_octets read_separator].
  destruct (read_number 10 3 false 255 bytes) as [[o rest]|] eqn:H; [|done]. cbn [mbind option_bind].
  apply read_number_suffix in H as [p ->]. destruct rest as [|b rest]; [done|]. cbn [read_char].
  destruct (Z.eqb_spec b 46) as [->|]; [|done]. destruct Hd. apply elem_of_app. right. by left.
Qed.

Definition hexb (g : Z) : list Z := bytes_of (hex_digits g).
Lemma hexb_digit g b : group g -> b ∈ hexb g -> is_Some (digit_value 16 b).
Proof.
  intros Hg Hb. pose proof (hex_ok g Hg) as H. unfold good_numeral in H.
  rewrite !andb_true_iff in H. destruct H as (((((H & _) & _) & _) & _) & _). rewrite forallb_forall in H.
  apply list_elem_of_In, H in Hb. destruct (digit_value 16 b); [by eexists|done].
Qed.

Lemma hexb_no g b : group g -> digit_value 16 b = None -> b ∉ hexb g.
Proof. intros Hg Hb Hin. apply hexb_digit in Hin as [? ?]; [congruence|done]. Qed.

Lemma hexb_not_empty g : group g -> hexb g <> [].
Proof.
  intros Hg He. pose proof (hex_ok g Hg) as H. unfold good_numeral in H. fold (hexb g) in H. rewrite He in H.
  rewrite !andb_true_iff in H. by destruct H as (((((_ & H) & _) & _) & _) & _).
Qed.

(** Groups, each after a colon. *)
Definition body (l : list Z) : list Z := List.concat (map (fun g => 58 :: hexb g) l).
Definition text (l : list Z) : list Z := match l with [] => [] | g :: l => hexb g ++ body l end.

Lemma join_colons_bytes l : bytes_of (join_colons (map hex_digits l)) = text l.
Proof.
  destruct l as [|g l]; [done|]. revert g. induction l as [|h l IH]; intros g.
  - cbn [map join_colons text body List.concat]. by rewrite app_nil_r.
  - change (join_colons (map hex_digits (g :: h :: l))) with (hex_digits g +:+ ":" +:+ join_colons (map hex_digits (h :: l))).
    rewrite !bytes_of_app, IH. done.
Qed.

(** The bytes of the texts: hexadecimal digits, colons and dots. *)
Definition foreign (b : Z) : Prop := digit_value 16 b = None /\ b <> 58.

Lemma body_no b l : foreign b -> Forall group l -> b ∉ body l.
Proof.
  intros [Hb1 Hb2]. induction 1 as [|g l Hg _ IH]; [set_solver|]. cbn [body map List.concat app]. fold (body l).
  intros H. apply elem_of_cons in H as [H|H]; [done|]. apply elem_of_app in H as [H|H]; [|done].
  by apply (hexb_no g b) in H.
Qed.
Lemma text_no b l : foreign b -> Forall group l -> b ∉ text l.
Proof.
  intros Hb Hl. destruct Hl as [|g l Hg Hl]; cbn [text]; [set_solver|]. intros H. apply elem_of_app in H as [H|H].
  - by apply (hexb_no g b) in H; [| |apply Hb].
  - by apply body_no in H.
Qed.

Lemma dot_foreign : foreign 46.
Proof. by split. Qed.
Definition body_no_dot l := body_no 46 l dot_foreign.
Definition text_no_dot l := text_no 46 l dot_foreign.

(** What ends a sequence of groups. *)
Definition ends (rest : list Z) : Prop := (rest = [] \/ exists more, rest = 58 :: 58 :: more) /\ 46 ∉ rest.

Lemma body_stops l rest : ends rest -> stops 16 (body l ++ rest).
Proof. intros [[->|[more ->]] _]; by destruct l. Qed.

Lemma body_rest_no_dot l rest : Forall group l -> ends rest -> 46 ∉ (body l ++ rest)%list.
Proof. intros Hl [_ Hr] H. apply elem_of_app in H as [H|H]; [by apply body_no_dot in H|done]. Qed.

Lemma read_groups_end room index rest : ends rest -> read_groups room (S index) rest = ([], false, rest).
Proof.
  intros [Hr Hd]. destruct room as [|room]; [done|]. cbn [read_groups read_separator].
  assert (forall r, match read_char 58 rest with Some (_, r') => read_number 16 4 true 65535 r' | None => None end = Some r -> False) as Hnum.
  { intros r. destruct Hr as [->|[more ->]]; [done|]. simpl. done. }
  assert ((if Nat.ltb 0 room then '(_, rest0) ← read_char 58 rest; read_ipv4_addr rest0 else None) = None) as ->.
  { destruct (Nat.ltb 0 room); [|done]. destruct Hr as [->|[more ->]]; [done|]. simpl. done. }
  destruct (read_char 58 rest) as [[u r']|] eqn:Hc; cbn [mbind option_bind]; [|done].
  destruct (read_number 16 4 true 65535 r') as [[g r'']|]; [|done]. by destruct (Hnum _ eq_refl).
Qed.

Lemma read_groups_body l : forall room index rest, Forall group l -> (List.length l <= room)%nat -> ends rest ->
  read_groups room (S index) (body l ++ rest) = (l, false, rest).
Proof.
  induction l as [|g l IH]; intros room index rest Hl Hn He; [by apply read_groups_end|].
  inversion Hl as [|? ? Hg Hl']; subst. simpl in Hn. destruct room as [|room]; [lia|].
  cbn [body map List.concat]. rewrite <- app_assoc. cbn [app read_groups read_separator read_char]. fold (body l).
  change (58 =? 58) with true. cbn iota. cbn [mbind option_bind].
  assert (46 ∉ (hexb g ++ body l ++ rest)%list) as Hd.
  { intros H. apply elem_of_app in H as [H|H]; [by apply (hexb_no g 46) in H|by apply body_rest_no_dot in H]. }
  rewrite (read_ipv4_dot _ Hd). destruct (Nat.ltb 0 room); unfold hexb at 1;
    (rewrite read_group by (done || by apply body_stops)); rewrite IH by (done || lia); done.
Qed.

Lemma read_groups_text l room rest : Forall group l -> (List.length l <= room)%nat -> ends rest ->
  read_groups room 0 (text l ++ rest) = (l, false, rest).
Proof.
  intros Hl Hn He. destruct Hl as [|g l Hg Hl].
  - destruct room as [|room]; [done|]. destruct He as [[->|[more ->]] Hd]; simpl; by destruct (Nat.ltb 0 room).
  - simpl in Hn. destruct room as [|room]; [lia|]. cbn [text]. rewrite <- app_assoc. cbn [read_groups read_separator].
    assert (46 ∉ (hexb g ++ body l ++ rest)%list) as Hd.
    { intros H. apply elem_of_app in H as [H|H]; [by apply (hexb_no g 46) in H|by apply body_rest_no_dot in H]. }
    rewrite (read_ipv4_dot _ Hd). destruct (Nat.ltb 0 room); unfold hexb at 1;
      (rewrite read_group by (done || by apply body_stops)); rewrite read_groups_body by (done || lia); done.
Qed.

(** The longest run of zeroes is a run of zeroes. *)
Definition zero_span (l : list Z) (s : nat * nat) : Prop :=
  (s.1 + s.2 <= List.length l)%nat /\ forall j, (s.1 <= j < s.1 + s.2)%nat -> l !! j = Some 0.

Lemma longest_zeroes_span l : forall p current longest,
  zero_span (p ++ l) longest -> (current.2 = 0%nat \/ (zero_span (p ++ l) current /\ (current.1 + current.2 = List.length p)%nat)) ->
  zero_span (p ++ l) (longest_zeroes l (List.length p) current longest).
Proof.
  induction l as [|s l IH]; intros p current longest Hl Hc; cbn [longest_zeroes]; [done|].
  replace (p ++ s :: l)%list with ((p ++ [s]) ++ l)%list in * by (by rewrite <- app_assoc).
  replace (S (List.length p)) with (List.length (p ++ [s])%list) by (rewrite length_app; simpl; lia).
  destruct (Z.eqb_spec s 0) as [->|Hs].
  - set (c := (if Nat.eqb current.2 0 then List.length p else current.1, S current.2)).
    assert (zero_span ((p ++ [0]) ++ l) c /\ (c.1 + c.2 = List.length (p ++ [0%Z]))%nat) as [Hz He].
    { unfold c. rewrite length_app. simpl. destruct (Nat.eqb_spec current.2 0) as [E|E].
      - rewrite E. split; [|simpl; lia]. split; simpl; [rewrite !length_app; simpl; lia|].
        intros j Hj. assert (j = List.length p) as -> by lia. rewrite lookup_app_l by (rewrite length_app; simpl; lia).
        by rewrite list_lookup_middle.
      - destruct Hc as [Hc|[[Hc1 Hc2] Hc3]]; [done|]. split; [|simpl in *; lia].
        split; simpl; [rewrite !length_app in *; simpl in *; lia|]. intros j Hj.
        destruct (decide (j = List.length p)) as [->|Hne]; [|apply Hc2; simpl in *; lia].
        rewrite lookup_app_l by (rewrite length_app; simpl; lia). by rewrite list_lookup_middle. }
    apply IH; [by destruct (Nat.ltb longest.2 c.2)|right; by split].
  - apply IH; [done|by left].
Qed.

Lemma longest_zeroes_ok l : zero_span l (longest_zeroes l 0 (0%nat, 0%nat) (0%nat, 0%nat)).
Proof.
  apply (longest_zeroes_span l [] (0%nat, 0%nat) (0%nat, 0%nat)); [|by left].
  split; simpl; [lia|]. intros j Hj. lia.
Qed.

Lemma segments_group bits : Forall group (segments bits).
Proof. unfold segments. apply Forall_forall. intros g Hg. apply list_elem_of_In, in_map_iff in Hg as (i & <- & _). apply segment_range. Qed.

Lemma run_replicate l : forall start len : nat,
  (start + len <= List.length l)%nat -> (forall j, (start <= j < start + len)%nat -> l !! j = Some 0) ->
  l = (firstn start l ++ replicate len 0 ++ skipn (start + len) l)%list.
Proof.
  intros start len Hl Hz. apply list_eq. intros j.
  destruct (decide (j < start)%nat) as [H1|H1].
  { rewrite lookup_app_l by (rewrite length_take; lia). by rewrite lookup_take_lt. }
  rewrite lookup_app_r by (rewrite length_take; lia). rewrite length_take.
  replace (start `min` List.length l)%nat with start by lia.
  destruct (decide (j < start + len)%nat) as [H2|H2].
  { rewrite lookup_app_l by (rewrite length_replicate; lia). rewrite lookup_replicate_2 by lia. apply Hz. lia. }
  rewrite lookup_app_r, length_replicate by (rewrite length_replicate; lia). rewrite lookup_drop. f_equal. lia.
Qed.

Lemma read_char_same c rest : read_char c (c :: rest) = Some (tt, rest).
Proof. unfold read_char. by rewrite Z.eqb_refl. Qed.

Lemma of_segments_groups_text head tail len rest : Forall group head -> Forall group tail ->
  (2 <= len)%nat -> (List.length head + len + List.length tail = 8)%nat -> rest = [] ->
  read_ipv6_addr (text head ++ [58; 58] ++ text tail ++ rest) =
  Some (of_segments (head ++ replicate len 0 ++ tail), rest).
Proof.
  intros Hh Ht H2 H8 ->. unfold read_ipv6_addr. rewrite app_nil_r.
  rewrite read_groups_text.
  2: done. 2: lia.
  2: { split; [right; by exists (text tail)|]. intros H. cbn [app] in H.
       do 2 (apply elem_of_cons in H as [H|H]; [done|]). by apply text_no_dot in H. }
  rewrite (proj2 (Nat.eqb_neq _ _)) by lia. cbn [app].
  do 2 (rewrite read_char_same; cbn [mbind option_bind]).
  pose proof (read_groups_text tail (8 - (List.length head + 1)) [] Ht ltac:(lia)) as Hr. rewrite app_nil_r in Hr.
  rewrite Hr by (split; [by left|set_solver]). replace (8 - List.length head - List.length tail)%nat with len by lia. done.
Qed.

Lemma mapped_bits bits v4 : 0 <= bits < 2 ^ 128 -> to_ipv4_mapped bits = Some v4 ->
  0 <= v4 < 2 ^ 32 /\ bits = 65535 * 2 ^ 32 + v4.
Proof.
  unfold to_ipv4_mapped. intros Hb. destruct (Z.eqb_spec (Z.shiftr bits 32) 65535) as [E|]; [|done]. intros [= <-].
  change 4294967295 with (Z.ones 32). rewrite Z.land_ones by lia. rewrite Z.shiftr_div_pow2 in E by lia.
  pose proof (Z.mod_pos_bound bits (2 ^ 32) ltac:(lia)). pose proof (Z.div_mod bits (2 ^ 32) ltac:(lia)). lia.
Qed.

Lemma parse_mapped v4 : 0 <= v4 < 2 ^ 32 -> parse ("::ffff:" +:+ display_v4 v4) = Some (V6 (65535 * 2 ^ 32 + v4)).
Proof.
  intros Hv. unfold parse. rewrite bytes_of_app. set (tail := bytes_of (display_v4 v4)).
  assert (read_ipv4_addr (bytes_of "::ffff:" ++ tail) = None) as -> by done.
  assert (read_ipv6_addr (bytes_of "::ffff:" ++ tail) = Some (of_segments (replicate 5 0 ++ [65535; Z.shiftr v4 16; Z.land v4 65535]), [])) as ->.
  { unfold read_ipv6_addr. assert (read_groups 8 0 (bytes_of "::ffff:" ++ tail) = ([], false, (bytes_of "::ffff:" ++ tail)%list)) as -> by done.
    cbn [List.length]. change (bytes_of "::ffff:" ++ tail)%list with (58 :: 58 :: (bytes_of "ffff" ++ 58 :: tail))%list.
    change (Nat.eqb 0 8) with false. cbn iota. do 2 (rewrite read_char_same; cbn [mbind option_bind]).
    assert (read_groups (8 - (0 + 1)) 0 (bytes_of "ffff" ++ 58 :: tail) = ([65535; Z.shiftr v4 16; Z.land v4 65535], true, [])) as ->; [|done].
    change (8 - (0 + 1))%nat with 7%nat. cbn [read_groups Nat.ltb Nat.leb read_separator].
    assert (read_ipv4_addr (bytes_of "ffff" ++ 58 :: tail) = None) as -> by done.
    assert (read_number 16 4 true 65535 (bytes_of "ffff" ++ 58 :: tail) = Some (65535, (58 :: tail)%list)) as -> by done.
    rewrite read_char_same. cbn [mbind option_bind].
    unfold tail. pose proof (read_display_v4 v4 [] Hv I) as Hr. rewrite app_nil_r in Hr. by rewrite Hr. }
  cbn [mbind option_bind]. do 2 f_equal. unfold of_segments. cbn [replicate app foldl].
  change 65535 with (Z.ones 16) at 2. rewrite Z.land_ones, Z.shiftr_div_pow2 by lia.
  pose proof (Z.div_mod v4 (2 ^ 16) ltac:(lia)). lia.
Qed.

(** What [display] writes. *)
Lemma display_v4_no b bits : foreign b -> b <> 46 -> b ∉ bytes_of (display_v4 bits).
Proof.
  intros [Hb _] Hd. assert (Ho : forall i, b ∉ bytes_of (display_unsigned (octet bits i))).
  { intros i Hi. pose proof (display_unsigned_digits (octet bits i) ltac:(pose proof (octet_range bits i); lia)) as H.
    rewrite Forall_forall in H. apply H in Hi. unfold digit_value in Hb. unfold is_ascii_digit, in_range in Hb.
    rewrite !(proj2 (Z.leb_le _ _)) in Hb by lia. cbn [andb] in Hb. by rewrite (proj2 (Z.ltb_lt _ _)) in Hb by lia. }
  rewrite display_v4_bytes. intros H. repeat (apply elem_of_app in H as [H|H]; [by apply Ho in H|];
    apply elem_of_cons in H as [H|H]; [done|]). by apply Ho in H.
Qed.

Lemma display_no b a : foreign b -> b <> 46 -> wf a -> b ∉ bytes_of (display a).
Proof.
  intros Hb Hd. destruct a as [bits|bits]; cbn [display]; [by intros; apply display_v4_no|]. intros _. unfold display_v6.
  destruct (to_ipv4_mapped bits) as [v4|].
  { rewrite bytes_of_app. intros H. apply elem_of_app in H as [H|H]; [|by apply display_v4_no in H].
    destruct Hb as [H1 H2]. change (bytes_of "::ffff:") with [58; 58; 102; 102; 102; 102; 58] in H.
    repeat (apply elem_of_cons in H as [->|H]; [done|]). by apply elem_of_nil in H. }
  pose proof (segments_group bits) as Hg. destruct (longest_zeroes _ _ _ _) as [start len]. destruct (Nat.ltb 1 len).
  - rewrite !bytes_of_app, !join_colons_bytes. change (bytes_of "::") with [58; 58]. intros H.
    apply elem_of_app in H as [H|H]; [by apply text_no in H; [| |apply Forall_take]|].
    apply elem_of_app in H as [H|H]; [destruct Hb; set_solver|]. by apply text_no in H; [| |apply Forall_drop].
  - rewrite join_colons_bytes. by apply text_no.
Qed.

(** The display of an address parses to the address. *)
Lemma parse_display a : wf a -> parse (display a) = Some a.
Proof.
  destruct a as [bits|bits]; simpl; intros Hb; [by apply parse_display_v4|]. unfold display_v6.
  destruct (to_ipv4_mapped bits) as [v4|] eqn:Hm.
  { apply mapped_bits in Hm as [Hv ->]; [|done]. by apply parse_mapped. }
  pose proof (segments_group bits) as Hg. pose proof (of_segments_segments bits Hb) as Hs.
  assert (List.length (segments bits) = 8%nat) as H8 by done.
  pose proof (longest_zeroes_ok (segments bits)) as Hz.
  destruct (longest_zeroes (segments bits) 0 (0%nat, 0%nat) (0%nat, 0%nat)) as [start len].
  destruct Hz as [Hz1 Hz2]. cbn [fst snd] in Hz1, Hz2.
  set (s := segments bits) in *. clearbody s.
  unfold parse. destruct (Nat.ltb_spec 1 len) as [Hlen|Hlen].
  - rewrite !bytes_of_app, !join_colons_bytes. change (bytes_of "::") with [58; 58].
    pose proof (run_replicate s start len Hz1 Hz2) as Hr.
    assert (Forall group (firstn start s) /\ Forall group (skipn (start + len) s)) as [G1 G2].
    { split; [by apply Forall_take|by apply Forall_drop]. }
    rewrite read_ipv4_dot.
    2: { intros H. apply elem_of_app in H as [H|H]; [by apply text_no_dot in H|].
         cbn [app] in H. do 2 (apply elem_of_cons in H as [H|H]; [done|]). by apply text_no_dot in H. }
    pose proof (of_segments_groups_text (firstn start s) (skipn (start + len) s) len [] G1 G2 ltac:(lia)) as Hp.
    rewrite app_nil_r in Hp. rewrite Hp; [|rewrite length_take, length_drop; lia|done].
    cbn [mbind option_bind]. by rewrite <- Hr, Hs.
  - rewrite join_colons_bytes. rewrite read_ipv4_dot by (by apply text_no_dot).
    unfold read_ipv6_addr. pose proof (read_groups_text s 8 [] Hg ltac:(lia)) as Hr. rewrite app_nil_r in Hr.
    rewrite Hr by (split; [by left|set_solver]). rewrite H8. simpl. by rewrite Hs.
Qed.
End IpAddrFacts.
