(* ===== verification/Protocol.v ===== *)
(** * The platform contract ([crates/protocol/src/lib.rs])

    The status records and the errors the daemons exchange. *)
From S2P Require Import Prelude.

Module Protocol.

Definition BUS : string := "org.signallayer.Platform1".
Definition PATH : string := "/org/signallayer/Platform1".
Definition INTERFACE : string := "org.signallayer.Platform1".
Definition SCHEMA_VERSION : string := "0.3".
Definition SESSION_SCHEMA_VERSION : string := "0.4".

Module NetworkState.
Inductive t := Unknown | Disconnected | Connecting | ConnectedLocal | ConnectedSite | ConnectedGlobal.
End NetworkState.
Module UpdateState.
Inductive t := Idle | Running | Staged | Failed.
End UpdateState.
Module RollbackState.
Inductive t := Idle | Running | Queued | Failed.
End RollbackState.
Module HealthState.
Inductive t := Healthy | Degraded.
End HealthState.

Record MachineStatus := { machine_id : string; architecture : string; boot_id : string }.

Record PrimaryConnection := { interface : string; addresses : list string; default_gateways : list string }.

Record NetworkStatus := { state : NetworkState.t; primary_connection : option PrimaryConnection }.

Record Deployment := { deployment_id : string; image_reference : option string; image_digest : option string }.

(** [UpdateFailure] and [RollbackFailure] *)
Record WorkerFailure := { code : string; message : string }.

Record UpdateStatus := {
  update_state : UpdateState.t; staged : option Deployment;
  update_reboot_required : bool; update_failure : option WorkerFailure
}.

Record RollbackStatus := {
  rollback_state : RollbackState.t; rollback_reboot_required : bool; rollback_failure : option WorkerFailure
}.

Record Health := { health_state : HealthState.t; system_state : string; failed_units : Z }.

Record Status := {
  schema_version : string; product : string; version : string; platform_api_version : string;
  source_revision : option string; build_id : option string;
  machine : MachineStatus; network : NetworkStatus; booted : Deployment;
  retained_rollback : option Deployment; update : UpdateStatus; rollback : RollbackStatus; health : Health
}.

Record RemoteManagementStatus := { enabled : bool; listening : bool; enrolled : bool }.

Record SessionStatus := {
  session_schema_version : string; session_product : string; session_version : string;
  session_platform_api_version : string; session_source_revision : option string; session_build_id : option string;
  session_machine : MachineStatus; session_network : NetworkStatus; session_booted : Deployment;
  session_retained_rollback : option Deployment; session_update : UpdateStatus; session_rollback : RollbackStatus;
  session_health : Health; remote_management : RemoteManagementStatus
}.

(** The derived [PartialEq] and [Eq] *)
#[export] Instance NetworkState_eq_dec : EqDecision NetworkState.t.
Proof. solve_decision. Defined.
#[export] Instance UpdateState_eq_dec : EqDecision UpdateState.t.
Proof. solve_decision. Defined.
#[export] Instance RollbackState_eq_dec : EqDecision RollbackState.t.
Proof. solve_decision. Defined.
#[export] Instance HealthState_eq_dec : EqDecision HealthState.t.
Proof. solve_decision. Defined.
#[export] Instance MachineStatus_eq_dec : EqDecision MachineStatus.
Proof. solve_decision. Defined.
#[export] Instance PrimaryConnection_eq_dec : EqDecision PrimaryConnection.
Proof. solve_decision. Defined.
#[export] Instance NetworkStatus_eq_dec : EqDecision NetworkStatus.
Proof. solve_decision. Defined.
#[export] Instance Deployment_eq_dec : EqDecision Deployment.
Proof. solve_decision. Defined.
#[export] Instance WorkerFailure_eq_dec : EqDecision WorkerFailure.
Proof. solve_decision. Defined.
#[export] Instance UpdateStatus_eq_dec : EqDecision UpdateStatus.
Proof. solve_decision. Defined.
#[export] Instance RollbackStatus_eq_dec : EqDecision RollbackStatus.
Proof. solve_decision. Defined.
#[export] Instance Health_eq_dec : EqDecision Health.
Proof. solve_decision. Defined.
#[export] Instance Status_eq_dec : EqDecision Status.
Proof. solve_decision. Defined.
#[export] Instance RemoteManagementStatus_eq_dec : EqDecision RemoteManagementStatus.
Proof. solve_decision. Defined.
#[export] Instance SessionStatus_eq_dec : EqDecision SessionStatus.
Proof. solve_decision. Defined.

(** [SessionStatus::from_platform] *)
Definition from_platform (status : Status) (remote_management : RemoteManagementStatus) : SessionStatus := {|
  session_schema_version := SESSION_SCHEMA_VERSION;
  session_product := product status;
  session_version := version status;
  session_platform_api_version := platform_api_version status;
  session_source_revision := source_revision status;
  session_build_id := build_id status;
  session_machine := machine status;
  session_network := network status;
  session_booted := booted status;
  session_retained_rollback := retained_rollback status;
  session_update := update status;
  session_rollback := rollback status;
  session_health := health status;
  remote_management := remote_management
|}.

(** [PlatformError]; the payload of the [ZBus] variant is a library's. *)
Module PlatformError.
Inductive t :=
  | BackendUnavailable (message : string)
  | BackendTimeout (message : string)
  | InvalidBackendData (message : string)
  | MetadataUnavailable (message : string)
  | HealthUnavailable (message : string)
  | MachineUnavailable (message : string)
  | NetworkUnavailable (message : string)
  | UpdateUnavailable (message : string)
  | RollbackUnavailable (message : string)
  | RebootUnavailable (message : string)
  | Conflict (message : string)
  | Busy (message : string)
  | RemoteManagementUnavailable (message : string)
  | AuthUnavailable (message : string)
  | ResetIncomplete (message : string)
  | ZBus.
End PlatformError.

#[export] Instance PlatformError_eq_dec : EqDecision PlatformError.t.
Proof. solve_decision. Defined.
End Protocol.
