(* ===== verification/Programs.v ===== *)
(** * Programs that call out

    The daemons are asynchronous programs: between two calls (to the bus, a
    file, a permit) anything can happen elsewhere.  A [prog] is such a
    program as a tree of calls and what is done with each reply, whatever the
    reply. *)
From S2P Require Import Prelude.

Module Programs.

(** The calls a component makes, and what each is answered. *)
Record Signature := { call : Type; reply : call -> Type }.

Inductive prog (S : Signature) (A : Type) : Type :=
  | Done (a : A)
  | Act (c : call S) (k : reply S c -> prog S A).
Arguments Done {S A} a.
Arguments Act {S A} c k.

Fixpoint pbind {S A B} (m : prog S A) (k : A -> prog S B) : prog S B :=
  match m with
  | Done a => k a
  | Act c k' => Act c (fun r => pbind (k' r) k)
  end.

Definition perform {S} (c : call S) : prog S (reply S c) := Act c Done.

Declare Scope prog_scope.
Delimit Scope prog_scope with prog.
(** [let x = m.await; k] *)
Notation "'let!' x ':=' m 'in' k" := (pbind m (fun x => k))
  (at level 10, x pattern, m at level 100, k at level 200) : prog_scope.
Notation "'do!' m 'in' k" := (pbind m (fun _ => k))
  (at level 10, m at level 100, k at level 200) : prog_scope.

(** [let x = m.await?; k] *)
Definition try_bind {S A B E} (m : prog S (res A E)) (k : A -> prog S (res B E)) : prog S (res B E) :=
  pbind m (fun r => match r with Ok a => k a | Err e => Done (Err e) | Panic => Done Panic end).
Notation "'let?' x ':=' m 'in' k" := (try_bind m (fun x => k))
  (at level 10, x pattern, m at level 100, k at level 200) : prog_scope.

(** [m.await.map_err(|_| e)] *)
Definition mapped_err {S A E F} (f : E -> F) (m : prog S (res A E)) : prog S (res A F) :=
  pbind m (fun r => Done (map_err f r)).
Definition or_error {S A E F} (e : F) (m : prog S (res A E)) : prog S (res A F) := mapped_err (fun _ => e) m.

(** ** Deadlines

    Inside [timeout(limit, async { .. })] each reply comes in time or not at
    all: [None] is the deadline passing first.  The bodies below return
    [None] as soon as one of their calls does. *)
Definition awaited (A : Type) : Type := option (res A unit).

Definition await_bind {S A B E} (e : E) (m : prog S (awaited A)) (k : A -> prog S (option (res B E))) :
    prog S (option (res B E)) :=
  pbind m (fun r => match r with
    | None => Done None
    | Some (Ok a) => k a
    | Some (Err _) => Done (Some (Err e))
    | Some Panic => Done (Some Panic)
    end).

(** [let x = m.await?; k] where the kind of a failure does not matter *)
Notation "'await?' x ':=' m 'in' k" := (await_bind tt m (fun x => k))
  (at level 10, x pattern, m at level 100, k at level 200) : prog_scope.

(** [timeout(..).await.map_err(|_| elapsed)?] of a body with results in [res A E] *)
Definition in_time {S A E} (elapsed : E) (m : prog S (option (res A E))) : prog S (res A E) :=
  pbind m (fun r => Done (match r with None => Err elapsed | Some r => r end)).

(** ** [try_join!]

    Both programs run until one fails or both are done; [choose] is whose
    pending call is answered next.  When one fails the other is dropped. *)
Section TryJoin.
Context {S : Signature} {A B E : Type} (choose : prog S bool).

Definition first_done (m : prog S (res B E)) (r : res A E) : prog S (res (A * B) E) :=
  match r with
  | Ok a => pbind m (fun r => Done (map_ok (pair a) r))
  | Err e => Done (Err e)
  | Panic => Done Panic
  end.

Definition second_done (m : prog S (res A E)) (r : res B E) : prog S (res (A * B) E) :=
  match r with
  | Ok b => pbind m (fun r => Done (map_ok (fun a => (a, b)) r))
  | Err e => Done (Err e)
  | Panic => Done Panic
  end.

Fixpoint try_join (m : prog S (res A E)) : prog S (res B E) -> prog S (res (A * B) E) :=
  fix second (n : prog S (res B E)) : prog S (res (A * B) E) :=
    match m, n with
    | Done r, _ => first_done n r
    | Act _ _, Done r => second_done m r
    | Act c k, Act c' k' =>
        pbind choose (fun first : bool => if first then Act c (fun r => try_join (k r) n) else Act c' (fun r => second (k' r)))
    end.
End TryJoin.

(** ** Runs *)
Definition event (S : Signature) : Type := { c : call S & reply S c }.

(** [runs m t a]: [m] can make the calls and get the replies of [t], and
    return [a]. *)
Fixpoint runs {S A} (m : prog S A) (t : list (event S)) (a : A) : Prop :=
  match m with
  | Done b => t = [] /\ a = b
  | Act c k => exists r t', t = existT c r :: t' /\ runs (k r) t' a
  end.

(** The run against given replies. *)
Fixpoint exec {S A} (answer : nat -> forall c : call S, reply S c) (n : nat) (m : prog S A) : list (event S) * A :=
  match m with
  | Done a => ([], a)
  | Act c k => let r := answer n c in let (t, a) := exec answer (Datatypes.S n) (k r) in (existT c r :: t, a)
  end.

Lemma exec_runs {S A} answer (m : prog S A) : forall n, runs m (exec answer n m).1 (exec answer n m).2.
Proof.
  induction m as [a|c k IH]; intros n; simpl; [done|]. specialize (IH (answer n c) (Datatypes.S n)).
  destruct (exec answer (Datatypes.S n) (k (answer n c))) as [t a]. by exists (answer n c), t.
Qed.

Lemma runs_bind {S A B} (m : prog S A) (k : A -> prog S B) : forall t b,
  runs (pbind m k) t b <-> exists t1 a t2, t = (t1 ++ t2)%list /\ runs m t1 a /\ runs (k a) t2 b.
Proof.
  induction m as [a|c k' IH]; intros t b; simpl.
  - split; [intros H; by exists [], a, t|]. by intros (t1 & a' & t2 & -> & [-> ->] & H).
  - split.
    + intros (r & t' & -> & H). apply IH in H as (t1 & a & t2 & -> & H1 & H2).
      exists (existT c r :: t1), a, t2. split; [done|]. split; [by exists r, t1|done].
    + intros (t1 & a & t2 & -> & (r & t' & -> & H1) & H2). exists r, (t' ++ t2)%list. split; [done|].
      apply IH. by exists t', a, t2.
Qed.

Lemma runs_done {S A} (a b : A) t : runs (Done (S:=S) a) t b <-> t = [] /\ b = a.
Proof. done. Qed.

Lemma runs_act {S A} (c : call S) (k : reply S c -> prog S A) t a :
  runs (Act c k) t a <-> exists r t', t = existT c r :: t' /\ runs (k r) t' a.
Proof. done. Qed.

(** Successful runs of the forms of [?]. *)
Lemma try_bind_runs {S A B E} (m : prog S (res A E)) (k : A -> prog S (res B E)) t b : runs (try_bind m k) t (Ok b) ->
  exists t1 a t2, t = (t1 ++ t2)%list /\ runs m t1 (Ok a) /\ runs (k a) t2 (Ok b).
Proof. intros H. apply runs_bind in H as (t1 & [a|e|] & t2 & -> & H1 & H2); [by exists t1, a, t2|by destruct H2..]. Qed.

Lemma or_error_runs {S A E F} (e : F) (m : prog S (res A E)) t a : runs (or_error e m) t (Ok a) -> runs m t (Ok a).
Proof. intros H. apply runs_bind in H as (t1 & [b|x|] & t2 & -> & H & -> & Hr); try done. injection Hr as ->. by rewrite app_nil_r. Qed.

Lemma in_time_runs {S A E} (e : E) (m : prog S (option (res A E))) t a : runs (in_time e m) t (Ok a) -> runs m t (Some (Ok a)).
Proof. intros H. apply runs_bind in H as (t1 & [[b|x|]|] & t2 & -> & H & -> & Hr); try done. injection Hr as ->. by rewrite app_nil_r. Qed.

Lemma await_bind_runs {S A B E} (e : E) (m : prog S (awaited A)) (k : A -> prog S (option (res B E))) t b :
  runs (await_bind e m k) t (Some (Ok b)) -> exists t1 a t2, t = (t1 ++ t2)%list /\ runs m t1 (Some (Ok a)) /\ runs (k a) t2 (Some (Ok b)).
Proof. intros H. apply runs_bind in H as (t1 & [[a|[]|]|] & t2 & -> & H1 & H2); [by exists t1, a, t2|by destruct H2..]. Qed.

Lemma perform_runs {S} (c : call S) t r : runs (perform c) t r -> t = [existT c r].
Proof. by intros (r' & t' & -> & -> & ->). Qed.

(** A successful [try_join!] is a run of each of the two. *)
Lemma try_join_runs {S A B E} (choose : prog S bool) (m : prog S (res A E)) : forall (n : prog S (res B E)) t a b,
  runs (try_join choose m n) t (Ok (a, b)) -> exists t1 t2, runs m t1 (Ok a) /\ runs n t2 (Ok b) /\
    forall e, e ∈ t1 \/ e ∈ t2 -> e ∈ t.
Proof.
  assert (Hfirst : forall r (n : prog S (res B E)) t (a : A) b, runs (first_done n r) t (Ok (a, b)) -> r = Ok a /\ runs n t (Ok b)).
  { intros [a'|e|] n t a b H; [|by destruct H..]. apply runs_bind in H as (t1 & [b'|e|] & t2 & -> & H & -> & Hr); try done.
    injection Hr as -> ->. by rewrite app_nil_r. }
  assert (Hsecond : forall r (m : prog S (res A E)) t a (b : B), runs (second_done m r) t (Ok (a, b)) -> r = Ok b /\ runs m t (Ok a)).
  { intros [b'|e|] m' t a b H; [|by destruct H..]. apply runs_bind in H as (t1 & [a'|e|] & t2 & -> & H & -> & Hr); try done.
    injection Hr as -> ->. by rewrite app_nil_r. }
  induction m as [r|c k IH]; intros n.
  { intros t a b H. destruct n; apply Hfirst in H as [-> H]; exists [], t; (split; [done|split; [exact H|set_solver]]). }
  induction n as [r|c' k' IH']; intros t a b H.
  { apply Hsecond in H as [-> H]. exists t, []. split; [exact H|]. split; [done|set_solver]. }
  apply runs_bind in H as (t0 & [] & t3 & -> & _ & (r & t4 & -> & H)).
  - apply IH in H as (t1 & t2 & H1 & H2 & Hin). exists (existT c r :: t1), t2. split; [by exists r, t1|]. split; [done|set_solver].
  - apply IH' in H as (t1 & t2 & H1 & H2 & Hin). exists t1, (existT c' r :: t2). split; [done|]. split; [by exists r, t2|set_solver].
Qed.

(** Where an element of an extended record is. *)
Lemma snoc_split {A} (l before after : list A) (x e : A) : (l ++ [x])%list = (before ++ e :: after)%list ->
  (before = l /\ e = x) \/ exists after', l = (before ++ e :: after')%list.
Proof.
  destruct after as [|y after _] using rev_ind; intros H.
  - apply app_inj_tail in H as [-> ->]. by left.
  - rewrite app_comm_cons, app_assoc in H. apply app_inj_tail in H as [-> _]. right. by eexists.
Qed.

(** ** Postconditions: what every run returns, whatever the replies *)
Fixpoint post {S A} (m : prog S A) (Q : A -> Prop) : Prop :=
  match m with
  | Done a => Q a
  | Act c k => forall r, post (k r) Q
  end.

Lemma post_bind {S A B} (m : prog S A) (k : A -> prog S B) (Q : A -> Prop) (R : B -> Prop) :
  post m Q -> (forall a, Q a -> post (k a) R) -> post (pbind m k) R.
Proof. induction m as [a|c k' IH]; simpl; intros Hm Hk; [by apply Hk|]. intros r. by apply IH. Qed.

Lemma post_true {S A} (m : prog S A) : post m (fun _ => True).
Proof. induction m; simpl; auto. Qed.

Lemma post_mono {S A} (m : prog S A) (Q R : A -> Prop) : post m Q -> (forall a, Q a -> R a) -> post m R.
Proof. induction m as [a|c k IH]; simpl; intros Hm HR; [by apply HR|]. intros r. by apply IH. Qed.

Lemma post_runs {S A} (m : prog S A) Q : post m Q -> forall t a, runs m t a -> Q a.
Proof.
  induction m as [b|c k IH]; simpl; intros Hm t a; [by intros [_ ->]|]. intros (r & t' & _ & H). by eapply IH.
Qed.

(** Of a body under a deadline, or with errors, what the value is. *)
Definition in_time_ok {A E} (Q : A -> Prop) (r : option (res A E)) : Prop :=
  match r with Some (Ok a) => Q a | _ => True end.

Lemma post_await {S A B E} (e : E) (m : prog S (awaited A)) (k : A -> prog S (option (res B E))) Q R :
  post m (in_time_ok Q) -> (forall a, Q a -> post (k a) (in_time_ok R)) -> post (await_bind e m k) (in_time_ok R).
Proof. intros Hm Hk. eapply post_bind; [exact Hm|]. intros [[a|[]|]|] H; simpl; try done. by apply Hk. Qed.

Lemma post_any {S A E} (m : prog S (option (res A E))) : post m (in_time_ok (fun _ => True)).
Proof. eapply post_mono; [apply post_true|]. by intros [[]|]. Qed.

Lemma post_await_any {S A B E} (e : E) (m : prog S (awaited A)) (k : A -> prog S (option (res B E))) R :
  (forall a, post (k a) (in_time_ok R)) -> post (await_bind e m k) (in_time_ok R).
Proof. intros Hk. eapply post_await; [apply post_any|]. intros a _. apply Hk. Qed.

Lemma post_in_time {S A E} (elapsed : E) (m : prog S (option (res A E))) Q :
  post m (in_time_ok Q) -> post (in_time elapsed m) (fun r => forall a, r = Ok a -> Q a).
Proof. intros Hm. eapply post_bind; [exact Hm|]. intros [[a|e|]|] H; simpl; try done. by intros ? [= <-]. Qed.

(** ** Calls justified by the calls before them

    [justly P before m Q]: after the calls [before], every call of [m]
    satisfies [P] of the calls made by then, and [Q] holds of all the calls
    and the value at the end. *)
Fixpoint justly {S A} (P : list (event S) -> call S -> Prop) (before : list (event S)) (m : prog S A)
    (Q : list (event S) -> A -> Prop) : Prop :=
  match m with
  | Done a => Q before a
  | Act c k => P before c /\ forall r, justly P (before ++ [existT c r])%list (k r) Q
  end.

Lemma justly_bind {S A B} P (m : prog S A) (k : A -> prog S B) Q : forall before,
  justly P before m (fun before a => justly P before (k a) Q) -> justly P before (pbind m k) Q.
Proof. induction m as [a|c k' IH]; intros before; simpl; [done|]. intros [H1 H2]. split; [done|]. intros r. by apply IH. Qed.

Lemma justly_mono {S A} P (m : prog S A) (Q R : list (event S) -> A -> Prop) : (forall t a, Q t a -> R t a) ->
  forall before, justly P before m Q -> justly P before m R.
Proof. intros HQ. induction m as [a|c k IH]; intros before; simpl; [apply HQ|]. intros [H1 H2]. split; [done|]. auto. Qed.

Lemma justly_runs {S A} P (m : prog S A) Q : forall done t a, justly P done m Q -> runs m t a ->
  Q (done ++ t)%list a /\
  forall before c r after, t = (before ++ existT c r :: after)%list -> P (done ++ before)%list c.
Proof.
  induction m as [b|c k IH]; intros done t a; simpl.
  - intros HQ [-> ->]. rewrite app_nil_r. split; [exact HQ|]. by intros [].
  - intros [Hc Hk] (r & t' & -> & Hr). destruct (IH _ _ _ _ (Hk r) Hr) as [HQ HP]. rewrite <- app_assoc in HQ. split; [exact HQ|].
    intros [|e before] c' r' after He.
    + rewrite app_nil_r. pose proof (f_equal (fun l => hd_error (map (@projT1 _ _) l)) He) as H. injection H as ->. exact Hc.
    + injection He as <- ->. specialize (HP before c' r' after eq_refl). by rewrite <- app_assoc in HP.
Qed.

(** ** Monitors

    [update] is what an observer notes of each call and its reply, and
    [allowed] which calls may be made by what it has noted. *)
Section Monitor.
Context {S : Signature} {St : Type} (update : St -> event S -> St) (allowed : St -> call S -> Prop).

Fixpoint monitored {A} (s : St) (m : prog S A) (Q : St -> A -> Prop) : Prop :=
  match m with
  | Done a => Q s a
  | Act c k => allowed s c /\ forall r, monitored (update s (existT c r)) (k r) Q
  end.

Lemma monitored_bind {A B} (m : prog S A) (k : A -> prog S B) (Q : St -> A -> Prop) R : forall s,
  monitored s m Q -> (forall s a, Q s a -> monitored s (k a) R) -> monitored s (pbind m k) R.
Proof.
  induction m as [a|c k' IH]; intros s; simpl; [auto|]. intros [H1 H2] Hk. split; [done|]. intros r. by apply IH.
Qed.

Lemma monitored_mono {A} (m : prog S A) (Q R : St -> A -> Prop) : (forall s a, Q s a -> R s a) ->
  forall s, monitored s m Q -> monitored s m R.
Proof. intros HQ. induction m as [a|c k IH]; intros s; simpl; [apply HQ|]. intros [H1 H2]. split; [done|]. auto. Qed.

Lemma monitored_runs {A} (m : prog S A) Q : forall s t a, monitored s m Q -> runs m t a ->
  Q (foldl update s t) a /\
  forall before c r after, t = (before ++ existT c r :: after)%list -> allowed (foldl update s before) c.
Proof.
  induction m as [b|c k IH]; intros s t a; simpl.
  - intros HQ [-> ->]. split; [exact HQ|]. by intros [].
  - intros [Hc Hk] (r & t' & -> & Hr). destruct (IH _ _ _ _ (Hk r) Hr) as [HQ HP]. split; [exact HQ|].
    intros [|e before] c' r' after He.
    + pose proof (f_equal (fun l => hd_error (map (@projT1 _ _) l)) He) as H. injection H as ->. exact Hc.
    + injection He as <- ->. exact (HP before c' r' after eq_refl).
Qed.
End Monitor.

(** ** Interpretation: each call of one component is a program of another *)
Fixpoint interp {S T A} (handle : forall c : call S, prog T (reply S c)) (m : prog S A) : prog T A :=
  match m with
  | Done a => Done a
  | Act c k => pbind (handle c) (fun r => interp handle (k r))
  end.

(** A property of a program and of all it can become. *)
Fixpoint everywhere {S A} (P : prog S A -> Prop) (m : prog S A) : Prop :=
  P m /\ match m with Done _ => True | Act c k => forall r, everywhere P (k r) end.

Lemma everywhere_here {S A} (P : prog S A -> Prop) m : everywhere P m -> P m.
Proof. destruct m; by intros []. Qed.

(** A property of every call a program can make. *)
Fixpoint only {S A} (P : call S -> Prop) (m : prog S A) : Prop :=
  match m with
  | Done _ => True
  | Act c k => P c /\ forall r, only P (k r)
  end.

Lemma only_bind {S A B} (P : call S -> Prop) (m : prog S A) (k : A -> prog S B) :
  only P m -> (forall a, only P (k a)) -> only P (pbind m k).
Proof. induction m as [a|c k' IH]; simpl; [auto|]. intros [H1 H2] Hk. split; auto. Qed.

Lemma only_runs {S A} (P : call S -> Prop) (m : prog S A) : only P m -> forall t a, runs m t a -> Forall (fun e => P (projT1 e)) t.
Proof.
  induction m as [b|c k IH]; simpl; [by intros _ t a [-> _]; constructor|].
  intros [Hc Hk] t a (r & t' & -> & Hr). constructor; [done|]. by eapply IH.
Qed.

Lemma only_interp_when {S T A} (handle : forall c : call S, prog T (reply S c)) (Q : call S -> Prop) (P : call T -> Prop) (m : prog S A) :
  only Q m -> (forall c, Q c -> only P (handle c)) -> only P (interp handle m).
Proof.
  induction m as [a|c k IH]; simpl; [done|]. intros [Hc Hk] Hh. apply only_bind; [by apply Hh|]. intros r. by apply IH.
Qed.

Lemma only_interp {S T A} (handle : forall c : call S, prog T (reply S c)) (P : call T -> Prop) (m : prog S A) :
  (forall c, only P (handle c)) -> only P (interp handle m).
Proof. intros Hh. induction m as [a|c k IH]; simpl; [done|]. by apply only_bind. Qed.
End Programs.
