(* ===== verification/PlatformCalls.v ===== *)
(** * The calls of [platformd]

    Every permit, bus, process and file operation of the daemon, with its
    replies.  An [awaited] reply is one that a surrounding [timeout] can cut
    off: [None] is the deadline passing before the reply. *)
From S2P Require Import Prelude Programs FileSystem.

Module PlatformCalls.
Import Programs.

(** The two semaphores of [struct Platform]. *)
Inductive Sem := MutationStarts | RemoteManagement.
#[export] Instance Sem_eq_dec : EqDecision Sem.
Proof. solve_decision. Defined.

(** A pipe of a child process read to its end: its bytes, and whether an I/O
    error ended it. *)
Record Pipe := { bytes : list Z; broken : bool }.

(** What [try_join!] of the two pipes and [wait] sees: each outcome, and the
    order in which they complete. *)
Inductive Stage := Stdout | Stderr | Wait.
Record Child := { stdout : Pipe; stderr : Pipe; exit : option bool; order : list Stage }.

Inductive PlatformCall :=
  | TryAcquire (s : Sem)
  | Release (s : Sem)
  | NewProxy (destination path interface : string)
  | LoadUnit (unit_name : string)
  | GetProperty (path interface name : string)
  | GetExitStatus (path : string)
  | GetInvocationID (path : string)
  | StartUnit (unit_name mode : string)
  | StopUnit (unit_name mode : string)
  | ListJobs
  | GetSystemState
  | GetFailedUnits
  | Sleep (milliseconds : Z)
  | AuthMember (member : string)
  | GetPendingPairing
  | GetNetworkStatus
  | SymlinkMetadata (directory name : string)
  | CurrentFingerprint
  | ReadToString (path : string)
  | UnameMachine
  | Spawn (program : string) (arguments : list string)
  | Join (limit : Z)
  | Kill
  | Choose.

Definition PlatformReply (c : PlatformCall) : Type :=
  match c with
  | TryAcquire _ | Choose => bool
  | Release _ | Kill => unit
  | NewProxy _ _ _ | AuthMember _ => awaited unit
  | LoadUnit _ | GetProperty _ _ _ | StartUnit _ _ | StopUnit _ _ | GetSystemState => awaited string
  | GetExitStatus _ | GetFailedUnits => awaited Z
  | GetInvocationID _ => awaited (list Z)
  | ListJobs => awaited (list string)
  | Sleep _ => awaited unit
  | GetPendingPairing => awaited (bool * string * Z)
  | GetNetworkStatus => awaited string
  | SymlinkMetadata _ _ => res unit FileSystem.IoError
  | CurrentFingerprint => res (option string) unit
  | ReadToString _ => option string
  | UnameMachine => option (list Z)
  | Spawn _ _ => bool
  | Join _ => option Child
  end.

Definition Platform : Signature := {| call := PlatformCall; reply := PlatformReply |}.

Definition ask (c : PlatformCall) : prog Platform (PlatformReply c) := perform (S:=Platform) c.

(** [let _permit = semaphore.try_acquire().map_err(|_| busy)?; body], with
    the permit dropped when [body] returns. *)
Definition with_permit {A E} (s : Sem) (busy : E) (body : prog Platform (res A E)) : prog Platform (res A E) :=
  pbind (ask (TryAcquire s)) (fun acquired : bool =>
    if acquired then pbind body (fun r => pbind (ask (Release s)) (fun _ => Done r)) else Done (Err busy)).

(** The bus names of systemd *)
Definition SYSTEMD_BUS : string := "org.freedesktop.systemd1".
Definition SYSTEMD_PATH : string := "/org/freedesktop/systemd1".
Definition SYSTEMD_MANAGER : string := "org.freedesktop.systemd1.Manager".
Definition SYSTEMD_UNIT : string := "org.freedesktop.systemd1.Unit".
Definition SYSTEMD_SERVICE : string := "org.freedesktop.systemd1.Service".
End PlatformCalls.
