(* ===== verification/PlatformRemote.v ===== *)
(** * The remote-management lifecycle ([platformd/src/remote.rs])

    The sequences over the trait [Backend], the production backend over
    systemd and the bus, and the enrollment URL. *)
From S2P Require Import Prelude Text IpAddr Protocol Programs FileSystem RemoteState PlatformCalls.

Module PlatformRemote.
Import Text IpAddr Protocol Programs PlatformCalls.
#[local] Open Scope prog_scope.

Definition ENABLE_UNIT : string := "sl-rm-enable.service".
Definition DISABLE_UNIT : string := "sl-rm-disable.service".
Definition ROTATE_UNIT : string := "sl-rm-rotate.service".
Definition CLEAR_RESET_UNIT : string := "sl-rm-clear-reset.service".
Definition REMOTED_UNIT : string := "sl-remoted.service".
Definition PORT : Z := 8443.
Definition POLL_INTERVAL : Z := 10.
Definition WORKER_TIMEOUT : Z := 30000.
Definition REMOTED_TIMEOUT : Z := 10000.
Definition AUTH_TIMEOUT : Z := 10000.
Definition AUTH_BUS : string := "org.signallayer.Auth1".
Definition AUTH_PATH : string := "/org/signallayer/Auth1".
Definition AUTH_INTERFACE : string := "org.signallayer.Auth1".
Definition PAIRING_ALPHABET : string := "0123456789ABCDEFGHJKMNPQRSTVWXYZ".

Inductive Marker := Enabled | ResetPending.

Module WorkerError.
Inductive t := Busy | Failed.
End WorkerError.

Inductive AuthCall := EnsurePendingPairing | CancelPendingPairing | ResetEnrollment.

Definition member (c : AuthCall) : string :=
  match c with
  | EnsurePendingPairing => "EnsurePendingPairing"
  | CancelPendingPairing => "CancelPendingPairing"
  | ResetEnrollment => "ResetEnrollment"
  end.

(** [trait Backend], and the permit each sequence takes *)
Inductive BackendCall :=
  | Acquire
  | Drop
  | MarkerExists (marker : Marker)
  | RunWorker (unit_name : string)
  | StartRemoted
  | StopRemoted
  | Auth (c : AuthCall)
  | PendingPairing
  | Network
  | Fingerprint.

Definition BackendReply (c : BackendCall) : Type :=
  match c with
  | Acquire => bool
  | Drop => unit
  | MarkerExists _ => res bool unit
  | RunWorker _ => res unit WorkerError.t
  | StartRemoted | StopRemoted | Auth _ => res unit unit
  | PendingPairing => res (bool * string * Z) unit
  | Network => res NetworkStatus unit
  | Fingerprint => res (option string) unit
  end.

Definition Backend : Signature := {| call := BackendCall; reply := BackendReply |}.
Definition backend (c : BackendCall) : prog Backend (BackendReply c) := perform (S:=Backend) c.

Definition busy : PlatformError.t := PlatformError.Busy "A remote-management operation is already in progress".
Definition unavailable : PlatformError.t :=
  PlatformError.RemoteManagementUnavailable "Remote management could not be controlled".
Definition auth_unavailable : PlatformError.t :=
  PlatformError.AuthUnavailable "The authentication service is unavailable".
Definition reset_incomplete : PlatformError.t := PlatformError.ResetIncomplete
  "A previous remote-management reset did not complete; re-enroll to repair it".

Definition worker_error (e : WorkerError.t) : PlatformError.t :=
  match e with
  | WorkerError.Busy => PlatformError.Busy "A remote-management worker is already running"
  | WorkerError.Failed => unavailable
  end.

Definition network_error : PlatformError.t :=
  PlatformError.NetworkUnavailable "NetworkManager status could not be observed or was invalid".

Definition marker (m : Marker) : prog Backend (res bool PlatformError.t) := or_error unavailable (backend (MarkerExists m)).
Definition auth (c : AuthCall) : prog Backend (res unit PlatformError.t) := or_error auth_unavailable (backend (Auth c)).
Definition run_worker (u : string) : prog Backend (res unit PlatformError.t) := mapped_err worker_error (backend (RunWorker u)).
Definition start_remoted : prog Backend (res unit PlatformError.t) := or_error unavailable (backend StartRemoted).
Definition stop_remoted : prog Backend (res unit PlatformError.t) := or_error unavailable (backend StopRemoted).

(** [let _permit = permit.try_acquire().map_err(|_| busy())?; body] *)
Definition holding {A : Type} (body : prog Backend (res A PlatformError.t)) : prog Backend (res A PlatformError.t) :=
  let! acquired := backend Acquire in
  if acquired : bool then
    let! r := body in
    do! backend Drop in
    Done r
  else Done (Err busy).

Definition enable : prog Backend (res unit PlatformError.t) := holding (
  let? pending := marker ResetPending in
  if pending : bool then Done (Err reset_incomplete)
  else
    let? _ := run_worker ENABLE_UNIT in
    let? _ := auth EnsurePendingPairing in
    start_remoted).

Definition disable : prog Backend (res unit PlatformError.t) := holding (
  let? _ := run_worker DISABLE_UNIT in
  let? _ := stop_remoted in
  auth CancelPendingPairing).

Definition reenroll : prog Backend (res unit PlatformError.t) := holding (
  let? _ := stop_remoted in
  let? _ := auth ResetEnrollment in
  let? _ := run_worker ROTATE_UNIT in
  let? enabled := marker Enabled in
  let? _ := (if enabled : bool then auth EnsurePendingPairing else Done (Ok tt)) in
  let? pending := marker ResetPending in
  let? _ := (if pending : bool then run_worker CLEAR_RESET_UNIT else Done (Ok tt)) in
  if enabled : bool then start_remoted else Done (Ok tt)).

Definition valid_pairing_code (code : string) : bool :=
  Nat.eqb (String.length code) 8 && forallb (fun b => existsb (Z.eqb b) (bytes_of PAIRING_ALPHABET)) (bytes_of code).

Definition eligible (a : IpAddr) : bool :=
  match a with
  | V4 bits => negb (is_loopback a) && negb (is_unspecified a) && negb (is_multicast a) && negb (is_v4_link_local bits)
  | V6 bits => negb (is_loopback a) && negb (is_unspecified a) && negb (is_multicast a)
      && negb (Z.land (segment bits 0) 65472 =? 65152)
  end.

Definition candidate (value : string) : option IpAddr := '(address, _) ← split_once 47 value; parse address.

Definition enrollment_url (network : NetworkStatus) : string :=
  match primary_connection network with
  | None => ""
  | Some primary =>
      let addresses := List.filter eligible (omap candidate (addresses primary)) in
      let chosen := match List.find is_ipv4 addresses with
                    | Some a => Some a
                    | None => List.find is_ipv6 addresses
                    end in
      match chosen with
      | Some (V4 _ as a) => "https://" +:+ display a +:+ ":" +:+ display_unsigned PORT +:+ "/"
      | Some (V6 _ as a) => "https://[" +:+ display a +:+ "]:" +:+ display_unsigned PORT +:+ "/"
      | None => ""
      end
  end.

Definition enrollment : prog Backend (res (string * string * string * Z) PlatformError.t) := holding (
  let? network := or_error network_error (backend Network) in
  let url := enrollment_url network in
  let? fingerprint := or_error unavailable (backend Fingerprint) in
  let fingerprint := match fingerprint with Some f => f | None => EmptyString end in
  let? (pending, code, expires_at) := or_error auth_unavailable (backend PendingPairing) in
  if pending : bool then
    if negb (valid_pairing_code code) || (expires_at =? 0) then Done (Err auth_unavailable)
    else Done (Ok (url, fingerprint, code, expires_at))
  else Done (Ok (url, fingerprint, EmptyString, 0))).

(** ** The production backend ([impl Backend for SystemBackend]) *)

Definition worker_succeeded (active_state result : string) : bool :=
  String.eqb active_state "inactive" && String.eqb result "success".

Definition idle (active_state : string) : bool :=
  String.eqb active_state "inactive" || String.eqb active_state "failed".

(** A job is known by its object path, the fifth field of the listing. *)
Definition job_pending (jobs : list string) (expected : string) : bool := existsb (fun job => String.eqb job expected) jobs.

Definition uncached (destination path interface : string) : prog Platform (awaited unit) := ask (NewProxy destination path interface).

(** [SystemBackend::unit]: the object path of the unit's proxies *)
Definition unit_proxies (name : string) : prog Platform (awaited string) :=
  await? _ := ask (NewProxy SYSTEMD_BUS SYSTEMD_PATH SYSTEMD_MANAGER) in
  await? path := ask (LoadUnit name) in
  await? _ := uncached SYSTEMD_BUS path SYSTEMD_UNIT in
  await? _ := uncached SYSTEMD_BUS path SYSTEMD_SERVICE in
  Done (Some (Ok path)).

Definition active_state (path : string) : prog Platform (awaited string) := ask (GetProperty path SYSTEMD_UNIT "ActiveState").

(** A loop that sleeps [POLL_INTERVAL] in each turn makes at most this many
    turns before a deadline of [limit] milliseconds. *)
Definition turns (limit : Z) : nat := Datatypes.S (Z.to_nat (limit / POLL_INTERVAL)).

(** [loop { if !job_pending(ListJobs) { break; } sleep }] *)
Fixpoint wait_for_job (fuel : nat) (job : string) : prog Platform (awaited unit) :=
  match fuel with
  | O => Done None
  | Datatypes.S fuel =>
      await? jobs := ask ListJobs in
      if negb (job_pending jobs job) then Done (Some (Ok tt))
      else await? _ := ask (Sleep POLL_INTERVAL) in wait_for_job fuel job
  end.

Definition system_run_worker (name : string) : prog Platform (res unit WorkerError.t) :=
  let! outcome := (
    await? path := unit_proxies name in
    await? active := active_state path in
    if negb (idle active) then Done (Some (Ok (Err WorkerError.Busy)))
    else
      await? job := ask (StartUnit name "fail") in
      await? _ := wait_for_job (turns WORKER_TIMEOUT) job in
      await? active := active_state path in
      await? result := ask (GetProperty path SYSTEMD_SERVICE "Result") in
      Done (Some (Ok (if worker_succeeded active result then Ok tt else Err WorkerError.Failed)))) in
  Done (match outcome with Some (Ok result) => result | _ => Err WorkerError.Failed end).

Fixpoint wait_active (fuel : nat) (path : string) : prog Platform (awaited bool) :=
  match fuel with
  | O => Done None
  | Datatypes.S fuel =>
      await? active := active_state path in
      if String.eqb active "active" then Done (Some (Ok true))
      else if String.eqb active "failed" then Done (Some (Ok false))
      else await? _ := ask (Sleep POLL_INTERVAL) in wait_active fuel path
  end.

Definition system_start_remoted : prog Platform (res unit unit) :=
  let! outcome := (
    await? path := unit_proxies REMOTED_UNIT in
    await? active := active_state path in
    if String.eqb active "active" then Done (Some (Ok true))
    else
      await? _ := ask (StartUnit REMOTED_UNIT "fail") in
      wait_active (turns REMOTED_TIMEOUT) path) in
  Done (match outcome with Some (Ok true) => Ok tt | _ => Err tt end).

Fixpoint wait_idle (fuel : nat) (path : string) : prog Platform (awaited unit) :=
  match fuel with
  | O => Done None
  | Datatypes.S fuel =>
      await? active := active_state path in
      if idle active then Done (Some (Ok tt))
      else await? _ := ask (Sleep POLL_INTERVAL) in wait_idle fuel path
  end.

Definition system_stop_remoted : prog Platform (res unit unit) :=
  in_time tt (
    await? path := unit_proxies REMOTED_UNIT in
    await? active := active_state path in
    if idle active then Done (Some (Ok tt))
    else
      await? _ := ask (StopUnit REMOTED_UNIT "replace") in
      wait_idle (turns REMOTED_TIMEOUT) path).

Definition system_auth (c : AuthCall) : prog Platform (res unit unit) :=
  in_time tt (
    await? _ := ask (NewProxy AUTH_BUS AUTH_PATH AUTH_INTERFACE) in
    ask (AuthMember (member c))).

Definition system_pending_pairing : prog Platform (res (bool * string * Z) unit) :=
  in_time tt (
    await? _ := ask (NewProxy AUTH_BUS AUTH_PATH AUTH_INTERFACE) in
    ask GetPendingPairing).

Definition STATE_DIR : string := "/var/lib/sl-remote-management".

Definition system_marker_exists (m : Marker) : prog Platform (res bool unit) :=
  let! r := ask (SymlinkMetadata STATE_DIR
    (match m with Enabled => RemoteState.ENABLED | ResetPending => RemoteState.RESET_PENDING end)) in
  Done (match r with Ok _ => Ok true | Err FileSystem.NotFound => Ok false | _ => Err tt end).

Section System.
(** [super::observe_network] *)
Context (observe_network : prog Platform (res NetworkStatus PlatformError.t)).

Definition system (c : BackendCall) : prog Platform (BackendReply c) :=
  match c with
  | Acquire => ask (TryAcquire RemoteManagement)
  | Drop => ask (Release RemoteManagement)
  | MarkerExists m => system_marker_exists m
  | RunWorker u => system_run_worker u
  | StartRemoted => system_start_remoted
  | StopRemoted => system_stop_remoted
  | Auth c => system_auth c
  | PendingPairing => system_pending_pairing
  | Network => or_error tt observe_network
  | Fingerprint => ask CurrentFingerprint
  end.
End System.
End PlatformRemote.
