(* ===== verification/Platform.v ===== *)
(** * The platform daemon ([platformd/src/main.rs])

    The methods of [org.signallayer.Platform1]: the status observation, the
    two deployment mutations and the reboot. *)
From S2P Require Import Prelude Text IpAddr Protocol Programs FileSystem RemoteState PlatformCalls PlatformRemote.

Module Platform.
Import Text IpAddr Protocol Programs PlatformCalls.
#[local] Open Scope prog_scope.

Definition OUTPUT_LIMIT : Z := 64 * 1024.
Definition BACKEND_TIMEOUT : Z := 15000.
Definition SYSTEMD_TIMEOUT : Z := 3000.
Definition NETWORK_TIMEOUT : Z := 3000.
Definition UPDATE_UNIT : string := "sl-update.service".
Definition ROLLBACK_UNIT : string := "sl-rollback.service".
Definition REBOOT_UNIT : string := "sl-reboot.service".
Definition NETWORK_OBSERVER_BUS : string := "org.signallayer.NetworkObserver1".
Definition NETWORK_OBSERVER_PATH : string := "/org/signallayer/NetworkObserver1".
Definition NETWORK_OBSERVER_INTERFACE : string := "org.signallayer.NetworkObserver1".

Record WorkerObservation := { active_state : string; result : string; exit_status : Z }.

(** ** Errors *)
Definition machine_error (message : string) : PlatformError.t := PlatformError.MachineUnavailable message.
Definition network_error : PlatformError.t :=
  PlatformError.NetworkUnavailable "NetworkManager status could not be observed or was invalid".
Definition update_unavailable : PlatformError.t :=
  PlatformError.UpdateUnavailable "The fixed update worker could not be controlled".
Definition rollback_unavailable : PlatformError.t :=
  PlatformError.RollbackUnavailable "The fixed rollback worker could not be controlled".
Definition reboot_unavailable : PlatformError.t :=
  PlatformError.RebootUnavailable "The fixed reboot worker could not be controlled".
Definition health_error : PlatformError.t :=
  PlatformError.HealthUnavailable "Systemd health properties could not be observed".
Definition invalid (message : string) : PlatformError.t := PlatformError.InvalidBackendData message.
Definition mutation_busy : PlatformError.t :=
  PlatformError.Busy "A deployment mutation start is already in progress".

(** ** Identifiers *)
Definition validated_hex_id (value : string) (length : nat) : option string :=
  let value := trim value in
  if Nat.eqb (String.length value) length && forallb is_lower_hex (bytes_of value)
     && existsb (fun b => negb (b =? 48)) (bytes_of value)
  then Some value else None.

Definition is_hyphen_position (i : nat) : bool := existsb (Nat.eqb i) [8; 13; 18; 23]%nat.

Definition validated_boot_id (value : string) : option string :=
  let value := trim value in
  if Nat.eqb (String.length value) 36
     && forallb (fun '(i, b) => if is_hyphen_position i then b =? 45 else is_lower_hex b)
          (combine (seq 0 (List.length (bytes_of value))) (bytes_of value))
     && existsb (fun b => negb (b =? 48) && negb (b =? 45)) (bytes_of value)
  then Some value else None.

Definition normalize_architecture (value : string) : option string :=
  let value := str_to_ascii_lowercase (trim value) in
  if is_empty value || Nat.ltb 64 (String.length value)
     || negb (forallb (fun b => is_ascii_alphanumeric b || (b =? 95) || (b =? 45)) (bytes_of value))
  then None
  else if String.eqb value "amd64" then Some "x86_64"%string
  else if String.eqb value "arm64" then Some "aarch64"%string
  else Some value.

(** ** The network report *)
Fixpoint strictly_sorted_unique (values : list string) : bool :=
  match values with
  | a :: (b :: _) as rest => match rest with b :: _ => String.ltb a b && strictly_sorted_unique rest | [] => true end
  | _ => true
  end.

Definition valid_address (value : string) : bool :=
  match split_once 47 value with
  | None => false
  | Some (address, prefix) =>
      if contains 47 prefix then false
      else match parse address with
      | None => false
      | Some address =>
          match parse_unsigned 255 prefix with
          | None => false
          | Some prefix =>
              (if is_ipv4 address then prefix <=? 32 else prefix <=? 128)
              && String.eqb (display address +:+ "/" +:+ display_unsigned prefix) value
          end
      end
  end.

Definition valid_gateway (value : string) : bool :=
  match parse value with Some a => String.eqb (display a) value | None => false end.

Definition printable_name (name : string) : bool :=
  negb (is_empty name) && Nat.leb (String.length name) 64
  && negb (existsb (fun c => is_control c || is_whitespace c) (chars name)).

Definition validate_network_status (status : NetworkStatus) : option NetworkStatus :=
  match primary_connection status with
  | None => Some status
  | Some primary =>
      if negb (printable_name (interface primary))
         || Nat.ltb 256 (List.length (addresses primary))
         || Nat.ltb 32 (List.length (default_gateways primary))
         || negb (strictly_sorted_unique (addresses primary))
         || negb (strictly_sorted_unique (default_gateways primary))
         || negb (forallb valid_address (addresses primary))
         || negb (forallb valid_gateway (default_gateways primary))
      then None
      else Some status
  end.

(** ** serde_json

    The parser and the accessors of [serde_json::Value], the deserializer of
    the observer's reply and the serializer of the status. *)
Class Json := {
  Value : Type;
  from_slice : list Z -> option Value;
  pointer : Value -> list string -> option Value;
  get_key : Value -> string -> option Value;
  as_str : Value -> option string;
  as_bool : Value -> option bool;
  as_u64 : Value -> option Z;
  is_null : Value -> bool;
  is_object : Value -> bool;
  network_from_str : string -> option NetworkStatus;
  status_to_string : Status -> option string
}.

Section Daemon.
Context {J : Json}.

Record MutationState := { mutation_staged : bool; mutation_retained_rollback : bool; mutation_rollback_queued : bool }.

Definition is_str (v : option Value) (expected : string) : bool :=
  match v ≫= as_str with Some s => String.eqb s expected | None => false end.

Definition mutation_state_from_backend (backend : list Z) : res MutationState PlatformError.t := (
  let? value := ok_or (from_slice backend) (invalid "bootc status is not valid JSON") in
  if negb (is_str (get_key value "apiVersion") "org.containers.bootc/v1") || negb (is_str (get_key value "kind") "BootcHost")
  then Err (invalid "Unsupported bootc status schema")
  else
    let? status := ok_or (match get_key value "status" with
                          | Some status => if is_object status then Some status else None
                          | None => None end) (invalid "Bootc deployment status is missing") in
    let? staged := ok_or (get_key status "staged") (invalid "Staged deployment observation is missing") in
    let? rollback := ok_or (get_key status "rollback") (invalid "Rollback observation is missing") in
    let? queued := ok_or (get_key status "rollbackQueued" ≫= as_bool)
      (invalid "Rollback queue observation is missing or invalid") in
    Ok {| mutation_staged := negb (is_null staged); mutation_retained_rollback := negb (is_null rollback);
          mutation_rollback_queued := queued |})%rust.

(** ** Workers *)
Definition worker_running (worker : WorkerObservation) : bool :=
  negb (String.eqb (active_state worker) "inactive" || String.eqb (active_state worker) "failed").

(** Inside a [timeout], where the error of a call is a [zbus::Error]. *)
Definition unit_path (name : string) : prog PlatformCalls.Platform (awaited string) := ask (LoadUnit name).

Definition observe_worker (unit_name : string) : prog PlatformCalls.Platform (res WorkerObservation unit) :=
  in_time tt (
    await? _ := ask (NewProxy SYSTEMD_BUS SYSTEMD_PATH SYSTEMD_MANAGER) in
    await? path := unit_path unit_name in
    await? _ := ask (NewProxy SYSTEMD_BUS path SYSTEMD_UNIT) in
    await? _ := ask (NewProxy SYSTEMD_BUS path SYSTEMD_SERVICE) in
    await? active := ask (GetProperty path SYSTEMD_UNIT "ActiveState") in
    await? result := ask (GetProperty path SYSTEMD_SERVICE "Result") in
    await? status := ask (GetExitStatus path) in
    Done (Some (Ok {| active_state := active; result := result; exit_status := status |}))).

(** One turn per ten milliseconds until the deadline. *)
Definition start_turns : nat := Datatypes.S (Z.to_nat (SYSTEMD_TIMEOUT / 10)).

Definition zbus {S A} (m : prog S (awaited A)) : prog S (option (res A PlatformError.t)) :=
  await_bind PlatformError.ZBus m (fun a => Done (Some (Ok a))).

Notation "'zbus?' x ':=' m 'in' k" := (await_bind PlatformError.ZBus m (fun x => k))
  (at level 10, x pattern, m at level 100, k at level 200) : prog_scope.

(** The loop of [start_worker]: until the unit is seen active, or invoked anew. *)
Fixpoint wait_started (fuel : nat) (path : string) (previous_invocation : list Z) :
    prog PlatformCalls.Platform (option (res unit PlatformError.t)) :=
  match fuel with
  | O => Done None
  | Datatypes.S fuel =>
      zbus? active := ask (GetProperty path SYSTEMD_UNIT "ActiveState") in
      zbus? invocation := ask (GetInvocationID path) in
      if negb (String.eqb active "inactive" || String.eqb active "failed")
         || negb (bool_decide (invocation = previous_invocation))
      then Done (Some (Ok tt))
      else zbus? _ := ask (Sleep 10) in wait_started fuel path previous_invocation
  end.

Definition start_worker (unit_name : string) (unavailable : PlatformError.t) :
    prog PlatformCalls.Platform (res unit PlatformError.t) :=
  let! outcome := (
    zbus? _ := ask (NewProxy SYSTEMD_BUS SYSTEMD_PATH SYSTEMD_MANAGER) in
    zbus? path := unit_path unit_name in
    zbus? _ := ask (NewProxy SYSTEMD_BUS path SYSTEMD_UNIT) in
    zbus? active := ask (GetProperty path SYSTEMD_UNIT "ActiveState") in
    if negb (String.eqb active "inactive") && negb (String.eqb active "failed")
    then Done (Some (Err (PlatformError.Busy "The requested deployment worker is already running")))
    else
      zbus? previous_invocation := ask (GetInvocationID path) in
      zbus? _ := ask (StartUnit unit_name "fail") in
      wait_started start_turns path previous_invocation) in
  Done (match outcome with
        | None => Err unavailable
        | Some (Err (PlatformError.Busy m)) => Err (PlatformError.Busy m)
        | Some (Err _) => Err unavailable
        | Some r => r
        end).

(** ** bootc *)

(** [bounded_output]: the pipe is read up to one byte past the limit, so an
    I/O error after that is not seen. *)
Definition bounded_output (p : Pipe) : res (list Z) PlatformError.t :=
  let output := firstn (Z.to_nat (OUTPUT_LIMIT + 1)) (bytes p) in
  if broken p && (Z.of_nat (List.length (bytes p)) <=? OUTPUT_LIMIT)
  then Err (PlatformError.BackendUnavailable "bootc status could not be read")
  else if OUTPUT_LIMIT <? Z.of_nat (List.length output) then Err (invalid "bootc status exceeded the output limit")
  else Ok output.

Definition wait_exit (exit : option bool) : res bool PlatformError.t :=
  match exit with
  | Some success => Ok success
  | None => Err (PlatformError.BackendUnavailable "bootc status could not be read")
  end.

(** The error of a stage of [try_join!], if it fails. *)
Definition stage_error (child : Child) (stage : Stage) : option PlatformError.t :=
  let error {A} (r : res A PlatformError.t) := match r with Err e => Some e | _ => None end in
  match stage with
  | Stdout => error (bounded_output (stdout child))
  | Stderr => error (bounded_output (stderr child))
  | Wait => error (wait_exit (exit child))
  end.

(** [try_join!]: the first failure in the order of completion. *)
Definition joined (child : Child) : res (list Z * bool) PlatformError.t :=
  match omap (stage_error child) (order child), bounded_output (stdout child), bounded_output (stderr child), exit child with
  | e :: _, _, _, _ => Err e
  | [], Ok output, Ok _, Some success => Ok (output, success)
  | [], Err e, _, _ | [], _, Err e, _ => Err e
  | _, _, _, _ => Err (PlatformError.BackendUnavailable "bootc status could not be read")
  end.

Definition backend_command (program : string) (arguments : list string) (limit : Z) :
    prog PlatformCalls.Platform (res (list Z) PlatformError.t) :=
  let! spawned := ask (Spawn program arguments) in
  if negb spawned then Done (Err (PlatformError.BackendUnavailable "The bootc status backend could not be started"))
  else
    let! result := ask (Join limit) in
    match result with
    | None => do! ask Kill in Done (Err (PlatformError.BackendTimeout "bootc status exceeded its deadline"))
    | Some child =>
        match joined child with
        | Err e => do! ask Kill in Done (Err e)
        | Ok (output, success) =>
            if negb success
            then Done (Err (PlatformError.BackendUnavailable "bootc status returned an unsuccessful exit status"))
            else Done (Ok output)
        | Panic => Done Panic
        end
    end.

Definition observe_mutation_state : prog PlatformCalls.Platform (res MutationState PlatformError.t) :=
  let? backend := backend_command "/usr/bin/bootc" ["status"; "--json"]%string BACKEND_TIMEOUT in
  Done (mutation_state_from_backend backend).

(** ** The mutations *)
Definition start_update : prog PlatformCalls.Platform (res unit PlatformError.t) := with_permit MutationStarts mutation_busy (
  let? rollback := or_error rollback_unavailable (observe_worker ROLLBACK_UNIT) in
  if worker_running rollback then Done (Err (PlatformError.Busy "The rollback worker is already running"))
  else
    let? state := observe_mutation_state in
    if mutation_rollback_queued state
    then Done (Err (PlatformError.Conflict "A rollback is already queued for the next boot"))
    else start_worker UPDATE_UNIT update_unavailable).

Definition start_rollback : prog PlatformCalls.Platform (res unit PlatformError.t) := with_permit MutationStarts mutation_busy (
  let? update := or_error update_unavailable (observe_worker UPDATE_UNIT) in
  if worker_running update then Done (Err (PlatformError.Busy "The update worker is already running"))
  else
    let? state := observe_mutation_state in
    if mutation_staged state
    then Done (Err (PlatformError.Conflict "An unapplied update is staged; rollback selection was not changed"))
    else if negb (mutation_retained_rollback state)
    then Done (Err (PlatformError.RollbackUnavailable "No retained rollback deployment exists"))
    else if mutation_rollback_queued state
    then Done (Err (PlatformError.Conflict "A rollback is already queued for the next boot"))
    else start_worker ROLLBACK_UNIT rollback_unavailable).

Definition request_reboot (observe : string -> prog PlatformCalls.Platform (res WorkerObservation unit))
    (start : prog PlatformCalls.Platform (res unit PlatformError.t)) :
    prog PlatformCalls.Platform (res unit PlatformError.t) := with_permit MutationStarts mutation_busy (
  let? update := or_error reboot_unavailable (observe UPDATE_UNIT) in
  let? rollback := or_error reboot_unavailable (observe ROLLBACK_UNIT) in
  if worker_running update
  then Done (Err (PlatformError.Conflict "The update worker is running; reboot was not requested"))
  else if worker_running rollback
  then Done (Err (PlatformError.Conflict "The rollback worker is running; reboot was not requested"))
  else
    let? reboot := or_error reboot_unavailable (observe REBOOT_UNIT) in
    if worker_running reboot then Done (Err (PlatformError.Busy "The reboot worker is already running"))
    else start).

Definition start_reboot : prog PlatformCalls.Platform (res unit PlatformError.t) :=
  request_reboot observe_worker (start_worker REBOOT_UNIT reboot_unavailable).

(** ** The status *)
Definition is_ascii_hexdigit (b : Z) : bool := is_ascii_digit b || in_range 97 102 b || in_range 65 70 b.

Definition hex_digest (text : string) : bool :=
  Nat.eqb (String.length text) 64 && forallb is_ascii_hexdigit (bytes_of text).

Definition filter_str (f : string -> bool) (o : option string) : option string :=
  match o with Some s => if f s then Some s else None | None => None end.

Definition no_control (s : string) : bool := negb (existsb is_control (chars s)).

Definition sha256_digest (s : string) : bool :=
  match strip_prefix "sha256:" s with Some digest => hex_digest digest | None => false end.

Definition deployment (value : Value) : res Deployment PlatformError.t := (
  let? checksum := ok_or (filter_str hex_digest (pointer value ["ostree"; "checksum"]%string ≫= as_str))
    (invalid "Deployment identity is missing or invalid") in
  let? serial := ok_or (pointer value ["ostree"; "deploySerial"]%string ≫= as_u64)
    (invalid "Deployment serial is missing or invalid") in
  let? image := ok_or (get_key value "image") (invalid "Deployment image observation is missing") in
  let? (image_reference, image_digest) :=
    (if is_null image then Ok (None, None)
     else
       let? reference := ok_or
         (filter_str (fun s => negb (is_empty s) && no_control s) (pointer image ["image"; "image"]%string ≫= as_str))
         (invalid "Image reference is missing or invalid") in
       let? digest := ok_or (get_key image "imageDigest") (invalid "Image digest observation is missing") in
       let? digest := (if is_null digest then Ok None
                       else map_ok Some (ok_or (filter_str sha256_digest (as_str digest)) (invalid "Image digest is invalid"))) in
       Ok (Some reference, digest)) in
  Ok {| deployment_id := checksum +:+ "." +:+ display_unsigned serial;
        image_reference := image_reference; image_digest := image_digest |})%rust.

(** [strip_prefix('""')] and [strip_suffix('""')], and the filter of a release value *)
Definition quote : Z := 34.
Definition unquoted (value : string) : option string :=
  match strip_prefix (string_of [quote]) value with
  | Some value =>
      filter_str (fun v => negb (is_empty v) && negb (contains quote v) && no_control v)
        (strip_suffix (char_of quote) value)
  | None => None
  end.

(** The loop over the lines of the release file. *)
Fixpoint release_fields (fields : gmap string string) (release : list string) : res (gmap string string) PlatformError.t :=
  match release with
  | [] => Ok fields
  | line :: release => (
      let? (key, value) := ok_or (split_once 61 line)
        (PlatformError.MetadataUnavailable "Invalid image release metadata") in
      let? value := ok_or (unquoted value) (PlatformError.MetadataUnavailable "Invalid image release metadata value") in
      match fields !! key with
      | Some _ => Err (PlatformError.MetadataUnavailable "Duplicate image release metadata field")
      | None => release_fields (<[key := value]> fields) release
      end)%rust
  end.

Definition required (fields : gmap string string) (key : string) : res string PlatformError.t :=
  ok_or (fields !! key) (PlatformError.MetadataUnavailable ("Image release field " +:+ key +:+ " is missing")).

Definition optional (fields : gmap string string) (key : string) : option string :=
  filter_str (fun value => negb (String.eqb value "unknown")) (fields !! key).

(** The result of a worker as the failure message shows it. *)
Definition shown_result (worker : WorkerObservation) : string :=
  if forallb (fun b => is_ascii_alphanumeric b || (b =? 45)) (bytes_of (result worker)) then result worker else "failed".

Definition worker_failure (what : string) (worker : WorkerObservation) : WorkerFailure := {|
  code := "WorkerFailed";
  message := "The " +:+ what +:+ " worker failed (" +:+ shown_result worker +:+ ", status "
    +:+ display_signed (exit_status worker) +:+ ")"
|}.

Definition worker_failed (worker : WorkerObservation) : bool :=
  String.eqb (active_state worker) "failed" || negb (String.eqb (result worker) "success").

Definition rollback_from_observations (rollback_queued : bool) (worker : WorkerObservation) : RollbackStatus :=
  let '(state, failure) :=
    if worker_running worker then (RollbackState.Running, None)
    else if worker_failed worker then (RollbackState.Failed, Some (worker_failure "rollback" worker))
    else if rollback_queued then (RollbackState.Queued, None)
    else (RollbackState.Idle, None) in
  {| rollback_state := state; rollback_reboot_required := rollback_queued; rollback_failure := failure |}.

Definition update_from_observations (booted : Deployment) (staged : option Deployment) (staged_queued : bool)
    (worker : WorkerObservation) : UpdateStatus :=
  let staged_differs := match staged with
    | Some d => negb (String.eqb (deployment_id d) (deployment_id booted)) | None => false end in
  let '(state, failure) :=
    if worker_running worker then (UpdateState.Running, None)
    else if worker_failed worker then (UpdateState.Failed, Some (worker_failure "update" worker))
    else if staged_differs && staged_queued then (UpdateState.Staged, None)
    else (UpdateState.Idle, None) in
  {| update_state := state; staged := staged; update_reboot_required := staged_differs && staged_queued;
     update_failure := failure |}.

Definition status_from_observations (release : string) (backend : list Z) (machine : MachineStatus)
    (network : NetworkStatus) (health : Health) (update_worker rollback_worker : WorkerObservation) :
    res Status PlatformError.t := (
  let? fields := release_fields ∅ (List.filter (fun line => negb (is_empty (trim line))) (lines release)) in
  let? value := ok_or (from_slice backend) (invalid "bootc status is not valid JSON") in
  if negb (is_str (get_key value "apiVersion") "org.containers.bootc/v1") || negb (is_str (get_key value "kind") "BootcHost")
  then Err (invalid "Unsupported bootc status schema")
  else
    let? booted := ok_or (match pointer value ["status"; "booted"]%string with
                          | Some v => if is_object v then Some v else None
                          | None => None end) (invalid "No booted deployment was observed") in
    let? booted := deployment booted in
    let? staged_value := ok_or (pointer value ["status"; "staged"]%string) (invalid "Staged deployment observation is missing") in
    let? (staged, staged_queued) :=
      (if is_null staged_value then Ok (None, false)
       else
         let? download_only := ok_or (get_key staged_value "downloadOnly" ≫= as_bool)
           (invalid "Staged deployment mode is missing or invalid") in
         let? staged := deployment staged_value in
         Ok (Some staged, negb download_only)) in
    let? rollback := ok_or (pointer value ["status"; "rollback"]%string) (invalid "Rollback observation is missing") in
    let? retained_rollback := (if is_null rollback then Ok None else map_ok Some (deployment rollback)) in
    let? rollback_queued := ok_or (pointer value ["status"; "rollbackQueued"]%string ≫= as_bool)
      (invalid "Rollback queue observation is missing or invalid") in
    let update := update_from_observations booted staged staged_queued update_worker in
    let rollback := rollback_from_observations rollback_queued rollback_worker in
    let? product := required fields "NAME" in
    let? version := required fields "VERSION" in
    let? platform_api_version := required fields "PLATFORM_API_VERSION" in
    Ok {| schema_version := SCHEMA_VERSION; product := product; version := version;
          platform_api_version := platform_api_version;
          source_revision := optional fields "SOURCE_REVISION"; build_id := optional fields "BUILD_ID";
          machine := machine; network := network; booted := booted; retained_rollback := retained_rollback;
          update := update; rollback := rollback; health := health |})%rust.

Definition observed_health (system_state : string) (failed_units : Z) : Health := {|
  health_state := if String.eqb system_state "running" && (failed_units =? 0) then HealthState.Healthy else HealthState.Degraded;
  system_state := system_state;
  failed_units := failed_units
|}.

(** ** The observation *)
Definition observe_machine : prog PlatformCalls.Platform (res MachineStatus PlatformError.t) :=
  let! machine_id := ask (ReadToString "/etc/machine-id") in
  let? machine_id := Done (ok_or (machine_id ≫= fun value => validated_hex_id value 32)
    (machine_error "The system machine ID is unavailable or invalid")) in
  let! boot_id := ask (ReadToString "/proc/sys/kernel/random/boot_id") in
  let? boot_id := Done (ok_or (boot_id ≫= validated_boot_id)
    (machine_error "The kernel boot ID is unavailable or invalid")) in
  let! machine := ask UnameMachine in
  match machine with
  | None => Done (Err (machine_error "The running kernel architecture is unavailable"))
  | Some machine =>
      let? architecture := Done (ok_or (from_utf8 machine ≫= normalize_architecture)
        (machine_error "The running kernel architecture is invalid")) in
      Done (Ok {| machine_id := machine_id; architecture := architecture; boot_id := boot_id |})
  end.

Definition observe_network : prog PlatformCalls.Platform (res NetworkStatus PlatformError.t) :=
  or_error network_error (in_time tt (
    await? _ := ask (NewProxy NETWORK_OBSERVER_BUS NETWORK_OBSERVER_PATH NETWORK_OBSERVER_INTERFACE) in
    await? json := ask GetNetworkStatus in
    Done (Some (ok_or (network_from_str json ≫= validate_network_status) tt)))).

Definition observe_status : prog PlatformCalls.Platform (res string PlatformError.t) :=
  let? update_worker := or_error update_unavailable (observe_worker UPDATE_UNIT) in
  let? rollback_worker := or_error rollback_unavailable (observe_worker ROLLBACK_UNIT) in
  let! release := ask (ReadToString "/usr/lib/signallayer/release") in
  let? release := Done (ok_or release (PlatformError.MetadataUnavailable "Image release metadata is unreadable")) in
  let? machine := observe_machine in
  let? (backend, network) := try_join (ask Choose)
    (backend_command "/usr/bin/bootc" ["status"; "--json"]%string BACKEND_TIMEOUT) observe_network in
  let! manager := ask (NewProxy SYSTEMD_BUS SYSTEMD_PATH SYSTEMD_MANAGER) in
  let? _ := Done (match manager with Some (Ok _) => Ok tt | _ => Err health_error end) in
  let? health := or_error health_error (in_time tt (
    await? state := ask GetSystemState in
    await? failed := ask GetFailedUnits in
    Done (Some (Ok (observed_health state failed))))) in
  let? status := Done (status_from_observations release backend machine network health update_worker rollback_worker) in
  Done (ok_or (status_to_string status) (invalid "Status serialization failed")).

(** ** The remote-management methods *)
Definition on_system {A : Type} (m : prog PlatformRemote.Backend A) : prog PlatformCalls.Platform A :=
  interp (S:=PlatformRemote.Backend) (PlatformRemote.system observe_network) m.

Definition enable_remote_management := on_system PlatformRemote.enable.
Definition disable_remote_management := on_system PlatformRemote.disable.
Definition reenroll_remote_management := on_system PlatformRemote.reenroll.
Definition get_remote_management_enrollment := on_system PlatformRemote.enrollment.
End Daemon.
End Platform.
