(* ===== verification/PlatformRemoteProps.v ===== *)
(** * What the remote-management sequences do *)
From S2P Require Import Prelude Protocol Programs PlatformCalls PlatformRemote.

Module PlatformRemoteProps.
Import Protocol Programs PlatformCalls PlatformRemote.

(** A call to the backend with its reply. *)
Inductive Step :=
  | Took | Refused | Dropped
  | Checked (m : Marker) (present : bool)
  | Ran (unit_name : string)
  | Started | Stopped
  | Authenticated (c : AuthCall)
  | Failed (c : BackendCall) (e : PlatformError.t)
  | Unwound
  | Unplanned.

Definition outcome {A E} (r : res A E) (c : BackendCall) (fine : A -> Step) (error : E -> PlatformError.t) : Step :=
  match r with Ok a => fine a | Err e => Failed c (error e) | Panic => Unwound end.

Definition step (e : event Backend) : Step :=
  let '(existT c r) := e in
  match c return BackendReply c -> Step with
  | Acquire => fun acquired => if acquired then Took else Refused
  | Drop => fun _ => Dropped
  | MarkerExists m => fun r => outcome r (MarkerExists m) (Checked m) (fun _ => unavailable)
  | RunWorker u => fun r => outcome r (RunWorker u) (fun _ => Ran u) worker_error
  | StartRemoted => fun r => outcome r StartRemoted (fun _ => Started) (fun _ => unavailable)
  | StopRemoted => fun r => outcome r StopRemoted (fun _ => Stopped) (fun _ => unavailable)
  | Auth c => fun r => outcome r (Auth c) (fun _ => Authenticated c) (fun _ => auth_unavailable)
  | _ => fun _ => Unplanned
  end r.

(** The call a step of a plan makes. *)
Definition attempted (s : Step) : option BackendCall :=
  match s with
  | Checked m _ => Some (MarkerExists m)
  | Ran u => Some (RunWorker u)
  | Started => Some StartRemoted
  | Stopped => Some StopRemoted
  | Authenticated c => Some (Auth c)
  | _ => None
  end.

(** A plan carried out to its end, or up to the step that failed. *)
Definition carried_out {A} (plan taken : list Step) (final r : res A PlatformError.t) : Prop :=
  taken = plan /\ r = final \/
  exists before s after, plan = before ++ s :: after /\
    ((exists c e, attempted s = Some c /\ taken = before ++ [Failed c e] /\ r = Err e) \/
     taken = before ++ [Unwound] /\ r = Panic).

Definition enable_plan (pending : bool) : list Step :=
  Checked ResetPending pending ::
  if pending then [] else [Ran ENABLE_UNIT; Authenticated EnsurePendingPairing; Started].

Definition disable_plan : list Step := [Ran DISABLE_UNIT; Stopped; Authenticated CancelPendingPairing].

Definition reenroll_plan (enabled pending : bool) : list Step :=
  [Stopped; Authenticated ResetEnrollment; Ran ROTATE_UNIT; Checked Enabled enabled] ++
  (if enabled then [Authenticated EnsurePendingPairing] else []) ++
  [Checked ResetPending pending] ++
  (if pending then [Ran CLEAR_RESET_UNIT] else []) ++
  (if enabled then [Started] else []).

(** What a method does: nothing when the permit is taken; otherwise a plan,
    between taking and dropping the permit. *)
Definition follows {A} (t : list (event Backend)) (r : res A PlatformError.t)
    (planned : list Step -> res A PlatformError.t -> Prop) : Prop :=
  map step t = [Refused] /\ r = Err busy \/
  exists taken, map step t = Took :: taken ++ [Dropped] /\ planned taken r.

Lemma holding_follows {A} (body : prog Backend (res A PlatformError.t)) planned t r :
  (forall t r, runs body t r -> planned (map step t) r) ->
  runs (holding body) t r -> follows t r planned.
Proof.
  intros Hb H. simpl in H. destruct H as (acquired & t1 & -> & H). destruct acquired; simpl in H.
  - apply runs_bind in H as (t2 & b & t3 & -> & Hr & H). destruct H as ([] & t4 & -> & -> & ->).
    right. exists (map step t2). simpl. rewrite map_app. split; [done|]. by apply Hb.
  - destruct H as [-> ->]. by left.
Qed.

(** The first step of a plan is taken, or stops it. *)
Lemma carried_done {A} (final : res A PlatformError.t) : carried_out [] [] final final.
Proof. by left. Qed.

Lemma carried_step {A} s plan taken (final r : res A PlatformError.t) :
  carried_out plan taken final r -> carried_out (s :: plan) (s :: taken) final r.
Proof.
  intros [[-> ->]|(before & s' & after & -> & [(c & e & H1 & -> & ->)|[-> ->]])]; [by left|right; exists (s :: before), s', after..].
  - split; [done|]. left. by exists c, e.
  - split; [done|]. by right.
Qed.

Lemma carried_failure {A} s plan c e (final : res A PlatformError.t) : attempted s = Some c ->
  carried_out (s :: plan) [Failed c e] final (Err e).
Proof. intros H. right. exists [], s, plan. split; [done|]. left. by exists c, e. Qed.

Lemma carried_panic {A} s plan (final : res A PlatformError.t) : carried_out (s :: plan) [Unwound] final Panic.
Proof. right. exists [], s, plan. split; [done|]. by right. Qed.

(** Takes the next reply of a run: it goes on, or stops there. *)
Ltac next_reply H :=
  simpl in H; let x := fresh "x" in let t := fresh "t" in
  destruct H as (x & t & -> & H); destruct x as [x|x|]; simpl in H.
Ltac stops H := destruct H as [-> ->]; first [by apply carried_failure|apply carried_panic].

Lemma enable_body t r :
  runs (let? pending := marker ResetPending in
        if pending : bool then Done (Err reset_incomplete)
        else let? _ := run_worker ENABLE_UNIT in let? _ := auth EnsurePendingPairing in start_remoted)%prog t r ->
  exists pending, carried_out (enable_plan pending) (map step t) (if pending then Err reset_incomplete else Ok tt) r.
Proof.
  intros H. next_reply H; [|exists false; stops H..]. exists x. destruct x.
  { destruct H as [-> ->]. by apply carried_step, carried_done. }
  apply carried_step. next_reply H; [|stops H..].
  apply carried_step. next_reply H; [|stops H..].
  apply carried_step. next_reply H; [|stops H..]. destruct H as [-> ->]. destruct x1. by apply carried_step, carried_done.
Qed.

Lemma disable_body t r :
  runs (let? _ := run_worker DISABLE_UNIT in let? _ := stop_remoted in auth CancelPendingPairing)%prog t r ->
  carried_out disable_plan (map step t) (Ok tt) r.
Proof.
  intros H. unfold disable_plan. do 2 (next_reply H; [|stops H..]; apply carried_step).
  next_reply H; [|stops H..]. destruct H as [-> ->]. destruct x1. by apply carried_step, carried_done.
Qed.

Lemma reenroll_body t r :
  runs (let? _ := stop_remoted in
        let? _ := auth ResetEnrollment in
        let? _ := run_worker ROTATE_UNIT in
        let? enabled := marker Enabled in
        let? _ := (if enabled : bool then auth EnsurePendingPairing else Done (Ok tt)) in
        let? pending := marker ResetPending in
        let? _ := (if pending : bool then run_worker CLEAR_RESET_UNIT else Done (Ok tt)) in
        if enabled : bool then start_remoted else Done (Ok tt))%prog t r ->
  exists enabled pending, carried_out (reenroll_plan enabled pending) (map step t) (Ok tt) r.
Proof.
  intros H. unfold reenroll_plan.
  next_reply H; [|exists false, false; stops H..]. next_reply H; [|exists false, false; simpl; apply carried_step; stops H..].
  next_reply H; [|exists false, false; simpl; do 2 apply carried_step; stops H..].
  next_reply H; [|exists false, false; simpl; do 3 apply carried_step; stops H..]. exists x2.
  match type of H with runs _ ?l _ => set (rest := l) in * end. clearbody rest.
  enough (exists pending, carried_out ((if x2 then [Authenticated EnsurePendingPairing] else []) ++
    [Checked ResetPending pending] ++ (if pending then [Ran CLEAR_RESET_UNIT] else []) ++ (if x2 then [Started] else []))
    (map step rest) (Ok tt) r) as [pending Hp].
  { exists pending. simpl. by do 4 apply carried_step. }
  assert (forall t, runs (if x2 : bool then start_remoted else Done (Ok tt)) t r ->
    carried_out (if x2 then [Started] else []) (map step t) (Ok tt) r) as Hend.
  { intros t' H'. destruct x2; [|by destruct H' as [-> ->]; apply carried_done].
    next_reply H'; [|stops H'..]. destruct H' as [-> ->].
    match goal with u : () |- _ => destruct u end. by apply carried_step, carried_done. }
  assert (forall t, runs (let? pending := marker ResetPending in
      let? _ := (if pending : bool then run_worker CLEAR_RESET_UNIT else Done (Ok tt)) in
      if x2 : bool then start_remoted else Done (Ok tt))%prog t r ->
    exists pending, carried_out ([Checked ResetPending pending] ++ (if pending then [Ran CLEAR_RESET_UNIT] else []) ++
      (if x2 then [Started] else [])) (map step t) (Ok tt) r) as Hmid.
  { intros t' H'. next_reply H'; [|exists false; stops H'..].
    match type of H' with context [if ?b then run_worker _ else _] => exists b; simpl; apply carried_step; destruct b end; [|by apply Hend]. next_reply H'; [|stops H'..]. simpl. by apply carried_step, Hend. }
  destruct x2; [|by apply Hmid]. next_reply H; [|exists false; stops H..].
  apply Hmid in H as [pending H]. exists pending. by apply carried_step.
Qed.

(** C16. Each remote-management method is refused when the permit is taken,
    and otherwise carries out its plan under the permit, up to the first step
    that fails, whose error it returns.  Enabling runs the worker only when no
    reset is pending; re-enrolling clears the pending reset only after the
    listener is stopped, the enrollment reset, the identity rotated and, when
    enabled, a pairing prepared, and starts the listener last. *)
Theorem remote_sequences :
  (forall t r, runs enable t r -> follows t r (fun taken r => exists pending,
     carried_out (enable_plan pending) taken (if pending then Err reset_incomplete else Ok tt) r)) /\
  (forall t r, runs disable t r -> follows t r (fun taken r => carried_out disable_plan taken (Ok tt) r)) /\
  (forall t r, runs reenroll t r -> follows t r (fun taken r => exists enabled pending,
     carried_out (reenroll_plan enabled pending) taken (Ok tt) r)).
Proof.
  split_and!; intros t r; apply holding_follows; [apply enable_body|apply disable_body|apply reenroll_body].
Qed.
End PlatformRemoteProps.
