(* ===== verification/PlatformPermits.v ===== *)
(** * The discipline of the platform daemon's methods

    Each method uses one of the two permits, makes its mutating calls only
    while it holds it, and starts a deployment worker only after seeing the
    other one idle under the permit.  The proofs go through a weakest
    precondition over [prog]. *)
From S2P Require Import Prelude Protocol Programs PlatformCalls PlatformRemote Platform.

Module PlatformPermits.
Import Protocol Programs PlatformCalls PlatformRemote Platform.

(** Calls that ask for nothing. *)
Definition neutral (c : PlatformCall) : Prop :=
  match c with TryAcquire _ | Release _ | StartUnit _ _ | StopUnit _ _ | AuthMember _ => False | _ => True end.

Definition calm {A} (m : prog Platform A) : Prop := only (S:=Platform) neutral m.

(** ** Programs of neutral calls *)
Lemma calm_bind {A B} (m : prog Platform A) (f : A -> prog Platform B) : calm m -> (forall a, calm (f a)) -> calm (pbind m f).
Proof. apply (only_bind (S:=Platform)). Qed.
Lemma calm_try {A B E} (m : prog Platform (res A E)) (f : A -> prog Platform (res B E)) :
  calm m -> (forall a, calm (f a)) -> calm (try_bind m f).
Proof. intros Hm Hf. apply calm_bind; [done|]. intros [a|e|]; [apply Hf|done..]. Qed.
Lemma calm_await {A B E} (e : E) (m : prog Platform (awaited A)) (f : A -> prog Platform (option (res B E))) :
  calm m -> (forall a, calm (f a)) -> calm (await_bind e m f).
Proof. intros Hm Hf. apply calm_bind; [done|]. intros [[a|[]|]|]; [apply Hf|done..]. Qed.
Lemma calm_ask c : neutral c -> calm (ask c).
Proof. intros Hc. by split. Qed.
Lemma calm_done {A} (a : A) : calm (Done (S:=Platform) a).
Proof. done. Qed.
Lemma calm_if {A} (b : bool) (m n : prog Platform A) : calm m -> calm n -> calm (if b then m else n).
Proof. by destruct b. Qed.
Lemma calm_or_error {A E F} (e : F) (m : prog Platform (res A E)) : calm m -> calm (or_error e m).
Proof. intros Hm. by apply calm_bind. Qed.
Lemma calm_in_time {A E} (e : E) (m : prog Platform (option (res A E))) : calm m -> calm (in_time e m).
Proof. intros Hm. by apply calm_bind. Qed.

Create HintDb neutral discriminated.
#[export] Hint Resolve calm_done calm_if calm_bind calm_try calm_await calm_or_error calm_in_time : neutral.
#[export] Hint Extern 1 (calm (ask _)) => (by apply calm_ask) : neutral.
#[export] Hint Extern 4 (calm (match ?x with _ => _ end)) => destruct x : neutral.

Ltac neutral := eauto 40 with neutral.

Section Methods.
Context {J : Json}.

Lemma observe_worker_neutral u : calm (observe_worker u).
Proof. unfold observe_worker, unit_path. neutral. Qed.

Lemma backend_command_neutral p a l : calm (backend_command p a l).
Proof. unfold backend_command. neutral. Qed.
#[local] Hint Resolve observe_worker_neutral backend_command_neutral : neutral.

Lemma observe_mutation_state_neutral : calm observe_mutation_state.
Proof. unfold observe_mutation_state. neutral. Qed.
Lemma observe_network_neutral : calm observe_network.
Proof. unfold observe_network. neutral. Qed.
Lemma observe_machine_neutral : calm observe_machine.
Proof. unfold observe_machine. neutral. Qed.
#[local] Hint Resolve observe_mutation_state_neutral observe_network_neutral observe_machine_neutral : neutral.
End Methods.
(** What a method knows: whether it holds its permit, and the object paths of
    the units it has seen idle since it took it. *)
Record Knowledge := { held : bool; idle_paths : list string }.

Definition grows (k k' : Knowledge) : Prop := held k' = held k /\ idle_paths k ⊆ idle_paths k'.

#[export] Instance grows_preorder : PreOrder grows.
Proof. split; [by split|]. intros x y z [H1 H2] [H3 H4]. split; [congruence|set_solver]. Qed.

Section Discipline.
(** The object path systemd gives to a unit. *)
Context (object_path : string -> string).

Definition is_idle (active_state : string) : bool := String.eqb active_state "inactive" || String.eqb active_state "failed".

Definition deployment_unit (u : string) : bool :=
  String.eqb u UPDATE_UNIT || String.eqb u ROLLBACK_UNIT || String.eqb u REBOOT_UNIT.

(** The permit a mutating call needs. *)
Definition needed (c : PlatformCall) : option Sem :=
  match c with
  | StartUnit u _ => Some (if deployment_unit u then MutationStarts else RemoteManagement)
  | StopUnit _ _ | AuthMember _ => Some RemoteManagement
  | _ => None
  end.

Definition allowed (s : Sem) (k : Knowledge) (c : PlatformCall) : Prop :=
  match c with
  | TryAcquire s' => s' = s /\ held k = false
  | Release s' => s' = s /\ held k = true
  | StartUnit u _ =>
      needed c = Some s /\ held k = true /\
      (u = UPDATE_UNIT -> object_path ROLLBACK_UNIT ∈ idle_paths k) /\
      (u = ROLLBACK_UNIT -> object_path UPDATE_UNIT ∈ idle_paths k)
  | StopUnit _ _ | AuthMember _ => needed c = Some s /\ held k = true
  | _ => True
  end.

(** What the replies tell. *)
Definition learn (k : Knowledge) (c : PlatformCall) : PlatformReply c -> Knowledge :=
  match c return PlatformReply c -> Knowledge with
  | TryAcquire _ => fun acquired => {| held := acquired; idle_paths := [] |}
  | Release _ => fun _ => {| held := false; idle_paths := [] |}
  | StartUnit u _ => fun _ =>
      {| held := held k; idle_paths := List.filter (fun p => negb (String.eqb p (object_path u))) (idle_paths k) |}
  | GetProperty p i n => fun r =>
      match r with
      | Some (Ok state) =>
          if held k && String.eqb i SYSTEMD_UNIT && String.eqb n "ActiveState" && is_idle state
          then {| held := held k; idle_paths := p :: idle_paths k |} else k
      | _ => k
      end
  | _ => fun _ => k
  end.

(** Systemd's documented answer to [LoadUnit]. *)
Definition plausible (c : PlatformCall) : PlatformReply c -> Prop :=
  match c return PlatformReply c -> Prop with
  | LoadUnit u => fun r => match r with Some (Ok p) => p = object_path u | _ => True end
  | _ => fun _ => True
  end.

Section WP.
Context (s : Sem).

Fixpoint wp {A} (k : Knowledge) (m : prog Platform A) (Q : Knowledge -> A -> Prop) : Prop :=
  match m with
  | Done a => Q k a
  | Act c next => allowed s k c /\ forall r, plausible c r -> wp (learn k c r) (next r) Q
  end.

Lemma wp_mono {A} (m : prog Platform A) (Q R : Knowledge -> A -> Prop) : forall k,
  wp k m Q -> (forall k a, Q k a -> R k a) -> wp k m R.
Proof. induction m as [a|c next IH]; intros k; simpl; [auto|]. intros [H1 H2] Hq. split; auto. Qed.

Lemma wp_bind {A B} (m : prog Platform A) (f : A -> prog Platform B) Q : forall k,
  wp k m (fun k a => wp k (f a) Q) -> wp k (pbind m f) Q.
Proof. induction m as [a|c next IH]; intros k; simpl; [auto|]. intros [H1 H2]. split; auto. Qed.

Lemma learn_neutral k c r : neutral c -> grows k (learn k c r).
Proof.
  destruct c; simpl; try done. intros _. destruct r as [[state|[]|]|]; try done.
  destruct (held k && _ && _ && _); [|done]. split; [done|set_solver].
Qed.

Lemma wp_neutral {A} (m : prog Platform A) : calm m -> forall k, wp k m (fun k' _ => grows k k').
Proof.
  unfold calm.   induction m as [a|c next IH]; simpl; [done|]. intros [Hc Hn] k. split; [by destruct c|].
  intros r _. eapply wp_mono; [by apply IH|]. intros k' a' H. etrans; [by apply (learn_neutral k c r)|done].
Qed.

Lemma wp_bind_inv {A B} (m : prog Platform A) (f : A -> prog Platform B) Q : forall k,
  wp k (pbind m f) Q -> wp k m (fun k a => wp k (f a) Q).
Proof. induction m as [a|c next IH]; intros k; simpl; [auto|]. intros [H1 H2]. split; auto. Qed.

(** The permit around a body that keeps it. *)
Definition keeps_permit {A} (m : prog Platform A) : Prop :=
  wp {| held := true; idle_paths := [] |} m (fun k _ => held k = true).

Definition free : Knowledge := {| held := false; idle_paths := [] |}.

Definition disciplined {A} (k : Knowledge) (m : prog Platform A) : Prop := wp k m (fun k _ => held k = false).

Lemma with_permit_disciplined {A E} (busy : E) (body : prog Platform (res A E)) :
  keeps_permit body -> disciplined free (with_permit s busy body).
Proof.
  intros Hb. unfold disciplined, with_permit, ask, perform. simpl. split; [done|]. intros [] _; simpl; [|done].
  apply wp_bind. eapply wp_mono; [exact Hb|]. intros k r Hk. simpl. split; [done|]. by intros [] _.
Qed.

Lemma neutral_disciplined {A} (m : prog Platform A) : calm m -> disciplined free m.
Proof. intros Hm. eapply wp_mono; [by apply wp_neutral|]. by intros k _ [-> _]. Qed.
End WP.


(** ** Reasoning about the methods *)
Section Rules.
Context (s : Sem).

Lemma wp_ask k c (Q : Knowledge -> PlatformReply c -> Prop) :
  allowed s k c -> (forall r, plausible c r -> Q (learn k c r) r) -> wp s k (ask c) Q.
Proof. by split. Qed.

Lemma wp_done {A} k (a : A) (Q : Knowledge -> A -> Prop) : Q k a -> wp s k (Done a) Q.
Proof. done. Qed.

Lemma wp_try {A B E} k (m : prog Platform (res A E)) (f : A -> prog Platform (res B E)) Q :
  wp s k m (fun k r => match r with Ok a => wp s k (f a) Q | Err e => Q k (Err e) | Panic => Q k Panic end) ->
  wp s k (try_bind m f) Q.
Proof. intros H. apply wp_bind. eapply wp_mono; [exact H|]. by intros k' [a|e|]. Qed.

Lemma wp_await {A B E} k (e : E) (m : prog Platform (awaited A)) (f : A -> prog Platform (option (res B E))) Q :
  wp s k m (fun k r => match r with
    | None => Q k None | Some (Ok a) => wp s k (f a) Q
    | Some (Err _) => Q k (Some (Err e)) | Some Panic => Q k (Some Panic) end) ->
  wp s k (await_bind e m f) Q.
Proof. intros H. apply wp_bind. eapply wp_mono; [exact H|]. by intros k' [[a|[]|]|]. Qed.

Lemma wp_calm {A} k (m : prog Platform A) (Q : Knowledge -> A -> Prop) :
  calm m -> (forall k' a, grows k k' -> Q k' a) -> wp s k m Q.
Proof. intros Hm HQ. eapply wp_mono; [by apply wp_neutral|]. auto. Qed.

Lemma wp_or_error {A E F} k (e : F) (m : prog Platform (res A E)) Q :
  wp s k m (fun k r => Q k (map_err (fun _ => e) r)) -> wp s k (or_error e m) Q.
Proof. intros H. by apply wp_bind. Qed.
End Rules.

#[local] Arguments pbind : simpl never.
#[local] Arguments await_bind : simpl never.
#[local] Arguments try_bind : simpl never.
#[local] Arguments ask : simpl never.
#[local] Arguments wp : simpl never.

Section Workers.
Context {J : Json}.

(** A worker seen not running under the permit is known to be idle. *)
Lemma observe_worker_wp s k u : held k = true ->
  wp s k (observe_worker u) (fun k' r => grows k k' /\
    forall w, r = Ok w -> worker_running w = false -> object_path u ∈ idle_paths k').
Proof.
  intros Hk. unfold observe_worker. apply wp_bind.
  set (Q := fun k' (r : res WorkerObservation unit) => grows k k' /\
    forall w, r = Ok w -> worker_running w = false -> object_path u ∈ idle_paths k').
  enough (wp s k (await_bind tt (ask (NewProxy SYSTEMD_BUS SYSTEMD_PATH SYSTEMD_MANAGER)) (fun _ =>
    await_bind tt (unit_path u) (fun path =>
    await_bind tt (ask (NewProxy SYSTEMD_BUS path SYSTEMD_UNIT)) (fun _ =>
    await_bind tt (ask (NewProxy SYSTEMD_BUS path SYSTEMD_SERVICE)) (fun _ =>
    await_bind tt (ask (GetProperty path SYSTEMD_UNIT "ActiveState")) (fun active =>
    await_bind tt (ask (GetProperty path SYSTEMD_SERVICE "Result")) (fun result =>
    await_bind tt (ask (GetExitStatus path)) (fun status =>
    Done (Some (Ok {| active_state := active; result := result; exit_status := status |}))))))))))
    (fun k' r => Q k' (match r with None => Err tt | Some r => r end))) as H by exact H.
  assert (forall k', grows k k' -> Q k' (Err tt)) as HE by (intros k' G; split; [done|by intros w [=]]).
  assert (forall k', grows k k' -> Q k' Panic) as HP by (intros k' G; split; [done|by intros w [=]]).
  apply wp_await, wp_calm; [neutral|]. intros k1 [[[]|[]|]|] G1; try (first [apply HE|apply HP]; done).
  apply wp_await, wp_ask; [done|]. intros [[path|[]|]|] Hp; simpl; try (first [apply HE|apply HP]; done). simpl in Hp. subst path.
  apply wp_await, wp_calm; [neutral|]. intros k2 [[[]|[]|]|] G2; try (first [apply HE|apply HP]; by etrans).
  apply wp_await, wp_calm; [neutral|]. assert (grows k k2) as G by (by etrans). clear G1 G2 k1.
  intros k3 [[[]|[]|]|] G3; try (first [apply HE|apply HP]; by etrans).
  assert (grows k k3) as [Hh Hi] by (by etrans). clear G G3 k2.
  apply wp_await, wp_ask; [done|]. intros [[active|[]|]|] _; simpl; try (first [apply HE|apply HP]; done).
  rewrite Hh, Hk. simpl. set (k4 := if is_idle active then _ else k3).
  assert (grows k k4 /\ (is_idle active = true -> object_path u ∈ idle_paths k4)) as [G4 K4].
  { unfold k4, grows. destruct (is_idle active); simpl; (split; [split; [congruence|set_solver]|]); [set_solver|done]. }
  clearbody k4. apply wp_await, wp_calm; [neutral|]. intros k5 [[result|[]|]|] G5; try (first [apply HE|apply HP]; by etrans).
  assert (grows k k5) as G6 by (by etrans).
  apply wp_await, wp_calm; [neutral|]. intros k6 [[status|[]|]|] G7; try (first [apply HE|apply HP]; by etrans).
  apply wp_done. split; [by etrans|]. intros w [= <-] Hw. destruct G5 as [_ G5], G7 as [_ G7].
  apply G7, G5, K4, negb_false_iff. exact Hw.
Qed.

Lemma wait_started_calm n path previous : calm (wait_started n path previous).
Proof. induction n as [|n IH]; simpl; neutral. Qed.

(** Starting a deployment worker keeps the permit. *)
Lemma start_worker_wp k u unavailable :
  held k = true -> deployment_unit u = true ->
  (u = UPDATE_UNIT -> object_path ROLLBACK_UNIT ∈ idle_paths k) ->
  (u = ROLLBACK_UNIT -> object_path UPDATE_UNIT ∈ idle_paths k) ->
  wp MutationStarts k (start_worker u unavailable) (fun k' _ => held k' = true).
Proof.
  intros Hk Hu H1 H2. unfold start_worker. apply wp_bind.
  enough (wp MutationStarts k (
    await_bind PlatformError.ZBus (ask (NewProxy SYSTEMD_BUS SYSTEMD_PATH SYSTEMD_MANAGER)) (fun _ =>
    await_bind PlatformError.ZBus (unit_path u) (fun path =>
    await_bind PlatformError.ZBus (ask (NewProxy SYSTEMD_BUS path SYSTEMD_UNIT)) (fun _ =>
    await_bind PlatformError.ZBus (ask (GetProperty path SYSTEMD_UNIT "ActiveState")) (fun active =>
    if negb (String.eqb active "inactive") && negb (String.eqb active "failed")
    then Done (Some (Err (PlatformError.Busy "The requested deployment worker is already running")))
    else
      await_bind PlatformError.ZBus (ask (GetInvocationID path)) (fun previous_invocation =>
      await_bind PlatformError.ZBus (ask (StartUnit u "fail")) (fun _ =>
      wait_started start_turns path previous_invocation))))))) (fun k' _ => held k' = true)) as H.
  { eapply wp_mono; [exact H|]. by intros k' a. }
  assert (forall k', grows k k' -> held k' = true) as Hheld by (intros k' [-> _]; done).
  apply wp_await, wp_calm; [neutral|]. intros k1 [[[]|[]|]|] G1; auto.
  apply wp_await, wp_calm; [unfold unit_path; neutral|]. intros k2 [[path|[]|]|] G2; try (apply Hheld; by etrans).
  assert (grows k k2) as G by (by etrans). clear G1 G2 k1.
  apply wp_await, wp_calm; [neutral|]. intros k3 [[[]|[]|]|] G3; try (apply Hheld; by etrans).
  apply wp_await, wp_calm; [neutral|]. intros k4 [[active|[]|]|] G4; try (apply Hheld; do 2 (etrans; [eassumption|]); done).
  assert (grows k k4) as G5 by (do 2 (etrans; [eassumption|]); done). clear G G3 G4 k2 k3.
  destruct (negb _ && _); [by apply Hheld|].
  apply wp_await, wp_calm; [neutral|]. intros k5 [[previous|[]|]|] G6; try (apply Hheld; by etrans).
  assert (grows k k5) as [Hh Hi] by (by etrans).
  apply wp_await, wp_ask.
  - simpl. rewrite Hu. split; [done|]. split; [by rewrite Hh|]. split; intros; apply Hi; auto.
  - intros [[job|[]|]|] _; try (simpl; by rewrite Hh).
    apply wp_calm; [apply wait_started_calm|]. intros k' a [-> _]. simpl. by rewrite Hh.
Qed.

Lemma observe_mutation_state_calm : calm observe_mutation_state.
Proof. apply observe_mutation_state_neutral. Qed.

(** ** The deployment methods *)
Lemma start_update_disciplined : disciplined MutationStarts free start_update.
Proof.
  apply with_permit_disciplined. unfold keeps_permit. generalize (eq_refl : held {| held := true; idle_paths := [] |} = true).
  generalize {| held := true; idle_paths := [] |}. intros k0 H0. apply wp_try, wp_or_error. eapply wp_mono; [by apply observe_worker_wp|].
  intros k1 [w|[]|] [[Hh _] Hw]; simpl; [|congruence..]. specialize (Hw w eq_refl).
  destruct (worker_running w); [apply wp_done; congruence|]. specialize (Hw eq_refl).
  apply wp_try, wp_calm; [apply observe_mutation_state_calm|]. intros k2 [st|e|] [Hh2 Hi2]; [|congruence..].
  destruct (mutation_rollback_queued st); [apply wp_done; congruence|].
  apply start_worker_wp; [congruence|done|intros _; by apply Hi2|done].
Qed.

Lemma start_rollback_disciplined : disciplined MutationStarts free start_rollback.
Proof.
  apply with_permit_disciplined. unfold keeps_permit. generalize (eq_refl : held {| held := true; idle_paths := [] |} = true).
  generalize {| held := true; idle_paths := [] |}. intros k0 H0. apply wp_try, wp_or_error. eapply wp_mono; [by apply observe_worker_wp|].
  intros k1 [w|[]|] [[Hh _] Hw]; simpl; [|congruence..]. specialize (Hw w eq_refl).
  destruct (worker_running w); [apply wp_done; congruence|]. specialize (Hw eq_refl).
  apply wp_try, wp_calm; [apply observe_mutation_state_calm|]. intros k2 [st|e|] [Hh2 Hi2]; [|congruence..].
  destruct (mutation_staged st); [apply wp_done; congruence|].
  destruct (negb (mutation_retained_rollback st)); [apply wp_done; congruence|].
  destruct (mutation_rollback_queued st); [apply wp_done; congruence|].
  apply start_worker_wp; [congruence|done|done|intros _; by apply Hi2].
Qed.

Lemma start_reboot_disciplined : disciplined MutationStarts free start_reboot.
Proof.
  apply with_permit_disciplined. unfold keeps_permit. generalize (eq_refl : held {| held := true; idle_paths := [] |} = true).
  generalize {| held := true; idle_paths := [] |}. intros k0 H0. apply wp_try, wp_or_error, wp_calm; [apply observe_worker_neutral|]. intros k1 [w1|[]|] [H1 _]; simpl; [|congruence..].
  apply wp_try, wp_or_error, wp_calm; [apply observe_worker_neutral|]. intros k2 [w2|[]|] [H2 _]; simpl; [|congruence..].
  destruct (worker_running w1); [apply wp_done; congruence|].
  destruct (worker_running w2); [apply wp_done; congruence|].
  apply wp_try, wp_or_error, wp_calm; [apply observe_worker_neutral|]. intros k3 [w3|[]|] [H3 _]; simpl; [|congruence..].
  destruct (worker_running w3); [apply wp_done; congruence|].
  apply start_worker_wp; [congruence|done|done|done].
Qed.

(** ** The remote-management methods *)
Lemma calm_try_join {A B E} choose (m : prog Platform (res A E)) (n : prog Platform (res B E)) :
  calm choose -> calm m -> calm n -> calm (try_join choose m n).
Proof.
  intros Hc. unfold calm. revert n. induction m as [r|c next IH]; intros n Hm Hn.
  - destruct n as [r'|c next]; destruct r; try done.
    split; [apply Hn|]. intros x. apply (only_bind (S:=Platform)); [apply Hn|done].
  - induction n as [r|c' next' IH'].
    + destruct r; [|done..]. apply (only_bind (S:=Platform)); [exact Hm|done].
    + apply (only_bind (S:=Platform)); [exact Hc|]. intros []; simpl.
      * destruct Hm as [H1 H2]. split; [done|]. intros r. by apply IH.
      * destruct Hn as [H1 H2]. split; [done|]. intros r. by apply IH'.
Qed.

Lemma unit_proxies_calm u : calm (unit_proxies u).
Proof. unfold unit_proxies, uncached. neutral. Qed.
Lemma wait_for_job_calm n job : calm (wait_for_job n job).
Proof. induction n as [|n IH]; simpl; neutral. Qed.
Lemma wait_active_calm n path : calm (wait_active n path).
Proof. unfold PlatformRemote.active_state. induction n as [|n IH]; simpl; unfold PlatformRemote.active_state; neutral. Qed.
Lemma wait_idle_calm n path : calm (wait_idle n path).
Proof. induction n as [|n IH]; simpl; unfold PlatformRemote.active_state; neutral. Qed.
Lemma observe_network_calm : calm observe_network.
Proof. apply observe_network_neutral. Qed.

(** A part of a timed body, after which the permit is still held. *)
Lemma wp_still {A B E} k k0 (e : E) (m : prog Platform (awaited A)) (f : A -> prog Platform (option (res B E))) :
  held k = true -> calm m -> (forall k' a, held k' = true -> wp k0 k' (f a) (fun k _ => held k = true)) ->
  wp k0 k (await_bind e m f) (fun k _ => held k = true).
Proof.
  intros Hk Hm Hf. apply wp_await, wp_calm; [done|]. intros k' [[a|e'|]|] [H _]; [apply Hf; congruence|congruence..].
Qed.


(** The calls of a sequence under its permit. *)
Definition under_permit (c : BackendCall) : Prop :=
  match c with Acquire | Drop => False | RunWorker u => deployment_unit u = false | _ => True end.

Lemma system_wp c : under_permit c -> forall k, held k = true ->
  wp RemoteManagement k (system observe_network c) (fun k _ => held k = true).
Proof.
  intros Hc k Hk.
  assert (forall A (m : prog Platform A) k0, calm m -> held k0 = true ->
    wp RemoteManagement k0 m (fun k _ => held k = true)) as Hcalm.
  { intros A m k0 Hm H0. apply wp_calm; [done|]. intros k' _ [-> _]. done. }
  destruct c as [| |m|u| | |c| | |]; simpl in Hc; try done; cbn [system].
  - unfold system_run_worker. apply wp_bind. eapply (wp_mono _ _ (fun k' _ => held k' = true)); [|by intros k' a].
    apply wp_still; [done|apply unit_proxies_calm|]. intros k1 path K1.
    apply wp_still; [done|unfold PlatformRemote.active_state; neutral|]. intros k2 active K2.
    destruct (negb (idle active)); [done|]. apply wp_await, wp_ask.
    { simpl. rewrite Hc. split_and!; [done..| |]; intros ->; vm_compute in Hc; discriminate. }
    intros [[job|[]|]|] _; [|done..].
    apply wp_still; [done|apply wait_for_job_calm|]. intros k3 _ K3.
    apply wp_still; [done|unfold PlatformRemote.active_state; neutral|]. intros k4 active' K4.
    by apply wp_still; [|neutral|].
  - unfold system_start_remoted. apply wp_bind. eapply (wp_mono _ _ (fun k' _ => held k' = true)); [|by intros k' a].
    apply wp_still; [done|apply unit_proxies_calm|]. intros k1 path K1.
    apply wp_still; [done|unfold PlatformRemote.active_state; neutral|]. intros k2 active K2.
    destruct (String.eqb active "active"); [done|]. apply wp_await, wp_ask.
    { simpl. done. }
    intros [[job|[]|]|] _; [|done..]. apply Hcalm; [apply wait_active_calm|done].
  - unfold system_stop_remoted. apply wp_bind. eapply (wp_mono _ _ (fun k' _ => held k' = true)); [|by intros k' a].
    apply wp_still; [done|apply unit_proxies_calm|]. intros k1 path K1.
    apply wp_still; [done|unfold PlatformRemote.active_state; neutral|]. intros k2 active K2.
    destruct (idle active); [done|]. apply wp_await, wp_ask; [done|].
    intros [[job|[]|]|] _; [|done..]. apply Hcalm; [apply wait_idle_calm|done].
  - unfold system_auth. apply wp_bind. eapply (wp_mono _ _ (fun k' _ => held k' = true)); [|by intros k' a].
    apply wp_still; [done|neutral|]. intros k1 _ K1. by apply wp_ask.
  - apply Hcalm; [|done]. unfold system_pending_pairing. neutral.
  - apply Hcalm; [|done]. apply calm_or_error, observe_network_calm.
Qed.

Lemma interp_wp {A} (m : prog Backend A) : only (S:=Backend) under_permit m -> forall k, held k = true ->
  wp RemoteManagement k (interp (S:=Backend) (system observe_network) m) (fun k _ => held k = true).
Proof.
  induction m as [a|c next IH]; [done|]. intros [Hc Hn] k Hk. cbn [interp].
  apply wp_bind. eapply wp_mono; [by apply system_wp|]. intros k' r K'. by apply IH.
Qed.

Lemma interp_bind_wp {A B} s (m : prog Backend A) (f : A -> prog Backend B) Q : forall k,
  wp s k (interp (S:=Backend) (system observe_network) m) (fun k a => wp s k (interp (S:=Backend) (system observe_network) (f a)) Q) ->
  wp s k (interp (S:=Backend) (system observe_network) (pbind m f)) Q.
Proof.
  induction m as [a|c next IH]; intros k H; [done|]. change (pbind (Act c next) f) with (Act c (fun r => pbind (next r) f)).
  cbn [interp] in *. apply wp_bind_inv in H. apply wp_bind. eapply wp_mono; [exact H|]. intros k' r. apply IH.
Qed.

Lemma holding_disciplined {A} (body : prog Backend (res A PlatformError.t)) : only (S:=Backend) under_permit body ->
  disciplined RemoteManagement free (on_system (holding body)).
Proof.
  intros Hb. unfold disciplined, on_system, holding. apply interp_bind_wp. cbn [interp backend perform].
  split; [done|]. intros [] _; [|done]. apply wp_done. cbv beta iota. apply interp_bind_wp.
  eapply wp_mono; [by apply interp_wp|]. intros k r K. cbv beta. apply interp_bind_wp. cbn [interp backend perform].
  split; [done|]. by intros [] _.
Qed.

Lemma only_backend c : under_permit c -> only (S:=Backend) under_permit (backend c).
Proof. by split. Qed.

Lemma only_try {A B E} (m : prog Backend (res A E)) (f : A -> prog Backend (res B E)) :
  only (S:=Backend) under_permit m -> (forall a, only (S:=Backend) under_permit (f a)) ->
  only (S:=Backend) under_permit (try_bind m f).
Proof. intros Hm Hf. apply (only_bind (S:=Backend)); [done|]. intros [a|e|]; [apply Hf|done..]. Qed.

Lemma only_mapped {A E F} (g : E -> F) (m : prog Backend (res A E)) :
  only (S:=Backend) under_permit m -> only (S:=Backend) under_permit (mapped_err g m).
Proof. intros Hm. by apply (only_bind (S:=Backend)). Qed.

Ltac backend_calls :=
  repeat first [apply only_try|apply only_mapped|by apply only_backend|by split
               |match goal with |- only _ (match ?x with _ => _ end) => destruct x end
               |progress intros|progress unfold marker, auth, run_worker, start_remoted, stop_remoted, or_error].

Lemma remote_disciplined :
  disciplined RemoteManagement free enable_remote_management /\
  disciplined RemoteManagement free disable_remote_management /\
  disciplined RemoteManagement free reenroll_remote_management /\
  disciplined RemoteManagement free get_remote_management_enrollment.
Proof. split_and!; apply holding_disciplined; backend_calls. Qed.

Lemma observe_status_disciplined s : disciplined s free observe_status.
Proof.
  apply neutral_disciplined. unfold observe_status.
  eauto 40 using calm_try_join, observe_worker_neutral, backend_command_neutral, observe_machine_neutral,
    observe_network_neutral with neutral.
Qed.
End Workers.
End Discipline.
End PlatformPermits.
