(* ===== verification/PlatformSafety.v ===== *)
(** * The platform daemon under concurrency

    Any number of method calls in flight, their calls interleaved in any
    order, with systemd's units in between. *)
From S2P Require Import Prelude Protocol Programs PlatformCalls PlatformRemote Platform PlatformPermits.

Module PlatformSafety.
Import Protocol Programs PlatformCalls PlatformRemote Platform PlatformPermits.

Inductive Method :=
  | GetStatus | StartUpdate | StartRollback | StartReboot
  | EnableRemoteManagement | DisableRemoteManagement | ReenrollRemoteManagement | GetRemoteManagementEnrollment.

(** The permit of a method; [GetStatus] takes none. *)
Definition permit_of (m : Method) : Sem :=
  match m with GetStatus | StartUpdate | StartRollback | StartReboot => MutationStarts | _ => RemoteManagement end.

Section Daemon.
Context {J : Json} (object_path : string -> string).

Definition forget {A} (m : prog Platform A) : prog Platform unit := pbind m (fun _ => Done tt).

(** The handler of each method of [impl Platform]. *)
Definition serve (m : Method) : prog Platform unit :=
  match m with
  | GetStatus => forget observe_status
  | StartUpdate => forget start_update
  | StartRollback => forget start_rollback
  | StartReboot => forget start_reboot
  | EnableRemoteManagement => forget enable_remote_management
  | DisableRemoteManagement => forget disable_remote_management
  | ReenrollRemoteManagement => forget reenroll_remote_management
  | GetRemoteManagementEnrollment => forget get_remote_management_enrollment
  end.

(** The calls in flight, the semaphores, and the units that are not idle. *)
Record System := { pool : gmap nat (prog Platform unit); taken : Sem -> bool; active : gset string }.

(** A semaphore of one permit, and systemd's answers: [LoadUnit] gives the
    unit's object path, and a unit is only reported idle when it is. *)
Definition answers (st : System) (c : PlatformCall) : PlatformReply c -> Prop :=
  match c return PlatformReply c -> Prop with
  | TryAcquire s => fun acquired => acquired = negb (taken st s)
  | LoadUnit u => fun r => plausible object_path (LoadUnit u) r
  | GetProperty p i n => fun r =>
      forall state, r = Some (Ok state) -> i = SYSTEMD_UNIT -> n = "ActiveState"%string -> is_idle state = true ->
        forall u, object_path u = p -> u ∉ active st
  | _ => fun _ => True
  end.

Definition set_taken (s : Sem) (b : bool) (taken : Sem -> bool) : Sem -> bool :=
  fun s' => if decide (s' = s) then b else taken s'.

Definition taken_after (st : System) (c : PlatformCall) : PlatformReply c -> Sem -> bool :=
  match c return PlatformReply c -> Sem -> bool with
  | TryAcquire s => fun acquired => if acquired then set_taken s true (taken st) else taken st
  | Release s => fun _ => set_taken s false (taken st)
  | _ => fun _ => taken st
  end.

(** [StartUnit] may start the unit whatever it answers. *)
Definition may_start (st : System) (c : PlatformCall) (active' : gset string) : Prop :=
  match c with
  | StartUnit u _ => active' = active st \/ active' = {[u]} ∪ active st
  | _ => active' = active st
  end.

Inductive step (st : System) : option (nat * event Platform) -> System -> Prop :=
  | Arrive i m : pool st !! i = None ->
      step st None {| pool := <[i := serve m]> (pool st); taken := taken st; active := active st |}
  | Reply i c k r active' : pool st !! i = Some (Act c k) -> answers st c r -> may_start st c active' ->
      step st (Some (i, existT c r))
        {| pool := <[i := k r]> (pool st); taken := taken_after st c r; active := active' |}
  | Return i : pool st !! i = Some (Done tt) ->
      step st None {| pool := delete i (pool st); taken := taken st; active := active st |}
  | Finish u : step st None {| pool := pool st; taken := taken st; active := active st ∖ {[u]} |}.

Inductive reach (active0 : gset string) : list (nat * event Platform) -> System -> Prop :=
  | Start : reach active0 [] {| pool := ∅; taken _ := false; active := active0 |}
  | Step l st o st' : reach active0 l st -> step st o st' ->
      reach active0 (l ++ match o with Some e => [e] | None => [] end) st'.

(** Who holds a semaphore, by the record of acquisitions and releases. *)
Definition held_after (s : Sem) (holders : gset nat) (e : nat * event Platform) : gset nat :=
  let '(i, existT c r) := e in
  match c return PlatformReply c -> gset nat with
  | TryAcquire s' => fun acquired => if bool_decide (s' = s) && acquired then {[i]} ∪ holders else holders
  | Release s' => fun _ => if bool_decide (s' = s) then holders ∖ {[i]} else holders
  | _ => fun _ => holders
  end r.

Definition holders (s : Sem) (l : list (nat * event Platform)) : gset nat := foldl (held_after s) ∅ l.

(** ** The invariant *)
Definition owned (owner : Sem -> option nat) (i : nat) (active : gset string) (m : prog Platform unit) : Prop :=
  exists s k, disciplined object_path s k m /\ (held k = true <-> owner s = Some i) /\
    (forall s', s' <> s -> owner s' <> Some i) /\
    (s = MutationStarts -> held k = true -> forall u, u = UPDATE_UNIT \/ u = ROLLBACK_UNIT ->
       object_path u ∈ idle_paths k -> u ∉ active).

Definition not_both (active : gset string) : Prop := ~ (UPDATE_UNIT ∈ active /\ ROLLBACK_UNIT ∈ active).

Record inv (l : list (nat * event Platform)) (st : System) (owner : Sem -> option nat) : Prop := {
  inv_taken s : taken st s = true <-> is_Some (owner s);
  inv_holders s : holders s l = match owner s with Some i => {[i]} | None => ∅ end;
  inv_present s i : owner s = Some i -> is_Some (pool st !! i);
  inv_owned i m : pool st !! i = Some m -> owned owner i (active st) m;
  inv_active : not_both (active st)
}.

Lemma serve_disciplined m : disciplined object_path (permit_of m) free (serve m).
Proof.
  assert (forall A s (p : prog Platform A), disciplined object_path s free p -> disciplined object_path s free (forget p)) as Hf.
  { intros A s p Hp. apply wp_bind. eapply wp_mono; [exact Hp|]. done. }
  destruct (remote_disciplined object_path) as (H1 & H2 & H3 & H4).
  destruct m; apply Hf.
  - exact (observe_status_disciplined object_path _).
  - exact (start_update_disciplined object_path).
  - exact (start_rollback_disciplined object_path).
  - exact (start_reboot_disciplined object_path).
  - exact H1.
  - exact H2.
  - exact H3.
  - exact H4.
Qed.

Lemma holders_snoc s l e : holders s (l ++ [e]) = held_after s (holders s l) e.
Proof. unfold holders. by rewrite foldl_app. Qed.

(** ** It is preserved *)
Lemma owned_other (owner owner' : Sem -> option nat) j a a' m :
  owned owner j a m -> (forall s, owner' s = Some j <-> owner s = Some j) ->
  (owner MutationStarts = Some j -> forall u, u = UPDATE_UNIT \/ u = ROLLBACK_UNIT -> u ∉ a -> u ∉ a') ->
  owned owner' j a' m.
Proof.
  intros (s & k & D & H & O & I) Ho Ha. exists s, k. split_and!; [done|by rewrite Ho|intros s' Hs; rewrite Ho; by apply O|].
  intros -> Hk u Hu Hp. apply Ha; [by apply H|done|]. by eapply I.
Qed.

Lemma owned_arrives owner i a m : (forall s, owner s <> Some i) -> owned owner i a (serve m).
Proof.
  intros Ho. exists (permit_of m), free. split_and!; [apply serve_disciplined|split; [done|by intros ?%Ho]|auto|done].
Qed.

Lemma holders_none s l e : (forall s', (exists i r, e = (i, existT (TryAcquire s') r)) -> s' = s -> False) ->
  (forall s', (exists i r, e = (i, existT (Release s') r)) -> s' = s -> False) ->
  holders s (l ++ [e]) = holders s l.
Proof.
  intros H1 H2. rewrite holders_snoc. destruct e as [i [c r]]. destruct c; simpl; try done.
  - destruct (decide (s0 = s)) as [->|Hne]; [by destruct (H1 s); [by exists i, r|]|]. by rewrite bool_decide_eq_false_2.
  - destruct (decide (s0 = s)) as [->|Hne]; [by destruct (H2 s); [by exists i, r|]|]. by rewrite bool_decide_eq_false_2.
Qed.

(** A call that is not about a permit. *)
Definition unpermitted (c : PlatformCall) : Prop := match c with TryAcquire _ | Release _ => False | _ => True end.

Lemma learn_held k c r : unpermitted c -> held (learn object_path k c r) = held k.
Proof. destruct c; simpl; try done. intros _. destruct r as [[state|[]|]|]; try done. by destruct (held k && _ && _ && _) eqn:E; simpl. Qed.

(** What a thread knows stays true of the units. *)
Lemma learn_true st k s c r a' : answers st c r -> may_start st c a' -> unpermitted c ->
  (forall u, u = UPDATE_UNIT \/ u = ROLLBACK_UNIT -> object_path u ∈ idle_paths k -> u ∉ active st) ->
  allowed object_path s k c ->
  forall u, u = UPDATE_UNIT \/ u = ROLLBACK_UNIT -> object_path u ∈ idle_paths (learn object_path k c r) -> u ∉ a'.
Proof.
  intros Ha Hs Hc I Hall u Hu Hp. destruct c; simpl in Hs; try (subst a'; by apply I); try done.
  - subst a'. simpl in Hp, Ha. destruct r as [[state|[]|]|]; try (by apply I).
    destruct (held k && _ && _ && _) eqn:E; [|by apply I].
    simpl in Hp. apply elem_of_cons in Hp as [Hp|Hp]; [|by apply I].
    bool_hyps. repeat match goal with H : String.eqb _ _ = true |- _ => apply String.eqb_eq in H end.
    by eapply (Ha state).
  - simpl in Hp. apply list_elem_of_In, filter_In in Hp as [Hp Hne]. apply list_elem_of_In in Hp.
    assert (u ∉ active st) as Hu' by (by apply I). destruct Hs as [->| ->]; [done|].
    intros Hin. apply elem_of_union in Hin as [Hin|Hin]; [|done]. apply elem_of_singleton in Hin as ->.
    by rewrite String.eqb_refl in Hne.
Qed.

Lemma may_start_other st c a' k s u : may_start st c a' -> allowed object_path s k c -> unpermitted c ->
  u = UPDATE_UNIT \/ u = ROLLBACK_UNIT -> s <> MutationStarts \/ held k = false -> u ∉ active st -> u ∉ a'.
Proof.
  intros Hs Hall Hc Hu Hother Hn. destruct c; simpl in Hs; try (by subst a'). destruct Hs as [->| ->]; [done|].
  intros Hin. apply elem_of_union in Hin as [Hin|Hin]; [|done]. apply elem_of_singleton in Hin as <-.
  destruct Hall as (Hneed & Hheld & _). simpl in Hneed. destruct Hother as [Hs|Hf]; [|congruence].
  assert (deployment_unit u = true) as Hd by (by destruct Hu as [->| ->]). rewrite Hd in Hneed. congruence.
Qed.

(** A worker is only started while the other one is idle. *)
Lemma may_start_not_both st c a' k s : not_both (active st) -> may_start st c a' -> allowed object_path s k c ->
  (s = MutationStarts -> held k = true -> forall u, u = UPDATE_UNIT \/ u = ROLLBACK_UNIT ->
     object_path u ∈ idle_paths k -> u ∉ active st) ->
  not_both a'.
Proof.
  intros N Hs Hall I. destruct c; simpl in Hs; try (by subst a'). destruct Hs as [->| ->]; [done|].
  destruct Hall as (Hneed & Hheld & H1 & H2). simpl in Hneed.
  intros [Hu Hr]. apply elem_of_union in Hu, Hr. rewrite !elem_of_singleton in Hu, Hr.
  destruct Hu as [Hu|Hu], Hr as [Hr|Hr].
  - rewrite <- Hu in Hr. discriminate Hr.
  - revert Hr. apply I; [|done|by right|by apply H1]. rewrite <- Hu in Hneed. vm_compute in Hneed. congruence.
  - revert Hu. apply I; [|done|by left|by apply H2]. rewrite <- Hr in Hneed. vm_compute in Hneed. congruence.
  - by apply N.
Qed.

Definition set_owner (s : Sem) (o : option nat) (owner : Sem -> option nat) : Sem -> option nat :=
  fun s' => if decide (s' = s) then o else owner s'.

Lemma set_owner_eq s o owner : set_owner s o owner s = o.
Proof. unfold set_owner. by rewrite decide_True. Qed.
Lemma set_owner_ne s s' o owner : s' <> s -> set_owner s o owner s' = owner s'.
Proof. intros H. unfold set_owner. by rewrite decide_False. Qed.

Lemma inv_reply l st owner i c k r a' : inv l st owner -> pool st !! i = Some (Act c k) ->
  answers st c r -> may_start st c a' -> unpermitted c ->
  inv (l ++ [(i, existT c r)])
    {| pool := <[i := k r]> (pool st); taken := taken_after st c r; active := a' |} owner.
Proof.
  intros I Hi Ha Hs Hc. destruct (inv_owned _ _ _ I _ _ Hi) as (s & kn & [Hall D] & H & O & K). split.
  - intros s'. cbn [taken]. rewrite <- (inv_taken _ _ _ I). by destruct c.
  - intros s'. rewrite <- (inv_holders _ _ _ I). apply holders_none;
      intros s'' (i' & r' & He) _; apply (f_equal (fun e : nat * event Platform => projT1 e.2)) in He; simpl in He; by subst c.
  - intros s' j Hj. cbn [pool]. destruct (decide (j = i)) as [->|Hne]; [rewrite lookup_insert_eq; by eexists|].
    rewrite lookup_insert_ne by done. by apply (inv_present _ _ _ I s').
  - intros j m. cbn [pool active]. destruct (decide (j = i)) as [->|Hne].
    + rewrite lookup_insert_eq. intros [= <-]. exists s, (learn object_path kn c r).
      rewrite learn_held by done. split_and!; [|done|done|].
      * apply D. destruct c; simpl; done.
      * intros -> Hk u Hu Hp. eapply (learn_true st kn MutationStarts c r); try done. auto.
    + rewrite lookup_insert_ne by done. intros Hm. eapply owned_other; [by apply (inv_owned _ _ _ I)|done|].
      intros Hj u Hu Hn. eapply may_start_other; try done.
      destruct (decide (s = MutationStarts)) as [->|?]; [right|by left].
      destruct (held kn) eqn:E; [|done]. assert (owner MutationStarts = Some i) as Ei by (by apply H). congruence.
  - cbn [active]. eapply may_start_not_both; [by apply (inv_active _ _ _ I)|done|done|done].
Qed.

Lemma inv_step l st owner o st' : inv l st owner -> step st o st' ->
  exists owner', inv (l ++ match o with Some e => [e] | None => [] end) st' owner'.
Proof.
  intros I Hs. destruct Hs as [i m Hi|i c k r a' Hi Ha Hst|i Hi|u].
  - exists owner. rewrite app_nil_r. split; cbn [pool taken active]; try apply I.
    + intros s j Hj. destruct (decide (j = i)) as [->|Hne]; [by rewrite lookup_insert_eq; eexists|].
      rewrite lookup_insert_ne by done. by apply (inv_present _ _ _ I s).
    + intros j m'. destruct (decide (j = i)) as [->|Hne].
      * rewrite lookup_insert_eq. intros [= <-]. apply owned_arrives. intros s Ho.
        apply (inv_present _ _ _ I) in Ho. rewrite Hi in Ho. by destruct Ho.
      * rewrite lookup_insert_ne by done. apply I.
  - destruct (inv_owned _ _ _ I _ _ Hi) as (s & kn & [Hall D] & H & O & K).
    destruct c as [s'|s'| | | | | | | | | | | | | | | | | | | | | |];
      try (exists owner; by apply inv_reply).
    + (* an acquisition *)
      simpl in Hall, Hst. destruct Hall as [-> Hh]. subst a'. cbn [answers] in Ha.
      assert (owner s <> Some i) as Hn by (intros Ho; apply H in Ho; congruence).
      specialize (D r ltac:(done)). destruct r.
      * assert (taken st s = false) as Ht by (by destruct (taken st s)).
        assert (owner s = None) as Ho.
        { destruct (owner s) as [j|] eqn:E; [|done]. assert (taken st s = true); [|congruence]. apply (inv_taken _ _ _ I). by rewrite E. }
        exists (set_owner s (Some i) owner). split; cbn [pool taken active taken_after].
        -- intros s'. unfold set_taken, set_owner. destruct (decide (s' = s)); [|apply I]. split; [by eexists|done].
        -- intros s'. rewrite holders_snoc, (inv_holders _ _ _ I). simpl. unfold set_owner.
           destruct (decide (s' = s)) as [->|Hne].
           ++ rewrite bool_decide_eq_true_2 by done. simpl. rewrite Ho. by rewrite (right_id_L ∅ (∪)).
           ++ by rewrite bool_decide_eq_false_2.
        -- intros s' j. destruct (decide (j = i)) as [->|Hne]; [by rewrite lookup_insert_eq; eexists|].
           rewrite lookup_insert_ne by done. unfold set_owner. destruct (decide (s' = s)); [congruence|apply I].
        -- intros j m. destruct (decide (j = i)) as [->|Hne].
           ++ rewrite lookup_insert_eq. intros [= <-]. exists s, {| held := true; idle_paths := [] |}.
              split_and!; [exact D|by rewrite set_owner_eq|intros s' Hs'; rewrite set_owner_ne by done; by apply O|].
              intros _ _ u _ Hp. by apply elem_of_nil in Hp.
           ++ rewrite lookup_insert_ne by done. intros Hm. eapply owned_other; [by apply (inv_owned _ _ _ I)| |auto].
              intros s'. unfold set_owner. destruct (decide (s' = s)) as [->|]; [|done]. rewrite Ho. split; congruence.
        -- apply I.
      * exists owner. split; cbn [pool taken active taken_after]; try apply I.
        -- intros s'. rewrite holders_snoc. simpl. rewrite andb_false_r. apply I.
        -- intros s' j Hj. destruct (decide (j = i)) as [->|Hne]; [by rewrite lookup_insert_eq; eexists|].
           rewrite lookup_insert_ne by done. by apply (inv_present _ _ _ I s').
        -- intros j m. destruct (decide (j = i)) as [->|Hne]; [|rewrite lookup_insert_ne by done; apply I].
           rewrite lookup_insert_eq. intros [= <-]. exists s, {| held := false; idle_paths := [] |}.
           split_and!; [exact D|split; [done|by intros ?%Hn]|done|done].
    + (* a release *)
      simpl in Hall, Hst. destruct Hall as [-> Hh]. subst a'. assert (plausible object_path (Release s) r) as Hp by done. specialize (D r Hp). destruct r.
      assert (owner s = Some i) as Ho by (by apply H).
      exists (set_owner s None owner). split; cbn [pool taken active taken_after].
      * intros s'. unfold set_taken, set_owner. destruct (decide (s' = s)); [|apply I]. split; [done|by intros []%is_Some_None].
      * intros s'. rewrite holders_snoc, (inv_holders _ _ _ I). simpl. unfold set_owner.
        destruct (decide (s' = s)) as [->|Hne].
        -- rewrite bool_decide_eq_true_2 by done. rewrite Ho. set_solver.
        -- by rewrite bool_decide_eq_false_2.
      * intros s' j. destruct (decide (j = i)) as [->|Hne]; [by rewrite lookup_insert_eq; eexists|].
        rewrite lookup_insert_ne by done. unfold set_owner. destruct (decide (s' = s)); [done|apply I].
      * intros j m. destruct (decide (j = i)) as [->|Hne].
        -- rewrite lookup_insert_eq. intros [= <-]. exists s, {| held := false; idle_paths := [] |}.
           split_and!; [exact D|by rewrite set_owner_eq|intros s' Hs'; rewrite set_owner_ne by done; by apply O|done].
        -- rewrite lookup_insert_ne by done. intros Hm. eapply owned_other; [by apply (inv_owned _ _ _ I)| |auto].
           intros s'. unfold set_owner. destruct (decide (s' = s)) as [->|]; [|done]. rewrite Ho. split; congruence.
      * apply I.
  - exists owner. rewrite app_nil_r. destruct (inv_owned _ _ _ I _ _ Hi) as (s & kn & D & H & O & K).
    assert (forall s', owner s' <> Some i) as Hn.
    { intros s' Ho. destruct (decide (s' = s)) as [->|Hne]; [|by apply (O s')]. apply H in Ho.
      unfold disciplined in D. simpl in D. congruence. }
    split; cbn [pool taken active]; try apply I.
    + intros s' j Hj. rewrite lookup_delete_ne; [by apply (inv_present _ _ _ I s')|]. intros ->. by apply (Hn s').
    + intros j m Hm. apply lookup_delete_Some in Hm as [_ Hm]. by apply I.
  - exists owner. rewrite app_nil_r. split; cbn [pool taken active]; try apply I.
    + intros j m Hm. eapply owned_other; [by apply (inv_owned _ _ _ I)|done|]. intros _ u' _ Hn. set_solver.
    + intros [H1 H2]. apply (inv_active _ _ _ I). set_solver.
Qed.

Lemma reach_inv active0 l st : not_both active0 -> reach active0 l st -> exists owner, inv l st owner.
Proof.
  intros N. induction 1 as [|l st o st' Hr [owner I] Hs].
  - exists (fun _ => None). split; cbn; [split; [done|by intros []%is_Some_None]|done|done|done|done].
  - by eapply inv_step.
Qed.

(** Every mutating call is made by the holder of its permit. *)
Definition guarded (l : list (nat * event Platform)) : Prop :=
  forall before i c r after s, l = before ++ (i, existT c r) :: after -> needed c = Some s -> holders s before = {[i]}.

Lemma guarded_snoc l i c r : guarded l -> (forall s, needed c = Some s -> holders s l = {[i]}) ->
  guarded (l ++ [(i, existT c r)]).
Proof.
  intros G Hc before i' c' r' after s Hl Hn. destruct after as [|e after _] using rev_ind.
  - apply app_inj_tail in Hl as [<- He]. pose proof (f_equal (fun e : nat * event Platform => projT1 e.2) He) as Hcc.
    pose proof (f_equal fst He) as Hii. simpl in Hcc, Hii. subst c' i'. auto.
  - rewrite app_comm_cons, app_assoc in Hl. apply app_inj_tail in Hl as [-> _]. by eapply G.
Qed.

Lemma reach_guarded active0 l st : not_both active0 -> reach active0 l st -> guarded l.
Proof.
  intros N. induction 1 as [|l st o st' Hr IH Hs].
  - intros before i c r after s Hl. by destruct before.
  - destruct (reach_inv _ _ _ N Hr) as [owner I].
    destruct Hs as [i m Hi|i c k r a' Hi Ha Hst|i Hi|u]; rewrite ?app_nil_r; try done.
    apply guarded_snoc; [done|]. intros s Hn.
    destruct (inv_owned _ _ _ I _ _ Hi) as (s' & kn & [Hall D] & H & _).
    rewrite (inv_holders _ _ _ I). assert (s' = s /\ held kn = true) as [-> Hh].
    { destruct c; simpl in Hall, Hn; try done; [destruct Hall as (Hall & Hh & _)|destruct Hall as [Hall Hh]..]; split; congruence. }
    apply H in Hh. by rewrite Hh.
Qed.

(** C38. However the calls of any number of clients interleave, each permit
    has at most one holder, and every call that starts or stops a unit or
    commands the authentication daemon is made by the holder of the permit of
    its kind: one mutation at a time, and one remote-management sequence at a
    time. *)
Theorem permits_exclude active0 l st : ~ (UPDATE_UNIT ∈ active0 /\ ROLLBACK_UNIT ∈ active0) -> reach active0 l st ->
  (forall s i j, i ∈ holders s l -> j ∈ holders s l -> i = j) /\
  (forall before i c r after s, l = before ++ (i, existT c r) :: after -> needed c = Some s ->
     holders s before = {[i]}).
Proof.
  intros N Hr. split; [|by eapply reach_guarded].
  destruct (reach_inv _ _ _ N Hr) as [owner I]. intros s i j. rewrite (inv_holders _ _ _ I).
  destruct (owner s); set_solver.
Qed.

End Daemon.
End PlatformSafety.
