(* ===== verification/Network.v ===== *)
(** * On-link eligibility ([remoted/src/network.rs])

    The view of the network the remote server works from: where to listen
    and which sources are on-link. *)
From S2P Require Import Prelude Text IpAddr IpAddrFacts Protocol PlatformRemote.

Module Network.
Import Text IpAddr IpAddrFacts.

Definition PORT : Z := 8443.
Definition SESSION_SCHEMA : string := "0.4".

(** The fields of the status the server reads: the schema, and the addresses
    of the primary connection. *)
Record StatusFields := { schema_version : string; primary_addresses : option (list string) }.

Record Prefix := { network : IpAddr; length : Z }.

(** [MAX.checked_shl(width - length).unwrap_or(0)] *)
Definition prefix_mask (width length : Z) : Z :=
  let shift := wrap 32 (width - length) in
  if shift <? width then wrap width (Z.shiftl (2 ^ width - 1) shift) else 0.

Definition mask (address : IpAddr) (length : Z) : IpAddr :=
  match address with
  | V4 bits => V4 (Z.land bits (prefix_mask 32 length))
  | V6 bits => V6 (Z.land bits (prefix_mask 128 length))
  end.

Definition new_prefix (address : IpAddr) (length : Z) : Prefix := {| network := mask address length; length := length |}.

Definition contains (p : Prefix) (address : IpAddr) : bool :=
  Bool.eqb (is_ipv4 address) (is_ipv4 (network p)) && bool_decide (mask address (length p) = network p).

Record View := { listen : list IpAddr; prefixes : list Prefix }.
Definition default_view : View := {| listen := []; prefixes := [] |}.

#[export] Instance Prefix_eq_dec : EqDecision Prefix.
Proof. solve_decision. Defined.
#[export] Instance View_eq_dec : EqDecision View.
Proof. solve_decision. Defined.

Definition listenable (a : IpAddr) : bool :=
  match a with
  | V4 bits => negb (is_loopback a) && negb (is_unspecified a) && negb (is_multicast a) && negb (is_v4_link_local bits)
  | V6 bits => negb (is_loopback a) && negb (is_unspecified a) && negb (is_multicast a)
      && negb (Z.land (segment bits 0) 65472 =? 65152)
  end.

(** One turn of the loop of [view_from_status]. *)
Definition view_entry (view : View) (entry : string) : res View unit :=
  let? (address, length) := ok_or (split_once 47 entry) tt in
  let? address := ok_or (parse address) tt in
  let? length := ok_or (parse_unsigned 255 length) tt in
  let maximum := if is_ipv4 address then 32 else 128 in
  if (length =? 0) || (maximum <? length) then Err tt
  else
    Ok {| listen := if listenable address && negb (bool_decide (address ∈ listen view))
                    then listen view ++ [address] else listen view;
          prefixes := prefixes view ++ [new_prefix address length] |}.

Fixpoint view_entries (view : View) (entries : list string) : res View unit :=
  match entries with
  | [] => Ok view
  | entry :: entries => let? view := view_entry view entry in view_entries view entries
  end.

Definition view_from_fields (status : StatusFields) : res View unit :=
  if negb (String.eqb (schema_version status) SESSION_SCHEMA) then Err tt
  else match primary_addresses status with
  | None => Ok default_view
  | Some addresses => view_entries default_view addresses
  end.

(** [view_from_status], of serde_json's [from_str] for the fields above *)
Definition view_from_status (from_str : string -> option StatusFields) (json : string) : res View unit :=
  let? status := ok_or (from_str json) tt in view_from_fields status.

Definition canonical (address : IpAddr) : IpAddr :=
  match address with
  | V6 bits => match to_ipv4_mapped bits with Some v4 => V4 v4 | None => address end
  | V4 _ => address
  end.

Definition on_link (view : View) (source : IpAddr) : bool :=
  let source := canonical source in existsb (fun p => contains p source) (prefixes view).

(** [endpoint], of the address and the port of a listener *)
Definition endpoint (ip : IpAddr) (port : Z) : string :=
  match ip with
  | V4 _ => display ip +:+ ":" +:+ display_unsigned port
  | V6 _ => "[" +:+ display ip +:+ "]:" +:+ display_unsigned port
  end.

(** ** What the view says *)

(** The first [length] bits of an address. *)
Definition leading (a : IpAddr) (length : Z) : Z :=
  match a with V4 bits => Z.shiftr bits (32 - length) | V6 bits => Z.shiftr bits (128 - length) end.

Definition same_family (a b : IpAddr) : Prop := is_ipv4 a = is_ipv4 b.

(** An entry of the status: an address and its prefix length. *)
Definition entry_of (entry : string) : option (IpAddr * Z) :=
  '(address, length) ← split_once 47 entry;
  address ← parse address;
  length ← parse_unsigned 255 length;
  if (length =? 0) || ((if is_ipv4 address then 32 else 128) <? length) then None else Some (address, length).

Lemma view_entry_spec view entry : view_entry view entry =
  match entry_of entry with
  | Some (address, length) =>
      Ok {| listen := if listenable address && negb (bool_decide (address ∈ listen view))
                      then listen view ++ [address] else listen view;
            prefixes := prefixes view ++ [new_prefix address length] |}
  | None => Err tt
  end.
Proof.
  unfold view_entry, entry_of. destruct (split_once 47 entry) as [[a l]|]; [|done]. cbn [res_bind ok_or mbind option_bind].
  destruct (parse a) as [address|]; [|done]. cbn [res_bind ok_or mbind option_bind].
  destruct (parse_unsigned 255 l) as [length|]; [|done]. cbn [res_bind ok_or mbind option_bind].
  by destruct ((length =? 0) || _).
Qed.

(** The addresses to listen on: the eligible ones, each once. *)
Definition add_listen (l : list IpAddr) (a : IpAddr) : list IpAddr :=
  if listenable a && negb (bool_decide (a ∈ l)) then l ++ [a] else l.

Lemma view_entries_spec entries : forall view r, view_entries view entries = r ->
  match mapM entry_of entries with
  | Some l => r = Ok {| listen := foldl add_listen (listen view) (map fst l);
                        prefixes := prefixes view ++ map (fun e => new_prefix e.1 e.2) l |}
  | None => r = Err tt
  end.
Proof.
  induction entries as [|entry entries IH]; intros view r <-; cbn [view_entries].
  - cbn. rewrite app_nil_r. by destruct view.
  - rewrite view_entry_spec. cbn [mapM]. destruct (entry_of entry) as [[a l]|]; cbn [res_bind mbind option_bind]; [|done].
    specialize (IH {| listen := add_listen (listen view) a; prefixes := prefixes view ++ [new_prefix a l] |} _ eq_refl).
    unfold add_listen in IH at 1. cbn [listen prefixes] in IH.
    destruct (mapM entry_of entries) as [rest|]; cbn [mbind option_bind mret option_ret]; [|exact IH].
    rewrite IH. cbn [map foldl fst snd]. by rewrite <- app_assoc.
Qed.

Lemma testbit_above bits w i : 0 <= w <= i -> 0 <= bits < 2 ^ w -> Z.testbit bits i = false.
Proof. intros Hw Hb. rewrite <- (Z.mod_small bits (2 ^ w)) by lia. apply Z.mod_pow2_bits_high. lia. Qed.

Lemma land_prefix w s bits : 0 <= s <= w -> 0 <= bits < 2 ^ w ->
  Z.land bits (wrap w (Z.shiftl (2 ^ w - 1) s)) = Z.shiftl (Z.shiftr bits s) s.
Proof.
  intros Hs Hb. unfold wrap. replace (2 ^ w - 1) with (Z.ones w) by (rewrite Z.ones_equiv; lia).
  apply Z.bits_inj'. intros i Hi. rewrite Z.land_spec, Z.shiftl_spec by lia.
  destruct (decide (i < s)) as [H1|H1].
  - rewrite (Z.testbit_neg_r _ (i - s)) by lia. rewrite Z.mod_pow2_bits_low, Z.shiftl_spec by lia.
    rewrite (Z.testbit_neg_r _ (i - s)) by lia. apply andb_false_r.
  - rewrite Z.shiftr_spec by lia. replace (i - s + s) with i by lia. destruct (decide (i < w)) as [H2|H2].
    + rewrite Z.mod_pow2_bits_low, Z.shiftl_spec, Z.ones_spec_low by lia. apply andb_true_r.
    + rewrite (testbit_above bits w i) by lia. done.
Qed.

Lemma shiftl_inj a b s : 0 <= s -> Z.shiftl a s = Z.shiftl b s -> a = b.
Proof. intros Hs. rewrite !Z.shiftl_mul_pow2 by lia. intros H. apply Z.mul_cancel_r in H; [done|]. lia. Qed.

Lemma mask_bits w length bits : 0 < length <= w -> w <= 128 -> 0 <= bits < 2 ^ w ->
  Z.land bits (prefix_mask w length) = Z.shiftl (Z.shiftr bits (w - length)) (w - length).
Proof.
  intros Hl Hw Hb. unfold prefix_mask.
  replace (wrap 32 (w - length)) with (w - length) by (unfold wrap; rewrite Z.mod_small; lia).
  rewrite (proj2 (Z.ltb_lt _ _)) by lia. apply land_prefix; lia.
Qed.

Lemma mask_leading a b length : wf a -> wf b -> same_family a b -> 0 < length <= (if is_ipv4 a then 32 else 128) ->
  mask a length = mask b length <-> leading a length = leading b length.
Proof.
  destruct a as [x|x], b as [y|y]; intros Ha Hb Hf Hl; try discriminate Hf; cbn [is_ipv4] in Hl; cbn [wf] in Ha, Hb;
    unfold mask, leading; rewrite !mask_bits by (assumption || clear Ha Hb; lia);
    (split; [intros [= H]; apply shiftl_inj in H; [done|clear Ha Hb; lia]|by intros ->]).
Qed.

Lemma entry_of_range entry a length : entry_of entry = Some (a, length) -> wf a /\ 0 < length <= (if is_ipv4 a then 32 else 128).
Proof.
  unfold entry_of. destruct (split_once 47 entry) as [[x y]|]; [|done]. cbn [mbind option_bind].
  destruct (parse x) as [address|] eqn:Ha; [|done]. cbn [mbind option_bind].
  destruct (parse_unsigned 255 y) as [len|] eqn:Hl; [|done]. cbn [mbind option_bind].
  destruct ((len =? 0) || _) eqn:E; [done|]. intros [= <- <-]. bool_hyps. apply parse_wf in Ha.
  apply parse_unsigned_range in Hl; [|lia]. split; [done|]. lia.
Qed.

Lemma entries_range entries addresses a length : mapM entry_of addresses = Some entries -> (a, length) ∈ entries ->
  wf a /\ 0 < length <= (if is_ipv4 a then 32 else 128).
Proof.
  intros H Hin. apply mapM_Some in H. apply list_elem_of_lookup in Hin as [i Hi].
  eapply Forall2_lookup_r in H as (entry & _ & He); [|exact Hi]. by eapply entry_of_range.
Qed.

Lemma canonical_wf source : wf source -> wf (canonical source).
Proof.
  destruct source as [bits|bits]; intros H; [exact H|]. unfold canonical.
  destruct (to_ipv4_mapped bits) as [v4|] eqn:E; [|exact H]. by apply (mapped_bits bits v4 H) in E as [E _].
Qed.

Lemma contains_spec a length source : wf a -> wf source -> 0 < length <= (if is_ipv4 a then 32 else 128) ->
  contains (new_prefix a length) source = true <-> same_family source a /\ leading source length = leading a length.
Proof.
  intros Ha Hs Hl. unfold contains, new_prefix, same_family. cbn [network Network.length].
  assert (is_ipv4 (mask a length) = is_ipv4 a) as -> by (by destruct a).
  destruct (Bool.eqb_spec (is_ipv4 source) (is_ipv4 a)) as [Hf|Hf]; simpl; [|by split; [|intros []]].
  rewrite bool_decide_eq_true, mask_leading by (done || by rewrite Hf). by split; [|intros []].
Qed.

Lemma view_spec schema addresses :
  match view_from_fields {| schema_version := schema; primary_addresses := Some addresses |} with
  | Ok view =>
      schema = SESSION_SCHEMA /\ exists entries, mapM entry_of addresses = Some entries /\
        listen view = foldl add_listen [] (map fst entries) /\
        forall source, wf source ->
          (on_link view source = true <-> exists a length, (a, length) ∈ entries /\ 0 < length /\
             same_family (canonical source) a /\ leading (canonical source) length = leading a length)
  | Err _ => schema <> SESSION_SCHEMA \/ mapM entry_of addresses = None
  | Panic => False
  end.
Proof.
  unfold view_from_fields. cbn [schema_version primary_addresses].
  destruct (String.eqb_spec schema SESSION_SCHEMA) as [->|Hs]; cbn [negb]; [|by left].
  pose proof (view_entries_spec addresses default_view _ eq_refl) as H.
  destruct (mapM entry_of addresses) as [entries|] eqn:He; rewrite H; [|by right].
  split; [done|]. exists entries. split_and!; [done..|]. intros source Hs. apply canonical_wf in Hs.
  unfold on_link. cbn [prefixes default_view app]. rewrite existsb_exists. split.
  - intros (p & Hp & Hin). apply in_map_iff in Hp as ([a length] & <- & Hp). apply list_elem_of_In in Hp.
    destruct (entries_range _ _ _ _ He Hp) as [Ha Hl]. apply contains_spec in Hin as [H1 H2]; [|done..].
    exists a, length. split_and!; [done|lia|done|done].
  - intros (a & length & Hp & _ & H1 & H2). destruct (entries_range _ _ _ _ He Hp) as [Ha Hl].
    exists (new_prefix a length). split; [apply in_map_iff; exists (a, length); by rewrite <- list_elem_of_In|].
    by apply contains_spec.
Qed.

(** The view of a status, and what is on-link in it.  A view is made
    exactly when the schema is the expected one and every address has a
    prefix length between 1 and the width of its family.  It then listens on
    the eligible addresses, each once, in order; and a source is on-link
    exactly when it has the family of one of the addresses and shares its
    leading bits, an IPv4-mapped source counting as IPv4. *)
Theorem view_on_link schema addresses :
  match view_from_fields {| schema_version := schema; primary_addresses := Some addresses |} with
  | Ok view =>
      schema = SESSION_SCHEMA /\ exists entries, mapM entry_of addresses = Some entries /\
        listen view = foldl add_listen [] (map fst entries) /\
        forall source, wf source ->
          (on_link view source = true <-> exists a length, (a, length) ∈ entries /\ 0 < length /\
             same_family (canonical source) a /\ leading (canonical source) length = leading a length)
  | Err _ => schema <> SESSION_SCHEMA \/ mapM entry_of addresses = None
  | Panic => False
  end.
Proof. exact (view_spec schema addresses). Qed.

(** ** The address platformd advertises *)
Lemma eligible_listenable a : PlatformRemote.eligible a = listenable a.
Proof. done. Qed.

Lemma add_listen_in l a b : b ∈ add_listen l a <-> b ∈ l \/ b = a /\ listenable a = true.
Proof.
  unfold add_listen. destruct (listenable a) eqn:E; simpl; [|naive_solver].
  case_bool_decide as H; simpl; [naive_solver|]. rewrite elem_of_app, list_elem_of_singleton. naive_solver.
Qed.

Lemma foldl_listen_in l : forall acc b, b ∈ foldl add_listen acc l <-> b ∈ acc \/ b ∈ l /\ listenable b = true.
Proof.
  induction l as [|a l IH]; intros acc b; simpl; [set_solver|].
  rewrite IH, add_listen_in. rewrite elem_of_cons. naive_solver.
Qed.

Lemma candidates_of entries addresses : mapM entry_of addresses = Some entries ->
  omap PlatformRemote.candidate addresses = map fst entries.
Proof.
  revert entries. induction addresses as [|entry addresses IH]; intros entries H; [by injection H as <-|].
  cbn [mapM] in H. destruct (entry_of entry) as [[a l]|] eqn:E; [|done]. cbn [mbind option_bind] in H.
  destruct (mapM entry_of addresses) as [rest|]; [|done]. injection H as <-.
  cbn [omap list_omap map fst]. rewrite (IH _ eq_refl).
  assert (PlatformRemote.candidate entry = Some a) as Hc; [|by rewrite Hc].
  unfold entry_of in E. unfold PlatformRemote.candidate. destruct (split_once 47 entry) as [[x y]|]; [|done].
  cbn [mbind option_bind] in E |- *. destruct (parse x); [|done]. cbn [mbind option_bind] in E.
  destruct (parse_unsigned 255 y); [|done]. cbn [mbind option_bind] in E. destruct (_ || _); [done|].
  by injection E as -> ->.
Qed.

Lemma nil_of_none {A} (l : list A) : (forall a, a ∈ l -> False) -> l = [].
Proof. destruct l as [|a l]; [done|]. intros H. destruct (H a). apply list_elem_of_here. Qed.

Lemma url_form a : match a with
  | V4 _ => "https://" +:+ display a +:+ ":" +:+ display_unsigned PlatformRemote.PORT +:+ "/"
  | V6 _ => "https://[" +:+ display a +:+ "]:" +:+ display_unsigned PlatformRemote.PORT +:+ "/"
  end = "https://" +:+ endpoint a PORT +:+ "/".
Proof. destruct a; unfold endpoint; by rewrite <- !string_app_assoc. Qed.

Lemma url_is_served status primary view :
  Protocol.primary_connection status = Some primary ->
  view_from_fields {| schema_version := SESSION_SCHEMA; primary_addresses := Some (Protocol.addresses primary) |} = Ok view ->
  (listen view = [] /\ PlatformRemote.enrollment_url status = EmptyString) \/
  exists a, a ∈ listen view /\ PlatformRemote.enrollment_url status = "https://" +:+ endpoint a PORT +:+ "/".
Proof.
  intros Hp Hv. unfold view_from_fields in Hv. cbn [schema_version primary_addresses] in Hv.
  rewrite String.eqb_refl in Hv. cbn [negb] in Hv.
  pose proof (view_entries_spec _ _ _ Hv) as H.
  destruct (mapM entry_of (Protocol.addresses primary)) as [entries|] eqn:He; [|done].
  injection H as ->. cbn [listen default_view prefixes].
  unfold PlatformRemote.enrollment_url. rewrite Hp, (candidates_of _ _ He).
  set (eligible := List.filter PlatformRemote.eligible (map fst entries)).
  assert (Hin : forall a, In a eligible -> a ∈ foldl add_listen [] (map fst entries)).
  { intros a. unfold eligible. rewrite foldl_listen_in, filter_In, <- list_elem_of_In, eligible_listenable. by right. }
  destruct (List.find is_ipv4 eligible) as [a|] eqn:E4.
  { apply find_some in E4 as [Ha E4]. right. exists a. split; [by apply Hin|]. by apply url_form. }
  destruct (List.find is_ipv6 eligible) as [a|] eqn:E6.
  { apply find_some in E6 as [Ha E6]. right. exists a. split; [by apply Hin|]. by apply url_form. }
  left. split; [|done]. apply nil_of_none. intros a Ha. apply foldl_listen_in in Ha as [Ha|[Ha El]]; [by apply elem_of_nil in Ha|].
  assert (In a eligible) as Hel by (apply filter_In; rewrite <- list_elem_of_In, eligible_listenable; done).
  pose proof (find_none _ _ E4 a Hel). pose proof (find_none _ _ E6 a Hel). by destruct a.
Qed.

(** The URL [platformd] hands out names an address the remote server
    listens on, in the form its endpoint has: for a status whose addresses
    make a view, the URL is empty exactly when there is nothing to listen on,
    and is otherwise that of one of the listeners. *)
Theorem advertised_url_is_served status primary view :
  Protocol.primary_connection status = Some primary ->
  view_from_fields {| schema_version := SESSION_SCHEMA; primary_addresses := Some (Protocol.addresses primary) |} = Ok view ->
  (listen view = [] /\ PlatformRemote.enrollment_url status = EmptyString) \/
  exists a, a ∈ listen view /\ PlatformRemote.enrollment_url status = "https://" +:+ endpoint a PORT +:+ "/".
Proof. exact (url_is_served status primary view). Qed.

(** A machine with a loopback address, a link-local one and one of each
    family. *)
Definition example_addresses : list string :=
  ["127.0.0.1/8"; "fe80::1/64"; "2001:db8::10/64"; "192.168.1.20/24"]%string.
Definition example_primary : Protocol.PrimaryConnection :=
  {| Protocol.interface := "eth0"; Protocol.addresses := example_addresses; Protocol.default_gateways := [] |}.
Definition example_status : Protocol.NetworkStatus :=
  {| Protocol.state := Protocol.NetworkState.ConnectedGlobal; Protocol.primary_connection := Some example_primary |}.
Definition example_view : View :=
  Eval vm_compute in
    match view_from_fields {| schema_version := SESSION_SCHEMA; primary_addresses := Some example_addresses |} with
    | Ok view => view | _ => default_view end.

Example example_url : PlatformRemote.enrollment_url example_status = "https://192.168.1.20:8443/"%string.
Proof. vm_compute. reflexivity. Qed.

Example example_sources :
  map (fun s => on_link example_view <$> parse s) ["192.168.1.77"; "192.168.2.1"; "::ffff:192.168.1.3"; "2001:db8::ff"; "8.8.8.8"]%string
  = [Some true; Some false; Some true; Some true; Some false].
Proof. vm_compute. reflexivity. Qed.

Lemma advertised_url_is_served_witness :
  (listen example_view = [] /\ PlatformRemote.enrollment_url example_status = EmptyString) \/
  exists a, a ∈ listen example_view /\
    PlatformRemote.enrollment_url example_status = "https://" +:+ endpoint a PORT +:+ "/".
Proof.
  apply (advertised_url_is_served example_status example_primary example_view); [reflexivity|vm_compute; reflexivity].
Defined.
End Network.
