(* ===== verification/NetworkObserver.v ===== *)
(** * The network observer ([network-observer/src/main.rs])

    NetworkManager's state read over the bus, checked and normalised into the
    status that [platformd] validates and the remote server works from. *)
From S2P Require Import Prelude Text IpAddr IpAddrFacts Protocol Programs.

Module NetworkObserver.
Import Text IpAddr IpAddrFacts Protocol Programs.
#[local] Open Scope prog_scope.

Definition BUS : string := "org.signallayer.NetworkObserver1".
Definition PATH : string := "/org/signallayer/NetworkObserver1".
Definition NETWORK_TIMEOUT : Z := 3000.
Definition NETWORK_MANAGER_BUS : string := "org.freedesktop.NetworkManager".
Definition NETWORK_MANAGER_PATH : string := "/org/freedesktop/NetworkManager".
Definition NETWORK_MANAGER_INTERFACE : string := "org.freedesktop.NetworkManager".
Definition ACTIVE_CONNECTION_INTERFACE : string := "org.freedesktop.NetworkManager.Connection.Active".
Definition DEVICE_INTERFACE : string := "org.freedesktop.NetworkManager.Device".
Definition IP4_CONFIG_INTERFACE : string := "org.freedesktop.NetworkManager.IP4Config".
Definition IP6_CONFIG_INTERFACE : string := "org.freedesktop.NetworkManager.IP6Config".

(** A D-Bus variant: the two types the observer converts to, and the rest. *)
Inductive OwnedValue := VStr (s : string) | VU32 (n : N) | VOther.

(** [TryInto] of a variant *)
Definition try_into_string (v : OwnedValue) : res string unit := match v with VStr s => Ok s | _ => Err tt end.
Definition try_into_u32 (v : OwnedValue) : res Z unit := match v with VU32 n => Ok (Z.of_N n) | _ => Err tt end.

(** The calls: the permit, a proxy, and its properties by their type. *)
Inductive NetworkCall :=
  | TryAcquire
  | Release
  | NewProxy (path interface : string)
  | GetU32 (path interface name : string)
  | GetBool (path interface name : string)
  | GetString (path interface name : string)
  | GetPath (path interface name : string)
  | GetPaths (path interface name : string)
  | GetAddressData (path interface name : string).

Definition NetworkReply (c : NetworkCall) : Type :=
  match c with
  | TryAcquire => bool
  | Release => unit
  | NewProxy _ _ => awaited unit
  | GetU32 _ _ _ => awaited N
  | GetBool _ _ _ => awaited bool
  | GetString _ _ _ | GetPath _ _ _ => awaited string
  | GetPaths _ _ _ => awaited (list string)
  | GetAddressData _ _ _ => awaited (list (gmap string OwnedValue))
  end.

Definition NetworkManager : Signature := {| call := NetworkCall; reply := NetworkReply |}.
Definition ask (c : NetworkCall) : prog NetworkManager (NetworkReply c) := perform (S:=NetworkManager) c.

Module ObserverError.
Inductive t := Busy (message : string) | Unavailable (message : string).
End ObserverError.

Definition unavailable : ObserverError.t :=
  ObserverError.Unavailable "NetworkManager status could not be observed or was invalid".

Definition network_state (value : N) : NetworkState.t :=
  match value with
  | 10%N | 20%N | 30%N => NetworkState.Disconnected
  | 40%N => NetworkState.Connecting
  | 50%N => NetworkState.ConnectedLocal
  | 60%N => NetworkState.ConnectedSite
  | 70%N => NetworkState.ConnectedGlobal
  | _ => NetworkState.Unknown
  end.

(** ** [BTreeSet<String>]: the elements in increasing order *)
Fixpoint insert (a : string) (set : list string) : list string :=
  match set with
  | [] => [a]
  | b :: rest =>
      match String.compare a b with
      | Lt => a :: set
      | Eq => set
      | Gt => b :: insert a rest
      end
  end.

Definition extend (set new : list string) : list string := foldl (fun set a => insert a set) set new.

(** ** The properties of a configuration *)

(** The closure that [parse_address_data] maps over the entries *)
Definition parse_entry (family : Z) (entry : gmap string OwnedValue) : res string unit := (
  let? address := ok_or (entry !! "address"%string) tt in
  let entry := delete "address"%string entry in
  let? address := try_into_string address in
  let? prefix := ok_or (entry !! "prefix"%string) tt in
  let? prefix := try_into_u32 prefix in
  let? parsed := ok_or (parse address) tt in
  if ((family =? 4) && (negb (is_ipv4 parsed) || (32 <? prefix)))
     || ((family =? 6) && (negb (is_ipv6 parsed) || (128 <? prefix)))
  then Err tt
  else Ok (display parsed +:+ "/" +:+ display_unsigned prefix))%rust.

(** [map] and [collect]: the set of the texts, or the first error. *)
Fixpoint collect (family : Z) (set : list string) (entries : list (gmap string OwnedValue)) : res (list string) unit :=
  match entries with
  | [] => Ok set
  | entry :: entries => (let? text := parse_entry family entry in collect family (insert text set) entries)%rust
  end.

Definition parse_address_data (entries : list (gmap string OwnedValue)) (family : Z) : res (list string) unit :=
  collect family [] entries.

Definition parse_gateway (value : string) (family : Z) : res (option string) unit := (
  if is_empty value then Ok None
  else
    let? parsed := ok_or (parse value) tt in
    if ((family =? 4) && negb (is_ipv4 parsed)) || ((family =? 6) && negb (is_ipv6 parsed)) then Err tt
    else Ok (Some (display parsed)))%rust.

(** ** The observation *)

(** One turn of the loop over the two families: the addresses and the
    gateways gathered so far, and those with the family's. *)
Definition gather (primary_path path_property default_property config_interface : string) (family : Z)
    (gathered : list string * list string) : prog NetworkManager (awaited (list string * list string)) :=
  await? path := ask (GetPath primary_path ACTIVE_CONNECTION_INTERFACE path_property) in
  if String.eqb path "/" then Done (Some (Ok gathered))
  else
    await? _ := ask (NewProxy path config_interface) in
    await? data := ask (GetAddressData path config_interface "AddressData") in
    await? parsed := Done (Some (parse_address_data data family)) in
    let addresses := extend gathered.1 parsed in
    await? is_default := ask (GetBool primary_path ACTIVE_CONNECTION_INTERFACE default_property) in
    if is_default : bool then
      await? gateway := ask (GetString path config_interface "Gateway") in
      await? gateway := Done (Some (parse_gateway gateway family)) in
      Done (Some (Ok (addresses, match gateway with Some g => insert g gathered.2 | None => gathered.2 end)))
    else Done (Some (Ok (addresses, gathered.2))).

Definition invalid_interface (interface : string) : bool :=
  is_empty interface || Nat.ltb 64 (String.length interface)
  || existsb (fun c => is_control c || is_whitespace c) (chars interface).

Definition observe_network : prog NetworkManager (res NetworkStatus unit) := in_time tt (
  await? _ := ask (NewProxy NETWORK_MANAGER_PATH NETWORK_MANAGER_INTERFACE) in
  await? state := ask (GetU32 NETWORK_MANAGER_PATH NETWORK_MANAGER_INTERFACE "State") in
  await? primary_path := ask (GetPath NETWORK_MANAGER_PATH NETWORK_MANAGER_INTERFACE "PrimaryConnection") in
  if String.eqb primary_path "/" then
    Done (Some (Ok {| state := network_state state; primary_connection := None |}))
  else
    await? _ := ask (NewProxy primary_path ACTIVE_CONNECTION_INTERFACE) in
    await? devices := ask (GetPaths primary_path ACTIVE_CONNECTION_INTERFACE "Devices") in
    match devices with
    | [device] =>
        await? _ := ask (NewProxy device DEVICE_INTERFACE) in
        await? interface := ask (GetString device DEVICE_INTERFACE "Interface") in
        if invalid_interface interface then Done (Some (Err tt))
        else
          await? gathered := gather primary_path "Ip4Config" "Default" IP4_CONFIG_INTERFACE 4 ([], []) in
          await? gathered := gather primary_path "Ip6Config" "Default6" IP6_CONFIG_INTERFACE 6 gathered in
          Done (Some (Ok {| state := network_state state;
            primary_connection := Some {| interface := interface; addresses := gathered.1; default_gateways := gathered.2 |} |}))
    | _ => Done (Some (Err tt))
    end).

(** [get_network_status], of serde_json's [to_string] *)
Definition get_network_status (to_string : NetworkStatus -> option string) :
    prog NetworkManager (res string ObserverError.t) :=
  let! acquired := ask TryAcquire in
  if acquired : bool then
    let! r := (
      let? status := or_error unavailable observe_network in
      Done (ok_or (to_string status) unavailable)) in
    do! ask Release in
    Done r
  else Done (Err (ObserverError.Busy "A network observation is already in progress")).
End NetworkObserver.
