(* ===== verification/NetworkObserverProps.v ===== *)
(** * What the observer reports is what its readers accept

    The status goes from the observer through [platformd]'s validation to
    the remote server's view of the network. *)
From S2P Require Import Prelude Text IpAddr IpAddrFacts Protocol Programs PlatformRemote Platform Network NetworkObserver.

Module NetworkObserverProps.
Import Text IpAddr IpAddrFacts Protocol Programs NetworkObserver.
#[local] Open Scope prog_scope.

(** ** Sorted sets of strings *)
Definition sorted (l : list string) : Prop := Platform.strictly_sorted_unique l = true.

Lemma sorted_cons a b l : sorted (a :: b :: l) <-> String.ltb a b = true /\ sorted (b :: l).
Proof. unfold sorted. cbn [Platform.strictly_sorted_unique]. by rewrite andb_true_iff. Qed.

Lemma sorted_tail a l : sorted (a :: l) -> sorted l.
Proof. destruct l as [|b l]; [done|]. rewrite sorted_cons. by intros []. Qed.

Lemma compare_gt a b : String.compare a b = Gt -> String.ltb b a = true.
Proof. rewrite String.compare_antisym. unfold String.ltb. by destruct (String.compare b a). Qed.

Lemma insert_head a b l : exists c l', insert a (b :: l) = c :: l' /\ (c = a \/ c = b).
Proof. simpl. destruct (String.compare a b); eauto. Qed.

Lemma insert_sorted a l : sorted l -> sorted (insert a l).
Proof.
  induction l as [|b l IH]; intros Hl; [done|]. cbn [insert]. destruct (String.compare a b) eqn:E; [done| |].
  - apply sorted_cons. split; [|done]. unfold String.ltb. by rewrite E.
  - specialize (IH (sorted_tail _ _ Hl)). destruct l as [|c l]; [by apply sorted_cons; split; [apply compare_gt|]|].
    destruct (insert_head a c l) as (d & l' & Hd & Hor). rewrite Hd in IH |- *. apply sorted_cons. split; [|done].
    destruct Hor as [-> | ->]; [by apply compare_gt|]. by apply sorted_cons in Hl as [].
Qed.

Lemma insert_in a l b : b ∈ insert a l <-> b = a \/ b ∈ l.
Proof.
  induction l as [|c l IH]; [set_solver|]. cbn [insert]. destruct (String.compare a c) eqn:E; [|set_solver|].
  - apply String.compare_eq_iff in E as ->. set_solver.
  - rewrite !elem_of_cons, IH. set_solver.
Qed.

Lemma insert_length a l : (List.length (insert a l) <= S (List.length l))%nat.
Proof. induction l as [|c l IH]; simpl; [lia|]. destruct (String.compare a c); simpl; lia. Qed.

Lemma extend_sorted new : forall set, sorted set -> sorted (extend set new).
Proof. induction new as [|a new IH]; intros set Hs; [done|]. by apply IH, insert_sorted. Qed.

Lemma extend_in new : forall set b, b ∈ extend set new <-> b ∈ set \/ b ∈ new.
Proof.
  induction new as [|a new IH]; intros set b; simpl; [set_solver|]. unfold extend in IH |- *. simpl. rewrite IH, insert_in. set_solver.
Qed.

(** ** The texts of the report *)
Definition prefixed (a : IpAddr) (p : Z) : string := display a +:+ "/" +:+ display_unsigned p.
Definition address_text (s : string) : Prop := exists a p, wf a /\ 0 <= p <= width a /\ s = prefixed a p.
Definition gateway_text (s : string) : Prop := exists a, wf a /\ s = display a.

Lemma split_once_app c before after : c ∉ bytes_of before -> is_byte c ->
  split_once c (before +:+ string_of [c] +:+ after) = Some (before, after).
Proof.
  intros Hb Hc. unfold split_once. rewrite !bytes_of_app, bytes_of_string_of by (by constructor).
  assert (split_once_bytes c (bytes_of before ++ [c] ++ bytes_of after) = Some (bytes_of before, bytes_of after)) as ->.
  { revert Hb. induction (bytes_of before) as [|b l IH]; intros Hb; cbn [app split_once_bytes].
    - by rewrite Z.eqb_refl.
    - rewrite (proj2 (Z.eqb_neq b c)) by set_solver. cbn [app] in IH. rewrite IH by set_solver. done. }
  cbn. by rewrite !string_of_bytes_of.
Qed.

Lemma split_prefixed a p : wf a -> split_once 47 (prefixed a p) = Some (display a, display_unsigned p).
Proof. intros Ha. apply (split_once_app 47); [by apply display_no|done]. Qed.

Lemma width_bound a : width a <= 128.
Proof. by destruct a. Qed.

Lemma parse_prefix a p : 0 <= p <= width a -> parse_unsigned 255 (display_unsigned p) = Some p.
Proof. intros Hp. pose proof (width_bound a). apply parse_display_unsigned; lia. Qed.

Lemma numeral_no_slash p : 0 <= p -> contains 47 (display_unsigned p) = false.
Proof.
  intros Hp. pose proof (display_unsigned_digits p Hp) as H. unfold contains.
  induction H as [|d l Hd _ IH]; [done|]. cbn [existsb]. rewrite IH, (proj2 (Z.eqb_neq 47 d)) by lia. done.
Qed.

Lemma address_text_valid s : address_text s -> Platform.valid_address s = true.
Proof.
  intros (a & p & Ha & Hp & ->). unfold Platform.valid_address. rewrite split_prefixed by done.
  rewrite numeral_no_slash, parse_display, (parse_prefix a p) by (done || lia).
  unfold width in Hp. destruct (is_ipv4 a); rewrite (proj2 (Z.leb_le _ _)) by lia; apply String.eqb_refl.
Qed.

Lemma gateway_text_valid s : gateway_text s -> Platform.valid_gateway s = true.
Proof. intros (a & Ha & ->). unfold Platform.valid_gateway. rewrite parse_display by done. apply String.eqb_refl. Qed.

(** ** What is gathered *)
Record gathered_ok (n : nat) (g : list string * list string) : Prop := {
  addresses_sorted : sorted g.1;
  addresses_text : forall s, s ∈ g.1 -> address_text s;
  gateways_sorted : sorted g.2;
  gateways_text : forall s, s ∈ g.2 -> gateway_text s;
  gateways_few : (List.length g.2 <= n)%nat
}.

Lemma parse_entry_text family entry s : family = 4 \/ family = 6 -> parse_entry family entry = Ok s -> address_text s.
Proof.
  unfold parse_entry. intros Hf. destruct (entry !! _) as [[address| |]|]; cbn [ok_or res_bind try_into_string]; try done.
  destruct (delete _ entry !! _) as [[|prefix|]|]; cbn [ok_or res_bind try_into_u32]; try done.
  destruct (parse address) as [a|] eqn:Ha; cbn [ok_or res_bind]; [|done]. intros H. exists a, (Z.of_N prefix).
  split; [by apply parse_wf in Ha|]. destruct (_ || _) eqn:E; [done|]. injection H as <-. split; [|done].
  apply orb_false_iff in E as [E4 E6]. unfold width. unfold is_ipv6 in E6.
  destruct Hf as [-> | ->]; simpl in E4, E6; destruct (is_ipv4 a); simpl in *; try done; apply Z.ltb_ge in E4 || apply Z.ltb_ge in E6; lia.
Qed.

Lemma collect_ok family entries : family = 4 \/ family = 6 -> forall set r, collect family set entries = Ok r ->
  (forall s, s ∈ set -> address_text s) -> forall s, s ∈ r -> address_text s.
Proof.
  intros Hf. induction entries as [|entry entries IH]; intros set r H Hs; simpl in H; [by injection H as <-|].
  destruct (parse_entry family entry) as [text| |] eqn:He; simpl in H; try done.
  apply (IH _ _ H). intros s Hin. apply insert_in in Hin as [->|Hin]; [by eapply parse_entry_text|by apply Hs].
Qed.

Lemma parse_gateway_text family value g : parse_gateway value family = Ok (Some g) -> gateway_text g.
Proof.
  unfold parse_gateway. destruct (is_empty value); [done|]. destruct (parse value) as [a|] eqn:Ha; cbn [ok_or res_bind]; [|done].
  destruct (_ || _); [done|]. intros [= <-]. exists a. split; [by apply parse_wf in Ha|done].
Qed.

Lemma gather_ok primary path_property default_property config family n g : family = 4 \/ family = 6 -> gathered_ok n g ->
  post (gather primary path_property default_property config family g) (in_time_ok (gathered_ok (S n))).
Proof.
  intros Hf [G1 G2 G3 G4 G5]. unfold gather. apply post_await_any. intros path.
  destruct (String.eqb path "/"); [by constructor; try done; lia|].
  apply post_await_any. intros _. apply post_await_any. intros data.
  apply (post_await _ _ _ (fun r => forall s, s ∈ r -> address_text s)).
  { simpl. destruct (parse_address_data data family) as [r| |] eqn:E; simpl; try done.
    eapply collect_ok; [done|exact E|set_solver]. }
  intros parsed Hp. apply post_await_any. intros [].
  2: { constructor; simpl; [by apply extend_sorted| |done|done|lia]. intros s Hs. apply extend_in in Hs as []; auto. }
  apply post_await_any. intros value.
  apply (post_await _ _ _ (fun r => forall gw, r = Some gw -> gateway_text gw)).
  { simpl. destruct (parse_gateway value family) as [r| |] eqn:E; simpl; try done. intros gw ->. by eapply parse_gateway_text. }
  intros gateway Hg. constructor; simpl; [by apply extend_sorted| | | |].
  - intros s Hs. apply extend_in in Hs as []; auto.
  - destruct gateway; [by apply insert_sorted|done].
  - destruct gateway as [gw|]; [|done]. intros s Hs. apply insert_in in Hs as [->|Hs]; [by apply Hg|by apply G4].
  - destruct gateway as [gw|]; [pose proof (insert_length gw g.2)|]; lia.
Qed.

Definition report_ok (status : NetworkStatus) : Prop :=
  forall primary, primary_connection status = Some primary ->
    invalid_interface (interface primary) = false /\ gathered_ok 2 (addresses primary, default_gateways primary).

Lemma observe_network_ok : post observe_network (fun r => forall status, r = Ok status -> report_ok status).
Proof.
  apply post_in_time. apply post_await_any. intros _. apply post_await_any. intros state.
  apply post_await_any. intros path. destruct (String.eqb path "/"); [done|].
  apply post_await_any. intros _. apply post_await_any. intros [|device [|]]; try done.
  apply post_await_any. intros _. apply post_await_any. intros interface.
  destruct (invalid_interface interface) eqn:Hi; [done|].
  eapply post_await; [apply (gather_ok _ _ _ _ _ 0); [by left|]; constructor; simpl; (done || set_solver)|].
  intros g1 H1. eapply post_await; [by apply (gather_ok _ _ _ _ _ 1); [right|]|]. intros [addresses gateways] H2.
  by intros primary [= <-].
Qed.

(** ** The readers *)
Lemma interface_printable name : invalid_interface name = false -> Platform.printable_name name = true.
Proof.
  unfold invalid_interface, Platform.printable_name. rewrite !orb_false_iff. intros [[-> H2] ->]. simpl.
  rewrite andb_true_r. apply Nat.leb_le. by apply Nat.ltb_ge in H2.
Qed.

Lemma forallb_elem {A} (f : A -> bool) l : (forall a, a ∈ l -> f a = true) -> forallb f l = true.
Proof. intros H. apply forallb_forall. intros a Ha. by apply H, list_elem_of_In. Qed.

Lemma validate_report status primary : primary_connection status = Some primary -> report_ok status ->
  Platform.validate_network_status status =
    if Nat.ltb 256 (List.length (addresses primary)) then None else Some status.
Proof.
  intros Hp Hr. destruct (Hr _ Hp) as [Hi [G1 G2 G3 G4 G5]]. cbn [fst snd] in *. unfold sorted in *.
  unfold Platform.validate_network_status. rewrite Hp, interface_printable, G1, G3 by done.
  rewrite (forallb_elem Platform.valid_address) by (intros s Hs; by apply address_text_valid, G2).
  rewrite (forallb_elem Platform.valid_gateway) by (intros s Hs; by apply gateway_text_valid, G4).
  rewrite (proj2 (Nat.ltb_ge 32 _)) by lia. simpl. by destruct (Nat.ltb 256 _).
Qed.

Lemma entry_of_text a p : wf a -> 0 <= p <= width a ->
  Network.entry_of (prefixed a p) = if p =? 0 then None else Some (a, p).
Proof.
  intros Ha Hp. unfold Network.entry_of. rewrite split_prefixed by done. cbn [mbind option_bind].
  rewrite parse_display by done. cbn [mbind option_bind]. rewrite (parse_prefix a p) by done. cbn [mbind option_bind].
  unfold width in Hp. rewrite (proj2 (Z.ltb_ge _ _)) by lia. by destruct (p =? 0).
Qed.

Lemma view_of_report primary : (forall s, s ∈ addresses primary -> address_text s) ->
  (exists view, Network.view_from_fields {| Network.schema_version := Network.SESSION_SCHEMA;
                                            Network.primary_addresses := Some (addresses primary) |} = Ok view) <->
  ~ exists a, wf a /\ prefixed a 0 ∈ addresses primary.
Proof.
  intros Ht. unfold Network.view_from_fields. cbn [Network.schema_version Network.primary_addresses].
  rewrite String.eqb_refl. cbn [negb].
  pose proof (Network.view_entries_spec (addresses primary) Network.default_view _ eq_refl) as H.
  destruct (mapM Network.entry_of (addresses primary)) as [entries|] eqn:He; rewrite H.
  - split; [|by eexists]. intros _ (a & Ha & Hin). apply list_elem_of_lookup in Hin as [i Hi].
    apply mapM_Some in He. eapply Forall2_lookup_l in He as (e & _ & He); [|exact Hi].
    rewrite entry_of_text in He; [done|done|]. unfold width. destruct (is_ipv4 a); lia.
  - split; [by intros [view Hv]|]. intros Hno. exfalso. apply mapM_None, Exists_exists in He as (s & Hs & He).
    destruct (Ht s Hs) as (a & p & Ha & Hp & ->). rewrite entry_of_text in He by done.
    destruct (Z.eqb_spec p 0) as [Hz|]; [|done]. apply Hno. exists a. by rewrite <- Hz.
Qed.

(** The network report along its way.  Whatever NetworkManager answers,
    a status the observer returns is one [platformd] accepts unchanged,
    exactly when it lists at most 256 addresses, and it makes a view in the
    remote server exactly when no address has the prefix length 0. *)
Theorem report_is_accepted t status : runs observe_network t (Ok status) ->
  match primary_connection status with
  | None => Platform.validate_network_status status = Some status
  | Some primary =>
      (Platform.validate_network_status status = Some status <-> (List.length (addresses primary) <= 256)%nat) /\
      ((exists view, Network.view_from_fields {| Network.schema_version := Network.SESSION_SCHEMA;
                                                 Network.primary_addresses := Some (addresses primary) |} = Ok view) <->
       ~ exists a, wf a /\ prefixed a 0 ∈ addresses primary)
  end.
Proof.
  intros Hr. pose proof (post_runs _ _ observe_network_ok _ _ Hr _ eq_refl) as H.
  destruct (primary_connection status) as [primary|] eqn:Hp.
  - split.
    + rewrite (validate_report _ _ Hp H). destruct (Nat.ltb_spec 256 (List.length (addresses primary))); split; done || lia.
    + apply view_of_report. by destruct (H _ Hp) as [_ [_ G _ _ _]].
  - unfold Platform.validate_network_status. by rewrite Hp.
Qed.

(** ** A NetworkManager with one device *)
Definition entry (address : string) (prefix : N) : gmap string OwnedValue :=
  <["address" := VStr address]> {["prefix" := VU32 prefix]}%string.

Definition example_answer (c : NetworkCall) : NetworkReply c :=
  match c return NetworkReply c with
  | TryAcquire => true
  | Release => tt
  | NewProxy _ _ => Some (Ok tt)
  | GetU32 _ _ _ => Some (Ok 70%N)
  | GetBool _ _ _ => Some (Ok true)
  | GetString _ _ name => Some (Ok (if String.eqb name "Gateway" then "192.168.1.1" else "eth0")%string)
  | GetPath _ _ name => Some (Ok (if String.eqb name "Ip6Config" then "/" else "/x/1")%string)
  | GetPaths _ _ _ => Some (Ok ["/x/device"%string])
  | GetAddressData _ _ _ =>
      Some (Ok [entry "192.168.1.20" 24; entry "10.0.0.7" 8; entry "192.168.1.20" 24])
  end.

Definition example_status : NetworkStatus := {|
  state := NetworkState.ConnectedGlobal;
  primary_connection := Some {| interface := "eth0"; addresses := ["10.0.0.7/8"; "192.168.1.20/24"]%string;
                                default_gateways := ["192.168.1.1"%string] |} |}.

Definition example_run : list (event NetworkManager) := (exec (S:=NetworkManager) (fun _ => example_answer) 0 observe_network).1.

Lemma example_runs : runs observe_network example_run (Ok example_status).
Proof.
  assert ((exec (S:=NetworkManager) (fun _ => example_answer) 0 observe_network).2 = Ok example_status) as <- by (vm_compute; reflexivity).
  apply exec_runs.
Qed.

Lemma report_is_accepted_witness :
  (Platform.validate_network_status example_status = Some example_status <-> (2 <= 256)%nat) /\
  ((exists view, Network.view_from_fields {| Network.schema_version := Network.SESSION_SCHEMA;
      Network.primary_addresses := Some ["10.0.0.7/8"; "192.168.1.20/24"]%string |} = Ok view) <->
   ~ exists a, wf a /\ prefixed a 0 ∈ ["10.0.0.7/8"; "192.168.1.20/24"]%string).
Proof. exact (report_is_accepted example_run example_status example_runs). Defined.
End NetworkObserverProps.
