(* ===== verification/Controller.v ===== *)
(** * The listening lifecycle ([remoted/src/controller.rs])

    The state shared with the connections, and the controller that publishes
    and withdraws it, as a program of its effects and of its waits. *)
From S2P Require Import Prelude IpAddr Network Programs.

Module Controller.
Import IpAddr Network Programs.
#[local] Open Scope prog_scope.

Definition DEBOUNCE : Z := 500.
Definition RECONCILE : Z := 60000.
Definition STALE_AFTER : Z := 120000.
Definition RETRY : Z := 5000.

(** [std::net::SocketAddr]: the address and the port *)
Definition SocketAddr : Type := IpAddr * Z.

Record Published := { generation : Z; view : View }.

(** ** [Shared]

    The lock around [current] is never poisoned: its writers only assign. *)
Record Shared := { current : option Published; current_generation : Z }.
Definition new_shared : Shared := {| current := None; current_generation := 0 |}.

(** The two writes of [withdraw], which readers can see apart. *)
Definition clear_current (s : Shared) : Shared := {| current := None; current_generation := current_generation s |}.
Definition bump_generation (s : Shared) : Shared :=
  {| current := current s; current_generation := u64_add (current_generation s) 1 |}.

Definition set_current (p : Published) (s : Shared) : Shared :=
  {| current := Some p; current_generation := current_generation s |}.

Definition admits (s : Shared) (g : Z) (source : IpAddr) : bool :=
  match current s with
  | Some published => (generation published =? g) && on_link (view published) source
  | None => false
  end.

Definition is_current (s : Shared) (g : Z) : bool := current_generation s =? g.

(** ** The effects and the waits *)

(** What is ready when a wait ends: a change of the session's owner, a change
    of the network. *)
Record Ready := { session_changed : option (res unit unit); network_changed : option (res unit unit) }.

(** [Invalidations::changed]: the first source is polled first. *)
Definition changed (r : Ready) : option (res unit unit) :=
  match session_changed r with Some c => Some c | None => network_changed r end.

Inductive ControllerCall :=
  | RemoveMarker
  | CreateMarker
  | ClearCurrent
  | BumpGeneration
  | ReadGeneration
  | WriteCurrent (p : Published)
  | Bind (addresses : list IpAddr)
  | Serve (generation : Z)
  | Close
  | Now
  | SleepUntil (next : Z)
  | Refresh
  | Debounce.

(** The replies of the waits say what was ready; [Refresh] also yields what
    the session answered. *)
Definition ControllerReply (c : ControllerCall) : Type :=
  match c with
  | RemoveMarker | CreateMarker => bool
  | ClearCurrent | BumpGeneration | WriteCurrent _ | Serve _ | Close => unit
  | ReadGeneration | Now => Z
  | Bind _ => list SocketAddr
  | SleepUntil _ | Debounce => Ready
  | Refresh => Ready * res string unit
  end.

Definition Effects : Signature := {| call := ControllerCall; reply := ControllerReply |}.
Definition ask (c : ControllerCall) : prog Effects (ControllerReply c) := perform (S:=Effects) c.

(** [Shared::withdraw], [Shared::publish] *)
Definition shared_withdraw : prog Effects unit := do! ask ClearCurrent in ask BumpGeneration.
Definition shared_publish (v : View) : prog Effects Z :=
  let! g := ask ReadGeneration in
  do! ask (WriteCurrent {| generation := g; view := v |}) in
  Done g.

(** ** The controller *)
Record Controller := { published : option (View * bool); confirmed_at : option Z }.

(** [Controller::new] *)
Definition new : prog Effects Controller :=
  do! ask RemoveMarker in Done {| published := None; confirmed_at := None |}.

Definition withdraw (c : Controller) : prog Effects Controller :=
  do! ask RemoveMarker in
  do! shared_withdraw in
  do! ask Close in
  Done {| published := None; confirmed_at := None |}.

Definition establish (c : Controller) (v : View) (now : Z) : prog Effects Controller :=
  let! bound := ask (Bind (listen v)) in
  let complete := Nat.eqb (List.length bound) (List.length (listen v)) in
  let c := {| published := published c; confirmed_at := Some now |} in
  if Nat.eqb (List.length bound) 0 then
    do! ask Close in
    Done {| published := Some (v, complete); confirmed_at := confirmed_at c |}
  else
    let! g := shared_publish v in
    do! ask (Serve g) in
    let! created := ask CreateMarker in
    if created : bool then Done {| published := Some (v, complete); confirmed_at := confirmed_at c |}
    else withdraw c.

Definition apply (c : Controller) (v : res View unit) (now : Z) : prog Effects (Controller * res unit unit) :=
  match v with
  | Ok v =>
      let unchanged := match published c with
                       | Some (p, complete) => complete && bool_decide (p = v)
                       | None => false
                       end in
      if unchanged then Done ({| published := published c; confirmed_at := Some now |}, Ok tt)
      else
        let! c := withdraw c in
        let! c := establish c v now in
        Done (c, Ok tt)
  | Err _ =>
      let stale := match confirmed_at c with
                   | None => true
                   | Some confirmed => STALE_AFTER <=? u64_saturating_sub now confirmed
                   end in
      if stale then let! c := withdraw c in Done (c, Err tt) else Done (c, Err tt)
  | Panic => Done (c, Panic)
  end.

(** The loop of [invalidate], up to [fuel] notifications; [None] is still
    coalescing. *)
Fixpoint coalesce (fuel : nat) : prog Effects (option (res unit unit)) :=
  match fuel with
  | O => Done None
  | S fuel =>
      let! ready := ask Debounce in
      match changed ready with
      | Some (Ok _) => coalesce fuel
      | Some r => Done (Some r)
      | None => Done (Some (Ok tt))
      end
  end.

Definition invalidate (fuel : nat) (c : Controller) (notification : res unit unit) :
    prog Effects (Controller * option (res unit unit)) :=
  let! c := withdraw c in
  match notification with
  | Ok _ => let! r := coalesce fuel in Done (c, r)
  | r => Done (c, Some r)
  end.

Section Run.
(** serde_json's [from_str] for the fields of the status the server reads *)
Context (from_str : string -> option StatusFields).

Definition fetched (status : res string unit) : res View unit :=
  (let? status := status in view_from_status from_str status)%rust.

(** The loop of [run], up to [fuel] turns; [None] is still running, and the
    value of [Some] is what ended it. *)
Fixpoint run (fuel : nat) (c : Controller) (next : Z) : prog Effects (option (res unit unit)) :=
  match fuel with
  | O => Done None
  | S fuel =>
      let again c notification :=
        let! (c, r) := invalidate fuel c notification in
        match r with
        | Some (Ok _) => let! now := ask Now in run fuel c now
        | r => Done r
        end in
      let! ready := ask (SleepUntil next) in
      match changed ready with
      | Some notification => again c notification
      | None =>
          let! (ready, status) := ask Refresh in
          match changed ready with
          | Some notification => again c notification
          | None =>
              let! now := ask Now in
              let! (c, r) := apply c (fetched status) now in
              match r with
              | Ok _ => run fuel c (now + RECONCILE)
              | Err _ => run fuel c (now + RETRY)
              | Panic => Done (Some Panic)
              end
          end
      end
  end.

(** [Controller::new] and [Controller::run], as [main] calls them *)
Definition main (fuel : nat) : prog Effects (option (res unit unit)) :=
  let! c := new in
  let! now := ask Now in
  run fuel c now.
End Run.
End Controller.
