(* ===== verification/Server.v ===== *)
(** * Accepting and serving ([remoted/src/server.rs])

    The accept loops and the connections as programs of what they wait for,
    check and poll, and the listeners the controller holds. *)
From S2P Require Import Prelude IpAddr Network Programs Controller.

Module Server.
Import IpAddr Network Programs Controller.
#[local] Open Scope prog_scope.

Definition MAX_CONNECTIONS : nat := 64.
Definition HANDSHAKE_TIMEOUT : Z := 10000.
Definition HEADER_TIMEOUT : Z := 10000.
Definition BACKLOG : Z := 64.

(** [http::ConnInfo] *)
Record ConnInfo := { local : SocketAddr; peer : SocketAddr }.

(** What a task does: [Choose] is the branch [select!] polls first,
    [PollWork] a poll of the handshake and of the HTTP exchange ([true] when
    they are over), [PollChanges] a poll of [wait_for], and [Pending] the
    wait for either to be ready. *)
Inductive TaskCall :=
  | Accept
  | Sleep (milliseconds : Z)
  | DropStream
  | Admits (generation : Z) (source : IpAddr)
  | TryAcquire
  | Spawn (conn : ConnInfo) (generation : Z)
  | IsCurrent (generation : Z)
  | Choose
  | PollWork (conn : ConnInfo) (generation : Z)
  | PollChanges (generation : Z)
  | Pending
  | Release.

Definition TaskReply (c : TaskCall) : Type :=
  match c with
  | Accept => res SocketAddr unit
  | Admits _ _ | TryAcquire | IsCurrent _ | Choose | PollWork _ _ | PollChanges _ => bool
  | _ => unit
  end.

Definition Task : Signature := {| call := TaskCall; reply := TaskReply |}.
Definition ask (c : TaskCall) : prog Task (TaskReply c) := perform (S:=Task) c.

(** The loop of [accept_loop], up to [fuel] turns. *)
Fixpoint accept_loop (fuel : nat) (local : SocketAddr) (generation : Z) : prog Task unit :=
  match fuel with
  | O => Done tt
  | S fuel =>
      let! accepted := ask Accept in
      match accepted with
      | Ok peer =>
          let! admitted := ask (Admits generation peer.1) in
          if negb admitted then do! ask DropStream in accept_loop fuel local generation
          else
            let! acquired := ask TryAcquire in
            if negb acquired then do! ask DropStream in accept_loop fuel local generation
            else
              do! ask (Spawn {| local := local; peer := peer |} generation) in
              accept_loop fuel local generation
      | _ => do! ask (Sleep 100) in accept_loop fuel local generation
      end
  end.

(** [select!] over the work and the change of generation, up to [fuel]
    wake-ups. *)
Fixpoint until_changed (fuel : nat) (conn : ConnInfo) (generation : Z) : prog Task unit :=
  match fuel with
  | O => Done tt
  | S fuel =>
      let! work_first := ask Choose in
      let! over := (
        if work_first : bool then
          let! over := ask (PollWork conn generation) in
          if over : bool then Done true else ask (PollChanges generation)
        else
          let! over := ask (PollChanges generation) in
          if over : bool then Done true else ask (PollWork conn generation)) in
      if over : bool then Done tt else do! ask Pending in until_changed fuel conn generation
  end.

(** [serve_connection]; the subscription precedes the check. *)
Definition serve_connection (fuel : nat) (conn : ConnInfo) (generation : Z) : prog Task unit :=
  let! current := ask (IsCurrent generation) in
  if current : bool then until_changed fuel conn generation else Done tt.

(** The spawned task: the permit is dropped when the connection is served. *)
Definition connection (fuel : nat) (conn : ConnInfo) (generation : Z) : prog Task unit :=
  do! serve_connection fuel conn generation in ask Release.

(** ** [TcpListeners]: the bound sockets, and the tasks that serve them *)
Record TcpListeners := { port : Z; bound : list SocketAddr; tasks : list nat }.
Definition new_listeners : TcpListeners := {| port := PORT; bound := []; tasks := [] |}.

(** [bind] of the addresses, of which the operating system grants [granted]. *)
Definition listeners_bind (granted : list IpAddr) (l : TcpListeners) : TcpListeners :=
  {| port := port l; bound := (bound l ++ map (fun a => (a, port l)) granted)%list; tasks := tasks l |}.

Definition listeners_serve (spawned : list nat) (l : TcpListeners) : TcpListeners :=
  {| port := port l; bound := []; tasks := (tasks l ++ spawned)%list |}.

Definition listeners_close (l : TcpListeners) : TcpListeners :=
  {| port := port l; bound := []; tasks := [] |}.
End Server.
