(* ===== verification/Listening.v ===== *)
(** * The listening service as a whole ([remoted]'s threads together)

    The controller, its accept loops and the connections run at once; here
    each of their effects is a step on the state they share. *)
From S2P Require Import Prelude IpAddr Network Programs Controller Server.

Module Listening.
Import IpAddr Network Programs Controller Server.

(** ** What the controller acts on

    [spawned] are the accept loops ever spawned, by number; the last three
    fields record the run: the view of the last status answered since the
    last notification, with the time read after it, the last view made
    current, and the number of withdrawals. *)
Record Acceptor := { address : SocketAddr; under : Z; aborted : bool }.

Record Core := {
  shared : Shared;
  marker : bool;
  unremovable : bool;
  listeners : TcpListeners;
  spawned : list Acceptor;
  observed : option (View * option Z);
  last_published : option Published;
  withdrawals : Z
}.

Definition initial_core (marker : bool) : Core := {|
  shared := new_shared; marker := marker; unremovable := false; listeners := new_listeners; spawned := [];
  observed := None; last_published := None; withdrawals := 0 |}.

Definition with_shared (f : Shared -> Shared) (s : Core) : Core := {|
  shared := f (shared s); marker := marker s; unremovable := unremovable s; listeners := listeners s; spawned := spawned s;
  observed := observed s; last_published := last_published s; withdrawals := withdrawals s |}.
Definition with_marker (m u : bool) (s : Core) : Core := {|
  shared := shared s; marker := m; unremovable := u; listeners := listeners s; spawned := spawned s;
  observed := observed s; last_published := last_published s; withdrawals := withdrawals s |}.
Definition with_listeners (l : TcpListeners) (a : list Acceptor) (s : Core) : Core := {|
  shared := shared s; marker := marker s; unremovable := unremovable s; listeners := l; spawned := a;
  observed := observed s; last_published := last_published s; withdrawals := withdrawals s |}.
Definition with_observed (v : option (View * option Z)) (s : Core) : Core := {|
  shared := shared s; marker := marker s; unremovable := unremovable s; listeners := listeners s; spawned := spawned s;
  observed := v; last_published := last_published s; withdrawals := withdrawals s |}.
Definition with_published (p : Published) (s : Core) : Core := {|
  shared := shared s; marker := marker s; unremovable := unremovable s; listeners := listeners s; spawned := spawned s;
  observed := observed s; last_published := Some p; withdrawals := withdrawals s |}.
Definition with_withdrawal (s : Core) : Core := {|
  shared := shared s; marker := marker s; unremovable := unremovable s; listeners := listeners s; spawned := spawned s;
  observed := observed s; last_published := last_published s; withdrawals := withdrawals s + 1 |}.

Definition abort (ids : list nat) (i : nat) (a : Acceptor) : Acceptor :=
  {| address := address a; under := under a; aborted := aborted a || bool_decide (i ∈ ids) |}.

Section World.
Context (from_str : string -> option StatusFields).

(** The effect of each call.  Spawning and aborting the loops one at a time
    differs from doing so at once only in an order no step can see: a loop
    may start late, and one not yet aborted admits nothing by then. *)
Definition act (s : Core) (c : ControllerCall) : ControllerReply c -> Core :=
  match c return ControllerReply c -> Core with
  | RemoveMarker => fun removed =>
      if removed then with_marker false (unremovable s) s else with_marker (marker s) (unremovable s || marker s) s
  | CreateMarker => fun created => if created then with_marker true (unremovable s) s else s
  | ClearCurrent => fun _ => with_shared clear_current s
  | BumpGeneration => fun _ => with_withdrawal (with_shared bump_generation s)
  | WriteCurrent p => fun _ => with_published p (with_shared (set_current p) s)
  | Bind _ => fun bound => with_listeners {| port := port (listeners s); bound := bound; tasks := tasks (listeners s) |} (spawned s) s
  | Serve g => fun _ =>
      with_listeners (listeners_serve (seq (List.length (spawned s)) (List.length (bound (listeners s)))) (listeners s))
        (spawned s ++ map (fun local => {| address := local; under := g; aborted := false |}) (bound (listeners s)))%list s
  | Close => fun _ => with_listeners (listeners_close (listeners s)) (imap (abort (tasks (listeners s))) (spawned s)) s
  | SleepUntil _ | Debounce => fun ready => match changed ready with Some _ => with_observed None s | None => s end
  | Refresh => fun reply =>
      match changed reply.1 with
      | Some _ => with_observed None s
      | None => match fetched from_str reply.2 with Ok v => with_observed (Some (v, None)) s | _ => s end
      end
  | Now => fun now => match observed s with Some (v, None) => with_observed (Some (v, Some now)) s | _ => s end
  | ReadGeneration => fun _ => s
  end.

(** What may be replied.  The generation is a 64-bit counter, and the runs
    considered withdraw fewer than 2^64 times. *)
Definition possible (s : Core) (c : ControllerCall) : ControllerReply c -> Prop :=
  match c return ControllerReply c -> Prop with
  | ReadGeneration => fun g => g = current_generation (shared s)
  | BumpGeneration => fun _ => withdrawals s + 1 < 2 ^ 64
  | Bind addresses => fun bound' =>
      exists granted, granted `sublist_of` addresses /\ bound' = bound (listeners_bind granted (listeners s))
  | _ => fun _ => True
  end.

(** ** The tasks *)
Record Connection := { info : ConnInfo; of_generation : Z; program : prog Task unit }.

Record World := {
  core : Core;
  available : nat;
  loops : list (prog Task unit);
  connections : gmap nat Connection;
  controller : prog Effects (option (res unit unit))
}.

Definition replies (w : World) (c : TaskCall) : TaskReply c -> Prop :=
  match c return TaskReply c -> Prop with
  | Admits g source => fun b => b = admits (shared (core w)) g source
  | TryAcquire => fun b => b = Nat.ltb 0 (available w)
  | IsCurrent g => fun b => b = is_current (shared (core w)) g
  | PollChanges g => fun b => b = negb (is_current (shared (core w)) g)
  | _ => fun _ => True
  end.

Definition available_after (w : World) (c : TaskCall) : nat :=
  match c with TryAcquire => Nat.pred (available w) | Release => S (available w) | _ => available w end.

(** An aborted task runs on to its next wait. *)
Definition waits (c : TaskCall) : bool := match c with Accept | Sleep _ => true | _ => false end.

(** The connections after a call: a spawned one gets the number [id]. *)
Definition spawned_by (c : TaskCall) (fuel id : nat) (connections : gmap nat Connection) : gmap nat Connection :=
  match c with
  | Spawn conn g => <[id := {| info := conn; of_generation := g; program := connection fuel conn g |}]> connections
  | _ => connections
  end.

Inductive label :=
  | ByController (e : event Effects)
  | ByLoop (i : nat) (e : event Task)
  | ByConnection (id : nat) (e : event Task).

(** One call of one of the programs.  The loops are programs of every
    length, so that [fuel] only bounds how far a run is followed. *)
Inductive step (w : World) : label -> World -> Prop :=
  | step_controller c k (r : ControllerReply c) fuel : controller w = Act (S:=Effects) c k -> possible (core w) c r ->
      step w (ByController (existT c r)) {|
        core := act (core w) c r; available := available w;
        loops := match c with
                 | Serve g => (loops w ++ map (fun local => accept_loop fuel local g) (bound (listeners (core w))))%list
                 | _ => loops w
                 end;
        connections := connections w; controller := k r |}
  | step_loop i c k (r : TaskReply c) fuel id : loops w !! i = Some (Act (S:=Task) c k) -> replies w c r ->
      (waits c = true -> exists a, spawned (core w) !! i = Some a /\ aborted a = false) ->
      connections w !! id = None ->
      step w (ByLoop i (existT c r)) {|
        core := core w; available := available_after w c; loops := <[i := k r]> (loops w);
        connections := spawned_by c fuel id (connections w); controller := controller w |}
  | step_connection id conn c k (r : TaskReply c) : connections w !! id = Some conn -> program conn = Act (S:=Task) c k ->
      replies w c r ->
      step w (ByConnection id (existT c r)) {|
        core := core w; available := available_after w c; loops := loops w;
        connections := <[id := {| info := info conn; of_generation := of_generation conn; program := k r |}]> (connections w);
        controller := controller w |}.

Definition initial (marker : bool) (fuel : nat) : World := {|
  core := initial_core marker; available := MAX_CONNECTIONS; loops := []; connections := ∅;
  controller := main from_str fuel |}.

Inductive steps : World -> list label -> World -> Prop :=
  | steps_nil w : steps w [] w
  | steps_cons w l w' ls w'' : step w l w' -> steps w' ls w'' -> steps w (l :: ls) w''.

Definition reachable (w : World) : Prop := exists marker fuel l, steps (initial marker fuel) l w.
End World.
End Listening.
