(* ===== verification/ListeningCore.v ===== *)
(** * The controller's discipline

    What the controller guarantees at each of its effects, and the state it
    leaves at each of its waits, whatever is replied. *)
From S2P Require Import Prelude IpAddr Network Programs Controller Server Listening.

Module ListeningCore.
Import IpAddr Network Programs Controller Server Listening.

Record core_ok (s : Core) : Prop := {
  ok_current : forall p, current (shared s) = Some p ->
    generation p = current_generation (shared s) /\ last_published s = Some p;
  ok_number : current_generation (shared s) = withdrawals s /\ 0 <= withdrawals s;
  ok_last : forall p, last_published s = Some p -> generation p <= current_generation (shared s);
  ok_port : port (listeners s) = PORT;
  ok_tasks : forall i a, spawned s !! i = Some a -> aborted a = false -> i ∈ tasks (listeners s);
  ok_under : forall i a, spawned s !! i = Some a -> under a <= current_generation (shared s)
}.

(** Nothing was published yet under the generation. *)
Definition unused (s : Core) : Prop :=
  forall q, last_published s = Some q -> generation q <> current_generation (shared s).

Definition pre (s : Core) (c : ControllerCall) : Prop :=
  match c with
  | WriteCurrent p => generation p = current_generation (shared s) /\ unused s
  | BumpGeneration => current (shared s) = None
  | Serve g => g = current_generation (shared s)
  | _ => True
  end.

(** ** At rest *)

(** Nothing is exposed: no view, no loop that still accepts, and no marker
    unless one could not be removed. *)
Record silent (s : Core) : Prop := {
  silent_current : current (shared s) = None;
  silent_unused : unused s;
  silent_tasks : tasks (listeners s) = [];
  silent_loops : forall i a, spawned s !! i = Some a -> aborted a = true;
  silent_marker : marker s = true -> unremovable s = true
}.

(** The loops that accept. *)
Definition accepting (s : Core) : list Acceptor := List.filter (fun a => negb (aborted a)) (spawned s).

(** The view [v] is exposed: it is current, the marker is there, and the
    loops that accept are those of some of its addresses, all when
    [complete]. *)
Record exposed (s : Core) (v : View) (complete : bool) : Prop := {
  exposed_current : current (shared s) = Some {| generation := current_generation (shared s); view := v |};
  exposed_marker : marker s = true;
  exposed_loops : exists granted, granted `sublist_of` listen v /\ granted <> [] /\
    complete = bool_decide (granted = listen v) /\
    accepting s = map (fun a => {| address := (a, PORT); under := current_generation (shared s); aborted := false |}) granted
}.

Definition consistent (c : Controller) (s : Core) : Prop :=
  bound (listeners s) = [] /\
  match published c with
  | None => silent s /\ confirmed_at c = None
  | Some (v, complete) => observed s = Some (v, confirmed_at c) /\ is_Some (confirmed_at c) /\ (silent s \/ exposed s v complete)
  end.

Definition resting (s : Core) (c : ControllerCall) : Prop :=
  match c with
  | SleepUntil next => exists state, consistent state s /\
      forall confirmed, confirmed_at state = Some confirmed -> next <= confirmed + STALE_AFTER + RETRY
  | Refresh => exists state, consistent state s
  | Debounce => silent s
  | _ => True
  end.

Section Discipline.
Context (from_str : string -> option StatusFields).
Local Abbreviation act := (act from_str).

Fixpoint safe {A} (m : prog Effects A) (s : Core) (Q : A -> Core -> Prop) : Prop :=
  match m with
  | Done a => Q a s
  | Act c k => pre s c /\ resting s c /\ forall r, possible s c r -> safe (k r) (act s c r) Q
  end.

Lemma safe_bind {A B} (m : prog Effects A) (k : A -> prog Effects B) Q : forall s,
  safe m s (fun a s => safe (k a) s Q) -> safe (pbind m k) s Q.
Proof. induction m as [a|c k' IH]; intros s; simpl; [done|]. intros (H1 & H2 & H3). split_and!; [done..|]. intros r Hr. by apply IH, H3. Qed.

Lemma safe_ask {B} (c : ControllerCall) (k : ControllerReply c -> prog Effects B) Q s :
  pre s c -> resting s c -> (forall r, possible s c r -> safe (k r) (act s c r) Q) -> safe (pbind (Controller.ask c) k) s Q.
Proof. done. Qed.

Lemma safe_mono {A} (m : prog Effects A) (Q R : A -> Core -> Prop) : (forall a s, Q a s -> R a s) ->
  forall s, safe m s Q -> safe m s R.
Proof. intros HQ. induction m as [a|c k IH]; intros s; simpl; [apply HQ|]. intros (H1 & H2 & H3). auto. Qed.

(** ** Every effect keeps the invariant *)
Lemma act_ok s c r : core_ok s -> pre s c -> possible s c r -> core_ok (act s c r).
Proof.
  intros [H1 [H2 H2'] H3 H4 H5 H6] Hpre Hpos.
  assert (Hw : withdrawals s + 1 < 2 ^ 64 -> u64_add (current_generation (shared s)) 1 = withdrawals s + 1).
  { intros Hlt. unfold u64_add, wrap. rewrite H2. apply Z.mod_small. lia. }
  destruct c; simpl in *.
  - destruct r; by constructor.
  - destruct r; by constructor.
  - by constructor.
  - specialize (Hw Hpos). constructor; simpl; rewrite ?Hw; [by rewrite Hpre|lia| |done|done|].
    + intros p Hp. apply H3 in Hp. lia.
    + intros i a Ha. apply H6 in Ha. lia.
  - done.
  - destruct Hpre as [Hg _]. constructor; simpl; try done; [by intros q [= <-]|].
    intros q [= <-]. lia.
  - by constructor.
  - constructor; simpl; try done.
    + intros i a Ha Hab. apply elem_of_app. apply lookup_app_Some in Ha as [Ha|[Hi Ha]]; [left; by eapply H5|right].
      apply lookup_lt_Some in Ha. rewrite length_map in Ha. apply elem_of_seq. lia.
    + intros i a Ha. apply lookup_app_Some in Ha as [Ha|[Hi Ha]]; [by eapply H6|].
      apply list_elem_of_lookup_2, list_elem_of_In, in_map_iff in Ha as (local & <- & _). simpl. by rewrite Hpre.
  - constructor; simpl; try done.
    + intros i a Ha. rewrite list_lookup_imap in Ha. destruct (spawned s !! i) as [b|] eqn:Hb; [|done]. injection Ha as <-.
      simpl. rewrite orb_false_iff, bool_decide_eq_false. intros [Hab Hn]. by eapply H5 in Hab; [|exact Hb].
    + intros i a Ha. rewrite list_lookup_imap in Ha. destruct (spawned s !! i) as [b|] eqn:Hb; [|done]. injection Ha as <-.
      simpl. by eapply H6.
  - destruct (observed s) as [[v [t|]]|]; by constructor.
  - destruct (changed r); by constructor.
  - destruct (changed r.1); [by constructor|]. destruct (fetched from_str r.2); by constructor.
  - destruct (changed r); by constructor.
Qed.

(** ** The operations *)

(** The state a withdrawal leaves, of the observation [v]. *)
Record withdrawn (v : option (View * option Z)) (c : Controller) (s : Core) : Prop := {
  withdrawn_controller : c = {| published := None; confirmed_at := None |};
  withdrawn_core : core_ok s;
  withdrawn_silent : silent s;
  withdrawn_bound : bound (listeners s) = [];
  withdrawn_observed : observed s = v
}.

Lemma withdraw_safe c s : core_ok s -> safe (withdraw c) s (withdrawn (observed s)).
Proof.
  intros Hs. apply safe_ask; [done..|]. intros removed _.
  assert (H1 : core_ok (act s RemoveMarker removed)) by (by apply act_ok).
  assert (Hm : marker (act s RemoveMarker removed) = true -> unremovable (act s RemoveMarker removed) = true).
  { destruct removed; simpl; [done|]. intros ->. apply orb_true_r. }
  assert (Ho : observed (act s RemoveMarker removed) = observed s) by (by destruct removed).
  revert H1 Hm Ho. generalize (act s RemoveMarker removed) as s1. intros s1 H1 Hm Ho.
  apply safe_bind. apply safe_ask; [done..|]. intros [] _. pose proof (act_ok s1 ClearCurrent tt H1 I I) as H2.
  split_and!; [done..|]. intros [] Hp. pose proof (act_ok _ BumpGeneration tt H2 eq_refl Hp) as H3.
  apply safe_ask; [done..|]. intros [] _. pose proof (act_ok _ Close tt H3 I I) as H4. constructor; try done. constructor; try done.
  - intros q Hq. cbn in Hq |- *. destruct H1 as [_ [Hn Hn'] Hl _ _ _]. apply Hl in Hq. cbn in Hp.
    unfold u64_add, wrap. rewrite Z.mod_small; lia.
  - intros i a Ha. destruct (aborted a) eqn:Hab; [done|]. destruct H4 as [_ _ _ _ H4 _]. apply (H4 i a Ha) in Hab.
    by apply elem_of_nil in Hab.
Qed.

(** From a withdrawn state, [establish] exposes the view or nothing. *)
Lemma accepting_aborted l : (forall i a, l !! i = Some a -> aborted a = true) -> List.filter (fun a => negb (aborted a)) l = [].
Proof.
  induction l as [|a l IH]; intros H; simpl; [done|]. rewrite (H 0%nat a eq_refl). simpl. apply IH. intros i. apply (H (S i)).
Qed.

Definition established (v : View) (now : Z) (c : Controller) (s : Core) : Prop :=
  core_ok s /\ consistent c s /\ (confirmed_at c = Some now \/ confirmed_at c = None).

Lemma filter_map_accepting g l :
  List.filter (fun a => negb (aborted a)) (map (fun local => {| address := local; under := g; aborted := false |}) l) =
  map (fun local => {| address := local; under := g; aborted := false |}) l.
Proof. induction l as [|a l IH]; simpl; [done|]. by rewrite IH. Qed.

Lemma sublist_full {A} (k l : list A) : k `sublist_of` l -> List.length k = List.length l -> k = l.
Proof.
  induction 1 as [|x k l Hs IH|x k l Hs IH]; simpl; intros E; [done| |].
  - f_equal. apply IH. lia.
  - apply sublist_length in Hs. unfold length in *. lia.
Qed.

Lemma complete_iff {A} `{EqDecision A} (granted l : list A) : granted `sublist_of` l ->
  Nat.eqb (List.length granted) (List.length l) = bool_decide (granted = l).
Proof.
  intros Hs. destruct (Nat.eqb_spec (List.length granted) (List.length l)) as [E|E]; symmetry.
  - apply bool_decide_eq_true. by apply sublist_full.
  - apply bool_decide_eq_false. by intros ->.
Qed.

Lemma establish_safe c v now s : withdrawn (Some (v, Some now)) c s -> safe (establish c v now) s (established v now).
Proof.
  intros [-> Hs Hq Hb Ho]. apply safe_ask; [done..|]. intros bound' (granted & Hsub & ->).
  unfold listeners_bind. cbn [bound]. rewrite Hb, app_nil_l. pose proof (ok_port _ Hs) as Hport. rewrite Hport.
  set (locals := map (fun a => (a, PORT)) granted : list SocketAddr).
  assert (Hlen : List.length (A:=SocketAddr) locals = List.length granted) by (apply length_map). rewrite Hlen.
  rewrite (complete_iff _ _ Hsub). set (s1 := act s (Bind (listen v)) locals).
  assert (H1 : core_ok s1).
  { apply act_ok; [done..|]. exists granted. split; [done|]. unfold listeners_bind. cbn [bound]. by rewrite Hb, Hport. }
  destruct Hq as [Q1 Q2 Q3 Q4 Q5].
  destruct (Nat.eqb_spec (List.length granted) 0) as [E|E].
  - apply safe_ask; [done..|]. intros [] _. pose proof (act_ok s1 Close tt H1 I I) as H2. split_and!; [done| |by left].
    split; [done|]. split; [done|]. split; [by eexists|]. left. constructor; try done.
    intros i a Ha. cbn in Ha. rewrite list_lookup_imap in Ha. destruct (spawned s !! i) as [b|] eqn:Hi; [|done]. injection Ha as <-.
    cbn. by rewrite (Q4 i b Hi).
  - apply safe_bind. apply safe_ask; [done..|]. intros g Hg. cbn in Hg. subst g.
    assert (Hpre : pre s1 (WriteCurrent {| generation := current_generation (shared s); view := v |})) by done.
    pose proof (act_ok s1 (WriteCurrent _) tt H1 Hpre I) as H2. apply safe_ask; [done..|]. intros [] _. cbn [safe].
    pose proof (act_ok _ (Serve (current_generation (shared s))) tt H2 eq_refl I) as H3.
    apply safe_ask; [done..|]. intros [] _.
    apply safe_ask; [done..|]. intros created _.
    pose proof (act_ok _ CreateMarker created H3 I I) as H4. destruct created.
    + split_and!; [done| |by left]. split; [done|]. split; [done|]. split; [by eexists|]. right. constructor; try done.
      exists granted. split_and!; [done|by intros ->|done|]. unfold accepting. cbn [spawned act with_marker with_listeners].
      rewrite List.filter_app, accepting_aborted by done. rewrite filter_map_accepting. exact (map_map (fun a => (a, PORT)) _ granted).
    + eapply safe_mono; [|by apply withdraw_safe]. intros c s' [-> W2 W3 W4 _]. split_and!; [done| |by right].
      by split; [|split].
Qed.

(** A completed refresh: [before] is the state when it was asked for. *)
Definition after_apply (now : Z) (r : Controller * res unit unit) (s : Core) : Prop :=
  core_ok s /\ consistent r.1 s /\ forall confirmed, confirmed_at r.1 = Some confirmed ->
    match r.2 with Ok _ => confirmed = now | Err _ => now < confirmed + STALE_AFTER | Panic => True end.

Lemma observed_silent o s : silent s -> silent (with_observed o s).
Proof. intros []. by constructor. Qed.

Lemma now_consistent c s now : consistent c s -> consistent c (act s Now now).
Proof.
  intros [H1 H2]. destruct (published c) as [[v complete]|] eqn:Hp.
  - destruct H2 as (H2 & [t Ht] & H3). simpl. rewrite H2, Ht. split; [done|]. rewrite Hp, H2. split; [done|]. by split; [eexists|].
  - destruct H2 as [H2 H3]. simpl. split; [by destruct (observed s) as [[? []]|]|]. rewrite Hp.
    split; [|done]. destruct (observed s) as [[? []]|]; [done| |done]. by apply observed_silent.
Qed.

Lemma apply_safe c status now before : core_ok before -> consistent c before ->
  safe (apply c (fetched from_str status) now)
    (match fetched from_str status with Ok v => with_observed (Some (v, Some now)) before | _ => before end) (after_apply now).
Proof.
  intros Hs Hc. pose proof Hc as [Hb Hp]. destruct (fetched from_str status) as [v|[]|]; unfold apply.
  - assert (H1 : core_ok (with_observed (Some (v, Some now)) before)) by (by destruct Hs; constructor).
    destruct (match published c with Some (p, complete) => _ | None => false end) eqn:Hu.
    + destruct (published c) as [[p complete]|] eqn:Hpub; [|done]. apply andb_true_iff in Hu as [-> Hv].
      apply bool_decide_eq_true in Hv as ->. destruct Hp as (_ & Ht & Hp). split; [done|]. split.
      * split; [done|]. cbn [published fst]. split; [done|]. split; [by eexists|].
        destruct Hp as [[]|[]]; [left|right]; by constructor.
      * by intros confirmed [= <-].
    + apply safe_bind. eapply safe_mono; [|by apply withdraw_safe]. intros c1 s1 W. apply safe_bind.
      eapply safe_mono; [|by apply establish_safe]. intros c2 s2 (E1 & E2 & E3). split_and!; [done..|].
      cbn [fst snd]. intros confirmed Hcf. rewrite Hcf in E3. destruct E3; by simplify_eq.
  - destruct (match confirmed_at c with Some confirmed => _ | None => true end) eqn:Hst.
    + apply safe_bind. eapply safe_mono; [|by apply withdraw_safe]. intros c1 s1 [-> W2 W3 W4 _].
      split_and!; [done| |done]. by split; [|split].
    + split_and!; [done..|]. cbn [fst snd]. intros confirmed Hcf. rewrite Hcf in Hst. apply Z.leb_gt in Hst.
      unfold u64_saturating_sub in Hst. lia.
  - split_and!; [done..|]. done.
Qed.

(** ** The loop *)
Lemma coalesce_safe fuel : forall s, core_ok s -> silent s -> bound (listeners s) = [] ->
  safe (coalesce fuel) s (fun _ s' => core_ok s' /\ silent s' /\ bound (listeners s') = []).
Proof.
  induction fuel as [|fuel IH]; intros s H1 H2 H3; [done|]. apply safe_ask; [done..|]. intros ready _.
  pose proof (act_ok s Debounce ready H1 I I) as H4. cbn in H4 |- *.
  destruct (changed ready) as [[[]|[]|]|]; cbn [safe]; try done; try (destruct H2; split_and!; [done|by constructor|done]).
  apply IH; [done|by destruct H2; constructor|done].
Qed.

(** When the notifications fail, everything is withdrawn. *)
Definition over (r : option (res unit unit)) (s : Core) : Prop :=
  match r with Some (Err _) => silent s | _ => True end.

Lemma run_safe fuel : forall c next s, core_ok s -> consistent c s ->
  (forall confirmed, confirmed_at c = Some confirmed -> next <= confirmed + STALE_AFTER + RETRY) ->
  safe (run from_str fuel c next) s over.
Proof.
  induction fuel as [|fuel IH]; intros c next s H1 H2 H3; [done|].
  assert (Hagain : forall n s', core_ok s' -> safe (let! (c, r) := invalidate fuel c n in
      match r with Some (Ok _) => let! now := Controller.ask Now in run from_str fuel c now | r => Done r end)%prog s' over).
  { intros n s' Hs'. unfold invalidate. apply safe_bind. apply safe_bind. eapply safe_mono; [|by apply withdraw_safe].
    intros c1 s1 [-> W2 W3 W4 _]. destruct n as [[]|[]|]; [|done..]. apply safe_bind.
    eapply safe_mono; [|by apply coalesce_safe]. intros r s2 (C1 & C2 & C3). cbn [safe pbind].
    destruct r as [[[]|[]|]|]; try done. apply safe_ask; [done..|]. intros now _.
    apply IH; [by apply act_ok|apply now_consistent; by split; [|split]|done]. }
  apply safe_ask; [done|by exists c|]. intros ready _.
  pose proof (act_ok s (SleepUntil next) ready H1 I I) as H4. cbn in H4 |- *.
  destruct (changed ready) as [n|]; [by apply Hagain|].
  apply safe_ask; [done|by exists c|]. intros [ready' status] _.
  pose proof (act_ok s Refresh (ready', status) H1 I I) as H5. cbn in H5 |- *.
  destruct (changed ready') as [n|]; [by apply Hagain|].
  apply safe_ask; [done..|]. intros now _. apply safe_bind. 
  assert (Hstate : exists before, core_ok before /\ consistent c before /\
    act (match fetched from_str status with Ok v => with_observed (Some (v, None)) s | _ => s end) Now now =
    match fetched from_str status with Ok v => with_observed (Some (v, Some now)) before | _ => before end).
  { destruct (fetched from_str status); [by exists s| |]; exists (act s Now now);
      (split; [by apply act_ok|split; [by apply now_consistent|done]]). }
  destruct Hstate as (before & B1 & B2 & ->). eapply safe_mono; [|by apply apply_safe].
  intros [c2 r] s2 (A1 & A2 & A3). cbn [fst snd] in A2, A3. destruct r as [[]|[]|]; [| |done].
  - apply IH; [done..|]. intros confirmed Hcf. apply A3 in Hcf as ->. unfold RECONCILE, STALE_AFTER, RETRY. lia.
  - apply IH; [done..|]. intros confirmed Hcf. apply A3 in Hcf. lia.
Qed.

Lemma initial_ok marker : core_ok (initial_core marker).
Proof. by constructor; simpl; intros; try lia. Qed.

Lemma main_safe fuel marker : safe (main from_str fuel) (initial_core marker) over.
Proof.
  apply safe_bind. apply safe_ask; [done..|]. intros removed _.
  apply safe_ask; [done..|]. intros now _. apply run_safe; [|  |done].
  { apply act_ok; [|done..]. apply (act_ok (initial_core marker) RemoveMarker removed); [apply initial_ok|done..]. }
  apply now_consistent.
  destruct removed; (split; [done|split; [|done]]); by constructor.
Qed.
End Discipline.
End ListeningCore.
