(* ===== verification/ListeningProps.v ===== *)
(** * Who is served, and until when

    The threads of the remote server together: a connection under the
    current generation is on-link in the view exposed, the view is that of
    the last status, and an earlier connection ends. *)
From S2P Require Import Prelude IpAddr Network Programs Controller Server Listening ListeningCore.

Module ListeningProps.
Import IpAddr Network Programs Controller Server Listening ListeningCore.

(** ** What a task knows when it acts *)

(** A source admitted under a generation stays on-link in the view of that
    generation for as long as it is the current one. *)
Definition granted (s : Core) (e : Z * IpAddr) : Prop :=
  e.1 <= current_generation (shared s) /\
  (e.1 = current_generation (shared s) ->
   exists p, last_published s = Some p /\ generation p = e.1 /\ on_link (view p) e.2 = true).

Definition source (conn : ConnInfo) : IpAddr := (peer conn).1.

Definition needs (known : list (Z * IpAddr)) (c : TaskCall) : Prop :=
  match c with Spawn conn g | PollWork conn g => (g, source conn) ∈ known | _ => True end.

Definition learn (known : list (Z * IpAddr)) (c : TaskCall) : TaskReply c -> list (Z * IpAddr) :=
  match c return TaskReply c -> list (Z * IpAddr) with
  | Admits g ip => fun admitted => if admitted then (g, ip) :: known else known
  | _ => fun _ => known
  end.

Fixpoint careful (known : list (Z * IpAddr)) (m : prog Task unit) : Prop :=
  match m with
  | Done _ => True
  | Act c k => needs known c /\ forall r, careful (learn known c r) (k r)
  end.

Lemma careful_ask known (c : TaskCall) (k : TaskReply c -> prog Task unit) :
  needs known c -> (forall r, careful (learn known c r) (k r)) -> careful known (pbind (ask c) k).
Proof. done. Qed.

Lemma accept_loop_careful fuel local g : forall known, careful known (accept_loop fuel local g).
Proof.
  induction fuel as [|fuel IH]; intros known; [done|]. apply careful_ask; [done|]. intros [peer|e|].
  2,3: apply careful_ask; [done|intros []; apply IH].
  apply careful_ask; [done|]. intros []; cbn [negb].
  2: apply careful_ask; [done|intros []; apply IH].
  apply careful_ask; [done|]. intros []; cbn [negb]; (apply careful_ask; [|intros []; apply IH]); [|done].
  apply list_elem_of_here.
Qed.

Lemma until_changed_careful fuel conn g known (k : unit -> prog Task unit) : (g, source conn) ∈ known ->
  careful known (k tt) -> careful known (pbind (until_changed fuel conn g) k).
Proof.
  intros Hin Hk. induction fuel as [|fuel IH]; [done|]. cbn. split; [done|].
  intros []; (split; [done|]); intros []; try done; (split; [done|]); intros []; try done; (split; [done|]); intros []; exact IH.
Qed.

Lemma connection_careful fuel conn g known : (g, source conn) ∈ known -> careful known (connection fuel conn g).
Proof.
  intros Hin. unfold connection, serve_connection. cbn. split; [done|]. intros []; [|done].
  by apply until_changed_careful.
Qed.

(** ** How a withdrawn connection ends *)

(** The replies once the generation is no longer current. *)
Definition refused (c : TaskCall) : TaskReply c -> Prop :=
  match c return TaskReply c -> Prop with
  | IsCurrent _ => fun b => b = false
  | PollChanges _ => fun b => b = true
  | _ => fun _ => True
  end.

Definition is_work (c : TaskCall) : bool := match c with PollWork _ _ => true | _ => false end.

(** From here on, at most [polls] polls of the work and [calls] calls. *)
Fixpoint ending (polls calls : nat) (m : prog Task unit) : Prop :=
  match m with
  | Done _ => True
  | Act c k => exists calls', calls = S calls' /\ (is_work c = true -> polls <> O) /\
      forall r, refused c r -> ending (if is_work c then Nat.pred polls else polls) calls' (k r)
  end.

(** The connection's calls are about its own generation. *)
Definition about (g : Z) (m : prog Task unit) : Prop :=
  match m with Act (IsCurrent g') _ | Act (PollChanges g') _ => g' = g | _ => True end.

Definition orderly (g : Z) (m : prog Task unit) : Prop := about g m /\ ending 2 6 m.

Lemma ending_mono m : forall p p' c c', (p <= p')%nat -> (c <= c')%nat -> ending p c m -> ending p' c' m.
Proof.
  induction m as [a|call k IH]; intros p p' c c' Hp Hc; [done|]. cbn [ending]. intros (calls' & -> & Hw & Hk).
  destruct c' as [|c']; [lia|]. exists c'. split_and!; [done|intros H; specialize (Hw H); lia|].
  intros r Hr. eapply IH; [| |by apply Hk]; [destruct (is_work call); lia|lia].
Qed.

Lemma ending_act p calls (c : TaskCall) (k : TaskReply c -> prog Task unit) : (is_work c = true -> p <> O) ->
  (forall r, refused c r -> ending (if is_work c then Nat.pred p else p) calls (k r)) ->
  ending p (S calls) (Act (S:=Task) c k).
Proof. intros Hw Hk. by exists calls. Qed.

Lemma release_ending : ending 0 1 (ask Release).
Proof. by apply ending_act. Qed.

(** The next call of a task whose generation is withdrawn. *)
Ltac refused_call := apply ending_act; [done|]; let r := fresh "r" in let H := fresh "H" in
  intros r H; cbn -[ending] in H |- *; first [subst r|destruct r]; cbn -[ending].
Ltac finished := eapply ending_mono; [| |apply release_ending]; lia.

Definition task (m : prog Task unit) : prog Task unit := pbind m (fun _ => ask Release).

Lemma until_changed_ending fuel conn g : ending 1 4 (task (until_changed fuel conn g)).
Proof.
  destruct fuel as [|fuel]; [finished|]. unfold task. cbn -[ending]. refused_call.
  - refused_call; [finished|]. refused_call. finished.
  - refused_call. finished.
Qed.

(** Every program [serve_connection] becomes. *)
Lemma everywhere_act {S A} (P : prog S A -> Prop) c (k : reply S c -> prog S A) :
  P (Act c k) -> (forall r, everywhere P (k r)) -> everywhere P (Act c k).
Proof. by split. Qed.

Lemma release_orderly g : everywhere (orderly g) (ask Release).
Proof.
  apply everywhere_act; [split; [done|finished]|]. by intros [].
Qed.

Lemma until_changed_orderly fuel conn g : everywhere (orderly g) (task (until_changed fuel conn g)).
Proof.
  induction fuel as [|fuel IH]; [apply release_orderly|].
  pose proof (until_changed_ending (S fuel) conn g) as H0.
  apply everywhere_act; [split; [done|by eapply ending_mono; [..|exact H0]; lia]|].
  assert (Hwait : everywhere (orderly g) (Act (S:=Task) Pending (fun _ => task (until_changed fuel conn g)))).
  { apply everywhere_act; [|intros []; exact IH]. split; [done|]. apply (ending_act _ 5); [done|]. intros [] _.
    eapply ending_mono; [| |apply (until_changed_ending fuel conn g)]; simpl; lia. }
  assert (Hwork : forall k, k true = ask Release ->
            k false = Act (S:=Task) Pending (fun _ => task (until_changed fuel conn g)) ->
            everywhere (orderly g) (Act (S:=Task) (PollWork conn g) k)).
  { intros k Ht Hf. apply everywhere_act; [|intros []; [rewrite Ht; apply release_orderly|rewrite Hf; exact Hwait]].
    split; [done|]. apply (ending_act _ 5); [done|]. intros [] _; [rewrite Ht; finished|rewrite Hf].
    apply (ending_act _ 4); [done|]. intros [] _. apply until_changed_ending. }
  assert (Hchanges : forall k, (forall r, everywhere (orderly g) (k r)) -> k true = ask Release ->
            everywhere (orderly g) (Act (S:=Task) (PollChanges g) k)).
  { intros k Hk Ht. apply everywhere_act; [|exact Hk]. split; [done|]. apply (ending_act _ 5); [done|].
    intros r Hr. simpl in Hr. subst r. rewrite Ht. finished. }
  intros [].
  - apply everywhere_act.
    + split; [done|]. cbn -[ending]. refused_call; [finished|]. refused_call. finished.
    + intros []; [apply release_orderly|]. apply Hchanges; [|done]. intros []; [apply release_orderly|exact Hwait].
  - apply Hchanges; [|done]. intros []; [apply release_orderly|by apply Hwork].
Qed.

Lemma connection_orderly fuel conn g : everywhere (orderly g) (connection fuel conn g).
Proof.
  apply everywhere_act; [|intros []; [apply until_changed_orderly|apply release_orderly]].
  split; [done|]. cbn -[ending]. refused_call. finished.
Qed.

(** ** The invariant of the service *)
Section Service.
Context (from_str : string -> option StatusFields).
#[local] Abbreviation act := (act from_str).
#[local] Abbreviation step := (step from_str).
#[local] Abbreviation steps := (steps from_str).
#[local] Abbreviation reachable := (reachable from_str).

Definition knows (s : Core) (m : prog Task unit) : Prop := exists known, Forall (granted s) known /\ careful known m.

Definition connection_ok (s : Core) (conn : Connection) : Prop :=
  granted s (of_generation conn, source (info conn)) /\ knows s (program conn) /\
  everywhere (orderly (of_generation conn)) (program conn).

Record inv (w : World) : Prop := {
  inv_core : core_ok (core w);
  inv_controller : safe from_str (controller w) (core w) over;
  inv_loops : forall i m, loops w !! i = Some m -> knows (core w) m;
  inv_connections : forall id conn, connections w !! id = Some conn -> connection_ok (core w) conn
}.

Lemma generation_grows s c r : core_ok s -> possible s c r ->
  current_generation (shared s) <= current_generation (shared (act s c r)).
Proof.
  intros [_ [Hn Hn'] _ _ _ _] Hp. destruct c; simpl in *; try lia; try by destruct r.
  - unfold u64_add, wrap. rewrite Z.mod_small; lia.
  - destruct (observed s) as [[? []]|]; simpl; lia.
  - destruct (changed r); simpl; lia.
  - destruct (changed r.1); [simpl; lia|]. destruct (fetched from_str r.2); simpl; lia.
  - destruct (changed r); simpl; lia.
Qed.

(** Grants survive every effect: a new view comes with a new generation. *)
Lemma granted_act s c r e : core_ok s -> pre s c -> possible s c r -> granted s e -> granted (act s c r) e.
Proof.
  intros Hs Hpre Hpos [G1 G2]. pose proof (generation_grows s c r Hs Hpos) as Hg. destruct Hs as [_ [Hn Hn'] _ _ _ _].
  split; [lia|]. intros He. destruct c; simpl in *; try by auto.
  - destruct r; by auto.
  - destruct r; by auto.
  - unfold u64_add, wrap in He. rewrite Z.mod_small in He; lia.
  - exfalso. destruct Hpre as [_ Hu]. destruct (G2 He) as (p' & Hp & Hgen & _). apply Hu in Hp. congruence.
  - destruct (observed s) as [[? []]|]; by auto.
  - destruct (changed r); by auto.
  - destruct (changed r.1); [by auto|]. destruct (fetched from_str r.2); by auto.
  - destruct (changed r); by auto.
Qed.

Lemma knows_act s c r m : core_ok s -> pre s c -> possible s c r -> knows s m -> knows (act s c r) m.
Proof.
  intros Hs Hpre Hpos (known & Hk & Hm). exists known. split; [|done]. eapply Forall_impl; [exact Hk|].
  intros e He. by apply granted_act.
Qed.

(** An admitted source is on-link under the current generation. *)
Lemma admits_granted s g ip : core_ok s -> admits (shared s) g ip = true -> granted s (g, ip).
Proof.
  intros Hs. unfold admits. destruct (current (shared s)) as [p|] eqn:Hp; [|done]. rewrite andb_true_iff, Z.eqb_eq.
  intros [Hg Hl]. apply (ok_current _ Hs) in Hp as [Hgen Hlast]. split; cbn [fst snd]; [lia|]. intros _. by exists p.
Qed.

Lemma learn_granted w known c r : core_ok (core w) -> replies w c r -> Forall (granted (core w)) known ->
  Forall (granted (core w)) (learn known c r).
Proof.
  intros Hs Hr Hk. destruct c; try done. simpl in *. destruct r; [|done]. constructor; [|done]. by apply admits_granted.
Qed.

Lemma knows_next w c k r : core_ok (core w) -> replies w c r -> knows (core w) (Act (S:=Task) c k) -> knows (core w) (k r).
Proof.
  intros Hs Hr (known & Hk & _ & Hm). exists (learn known c r). split; [by apply learn_granted|apply Hm].
Qed.

Lemma spawn_ok s c k fuel id conns : knows s (Act (S:=Task) c k) -> conns !! id = None ->
  (forall i conn, conns !! i = Some conn -> connection_ok s conn) ->
  forall i conn, spawned_by c fuel id conns !! i = Some conn -> connection_ok s conn.
Proof.
  intros (known & Hk & Hneeds & _) Hid Hc i conn. destruct c; try apply Hc. simpl in *. rewrite lookup_insert_Some.
  intros [[-> <-]|[_ Hi]]; [|by apply Hc in Hi]. split_and!; simpl.
  - rewrite Forall_forall in Hk. by apply (Hk _ Hneeds).
  - exists known. split; [done|]. by apply connection_careful.
  - apply connection_orderly.
Qed.

Lemma step_inv w l w' : inv w -> step w l w' -> inv w'.
Proof.
  intros [I1 I2 I3 I4] Hstep. destruct Hstep as [c k r fuel Hc Hp|i c k r fuel id Hi Hr Hw Hid|id conn c k r Hi Hm Hr].
  - rewrite Hc in I2. destruct I2 as (Hpre & _ & Hk). constructor; simpl; [by apply act_ok|by apply Hk| |].
    + intros i m Hi. assert (Hold : forall l0, l0 = loops w -> l0 !! i = Some m -> knows (act (core w) c r) m).
      { intros l0 -> Hl. apply knows_act; [done..|by eapply I3]. }
      destruct c; try by eapply Hold. apply lookup_app_Some in Hi as [Hi|[_ Hi]]; [by eapply Hold|].
      apply list_elem_of_lookup_2, list_elem_of_In, in_map_iff in Hi as (local & <- & _).
      exists []. split; [done|apply accept_loop_careful].
    + intros id conn Hi. apply I4 in Hi as (H1 & H2 & H3). split_and!; [by apply granted_act|by apply knows_act|done].
  - pose proof (I3 _ _ Hi) as Hkn. constructor; simpl; [done|done| |].
    + intros j m Hj. apply list_lookup_insert_Some in Hj as [(-> & <- & _)|[_ Hj]]; [by eapply knows_next|by eapply I3].
    + by eapply spawn_ok.
  - constructor; simpl; [done..|]. intros j conn' Hj. apply lookup_insert_Some in Hj as [[-> <-]|[_ Hj]]; [|by eapply I4].
    destruct (I4 _ _ Hi) as (H1 & H2 & H3). rewrite Hm in H2, H3. split_and!; simpl; [done|by eapply knows_next|].
    destruct H3 as [_ H3]. apply H3.
Qed.

Lemma steps_inv w l w' : inv w -> steps w l w' -> inv w'.
Proof. induction 2; eauto using step_inv. Qed.

Lemma reachable_inv w : reachable w -> inv w.
Proof.
  intros (marker & fuel & l & Hs). eapply steps_inv; [|exact Hs]. constructor; simpl; [apply initial_ok|apply main_safe|done|].
  intros id conn Hi. by rewrite lookup_empty in Hi.
Qed.

(** ** At rest *)
Definition at_rest (c : ControllerCall) : Prop := match c with SleepUntil _ | Refresh | Debounce => True | _ => False end.

Definition under_current (w : World) (conn : Connection) : Prop :=
  (exists id, connections w !! id = Some conn) /\ of_generation conn = current_generation (shared (core w)).

(** C6. What is exposed, and to whom.  However the threads interleave,
    whenever the controller waits either nothing is exposed (no view, no
    loop accepting, the marker absent unless it could not be removed) and no
    connection is under the current generation; or the view exposed is that
    of the last status answered since the last notification, the loops
    accept at some of its addresses, the marker is present, and every
    connection under the current generation comes from a source on-link in
    it.  A wait for the next refresh then ends at most 125 seconds after the
    view was last confirmed.  Nothing is exposed either when the controller
    has returned because the notifications failed. *)
Theorem exposure_is_fresh w : reachable w ->
  let hidden := silent (core w) /\ forall conn, ~ under_current w conn in
  match controller w with
  | Act c _ => at_rest c -> hidden \/
      exists v complete confirmed, observed (core w) = Some (v, Some confirmed) /\ exposed (core w) v complete /\
        (forall conn, under_current w conn -> on_link v (source (info conn)) = true) /\
        match c with SleepUntil next => next <= confirmed + 125000 | _ => True end
  | Done (Some (Err _)) => hidden
  | Done _ => True
  end.
Proof.
  intros Hr hidden. destruct (reachable_inv w Hr) as [I1 I2 _ I4].
  assert (Hgranted : forall conn, under_current w conn ->
    exists p, last_published (core w) = Some p /\ generation p = current_generation (shared (core w)) /\
              on_link (view p) (source (info conn)) = true).
  { intros conn [[id Hid] Hg]. apply I4 in Hid as ([_ G] & _ & _). cbn [fst snd] in G. rewrite <- Hg. by apply G. }
  assert (Hquiet : silent (core w) -> forall conn, ~ under_current w conn).
  { intros [_ Hu _ _ _] conn Hconn. destruct (Hgranted conn Hconn) as (p & Hp & Hg & _). by apply Hu in Hp. }
  destruct (controller w) as [[[|e|]|]|c k]; [done| |done..|]; cbn [safe] in I2.
  { split; [done|]. by apply Hquiet. }
  intros Hrest. destruct I2 as (_ & Hres & _).
  assert (Hcase : silent (core w) \/ exists v complete confirmed, observed (core w) = Some (v, Some confirmed) /\
    exposed (core w) v complete /\ match c with SleepUntil next => next <= confirmed + 125000 | _ => True end).
  { destruct c; simpl in Hrest, Hres; try done; [| |by left].
    - destruct Hres as (state & [_ Hcons] & Hnext). destruct (published state) as [[v complete]|]; [|by left; destruct Hcons].
      destruct Hcons as (Ho & [t Ht] & [Hs|He]); [by left|right]. exists v, complete, t. rewrite Ho, Ht.
      split_and!; [done|done|]. apply Hnext in Ht. unfold STALE_AFTER, RETRY in Ht. lia.
    - destruct Hres as (state & _ & Hcons). destruct (published state) as [[v complete]|]; [|by left; destruct Hcons].
      destruct Hcons as (Ho & [t Ht] & [Hs|He]); [by left|right]. exists v, complete, t. by rewrite Ho, Ht. }
  destruct Hcase as [Hs|(v & complete & t & Ho & He & Ht)]; [by left; split; auto|right]. exists v, complete, t.
  split_and!; [done..| |done]. intros conn Hconn. destruct (Hgranted conn Hconn) as (p & Hp & _ & Hl).
  destruct He as [He _ _]. apply (ok_current _ I1) in He as [_ He]. rewrite Hp in He. by injection He as ->.
Qed.

(** ** After a withdrawal *)
Definition calls_of (id : nat) (l : list label) : list (event Task) :=
  omap (fun x => match x with ByConnection i e => if decide (i = id) then Some e else None | _ => None end) l.
Definition work_of (l : list (event Task)) : list (event Task) := List.filter (fun e => is_work (projT1 e)) l.

Lemma step_generation w l w' : inv w -> step w l w' ->
  current_generation (shared (core w)) <= current_generation (shared (core w')).
Proof. intros [I1 _ _ _]. destruct 1; simpl; [by apply generation_grows|lia..]. Qed.

Lemma refused_reply w g c (k : TaskReply c -> prog Task unit) r : g < current_generation (shared (core w)) ->
  about g (Act (S:=Task) c k) -> replies w c r -> refused c r.
Proof.
  intros Hg Ha Hr. destruct c; simpl in *; try done; rewrite Hr; unfold is_current; rewrite (proj2 (Z.eqb_neq _ _)); done || lia.
Qed.

Lemma withdrawn_run w l w' : inv w -> steps w l w' -> forall id conn p c, connections w !! id = Some conn ->
  of_generation conn < current_generation (shared (core w)) -> ending p c (program conn) ->
  (List.length (calls_of id l) <= c)%nat /\ (List.length (work_of (calls_of id l)) <= p)%nat.
Proof.
  intros Hi Hs. revert Hi. induction Hs as [w|w x w' l w'' Hstep Hs IH]; intros Hi id conn p c Hid Hg He; [simpl; lia|].
  pose proof (step_inv _ _ _ Hi Hstep) as Hi'. pose proof (step_generation _ _ _ Hi Hstep) as Hgrow. specialize (IH Hi').
  destruct Hstep as [call k r fuel Hc Hp|j call k r fuel new Hj Hr Hw Hnew|j conn' call k r Hj Hm Hr].
  - apply (IH id conn); simpl in *; [done|lia|done].
  - apply (IH id conn); simpl in *; [|lia|done]. destruct call; simpl; try done. rewrite lookup_insert_ne by congruence. done.
  - destruct (decide (j = id)) as [->|Hne].
    + rewrite Hid in Hj. injection Hj as <-. rewrite Hm in He. destruct He as (c' & -> & Hwork & Hk).
      destruct (inv_connections _ Hi _ _ Hid) as (_ & _ & Ho). rewrite Hm in Ho. destruct Ho as [[Ha _] _].
      assert (Hrefused : refused call r) by (by eapply refused_reply).
      specialize (IH id _ _ c' (lookup_insert_eq _ _ _) Hg (Hk r Hrefused)). unfold calls_of in *. cbn [omap list_omap].
      rewrite decide_True by done. unfold work_of in *. cbn [List.length List.filter projT1].
      destruct (is_work call) eqn:Ew; cbn [List.length]; [specialize (Hwork eq_refl)|]; lia.
    + unfold calls_of. cbn [omap list_omap]. rewrite decide_False by done. apply (IH id conn); simpl in *; [|lia|done].
      by rewrite lookup_insert_ne.
Qed.

(** C39. A connection of an earlier generation ends: from any moment at which
    its generation is not the current one, and however the threads
    interleave from there, its task takes at most six more steps, of which
    at most two are polls of its work. *)
Theorem withdrawn_connections_end w id conn l w' : reachable w -> connections w !! id = Some conn ->
  of_generation conn <> current_generation (shared (core w)) -> steps w l w' ->
  (List.length (calls_of id l) <= 6)%nat /\ (List.length (work_of (calls_of id l)) <= 2)%nat.
Proof.
  intros Hr Hid Hg Hs. pose proof (reachable_inv w Hr) as Hi. destruct (inv_connections _ Hi _ _ Hid) as ([Hle _] & _ & Ho).
  apply everywhere_here in Ho as [_ He]. eapply withdrawn_run; [done|done|done| |done]. cbn [fst] in Hle. lia.
Qed.
End Service.
End ListeningProps.
