(* ===== verification/ListeningExamples.v ===== *)
(** * The listening service at work

    A status, a client on the same network, and then a change of network. *)
From S2P Require Import Prelude IpAddr Network Programs Controller Server Listening ListeningCore ListeningProps.

Module ListeningExamples.
Import IpAddr Network Programs Controller Server Listening ListeningCore ListeningProps.

(** The status every refresh returns. *)
Definition from_str (json : string) : option StatusFields :=
  Some {| schema_version := SESSION_SCHEMA; primary_addresses := Some ["192.168.1.20/24"%string] |}.

Definition client : SocketAddr := (V4 3232235853, 40000).
Example client_address : display client.1 = "192.168.1.77"%string.
Proof. vm_compute. reflexivity. Qed.

Definition nothing : Ready := {| session_changed := None; network_changed := None |}.
Definition a_change : Ready := {| session_changed := None; network_changed := Some (Ok tt) |}.

(** Every effect succeeds; [ready] ends the waits for the next refresh. *)
Definition reply_of (ready : Ready) (s : Core) (c : ControllerCall) : ControllerReply c :=
  match c return ControllerReply c with
  | RemoveMarker | CreateMarker => true
  | ClearCurrent | BumpGeneration | WriteCurrent _ | Serve _ | Close => tt
  | ReadGeneration => current_generation (shared s)
  | Now => 7
  | Bind addresses => bound (listeners_bind addresses (listeners s))
  | SleepUntil _ => ready
  | Debounce => nothing
  | Refresh => (nothing, Ok "status"%string)
  end.

Definition task_reply (w : World) (c : TaskCall) : TaskReply c :=
  match c return TaskReply c with
  | Accept => Ok client
  | Admits g source => admits (shared (core w)) g source
  | TryAcquire => Nat.ltb 0 (available w)
  | IsCurrent g => is_current (shared (core w)) g
  | PollChanges g => negb (is_current (shared (core w)) g)
  | Choose => true
  | PollWork _ _ => false
  | Sleep _ | DropStream | Spawn _ _ | Pending | Release => tt
  end.

Lemma task_reply_ok w c : replies w c (task_reply w c).
Proof. by destruct c. Qed.

Definition turns : nat := 2.

(** One step of a program, with the replies above. *)
Inductive mover := Control (ready : Ready) | Loop (i : nat) | Client (id : nat).

Definition overflows (s : Core) (c : ControllerCall) : bool :=
  match c with BumpGeneration => negb (withdrawals s + 1 <? 2 ^ 64) | _ => false end.

Definition move (m : mover) (w : World) : option (label * World) :=
  match m with
  | Control ready =>
      match controller w with
      | Act c k =>
          if overflows (core w) c then None
          else
            let r := reply_of ready (core w) c in
            Some (ByController (existT c r), {|
              core := act from_str (core w) c r; available := available w;
              loops := match c with
                       | Serve g => (loops w ++ map (fun local => accept_loop turns local g) (bound (listeners (core w))))%list
                       | _ => loops w
                       end;
              connections := connections w; controller := k r |})
      | Done _ => None
      end
  | Loop i =>
      match loops w !! i, spawned (core w) !! i, connections w !! 0%nat with
      | Some (Act c k), Some a, None =>
          if waits c && aborted a then None
          else Some (ByLoop i (existT c (task_reply w c)), {|
            core := core w; available := available_after w c; loops := <[i := k (task_reply w c)]> (loops w);
            connections := spawned_by c turns 0 (connections w); controller := controller w |})
      | _, _, _ => None
      end
  | Client id =>
      match connections w !! id with
      | Some conn =>
          match program conn with
          | Act c k => Some (ByConnection id (existT c (task_reply w c)), {|
              core := core w; available := available_after w c; loops := loops w;
              connections := <[id := {| info := info conn; of_generation := of_generation conn; program := k (task_reply w c) |}]> (connections w);
              controller := controller w |})
          | Done _ => None
          end
      | None => None
      end
  end.

Lemma move_step m w l w' : move m w = Some (l, w') -> step from_str w l w'.
Proof.
  destruct m as [ready|i|id]; cbn [move].
  - destruct (controller w) as [|c k] eqn:Hc; [done|]. destruct (overflows (core w) c) eqn:Ho; [done|]. intros [= <- <-].
    apply (step_controller _ _ _ _ _ turns Hc). destruct c; try done; simpl in *.
    + apply negb_false_iff, Z.ltb_lt in Ho. done.
    + by eexists.
  - destruct (loops w !! i) as [[|c k]|] eqn:Hl; [done| |done]. destruct (spawned (core w) !! i) as [a|] eqn:Ha; [|done].
    destruct (connections w !! 0%nat) eqn:H0; [done|]. destruct (waits c && aborted a) eqn:Hw; [done|]. intros [= <- <-].
    apply (step_loop _ _ _ _ _ _ turns 0); [done|apply task_reply_ok| |done]. intros Hwait. exists a. split; [done|].
    rewrite Hwait in Hw. by destruct (aborted a).
  - destruct (connections w !! id) as [conn|] eqn:Hid; [|done]. destruct (program conn) as [|c k] eqn:Hp; [done|].
    intros [= <- <-]. apply step_connection; [done|done|apply task_reply_ok].
Qed.

Fixpoint moves (ms : list mover) (w : World) : option (list label * World) :=
  match ms with
  | [] => Some ([], w)
  | m :: ms => '(l, w') ← move m w; '(ls, w'') ← moves ms w'; Some (l :: ls, w'')
  end.

Lemma moves_steps ms : forall w ls w', moves ms w = Some (ls, w') -> steps from_str w ls w'.
Proof.
  induction ms as [|m ms IH]; intros w ls w'; simpl; [intros [= <- <-]; constructor|].
  destruct (move m w) as [[l w1]|] eqn:Hm; [|done]. cbn. destruct (moves ms w1) as [[ls2 w2]|] eqn:Hms; [|done].
  cbn. intros [= <- <-]. econstructor; [by eapply move_step|by apply IH].
Qed.

Definition after (ms : list mover) (w : World) : World := match moves ms w with Some (_, w) => w | None => w end.
Definition labels (ms : list mover) (w : World) : list label := match moves ms w with Some (ls, _) => ls | None => [] end.

Lemma moves_after ms w : is_Some (moves ms w) -> steps from_str w (labels ms w) (after ms w).
Proof. intros [[ls w'] H]. unfold labels, after. rewrite H. by eapply moves_steps. Qed.

(** The controller exposes the view, and a client connects and is served. *)
Definition start : World := initial from_str true 5.
Definition serving : World :=
  after (replicate 14 (Control nothing) ++ replicate 4 (Loop 0) ++ replicate 3 (Client 0)) start.

Example serving_moves : is_Some (moves (replicate 14 (Control nothing) ++ replicate 4 (Loop 0) ++ replicate 3 (Client 0)) start).
Proof. vm_compute. by eexists. Qed.

Lemma after_reachable ms w : reachable from_str w -> is_Some (moves ms w) -> reachable from_str (after ms w).
Proof.
  intros (marker & fuel & l & Hs) Hm. exists marker, fuel, (l ++ labels ms w)%list.
  apply moves_after in Hm. revert Hm. generalize (labels ms w) (after ms w). intros ls w' Hm. induction Hs as [|w0 x w1 l w2 Hstep Hs IH]; [done|]. econstructor; [done|by apply IH].
Qed.

Lemma serving_reachable : reachable from_str serving.
Proof. apply after_reachable; [exists true, 5%nat, []; constructor|apply serving_moves]. Qed.

(** What is exposed then, and to whom. *)
Example serving_state :
  marker (core serving) = true /\ available serving = 63%nat /\
  (match controller serving with Act (SleepUntil next) _ => Some next | _ => None end) = Some 60007 /\
  (current (shared (core serving)) ≫= fun p => Some (generation p)) = Some 1.
Proof. vm_compute. done. Qed.

Lemma exposure_is_fresh_witness : marker (core serving) = true /\
  let hidden := silent (core serving) /\ forall conn, ~ under_current serving conn in
  match controller serving with
  | Act c _ => at_rest c -> hidden \/
      exists v complete confirmed, observed (core serving) = Some (v, Some confirmed) /\ exposed (core serving) v complete /\
        (forall conn, under_current serving conn -> on_link v (source (info conn)) = true) /\
        match c with SleepUntil next => next <= confirmed + 125000 | _ => True end
  | Done (Some (Err _)) => hidden
  | Done _ => True
  end.
Proof. split; [vm_compute; reflexivity|]. exact (exposure_is_fresh from_str serving serving_reachable). Defined.

(** The network changes: the client's task has two more steps to take. *)
Definition changing : list mover := Control a_change :: replicate 4 (Control nothing).
Definition changed_world : World := after changing serving.
Definition ended : list label := labels [Client 0; Client 0] changed_world.
Definition ended_world : World := after [Client 0; Client 0] changed_world.

Lemma changed_reachable : reachable from_str changed_world.
Proof. apply after_reachable; [exact serving_reachable|]. vm_compute. by eexists. Qed.

Lemma ended_steps : steps from_str changed_world ended ended_world.
Proof.
  apply moves_after. vm_compute. by eexists.
Qed.

Example client_generation : (of_generation <$> connections changed_world !! 0%nat) = Some 1.
Proof. vm_compute. reflexivity. Qed.
Example changed_generation : current_generation (shared (core changed_world)) = 2.
Proof. vm_compute. reflexivity. Qed.

Lemma withdrawn_connections_end_witness : exists conn, connections changed_world !! 0%nat = Some conn /\
  (List.length (calls_of 0 ended) <= 6)%nat /\ (List.length (work_of (calls_of 0 ended)) <= 2)%nat.
Proof.
  pose proof client_generation as Hg. destruct (connections changed_world !! 0%nat) as [conn|] eqn:Hc; [|discriminate Hg].
  exists conn. split; [reflexivity|]. injection Hg as Hg.
  apply (withdrawn_connections_end from_str changed_world 0 conn ended ended_world changed_reachable Hc); [|exact ended_steps].
  rewrite Hg, changed_generation. discriminate.
Defined.
End ListeningExamples.
