(* ===== verification/AuthService.v ===== *)
(** * The authentication service ([authd/src/service.rs])

    Admission, the lock around the state machine, the methods of the bus
    interface and their errors. *)
From S2P Require Import Prelude Text Hash Store Machine MachineSpec Programs.

Module AuthService.
Import Text Hash Store Machine MachineSpec Programs.
#[local] Open Scope prog_scope.

(** One active Argon2id operation plus a queue of 4. *)
Definition MAX_ADMITTED : nat := 5.

(** ** Errors *)
Module AuthError.
Inductive t :=
  | NotEnrolled (message : string)
  | EnrollmentUnconfirmed (message : string)
  | AlreadyEnrolled (message : string)
  | NoPendingPairing (message : string)
  | InvalidPairingCode (message : string)
  | PairingAttemptsExhausted (message : string)
  | NoProvisionalEnrollment (message : string)
  | ConfirmationExpired (message : string)
  | InvalidCredential (message : string)
  | PasswordRejected (message : string)
  | RateLimited (message : string)
  | Busy (message : string)
  | InvalidArgument (message : string)
  | Unavailable (message : string)
  | ZBus.

(** The names derived by [DBusError] from the prefix and the variants; the
    payload of [ZBus] has a name of its own, which no method returns. *)
Definition variant (e : t) : option string :=
  match e with
  | NotEnrolled _ => Some "NotEnrolled"
  | EnrollmentUnconfirmed _ => Some "EnrollmentUnconfirmed"
  | AlreadyEnrolled _ => Some "AlreadyEnrolled"
  | NoPendingPairing _ => Some "NoPendingPairing"
  | InvalidPairingCode _ => Some "InvalidPairingCode"
  | PairingAttemptsExhausted _ => Some "PairingAttemptsExhausted"
  | NoProvisionalEnrollment _ => Some "NoProvisionalEnrollment"
  | ConfirmationExpired _ => Some "ConfirmationExpired"
  | InvalidCredential _ => Some "InvalidCredential"
  | PasswordRejected _ => Some "PasswordRejected"
  | RateLimited _ => Some "RateLimited"
  | Busy _ => Some "Busy"
  | InvalidArgument _ => Some "InvalidArgument"
  | Unavailable _ => Some "Unavailable"
  | ZBus => None
  end%string.

Definition name (e : t) : option string := (fun v => "org.signallayer.Auth1.Error" +:+ "." +:+ v) <$> variant e.
End AuthError.

Definition to_dbus (failure : Failure) : AuthError.t :=
  match failure with
  | NotEnrolled => AuthError.NotEnrolled "No operator is enrolled"
  | EnrollmentUnconfirmed => AuthError.EnrollmentUnconfirmed "A provisional enrollment awaits recovery-key confirmation"
  | AlreadyEnrolled => AuthError.AlreadyEnrolled "An operator is already enrolled"
  | NoPendingPairing => AuthError.NoPendingPairing "No pairing is pending"
  | InvalidPairingCode => AuthError.InvalidPairingCode "The pairing code is incorrect"
  | PairingAttemptsExhausted =>
      AuthError.PairingAttemptsExhausted "Too many incorrect pairing codes; the pairing was cancelled"
  | NoProvisionalEnrollment => AuthError.NoProvisionalEnrollment "No provisional enrollment awaits confirmation"
  | ConfirmationExpired =>
      AuthError.ConfirmationExpired "The confirmation deadline passed; the provisional enrollment was discarded"
  | InvalidCredential => AuthError.InvalidCredential "The credential is incorrect"
  | PasswordRejected => AuthError.PasswordRejected "The new password does not meet the password rules"
  | RateLimited => AuthError.RateLimited "Too many attempts; try again later"
  | Busy => AuthError.Busy "Authentication is busy; try again"
  | InvalidArgument => AuthError.InvalidArgument "An argument is invalid"
  | Unavailable => AuthError.Unavailable "Authentication state is unavailable"
  end%string.

(** [{failure:?}] *)
Definition debug (failure : Failure) : string :=
  match failure with
  | NotEnrolled => "NotEnrolled" | EnrollmentUnconfirmed => "EnrollmentUnconfirmed" | AlreadyEnrolled => "AlreadyEnrolled"
  | NoPendingPairing => "NoPendingPairing" | InvalidPairingCode => "InvalidPairingCode"
  | PairingAttemptsExhausted => "PairingAttemptsExhausted" | NoProvisionalEnrollment => "NoProvisionalEnrollment"
  | ConfirmationExpired => "ConfirmationExpired" | InvalidCredential => "InvalidCredential"
  | PasswordRejected => "PasswordRejected" | RateLimited => "RateLimited" | Busy => "Busy"
  | InvalidArgument => "InvalidArgument" | Unavailable => "Unavailable"
  end%string.

Definition outcome {A} (result : res A Failure) : string :=
  match result with Err failure => debug failure | _ => "ok"%string end.

Definition event_line {A} (method : string) (uid : option Z) (result : res A Failure) : string :=
  match uid with
  | Some uid => "sl-authd: " +:+ method +:+ " uid=" +:+ display_unsigned uid +:+ ": " +:+ outcome result
  | None => "sl-authd: " +:+ method +:+ ": " +:+ outcome result
  end.

(** ** The methods

    [Admit] is [Shared::admit], [WithCore] the body of [spawn_blocking]: the
    lock, the operation of the core (an [Op] of [MachineSpec.v]) and the
    release of the lock. *)
Inductive AuthCall :=
  | Admit
  | DropPermit
  | SenderUid
  | WithCore (operation : Op)
  | Log (line : string).

Definition AuthReply (c : AuthCall) : Type :=
  match c with
  | Admit => bool
  | DropPermit | Log _ => unit
  | SenderUid => option Z
  | WithCore _ => res Reply Failure
  end.

Definition Auth : Signature := {| call := AuthCall; reply := AuthReply |}.
Definition ask (c : AuthCall) : prog Auth (AuthReply c) := perform (S:=Auth) c.

Definition admit_request (method : string) : prog Auth (res unit AuthError.t) :=
  let! admitted := ask Admit in
  if admitted : bool then Programs.Done (Ok tt)
  else
    do! ask (Log (event_line (A:=unit) method None (Err Busy))) in
    Programs.Done (Err (to_dbus Busy)).

(** [run]; the permit, where there is one, is dropped with the closure. *)
Definition run (method : string) (uid : option Z) (permit : bool) (operation : Op) : prog Auth (res Reply AuthError.t) :=
  let! result := ask (WithCore operation) in
  do! (if permit then ask DropPermit else Programs.Done tt) in
  do! ask (Log (event_line method uid result)) in
  Programs.Done (map_err to_dbus result).

Definition verify_password (password : string) : prog Auth (res Reply AuthError.t) :=
  let? _ := admit_request "VerifyPassword" in
  let! uid := ask SenderUid in
  match uid with
  | None => do! ask DropPermit in Programs.Done (Err (to_dbus Unavailable))
  | Some uid => run "VerifyPassword" (Some uid) true (VerifyPassword uid password)
  end.

Definition consume_pairing (pairing_code new_password : string) : prog Auth (res Reply AuthError.t) :=
  let? _ := admit_request "ConsumePairing" in
  run "ConsumePairing" None true (ConsumePairing pairing_code new_password).

Definition confirm_recovery_key (recovery_key : string) : prog Auth (res Reply AuthError.t) :=
  let? _ := admit_request "ConfirmRecoveryKey" in
  run "ConfirmRecoveryKey" None true (ConfirmRecoveryKey recovery_key).

Definition recover_password (recovery_key new_password : string) : prog Auth (res Reply AuthError.t) :=
  let? _ := admit_request "RecoverPassword" in
  run "RecoverPassword" None true (RecoverPassword recovery_key new_password).

Definition ensure_pending_pairing := run "EnsurePendingPairing" None false EnsurePendingPairing.
Definition cancel_pending_pairing := run "CancelPendingPairing" None false CancelPendingPairing.
Definition reset_enrollment := run "ResetEnrollment" None false ResetEnrollment.
Definition get_pending_pairing := run "GetPendingPairing" None false GetPendingPairing.
Definition get_enrollment_state := run "GetEnrollmentState" None false GetEnrollmentState.

(** The dispatch of the bus interface: the method called, with its
    arguments. *)
Inductive Request :=
  | CallVerifyPassword (password : string)
  | CallConsumePairing (pairing_code new_password : string)
  | CallConfirmRecoveryKey (recovery_key : string)
  | CallRecoverPassword (recovery_key new_password : string)
  | CallEnsurePendingPairing
  | CallCancelPendingPairing
  | CallResetEnrollment
  | CallGetPendingPairing
  | CallGetEnrollmentState.

Definition serve (r : Request) : prog Auth (res Reply AuthError.t) :=
  match r with
  | CallVerifyPassword password => verify_password password
  | CallConsumePairing code password => consume_pairing code password
  | CallConfirmRecoveryKey key => confirm_recovery_key key
  | CallRecoverPassword key password => recover_password key password
  | CallEnsurePendingPairing => ensure_pending_pairing
  | CallCancelPendingPairing => cancel_pending_pairing
  | CallResetEnrollment => reset_enrollment
  | CallGetPendingPairing => get_pending_pairing
  | CallGetEnrollmentState => get_enrollment_state
  end.

(** ** The service at work *)
Section Service.
Context {D : Type} `{StoreOps D} `{Hasher} (env : Env).

(** [Shared]: the core behind its lock, which a panic poisons, and the
    number of admitted requests. *)
Record Shared := { core : Core D; poisoned : bool; admitted : nat }.

(** [fetch_update] of [Shared::admit] *)
Definition fetch_admit (s : Shared) : bool * Shared :=
  if Nat.ltb (admitted s) MAX_ADMITTED
  then (true, {| core := core s; poisoned := poisoned s; admitted := S (admitted s) |})
  else (false, s).

(** [Permit::drop] *)
Definition drop_permit (s : Shared) : Shared :=
  {| core := core s; poisoned := poisoned s; admitted := Nat.pred (admitted s) |}.

(** [Shared::with_core] in its task: a panic poisons the lock, and reaches
    the caller as [Unavailable]. *)
Definition with_core (o : Op) (s : Shared) : res Reply Failure * Shared :=
  if poisoned s then (Err Unavailable, s)
  else
    let (r, c) := run_op env o (core s) in
    match r with
    | Panic => (Err Unavailable, {| core := c; poisoned := true; admitted := admitted s |})
    | r => (r, {| core := c; poisoned := false; admitted := admitted s |})
    end.

(** The requests in progress. *)
Record World := { shared : Shared; pool : gmap nat (prog Auth (res Reply AuthError.t)) }.

Definition effect (s : Shared) (c : AuthCall) : AuthReply c -> Shared -> Prop :=
  match c return AuthReply c -> Shared -> Prop with
  | Admit => fun r s' => fetch_admit s = (r, s')
  | DropPermit => fun _ s' => s' = drop_permit s
  | WithCore o => fun r s' => with_core o s = (r, s')
  | SenderUid | Log _ => fun _ s' => s' = s
  end.

(** A request arrives, makes a call, or is cancelled: a future dropped while
    it asks for the sender drops its permit, and one dropped later leaves
    its task to finish. *)
Inductive step (w : World) : option (nat * event Auth) -> World -> Prop :=
  | step_request i r : pool w !! i = None ->
      step w None {| shared := shared w; pool := <[i := serve r]> (pool w) |}
  | step_call i c k (r : AuthReply c) s : pool w !! i = Some (Act (S:=Auth) c k) -> effect (shared w) c r s ->
      step w (Some (i, existT c r)) {| shared := s; pool := <[i := k r]> (pool w) |}
  | step_cancel i k : pool w !! i = Some (Act (S:=Auth) SenderUid k) ->
      step w None {| shared := shared w; pool := <[i := k None]> (pool w) |}.

Definition start (c : Core D) : World := {| shared := {| core := c; poisoned := false; admitted := 0 |}; pool := ∅ |}.

Inductive reach (c : Core D) : list (nat * event Auth) -> World -> Prop :=
  | reach_start : reach c [] (start c)
  | reach_step l w o w' : reach c l w -> step w o w' -> reach c (l ++ match o with Some e => [e] | None => [] end) w'.
End Service.
End AuthService.
