(* ===== verification/AuthServiceProps.v ===== *)
(** * Admission and order of the authentication requests *)
From S2P Require Import Prelude Hash Store Machine MachineFacts MachineSpec MachineProps Programs AuthService.

Module AuthServiceProps.
Import Hash Store Machine MachineFacts MachineSpec MachineProps Programs AuthService.

(** ** Who holds a permit, by the record of the calls *)
Definition held_after (holders : gset nat) (e : nat * event Auth) : gset nat :=
  let '(i, existT c r) := e in
  match c return AuthReply c -> gset nat with
  | Admit => fun admitted => if admitted then {[i]} ∪ holders else holders
  | DropPermit => fun _ => holders ∖ {[i]}
  | _ => fun _ => holders
  end r.

Definition holders (l : list (nat * event Auth)) : gset nat := foldl held_after ∅ l.

Lemma permit_holders_snoc l e : holders (l ++ [e]) = held_after (holders l) e.
Proof. unfold holders. by rewrite foldl_app. Qed.

(** The operations that hash. *)
Definition costly (o : Op) : bool :=
  match o with
  | VerifyPassword _ _ | ConsumePairing _ _ | ConfirmRecoveryKey _ | RecoverPassword _ _ => true
  | _ => false
  end.

Definition hashes (c : AuthCall) : bool := match c with WithCore o => costly o | _ => false end.

(** ** The discipline of a method *)
Definition allowed (held : bool) (c : AuthCall) : Prop :=
  match c with
  | Admit => held = false
  | DropPermit | SenderUid => held = true
  | WithCore o => costly o = true -> held = true
  | Log _ => True
  end.

Definition held_then (held : bool) (c : AuthCall) : AuthReply c -> bool :=
  match c return AuthReply c -> bool with
  | Admit => fun admitted => admitted
  | DropPermit => fun _ => false
  | _ => fun _ => held
  end.

Fixpoint disciplined {A} (held : bool) (m : prog Auth A) : Prop :=
  match m with
  | Programs.Done _ => held = false
  | Act c k => allowed held c /\ forall r, disciplined (held_then held c r) (k r)
  end.

Lemma request_disciplined r : disciplined false (serve r).
Proof.
  destruct r; cbn; (split; [done|]); intros []; cbn; try done; (split; [done|]); intros; repeat case_match; cbn; try done;
    repeat (split; [done|]; intros; cbn); done.
Qed.

(** ** The invariant *)
Section Service.
Context {D : Type} `{StoreLaws D} `{HR : Hasher} (env : Env).
Context {HL : HasherLaws store_valid_hash} {EL : EnvLaws env}.
#[local] Abbreviation reach := (reach env).
#[local] Abbreviation step := (step env).

Record inv (l : list (nat * event Auth)) (w : World (D:=D)) : Prop := {
  inv_admitted : admitted (shared w) = size (holders l);
  inv_bounded : (size (holders l) <= MAX_ADMITTED)%nat;
  inv_present i : i ∈ holders l -> is_Some (pool w !! i);
  inv_disciplined i m : pool w !! i = Some m -> disciplined (bool_decide (i ∈ holders l)) m
}.

Lemma with_core_admitted o (s s' : Shared (D:=D)) r : with_core env o s = (r, s') -> admitted s' = admitted s.
Proof.
  unfold with_core. destruct (poisoned s); [by intros [= <- <-]|]. destruct (run_op env o (core s)) as [[]];
    by intros [= <- <-].
Qed.

(** What a call does to the count and to the permit of its maker. *)
Lemma call_admission l i (s s' : Shared (D:=D)) c (r : AuthReply c) :
  allowed (bool_decide (i ∈ holders l)) c -> effect env s c r s' ->
  admitted s = size (holders l) -> (size (holders l) <= MAX_ADMITTED)%nat ->
  let after := held_after (holders l) (i, existT c r) in
  admitted s' = size after /\ (size after <= MAX_ADMITTED)%nat /\
  bool_decide (i ∈ after) = held_then (bool_decide (i ∈ holders l)) c r /\ forall j, j <> i -> j ∈ after <-> j ∈ holders l.
Proof.
  intros Ha He Hn Hb. destruct c; simpl in *; subst; try done.
  - apply bool_decide_eq_false in Ha. unfold fetch_admit in He. destruct (Nat.ltb_spec (admitted s) MAX_ADMITTED); injection He as <- <-.
    + rewrite size_union, size_singleton by set_solver. simpl. rewrite Hn. split_and!; [lia|lia| |set_solver].
      apply bool_decide_eq_true. set_solver.
    + split_and!; [done|done| |done]. by apply bool_decide_eq_false.
  - apply bool_decide_eq_true in Ha. simpl. rewrite size_difference, size_singleton by set_solver.
    split_and!; [lia|lia| |set_solver]. apply bool_decide_eq_false. set_solver.
  - split_and!; [|done|done|done]. rewrite <- Hn. by eapply with_core_admitted.
Qed.

Lemma service_step_inv l w o w' : inv l w -> step w o w' -> inv (l ++ match o with Some e => [e] | None => [] end) w'.
Proof.
  intros [I1 I2 I3 I4] Hs. destruct Hs as [i r Hi|i c k r s Hi He|i k Hi]; rewrite ?app_nil_r.
  - constructor; simpl; [done|done| |].
    + intros j Hj. apply I3 in Hj. rewrite lookup_insert_is_Some'. by right.
    + intros j m Hj. apply lookup_insert_Some in Hj as [[-> <-]|[_ Hj]]; [|by apply I4].
      rewrite bool_decide_false; [apply request_disciplined|]. intros Hin. apply I3 in Hin as [m Hm]. congruence.
  - destruct (I4 _ _ Hi) as [Ha Hk]. destruct (call_admission l i _ _ _ r Ha He I1 I2) as (A1 & A2 & A3 & A4).
    constructor; simpl; rewrite permit_holders_snoc; [done|done| |].
    + intros j Hj. rewrite lookup_insert_is_Some'. destruct (decide (i = j)) as [->|Hne]; [by left|right].
      apply I3. by apply A4 in Hj.
    + intros j m Hj. apply lookup_insert_Some in Hj as [[-> <-]|[Hne Hj]]; [rewrite A3; apply Hk|].
      rewrite (bool_decide_ext _ (j ∈ holders l)) by (by apply A4). by apply I4.
  - destruct (I4 _ _ Hi) as [Ha Hk]. constructor; simpl; [done|done| |].
    + intros j Hj. apply I3 in Hj. rewrite lookup_insert_is_Some'. by right.
    + intros j m Hj. apply lookup_insert_Some in Hj as [[-> <-]|[_ Hj]]; [apply (Hk None)|by apply I4].
Qed.

Lemma service_inv c l w : reach c l w -> inv l w.
Proof.
  induction 1 as [|l w o w' Hr IH Hs]; [|by eapply service_step_inv].
  constructor; cbn; [done|unfold MAX_ADMITTED; rewrite size_empty; lia|by intros i Hi%elem_of_empty|done].
Qed.

(** ** One after the other *)

(** The operations performed, with their results, in the order of the lock. *)
Definition operation_of (e : nat * event Auth) : option (Op * res Reply Failure) :=
  let '(_, existT c r) := e in
  match c return AuthReply c -> option (Op * res Reply Failure) with
  | WithCore o => fun r => Some (o, r)
  | _ => fun _ => None
  end r.

Definition performed (l : list (nat * event Auth)) : list (Op * res Reply Failure) := omap operation_of l.

Lemma run_all_snoc ops o c : run_all env (ops ++ [o]) c =
  let (trace, c1) := run_all env ops c in let (r, c2) := run_op env o c1 in ((trace ++ [(o, r)])%list, c2).
Proof.
  revert c. induction ops as [|o1 ops IH]; intros c; cbn [app run_all]; [by destruct (run_op env o c)|].
  destruct (run_op env o1 c) as [r1 c1]. rewrite IH. destruct (run_all env ops c1) as [t c2]. by destruct (run_op env o c2).
Qed.

(** No operation panics, so the lock is never poisoned. *)
Lemma reach_sequential c l w : wf c -> reach c l w ->
  poisoned (shared w) = false /\ wf (core (shared w)) /\
  run_all env (map fst (performed l)) c = (performed l, core (shared w)).
Proof.
  intros W. induction 1 as [|l w o w' Hr (IH1 & IH2 & IH3) Hs]; [done|]. unfold performed in *. rewrite omap_app, map_app.
  destruct Hs as [i r Hi|i call k r s Hi He|i k Hi]; simpl; rewrite ?app_nil_r; try done.
  destruct call as [| | |o|line]; simpl in He |- *; rewrite ?app_nil_r; try (by subst).
  - unfold fetch_admit in He. destruct (Nat.ltb _ _); by injection He as <- <-.
  - unfold with_core in He. rewrite IH1 in He. destruct (run_op env o (core (shared w))) as [r1 c1] eqn:Hop.
    destruct (run_refines env _ _ _ _ IH2 Hop) as (W1 & Hp & _).
    assert (He' : r = r1 /\ poisoned s = false /\ core s = c1) by (destruct r1; simplify_eq; done).
    destruct He' as (-> & -> & ->). split_and!; [done|done|]. rewrite run_all_snoc, IH3, Hop. done.
Qed.

Lemma hashing_guarded c l w : reach c l w -> forall before i call r after,
  l = (before ++ (i, existT call r) :: after)%list -> hashes call = true -> i ∈ holders before.
Proof.
  induction 1 as [|l w o w' Hr IH Hs]; intros before i call r after Hl Hh; [by destruct before|].
  pose proof (service_inv _ _ _ Hr) as I.
  destruct Hs as [j r' Hj|j call2 k r' s Hj Heff|j k Hj]; rewrite ?app_nil_r in Hl; try by eapply IH.
  apply snoc_split in Hl as [[-> He]|[after' ->]]; [|by eapply IH].
  pose proof (f_equal fst He) as Hi. pose proof (f_equal (fun e : nat * event Auth => projT1 e.2) He) as Hc. simpl in Hi, Hc. subst.
  destruct (inv_disciplined _ _ I _ _ Hj) as [Ha _]. destruct call2; try done. simpl in Ha, Hh.
  apply (bool_decide_eq_true_1 _ (Ha Hh)).
Qed.

(** C11. The admission and the order of the requests.  However any number of
    requests arrive, interleave and are cancelled: the count of admitted
    requests is that of the requests that hold a permit, which is at most
    five; every operation that hashes is performed by a request that holds
    one; a request that has returned holds none; the lock is never poisoned;
    and the core is where the operations performed so far leave it when they
    are done one after the other, each with the result its request got. *)
Theorem requests_are_ordered c l w : wf c -> reach c l w ->
  admitted (shared w) = size (holders l) /\ (size (holders l) <= MAX_ADMITTED)%nat /\
  (forall before i call r after, l = (before ++ (i, existT call r) :: after)%list -> hashes call = true -> i ∈ holders before) /\
  (forall i r, pool w !! i = Some (Programs.Done r) -> i ∉ holders l) /\
  poisoned (shared w) = false /\ run_all env (map fst (performed l)) c = (performed l, core (shared w)).
Proof.
  intros W Hr. pose proof (service_inv _ _ _ Hr) as I. split_and!.
  - apply (inv_admitted _ _ I).
  - apply (inv_bounded _ _ I).
  - by eapply hashing_guarded.
  - intros i r Hi. apply (inv_disciplined _ _ I) in Hi. simpl in Hi. by apply bool_decide_eq_false in Hi.
  - apply (reach_sequential _ _ _ W Hr).
  - apply (reach_sequential _ _ _ W Hr).
Qed.
End Service.
End AuthServiceProps.
