(* ===== verification/Peers.v ===== *)
(** * The peers of the remote server ([remoted/src/peers.rs])

    The calls to the authentication and session services, and what a failed
    one means. *)
From S2P Require Import Prelude Programs.

Module Peers.
Import Programs.

Definition AUTH_BUS : string := "org.signallayer.Auth1".
Definition AUTH_PATH : string := "/org/signallayer/Auth1".
Definition AUTH_ERROR_PREFIX : string := "org.signallayer.Auth1.Error.".
Definition SESSION_BUS : string := "org.signallayer.Session1".
Definition SESSION_PATH : string := "/org/signallayer/Session1".
Definition AUTH_TIMEOUT : Z := 30000.
Definition SESSION_TIMEOUT : Z := 20000.

Module AuthFailure.
Inductive t :=
  | NotEnrolled | EnrollmentUnconfirmed | AlreadyEnrolled | NoPendingPairing | InvalidPairingCode
  | PairingAttemptsExhausted | NoProvisionalEnrollment | ConfirmationExpired | InvalidCredential
  | PasswordRejected | RateLimited | Busy | InvalidArgument | Unavailable.
End AuthFailure.

#[export] Instance AuthFailure_eq_dec : EqDecision AuthFailure.t.
Proof. solve_decision. Defined.

Definition from_error_name (name : string) : AuthFailure.t :=
  match strip_prefix AUTH_ERROR_PREFIX name with
  | Some code =>
      if String.eqb code "NotEnrolled" then AuthFailure.NotEnrolled
      else if String.eqb code "EnrollmentUnconfirmed" then AuthFailure.EnrollmentUnconfirmed
      else if String.eqb code "AlreadyEnrolled" then AuthFailure.AlreadyEnrolled
      else if String.eqb code "NoPendingPairing" then AuthFailure.NoPendingPairing
      else if String.eqb code "InvalidPairingCode" then AuthFailure.InvalidPairingCode
      else if String.eqb code "PairingAttemptsExhausted" then AuthFailure.PairingAttemptsExhausted
      else if String.eqb code "NoProvisionalEnrollment" then AuthFailure.NoProvisionalEnrollment
      else if String.eqb code "ConfirmationExpired" then AuthFailure.ConfirmationExpired
      else if String.eqb code "InvalidCredential" then AuthFailure.InvalidCredential
      else if String.eqb code "PasswordRejected" then AuthFailure.PasswordRejected
      else if String.eqb code "RateLimited" then AuthFailure.RateLimited
      else if String.eqb code "Busy" then AuthFailure.Busy
      else if String.eqb code "InvalidArgument" then AuthFailure.InvalidArgument
      else AuthFailure.Unavailable
  | None => AuthFailure.Unavailable
  end.

(** What a call on the bus comes to: a reply, an error with a name, another
    error of the bus, or the deadline. *)
Inductive Outcome (R : Type) := Replied (reply : R) | MethodError (name : string) | BusError | Elapsed.
Arguments Replied {R} reply.
Arguments MethodError {R} name.
Arguments BusError {R}.
Arguments Elapsed {R}.

(** [BusAuth::call] *)
Definition auth_call {R} (outcome : Outcome R) : R + AuthFailure.t :=
  match outcome with
  | Replied reply => inl reply
  | MethodError name => inr (from_error_name name)
  | _ => inr AuthFailure.Unavailable
  end.

(** [BusSession::status] *)
Definition session_status (outcome : Outcome string) : option string :=
  match outcome with Replied status => Some status | _ => None end.

(** [SessionOwnerEvents::changed], of what the stream yields *)
Definition owner_changed {A} (next : option A) : res unit unit :=
  match next with Some _ => Ok tt | None => Err tt end.
End Peers.
