(* ===== verification/Http.v ===== *)
(** * The remote API ([remoted/src/http.rs])

    The router, its two layers and the handlers, as programs of the calls
    they make. *)
From S2P Require Import Prelude Text IpAddr Network Programs Controller Server Sessions Peers.

Module Http.
Import Text IpAddr Network Programs Controller Server Peers.
#[local] Open Scope prog_scope.

Definition BODY_LIMIT : Z := 4096.
Definition PASSWORD_MAX_BYTES : Z := 1024.
Definition CODE_MAX_BYTES : Z := 64.
Definition COOKIE_NAME : string := "__Host-sl_session".
Definition CONTENT_SECURITY_POLICY : string :=
  "default-src 'self'; script-src 'self'; style-src 'self'; img-src 'self'; connect-src 'self'; base-uri 'none'; form-action 'none'; frame-ancestors 'none'".

(** ** Requests and responses

    A request as the server hands it over; its body is read by a call. *)
Inductive Method := GET | HEAD | POST | OtherMethod.

Record HttpRequest := {
  method : Method;
  path : string;
  authority : option string;
  headers : list (string * list Z);
  conn : option ConnInfo
}.

Record Response := { status : Z; response_headers : list (string * string); body : string }.

(** [HeaderMap::get_all], [HeaderMap::insert], of lower-case names *)
Definition get_all (name : string) (h : list (string * list Z)) : list (list Z) :=
  map snd (List.filter (fun e => String.eqb e.1 name) h).
Definition insert_header (name value : string) (r : Response) : Response := {|
  status := status r;
  response_headers := (name, value) :: List.filter (fun e => negb (String.eqb e.1 name)) (response_headers r);
  body := body r |}.

(** [HeaderValue::to_str]: visible ASCII, and tabs *)
Definition to_str (value : list Z) : option string :=
  if forallb (fun b => in_range 32 126 b || (b =? 9)) value then Some (string_of value) else None.

(** ** The calls of the handlers *)
Inductive HttpCall :=
  | ReadBody (limit : Z)
  | ConsumePairing (pairing_code password : string)
  | ConfirmRecoveryKey (recovery_key : string)
  | VerifyPassword (password : string)
  | CreateSession
  | ValidateSession (id : string)
  | RemoveSession (id : string)
  | GetStatus
  | Log (line : string).

Definition HttpReply (c : HttpCall) : Type :=
  match c with
  | ReadBody _ => option (list Z)
  | ConsumePairing _ _ => string + AuthFailure.t
  | ConfirmRecoveryKey _ | VerifyPassword _ => unit + AuthFailure.t
  | CreateSession => option string
  | ValidateSession _ => bool
  | RemoveSession _ | Log _ => unit
  | GetStatus => option string
  end.

Definition Http : Signature := {| call := HttpCall; reply := HttpReply |}.
Definition ask (c : HttpCall) : prog Http (HttpReply c) := perform (S:=Http) c.

(** ** Responses *)
Definition error (status : Z) (code : string) : Response := {|
  status := status;
  response_headers := [("content-type", "application/json")]%string;
  body := string_of [123; 34] +:+ "error" +:+ string_of [34; 58; 34] +:+ code +:+ string_of [34; 125] |}.

Definition no_content : Response := {| status := 204; response_headers := []; body := "" |}.
Definition content (content_type body : string) : Response :=
  {| status := 200; response_headers := [("content-type"%string, content_type)]; body := body |}.

Definition auth_error (failure : AuthFailure.t) : Response * string :=
  let '(status, code) :=
    match failure with
    | AuthFailure.NotEnrolled => (409, "not_enrolled")
    | AuthFailure.EnrollmentUnconfirmed => (409, "enrollment_unconfirmed")
    | AuthFailure.AlreadyEnrolled => (409, "already_enrolled")
    | AuthFailure.NoPendingPairing => (409, "no_pending_pairing")
    | AuthFailure.InvalidPairingCode => (403, "invalid_pairing_code")
    | AuthFailure.PairingAttemptsExhausted => (403, "pairing_attempts_exhausted")
    | AuthFailure.NoProvisionalEnrollment => (409, "no_provisional_enrollment")
    | AuthFailure.ConfirmationExpired => (409, "confirmation_expired")
    | AuthFailure.InvalidCredential => (401, "invalid_credential")
    | AuthFailure.PasswordRejected => (422, "password_rejected")
    | AuthFailure.RateLimited => (429, "rate_limited")
    | AuthFailure.Busy => (503, "busy")
    | AuthFailure.InvalidArgument => (400, "invalid_argument")
    | AuthFailure.Unavailable => (503, "unavailable")
    end%string in
  (error status code, code).

Definition event_line (route : string) (source : IpAddr) (outcome : string) : string :=
  "sl-remoted: " +:+ route +:+ " from " +:+ display source +:+ ": " +:+ outcome.

Definition log (route : string) (conn : ConnInfo) (outcome : string) : prog Http unit :=
  ask (Log (event_line route (peer conn).1 outcome)).

(** ** The checks *)
Definition endpoint_of (a : SocketAddr) : string := endpoint a.1 a.2.

(** The condition of [host_check] on a request with connection information *)
Definition host_ok (r : HttpRequest) (conn : ConnInfo) : bool :=
  let expected := endpoint_of (local conn) in
  match get_all "host" (headers r) with
  | [host] => bool_decide (host = bytes_of expected)
  | _ => false
  end && match authority r with Some a => String.eqb a expected | None => true end.

Definition origin_ok (h : list (string * list Z)) (conn : ConnInfo) : bool :=
  match get_all "origin" h with
  | [origin] => bool_decide (origin = bytes_of ("https://" +:+ endpoint_of (local conn)))
  | _ => false
  end.

Definition json_content_type (h : list (string * list Z)) : bool :=
  match get_all "content-type" h with
  | [value] =>
      match to_str value with
      | Some value =>
          let value := str_to_ascii_lowercase value in
          String.eqb value "application/json" || String.eqb value "application/json; charset=utf-8"
      | None => false
      end
  | _ => false
  end.

Section Handlers.
(** serde_json's [from_slice] for the three request types and [to_string] for
    the recovery key; the cookies of a header and the text of the session
    cookie, of the cookie crate; the static files. *)
Context (pair_request : list Z -> option (string * string)) (confirm_request login_request : list Z -> option string).
Context (recovery_key_json : string -> string).
Context (split_parse : string -> list (option (string * string))) (cookie_text : string -> string -> Z -> string).
Context (INDEX_HTML APP_JS APP_CSS : string).

Definition parse_body {T} (from_slice : list Z -> option T) (h : list (string * list Z)) : prog Http (T + Response) :=
  if negb (json_content_type h) then Done (inr (error 415 "unsupported_media_type"))
  else
    let! body := ask (ReadBody BODY_LIMIT) in
    Done match body with
         | None => inr (error 413 "payload_too_large")
         | Some body => match from_slice body with Some t => inl t | None => inr (error 400 "bad_request") end
         end.

Definition session_cookie (h : list (string * list Z)) : option string :=
  let values := omap to_str (get_all "cookie" h) in
  let cookies := omap id (List.concat (map split_parse values)) in
  snd <$> List.find (fun cookie => String.eqb cookie.1 COOKIE_NAME) cookies.

(** The attributes are [Path=/], [Secure], [HttpOnly], [SameSite=Strict] and
    [Max-Age]. *)
Definition set_cookie (value : string) (max_age : Z) : string := cookie_text COOKIE_NAME value max_age.

Definition index : prog Http Response := Done (content "text/html; charset=utf-8" INDEX_HTML).
Definition app_js : prog Http Response := Done (content "text/javascript; charset=utf-8" APP_JS).
Definition app_css : prog Http Response := Done (content "text/css; charset=utf-8" APP_CSS).

Definition refused (route : string) (conn : ConnInfo) (failure : AuthFailure.t) : prog Http Response :=
  let (response, code) := auth_error failure in
  do! log route conn code in Done response.

(** What the three handlers that read JSON begin with. *)
Definition with_body {T} (route : string) (from_slice : list Z -> option T) (r : HttpRequest) (conn : ConnInfo)
    (k : T -> prog Http Response) : prog Http Response :=
  if negb (origin_ok (headers r) conn) then
    do! log route conn "forbidden_origin" in Done (error 403 "forbidden_origin")
  else
    let! request := parse_body from_slice (headers r) in
    match request with
    | inl request => k request
    | inr response => Done response
    end.

Definition pair (r : HttpRequest) (conn : ConnInfo) : prog Http Response :=
  with_body "pair" pair_request r conn (fun '(pairing_code, password) =>
    if (PASSWORD_MAX_BYTES <? str_len password) || (CODE_MAX_BYTES <? str_len pairing_code)
    then Done (error 400 "invalid_argument")
    else
      let! result := ask (ConsumePairing pairing_code password) in
      match result with
      | inl recovery_key =>
          do! log "pair" conn "ok" in
          Done (content "application/json" (recovery_key_json recovery_key))
      | inr failure => refused "pair" conn failure
      end).

Definition confirm (r : HttpRequest) (conn : ConnInfo) : prog Http Response :=
  with_body "confirm" confirm_request r conn (fun recovery_key =>
    if CODE_MAX_BYTES <? str_len recovery_key then Done (error 400 "invalid_argument")
    else
      let! result := ask (ConfirmRecoveryKey recovery_key) in
      match result with
      | inl _ => do! log "confirm" conn "ok" in Done no_content
      | inr failure => refused "confirm" conn failure
      end).

Definition login (r : HttpRequest) (conn : ConnInfo) : prog Http Response :=
  with_body "login" login_request r conn (fun password =>
    if PASSWORD_MAX_BYTES <? str_len password then Done (error 400 "invalid_argument")
    else
      let! result := ask (VerifyPassword password) in
      match result with
      | inr failure => refused "login" conn failure
      | inl _ =>
          let! id := ask CreateSession in
          match id with
          | Some id =>
              do! log "login" conn "ok" in
              Done (insert_header "set-cookie" (set_cookie id Sessions.ABSOLUTE_TIMEOUT) no_content)
          | None => do! log "login" conn "unavailable" in Done (error 503 "unavailable")
          end
      end).

Definition logout (r : HttpRequest) (conn : ConnInfo) : prog Http Response :=
  if negb (origin_ok (headers r) conn) then
    do! log "logout" conn "forbidden_origin" in Done (error 403 "forbidden_origin")
  else
    let! body := ask (ReadBody BODY_LIMIT) in
    match body with
    | Some [] =>
        do! (match session_cookie (headers r) with Some id => ask (RemoveSession id) | None => Done tt end) in
        do! log "logout" conn "ok" in
        Done (insert_header "set-cookie" (set_cookie "" 0) no_content)
    | _ => Done (error 400 "bad_request")
    end.

Definition get_status (r : HttpRequest) : prog Http Response :=
  let! authenticated := (match session_cookie (headers r) with Some id => ask (ValidateSession id) | None => Done false end) in
  if negb authenticated then Done (error 401 "unauthenticated")
  else
    let! status := ask GetStatus in
    match status with
    | Some status => Done (content "application/json" status)
    | None => Done (error 503 "unavailable")
    end.

(** ** The router

    A [get] route also answers HEAD; the body of the answer is dropped on
    the way out. *)
Definition get (r : HttpRequest) (handler : prog Http Response) : prog Http Response :=
  match method r with GET | HEAD => handler | _ => Done (error 405 "method_not_allowed") end.
Definition post (r : HttpRequest) (handler : prog Http Response) : prog Http Response :=
  match method r with POST => handler | _ => Done (error 405 "method_not_allowed") end.

Definition route (r : HttpRequest) (conn : ConnInfo) : prog Http Response :=
  if String.eqb (path r) "/" then get r index
  else if String.eqb (path r) "/app.js" then get r app_js
  else if String.eqb (path r) "/app.css" then get r app_css
  else if String.eqb (path r) "/api/v1/pair" then post r (pair r conn)
  else if String.eqb (path r) "/api/v1/confirm" then post r (confirm r conn)
  else if String.eqb (path r) "/api/v1/login" then post r (login r conn)
  else if String.eqb (path r) "/api/v1/logout" then post r (logout r conn)
  else if String.eqb (path r) "/api/v1/status" then get r (get_status r)
  else Done (error 404 "not_found").

Definition host_check (r : HttpRequest) : prog Http Response :=
  match conn r with
  | None => Done (error 421 "misdirected")
  | Some conn => if negb (host_ok r conn) then Done (error 421 "misdirected") else route r conn
  end.

Definition security_headers : list (string * string) :=
  [("cache-control", "no-store"); ("x-content-type-options", "nosniff"); ("referrer-policy", "no-referrer");
   ("x-frame-options", "DENY"); ("content-security-policy", CONTENT_SECURITY_POLICY)]%string.

Definition with_security_headers (response : Response) : Response :=
  foldl (fun response e => insert_header e.1 e.2 response) response security_headers.

(** [router]: the layer added last is the outermost. *)
Definition router (r : HttpRequest) : prog Http Response :=
  let! response := host_check r in
  Done (with_security_headers response).
End Handlers.
End Http.
