(* ===== verification/HttpProps.v ===== *)
(** * What the remote API does for whom *)
From S2P Require Import Prelude Text IpAddr Network Programs Controller Server Sessions Peers Http.

Module HttpProps.
Import Text IpAddr Network Programs Controller Server Peers Http.
#[local] Open Scope prog_scope.

(** ** What a line of the journal can say *)
Definition routes : list string := ["pair"; "confirm"; "login"; "logout"]%string.

Definition failures : list AuthFailure.t := [
  AuthFailure.NotEnrolled; AuthFailure.EnrollmentUnconfirmed; AuthFailure.AlreadyEnrolled; AuthFailure.NoPendingPairing;
  AuthFailure.InvalidPairingCode; AuthFailure.PairingAttemptsExhausted; AuthFailure.NoProvisionalEnrollment;
  AuthFailure.ConfirmationExpired; AuthFailure.InvalidCredential; AuthFailure.PasswordRejected; AuthFailure.RateLimited;
  AuthFailure.Busy; AuthFailure.InvalidArgument; AuthFailure.Unavailable].

Definition outcomes : list string := ("ok" :: "forbidden_origin" :: map (fun f => (auth_error f).2) failures)%string.

Lemma failure_outcome f : (auth_error f).2 ∈ outcomes.
Proof. destruct f; vm_compute; repeat constructor. Qed.

Section Handlers.
Context (pair_request : list Z -> option (string * string)) (confirm_request login_request : list Z -> option string).
Context (recovery_key_json : string -> string).
Context (split_parse : string -> list (option (string * string))) (cookie_text : string -> string -> Z -> string).
Context (INDEX_HTML APP_JS APP_CSS : string).

Local Abbreviation router := (router pair_request confirm_request login_request recovery_key_json split_parse cookie_text INDEX_HTML APP_JS APP_CSS).
Local Abbreviation session_cookie := (session_cookie split_parse).
Local Abbreviation set_cookie := (set_cookie cookie_text).

(** When a call may be made for a request: [before] are the calls made for
    it so far. *)
Definition posted (r : HttpRequest) (c : ConnInfo) : Prop := method r = POST /\ origin_ok (headers r) c = true.

Definition justified (r : HttpRequest) (c : ConnInfo) (before : list (event Http)) (call : HttpCall) : Prop :=
  match call with
  | ReadBody limit => posted r c /\ limit = BODY_LIMIT
  | ConsumePairing code password => posted r c /\ str_len code <= CODE_MAX_BYTES /\ str_len password <= PASSWORD_MAX_BYTES
  | ConfirmRecoveryKey key => posted r c /\ str_len key <= CODE_MAX_BYTES
  | VerifyPassword password => posted r c /\ str_len password <= PASSWORD_MAX_BYTES
  | CreateSession => exists password, (existT (VerifyPassword password) (inl tt) : event Http) ∈ before
  | ValidateSession id => session_cookie (headers r) = Some id
  | RemoveSession id => posted r c /\ session_cookie (headers r) = Some id
  | GetStatus => exists id, session_cookie (headers r) = Some id /\ (existT (ValidateSession id) true : event Http) ∈ before
  | Log line => exists route outcome, route ∈ routes /\ outcome ∈ outcomes /\ line = event_line route (peer c).1 outcome
  end.

(** The cookie an answer sets: none, the one that ends the session, or the
    identifier just created. *)
Definition cookies_issued (t : list (event Http)) (response : Response) : Prop :=
  forall value, ("set-cookie"%string, value) ∈ response_headers response ->
    value = set_cookie "" 0 \/
    exists id, (existT CreateSession (Some id) : event Http) ∈ t /\ value = set_cookie id Sessions.ABSOLUTE_TIMEOUT.

Section Request.
Context (r : HttpRequest) (c : ConnInfo).
Local Abbreviation just before m := (justly (justified r c) before m cookies_issued).

Lemma just_done before response : Forall (fun e => e.1 <> "set-cookie"%string) (response_headers response) ->
  just before (Done response).
Proof.
  intros H value Hin. rewrite Forall_forall in H. by apply H in Hin.
Qed.

Lemma just_error before status code : just before (Done (error status code)).
Proof. apply just_done. by repeat constructor. Qed.

Lemma just_log before route outcome (k : prog Http Response) : route ∈ routes -> outcome ∈ outcomes ->
  just (before ++ [existT (Log (event_line route (peer c).1 outcome)) tt])%list k -> just before (do! log route c outcome in k).
Proof. intros H1 H2 Hk. split; [by exists route, outcome|]. intros []. exact Hk. Qed.

Lemma just_refused before route f : route ∈ routes -> just before (refused route c f).
Proof.
  intros Hr. unfold refused. pose proof (failure_outcome f) as Ho. destruct (auth_error f) as [response code] eqn:E.
  apply just_log; [done|done|]. assert (response = (auth_error f).1) as -> by (by rewrite E). destruct f; apply just_error.
Qed.

Lemma just_with_body {T} before route (from_slice : list Z -> option T) (k : T -> prog Http Response) : route ∈ routes ->
  method r = POST -> (forall t before, origin_ok (headers r) c = true -> just before (k t)) ->
  just before (with_body route from_slice r c k).
Proof.
  intros Hr Hm Hk. unfold with_body. destruct (origin_ok (headers r) c) eqn:Ho; cbn [negb].
  2: { apply just_log; [done|right; by left|]. apply just_error. }
  unfold parse_body. destruct (json_content_type (headers r)); cbn [negb]; [|apply just_error].
  split; [done|]. intros [body|]; [|apply just_error]. cbn. destruct (from_slice body); [by apply Hk|apply just_error].
Qed.

Lemma just_pair before : method r = POST -> just before (pair pair_request recovery_key_json r c).
Proof.
  intros Hm. apply just_with_body; [by left|done|]. intros [code password] before' Ho.
  destruct (_ || _) eqn:E; [apply just_error|]. bool_hyps. split; [by split_and!|].
  intros [key|f]; [|apply just_refused; by left]. apply just_log; [by left|by left|]. apply just_done. by repeat constructor.
Qed.

Lemma just_confirm before : method r = POST -> just before (confirm confirm_request r c).
Proof.
  intros Hm. apply just_with_body; [right; by left|done|]. intros key before' Ho.
  destruct (_ <? _) eqn:E; [apply just_error|]. bool_hyps. split; [by split_and!|].
  intros [[]|f]; [|apply just_refused; right; by left]. apply just_log; [right; by left|by left|]. apply just_done. by constructor.
Qed.

Lemma just_login before : method r = POST -> just before (login login_request cookie_text r c).
Proof.
  intros Hm. apply just_with_body; [do 2 right; by left|done|]. intros password before' Ho.
  destruct (_ <? _) eqn:E; [apply just_error|]. bool_hyps. split; [by split_and!|].
  intros [[]|f]; [|apply just_refused; do 2 right; by left].
  split; [exists password; apply elem_of_app; right; by left|]. intros [id|].
  - apply just_log; [do 2 right; by left|by left|]. intros value Hin. right. exists id.
    cbn in Hin. apply elem_of_cons in Hin as [Hin|Hin]; [|by apply elem_of_nil in Hin]. injection Hin as ->. split; [|done].
    apply elem_of_app. left. apply elem_of_app. right. by left.
  - apply just_log; [do 2 right; by left| |apply just_error]. apply (failure_outcome AuthFailure.Unavailable).
Qed.

Lemma just_logout before : method r = POST -> just before (logout split_parse cookie_text r c).
Proof.
  intros Hm. assert (Hr : "logout"%string ∈ routes) by (do 3 right; by left).
  unfold logout. destruct (origin_ok (headers r) c) eqn:Ho; cbn [negb].
  2: { apply just_log; [done|right; by left|]. apply just_error. }
  split; [done|]. intros [[|b body]|]; try apply just_error.
  assert (Hend : forall before, just before (do! log "logout" c "ok" in Done (insert_header "set-cookie" (set_cookie "" 0) no_content))).
  { intros before'. apply just_log; [done|by left|]. intros value Hin. left. cbn in Hin.
    apply elem_of_cons in Hin as [Hin|Hin]; [|by apply elem_of_nil in Hin]. by injection Hin as ->. }
  destruct (session_cookie (headers r)) as [id|] eqn:Hc; [|apply Hend].
  split; [by split|]. intros []. apply Hend.
Qed.

Lemma just_status before : just before (get_status split_parse r).
Proof.
  unfold get_status. destruct (session_cookie (headers r)) as [id|] eqn:Hc; [|apply just_error].
  split; [done|]. intros []; [|apply just_error]. cbn. split; [exists id; split; [done|apply elem_of_app; right; by left]|].
  intros [status|]; [|apply just_error]. apply just_done. by repeat constructor.
Qed.

Lemma just_get before m : just before m -> just before (get r m).
Proof. intros Hm. unfold get. destruct (method r); try done; apply just_error. Qed.
Lemma just_post before m : (method r = POST -> just before m) -> just before (post r m).
Proof. intros Hm. unfold post. destruct (method r); try apply just_error. by apply Hm. Qed.

Lemma just_route before : just before
  (route pair_request confirm_request login_request recovery_key_json split_parse cookie_text INDEX_HTML APP_JS APP_CSS r c).
Proof.
  unfold route. assert (Hs : forall t s before, just before (Done (content t s))) by (intros; apply just_done; by repeat constructor).
  repeat (match goal with |- context [String.eqb (path r) ?p] => destruct (String.eqb (path r) p) end;
    [first [apply just_get; solve [apply Hs|apply just_status]
           |apply just_post; intros Hm; first [by apply just_pair|by apply just_confirm|by apply just_login|by apply just_logout]]|]).
  apply just_error.
Qed.
End Request.

(** ** The outer layers *)
Lemma insert_header_in name value r e : e ∈ response_headers (insert_header name value r) ->
  e = (name, value) \/ e ∈ response_headers r.
Proof.
  unfold insert_header. cbn [response_headers]. rewrite elem_of_cons. intros [->|H]; [by left|right].
  apply list_elem_of_In, filter_In in H as [H _]. by apply list_elem_of_In.
Qed.

Lemma secured response : (forall e, e ∈ security_headers -> e ∈ response_headers (with_security_headers response)) /\
  (forall value, ("set-cookie"%string, value) ∈ response_headers (with_security_headers response) ->
     ("set-cookie"%string, value) ∈ response_headers response) /\
  status (with_security_headers response) = status response.
Proof.
  split_and!; [| |done].
  - intros e He. unfold with_security_headers, security_headers in *. cbn [foldl fst snd]. unfold insert_header. cbn [response_headers].
    repeat (apply elem_of_cons in He as [->|He]; [cbn; set_solver|]). by apply elem_of_nil in He.
  - intros value. unfold with_security_headers, security_headers. cbn [foldl fst snd]. intros H.
    repeat (apply insert_header_in in H as [H|H]; [discriminate H|]). exact H.
Qed.

(** C8. What the remote API does, and for whom.  Every response carries the
    security headers.  A request whose Host is not exactly the endpoint it
    arrived at has no effect at all.  Otherwise: credentials, codes and keys
    are passed on, and sessions are ended, only for a POST whose Origin is
    exactly that endpoint, within the bounds on their sizes; a session is
    created only after the password of the same request was verified; the
    status is read only after the session of the request's cookie was
    validated; the only cookies set are that of the session created and the
    one that ends it; and a line of the journal holds nothing but a route,
    the source and one of the fixed outcomes. *)
Theorem remote_api_guarded r t response : runs (router r) t response ->
  (forall e, e ∈ security_headers -> e ∈ response_headers response) /\
  cookies_issued t response /\
  match conn r with
  | Some c =>
      if host_ok r c then
        forall before call reply after, t = (before ++ existT call reply :: after)%list -> justified r c before call
      else t = [] /\ status response = 421
  | None => t = [] /\ status response = 421
  end.
Proof.
  unfold Http.router. rewrite runs_bind. intros (t1 & response1 & t2 & -> & H1 & [-> ->]). rewrite app_nil_r.
  destruct (secured response1) as (S1 & S2 & S3). split; [exact S1|].
  assert (H : forall Q : Prop, Q /\ cookies_issued t1 response1 -> cookies_issued t1 (with_security_headers response1) /\ Q).
  { intros Q [HQ Hc]. split; [|exact HQ]. intros value Hv. by apply Hc, S2. }
  apply H. rewrite S3. unfold host_check in H1. destruct (conn r) as [c|].
  2: { destruct H1 as [-> ->]. split; [done|]. intros value Hv. by apply list_elem_of_singleton in Hv. }
  destruct (host_ok r c); cbn [negb] in H1.
  2: { destruct H1 as [-> ->]. split; [done|]. intros value Hv. by apply list_elem_of_singleton in Hv. }
  destruct (justly_runs _ _ _ [] t1 response1 (just_route r c []) H1) as [HQ HP]. split; [|exact HQ].
  intros before call reply after. exact (HP before call reply after).
Qed.
End Handlers.
End HttpProps.
