(* ===== verification/Console.v ===== *)
(** * The local console ([console/src/lib.rs])

    The controller over its backend, the backend over the bus, and what its
    errors mean. *)
From S2P Require Import Prelude Protocol Programs Peers.

Module Console.
Import Protocol Programs.
#[local] Open Scope prog_scope.

Definition AUTH_BUS : string := "org.signallayer.Auth1".
Definition AUTH_PATH : string := "/org/signallayer/Auth1".
Definition PLATFORM_BUS : string := "org.signallayer.Platform1".
Definition PLATFORM_PATH : string := "/org/signallayer/Platform1".
Definition SESSION_BUS : string := "org.signallayer.Session1".
Definition SESSION_PATH : string := "/org/signallayer/Session1".
Definition READ_AUTH_TIMEOUT : Z := 30000.
Definition LIFECYCLE_TIMEOUT : Z := 60000.
Definition REENROLL_TIMEOUT : Z := 110000.

Record Enrollment := { url : string; fingerprint : string; pairing_code : string; expires_at : Z }.

Inductive Action := Enable | Disable | Reenroll.
#[export] Instance Action_eq_dec : EqDecision Action.
Proof. solve_decision. Defined.

Module AuthFailure.
Inductive t :=
  | NotEnrolled | EnrollmentUnconfirmed | InvalidCredential | PasswordRejected | RateLimited | Busy
  | InvalidArgument | Unavailable.
End AuthFailure.

Module PlatformFailure.
Inductive t := ResetIncomplete | Busy | Unavailable.
End PlatformFailure.
#[export] Instance PlatformFailure_eq_dec : EqDecision PlatformFailure.t.
Proof. solve_decision. Defined.

Module ConsoleError.
Inductive t :=
  | AuthenticationRequired
  | Auth (failure : AuthFailure.t)
  | Platform (failure : PlatformFailure.t)
  | StatusUnavailable.
End ConsoleError.

Record View := {
  view_product : string; view_version : string; view_machine_id : string;
  remote : RemoteManagementStatus; view_enrollment : Enrollment;
  view_authenticated : bool; view_reset_incomplete : bool
}.

(** ** The backend, and the terminal

    The calls of [Backend] and, for the program around the controller, those
    of the terminal: [Flush] of the standard output, a line of the standard
    input ([None] an error, the empty string its end), and the attributes of
    the terminal. *)
Inductive ConsoleCall :=
  | Connect
  | GetStatus
  | GetEnrollment
  | VerifyPassword (password : string)
  | CallRecoverPassword (recovery_key new_password : string)
  | CallPlatform (action : Action)
  | Print (text : string)
  | Flush
  | ReadStdin
  | IsTerminal
  | GetAttributes
  | HideEcho
  | RestoreEcho
  | Sleep (milliseconds : Z).

Definition ConsoleReply (c : ConsoleCall) : Type :=
  match c with
  | Connect | Flush | IsTerminal | GetAttributes | HideEcho => bool
  | GetStatus => SessionStatus + ConsoleError.t
  | GetEnrollment => Enrollment + ConsoleError.t
  | VerifyPassword _ | CallRecoverPassword _ _ => unit + AuthFailure.t
  | CallPlatform _ => unit + PlatformFailure.t
  | ReadStdin => option string
  | Print _ | RestoreEcho | Sleep _ => unit
  end.

Definition Backend : Signature := {| call := ConsoleCall; reply := ConsoleReply |}.
Definition ask (c : ConsoleCall) : prog Backend (ConsoleReply c) := perform (S:=Backend) c.

(** ** [Controller] *)
Record Controller := { authenticated : bool; last_enrolled : option bool; reset_incomplete : bool }.
Definition new : Controller := {| authenticated := false; last_enrolled := None; reset_incomplete := false |}.

Definition set_authenticated (b : bool) (c : Controller) : Controller :=
  {| authenticated := b; last_enrolled := last_enrolled c; reset_incomplete := reset_incomplete c |}.
Definition set_reset_incomplete (b : bool) (c : Controller) : Controller :=
  {| authenticated := authenticated c; last_enrolled := last_enrolled c; reset_incomplete := b |}.

(** A method returns the controller it leaves, and its result. *)
Definition method (A : Type) : Type := prog Backend (Controller * (A + ConsoleError.t)).

Definition enrolled_of (status : SessionStatus) : bool := enrolled (remote_management status).

Definition status (c : Controller) : method SessionStatus :=
  let! r := ask GetStatus in
  match r with
  | inr e => Done (c, inr e)
  | inl status =>
      let enrolled := enrolled_of status in
      let changed := match last_enrolled c with Some previous => negb (Bool.eqb previous enrolled) | None => false end in
      Done ({| authenticated := if changed then false else authenticated c; last_enrolled := Some enrolled;
               reset_incomplete := reset_incomplete c |}, inl status)
  end.

Definition no_enrollment : Enrollment := {| url := ""; fingerprint := ""; pairing_code := ""; expires_at := 0 |}.

Definition shown (c : Controller) (status : SessionStatus) (enrollment : Enrollment) : View := {|
  view_product := session_product status;
  view_version := session_version status;
  view_machine_id := machine_id (session_machine status);
  remote := remote_management status;
  view_enrollment := enrollment;
  view_authenticated := authenticated c;
  view_reset_incomplete := reset_incomplete c
|}.

Definition refresh (c : Controller) : method View :=
  let! (c, r) := status c in
  match r with
  | inr e => Done (c, inr e)
  | inl status =>
      let! r := ask GetEnrollment in
      match r with
      | inl enrollment =>
          let c := set_reset_incomplete false c in
          Done (c, inl (shown c status enrollment))
      | inr (ConsoleError.Platform PlatformFailure.ResetIncomplete) =>
          let c := set_reset_incomplete true c in
          Done (c, inl (shown c status no_enrollment))
      | inr e => Done (c, inr e)
      end
  end.

Definition not_enrolled (c : Controller) : method unit :=
  Done (set_authenticated false c, inr (ConsoleError.Auth AuthFailure.NotEnrolled)).

Definition authenticate (c : Controller) (password : string) : method unit :=
  let! (c, r) := status c in
  match r with
  | inr e => Done (c, inr e)
  | inl st =>
      if negb (enrolled_of st) then not_enrolled c
      else
        let! r := ask (VerifyPassword password) in
        match r with
        | inr e => Done (c, inr (ConsoleError.Auth e))
        | inl _ =>
            let! (c, r) := status c in
            match r with
            | inr e => Done (c, inr e)
            | inl st =>
                if negb (enrolled_of st) then not_enrolled c
                else Done (set_authenticated true c, inl tt)
            end
        end
  end.

Definition logout (c : Controller) : Controller := set_authenticated false c.

Definition act (c : Controller) (action : Action) : method View :=
  let! (c, r) := status c in
  match r with
  | inr e => Done (c, inr e)
  | inl st =>
      if enrolled_of st && negb (authenticated c) then Done (c, inr ConsoleError.AuthenticationRequired)
      else if bool_decide (action = Enable) && reset_incomplete c
      then Done (c, inr (ConsoleError.Platform PlatformFailure.ResetIncomplete))
      else
        let! r := ask (CallPlatform action) in
        match r with
        | inr e =>
            Done (if bool_decide (e = PlatformFailure.ResetIncomplete) then set_reset_incomplete true c else c,
                  inr (ConsoleError.Platform e))
        | inl _ =>
            refresh (if bool_decide (action = Reenroll) then set_reset_incomplete false (set_authenticated false c) else c)
        end
  end.

Definition recover_password (c : Controller) (recovery_key new_password : string) : method View :=
  let! r := ask (CallRecoverPassword recovery_key new_password) in
  match r with
  | inr e => Done (c, inr (ConsoleError.Auth e))
  | inl _ => refresh (set_authenticated false c)
  end.

(** ** [BusBackend] *)
Definition lifecycle_timeout (action : Action) : Z :=
  match action with Enable | Disable => LIFECYCLE_TIMEOUT | Reenroll => REENROLL_TIMEOUT end.

Definition member (action : Action) : string :=
  match action with
  | Enable => "EnableRemoteManagement"
  | Disable => "DisableRemoteManagement"
  | Reenroll => "ReenrollRemoteManagement"
  end.

(** [error_code], of the failures of a call on the bus *)
Definition error_code {R} (outcome : Peers.Outcome R) (prefix : string) : option string :=
  match outcome with Peers.MethodError name => strip_prefix prefix name | _ => None end.

Definition auth_failure {R} (outcome : Peers.Outcome R) : AuthFailure.t :=
  match error_code outcome "org.signallayer.Auth1.Error." with
  | Some code =>
      if String.eqb code "NotEnrolled" then AuthFailure.NotEnrolled
      else if String.eqb code "EnrollmentUnconfirmed" then AuthFailure.EnrollmentUnconfirmed
      else if String.eqb code "InvalidCredential" then AuthFailure.InvalidCredential
      else if String.eqb code "PasswordRejected" then AuthFailure.PasswordRejected
      else if String.eqb code "RateLimited" then AuthFailure.RateLimited
      else if String.eqb code "Busy" then AuthFailure.Busy
      else if String.eqb code "InvalidArgument" then AuthFailure.InvalidArgument
      else AuthFailure.Unavailable
  | None => AuthFailure.Unavailable
  end.

Definition platform_failure {R} (outcome : Peers.Outcome R) : PlatformFailure.t :=
  match error_code outcome "org.signallayer.Platform1.Error." with
  | Some code =>
      if String.eqb code "ResetIncomplete" then PlatformFailure.ResetIncomplete
      else if String.eqb code "Busy" then PlatformFailure.Busy
      else PlatformFailure.Unavailable
  | None => PlatformFailure.Unavailable
  end.

(** [BusBackend::status], of serde_json's [from_str] *)
Definition bus_status (from_str : string -> option SessionStatus) (outcome : Peers.Outcome string) :
    SessionStatus + ConsoleError.t :=
  match outcome with
  | Peers.Replied text =>
      match from_str text with
      | Some status =>
          if String.eqb (session_schema_version status) SESSION_SCHEMA_VERSION then inl status
          else inr ConsoleError.StatusUnavailable
      | None => inr ConsoleError.StatusUnavailable
      end
  | _ => inr ConsoleError.StatusUnavailable
  end.

Definition bus_enrollment (outcome : Peers.Outcome (string * string * string * Z)) : Enrollment + ConsoleError.t :=
  match outcome with
  | Peers.Replied (url, fingerprint, pairing_code, expires_at) =>
      inl {| url := url; fingerprint := fingerprint; pairing_code := pairing_code; expires_at := expires_at |}
  | _ => inr (ConsoleError.Platform (platform_failure outcome))
  end.

(** [verify_password] and [recover_password] *)
Definition bus_auth (outcome : Peers.Outcome unit) : unit + AuthFailure.t :=
  match outcome with Peers.Replied _ => inl tt | _ => inr (auth_failure outcome) end.

Definition bus_platform (outcome : Peers.Outcome unit) : unit + PlatformFailure.t :=
  match outcome with Peers.Replied _ => inl tt | _ => inr (platform_failure outcome) end.
End Console.
