(* ===== verification/Terminal.v ===== *)
(** * The console's program ([console/src/main.rs])

    What it shows, what it reads, and what it does with the operator's
    choices.  A failure to write to the standard output, which ends the
    process, is not modelled: [Print] always returns. *)
From S2P Require Import Prelude Text Protocol Programs Console.

Module Terminal.
Import Text Protocol Programs Console.
#[local] Open Scope string_scope.
#[local] Open Scope Z_scope.
#[local] Open Scope prog_scope.

Definition RETRY_DELAY : Z := 3000.
Definition nl : string := string_of [10].

(** [format!] of its pieces, and [println!] *)
Definition text (pieces : list string) : string := String.concat "" pieces.
Definition println (s : string) : prog Backend unit := ask (Print (s +:+ nl)).

(** ** What is shown *)
Definition pairing_code (code : string) : string :=
  if (str_len code =? 8) && forallb (fun b => b <? 128) (bytes_of code)
  then substring 0 4 code +:+ "-" +:+ substring 4 4 code else "unavailable".

Definition error_message (e : ConsoleError.t) : string :=
  match e with
  | ConsoleError.AuthenticationRequired => "Authenticate before using that operation."
  | ConsoleError.Auth AuthFailure.InvalidCredential => "Authentication failed."
  | ConsoleError.Auth AuthFailure.RateLimited => "Too many attempts. Wait before retrying."
  | ConsoleError.Auth AuthFailure.Busy => "Authentication is busy. Try again shortly."
  | ConsoleError.Auth AuthFailure.PasswordRejected => "The new password does not meet the password requirements."
  | ConsoleError.Auth AuthFailure.NotEnrolled => "No operator is enrolled."
  | ConsoleError.Auth AuthFailure.EnrollmentUnconfirmed => "Enrollment recovery confirmation is incomplete."
  | ConsoleError.Auth AuthFailure.InvalidArgument => "The credential format is invalid."
  | ConsoleError.Auth AuthFailure.Unavailable => "The authentication service is unavailable."
  | ConsoleError.Platform PlatformFailure.ResetIncomplete =>
      "A reset did not finish. Choose Reenroll to repair remote management."
  | ConsoleError.Platform PlatformFailure.Busy => "Another remote-management operation is in progress."
  | ConsoleError.Platform PlatformFailure.Unavailable => "Remote management is temporarily unavailable."
  | ConsoleError.StatusUnavailable => "Appliance status is temporarily unavailable."
  end%string.

Definition render (view : View) (message : string) : string := text (
  [ "SignalLayer CoreOS"; nl; view_product view; " "; view_version view; nl; "Machine: "; view_machine_id view; nl; nl;
    "Remote management: "; (if enabled (remote view) then "enabled" else "disabled"); nl;
    "HTTPS listener: "; (if listening (remote view) then "active" else "inactive"); nl;
    "Operator enrollment: "; (if enrolled (remote view) then "enrolled" else "not enrolled"); nl ]
  ++ (if is_empty (url (view_enrollment view)) then [] else [ "Connection: "; url (view_enrollment view); nl ])
  ++ (if is_empty (fingerprint (view_enrollment view)) then []
      else [ "TLS SHA-256 fingerprint: "; fingerprint (view_enrollment view); nl ])
  ++ (if is_empty (Console.pairing_code (view_enrollment view)) then []
      else [ "Pairing code: "; pairing_code (Console.pairing_code (view_enrollment view)); "  (expires at Unix ";
             display_unsigned (expires_at (view_enrollment view)); ")"; nl ])
  ++ (if view_reset_incomplete view then [ nl; "REPAIR REQUIRED: A reset did not finish. Choose Reenroll."; nl ] else [])
  ++ (if is_empty message then [] else [ nl; message; nl ])
  ++ [ nl; "1) "; (if enabled (remote view) then "Disable" else "Enable"); " remote management"; nl;
       "2) Reenroll remote management"; nl; "3) Recover operator password"; nl;
       "4) "; (if view_authenticated view then "Lock console" else "Authenticate"); nl; "R) Refresh"; nl; nl; "Selection: " ])%list.

Definition clear : prog Backend unit := ask (Print (string_of [27; 91; 50; 74; 27; 91; 72])).

Definition appliance_error (message : string) : prog Backend unit :=
  do! clear in
  do! println ("SignalLayer CoreOS" +:+ nl +:+ nl +:+ message) in
  do! ask Flush in Done tt.

(** ** What is read *)
Definition clip (max : Z) (line : string) : string :=
  if max <? str_len line then "<input-too-long>" else line.

Definition read_line (max : Z) : prog Backend (option string) :=
  let! line := ask ReadStdin in
  Done match line with
       | None => None
       | Some line => if is_empty line then None else Some (clip max line)
       end.

(** [trim_end_matches] of the ends of a line *)
Definition trim_end (s : string) : string :=
  string_of (rev (drop_while (fun b => (b =? 13) || (b =? 10)) (rev (bytes_of s)))).

(** [read_secret]; the guard is dropped on the way out once it is made. *)
Definition read_secret (prompt : string) : prog Backend (option string) :=
  do! ask (Print prompt) in
  let! flushed := ask Flush in
  if negb flushed then Done None else
  let! terminal := ask IsTerminal in
  if negb terminal then Done None else
  let! attributes := ask GetAttributes in
  if negb attributes then Done None else
  let! hidden := ask HideEcho in
  if negb hidden then do! ask RestoreEcho in Done None else
  let! line := read_line 1025 in
  do! ask RestoreEcho in
  do! println "" in
  Done (trim_end <$> line).

(** ** The operator's choices *)
Definition or_status_unavailable (r : option string) : string + ConsoleError.t :=
  match r with Some s => inl s | None => inr ConsoleError.StatusUnavailable end.

Definition authenticate (c : Controller) : method string :=
  let! password := read_secret "Operator password: " in
  match or_status_unavailable password with
  | inr e => Done (c, inr e)
  | inl password =>
      let! (c, r) := Console.authenticate c password in
      Done (c, match r with inl _ => inl "Operator authenticated."%string | inr e => inr e end)
  end.

Definition done_message (action : Action) : string :=
  match action with
  | Enable => "Remote management enabled."
  | Disable => "Remote management disabled."
  | Reenroll => "Re-enrollment prepared. Use the new pairing information below."
  end%string.

Definition perform (c : Controller) (view : View) (action : Action) : method string :=
  let! (c, r) :=
    if enrolled (remote view) && negb (view_authenticated view) then authenticate c else Done (c, inl ""%string) in
  match r with
  | inr e => Done (c, inr e)
  | inl _ =>
      let! (c, r) := act c action in
      Done (c, match r with inl _ => inl (done_message action) | inr e => inr e end)
  end.

Definition recover (c : Controller) : method string :=
  let! key := read_secret "Recovery key: " in
  match or_status_unavailable key with
  | inr e => Done (c, inr e)
  | inl key =>
      let! first := read_secret "New operator password: " in
      match or_status_unavailable first with
      | inr e => Done (c, inr e)
      | inl first =>
          let! second := read_secret "Confirm new password: " in
          match or_status_unavailable second with
          | inr e => Done (c, inr e)
          | inl second =>
              if negb (String.eqb first second)
              then Done (c, inl "The new passwords did not match; nothing changed."%string)
              else
                let! (c, r) := recover_password c key first in
                Done (c, match r with
                         | inl _ => inl "Operator password recovered. Authenticate with the new password."%string
                         | inr e => inr e
                         end)
          end
      end
  end.

(** The [match] of [run] on a choice; [None] is an error of the terminal. *)
Definition choose (c : Controller) (view : View) (choice : string) : prog Backend (option (Controller * (string + ConsoleError.t))) :=
  let choice := str_to_ascii_lowercase (trim choice) in
  if String.eqb choice "1" then
    let! r := perform c view (if enabled (remote view) then Disable else Enable) in Done (Some r)
  else if String.eqb choice "2" then
    do! ask (Print "Type REENROLL to reset enrollment and rotate the TLS identity: ") in
    let! flushed := ask Flush in
    if negb flushed then Done None else
    let! line := read_line 32 in
    match line with
    | None => Done None
    | Some line =>
        if negb (String.eqb (trim line) "REENROLL") then Done (Some (c, inl "Re-enrollment cancelled."%string))
        else let! r := perform c view Reenroll in Done (Some r)
    end
  else if String.eqb choice "3" then let! r := recover c in Done (Some r)
  else if String.eqb choice "4" then
    if view_authenticated view then Done (Some (logout c, inl "Protected console session locked."%string))
    else if enrolled (remote view) then let! r := authenticate c in Done (Some r)
    else Done (Some (c, inl "No operator is enrolled yet. Enable remote management to begin pairing."%string))
  else if String.eqb choice "r" || is_empty choice then Done (Some (c, inl ""%string))
  else Done (Some (c, inl "Unknown selection."%string)).

(** [run], followed for [fuel] rounds; [Err] is an error of the terminal. *)
Fixpoint run (fuel : nat) (c : Controller) (message : string) : prog Backend (res unit unit) :=
  match fuel with
  | O => Done (Ok tt)
  | S fuel =>
      let! (c, r) := refresh c in
      match r with
      | inr e =>
          do! clear in
          do! println ("SignalLayer CoreOS" +:+ nl +:+ nl +:+ error_message e) in
          do! println (nl +:+ "The appliance console will remain here. Press Enter to retry.") in
          let! line := read_line 32 in
          match line with None => Done (Err tt) | Some _ => run fuel c message end
      | inl view =>
          do! clear in
          do! ask (Print (render view message)) in
          let! flushed := ask Flush in
          if negb flushed then Done (Err tt) else
          let! choice := read_line 32 in
          match choice with
          | None => Done (Err tt)
          | Some choice =>
              let! result := choose c view choice in
              match result with
              | None => Done (Err tt)
              | Some (c, result) => run fuel c (match result with inl s => s | inr e => error_message e end)
              end
          end
      end
  end.

(** [main], followed for [fuel] connections of [rounds] rounds. *)
Fixpoint main (fuel rounds : nat) : prog Backend unit :=
  match fuel with
  | O => Done tt
  | S fuel =>
      let! connected := ask Connect in
      let! result := (if connected then run rounds new ""
                      else do! appliance_error "Local services are temporarily unavailable. Retrying." in Done (Err tt)) in
      match result with
      | Err _ =>
          do! (if connected then appliance_error "The local console could not read from its terminal." else Done tt) in
          do! ask (Sleep RETRY_DELAY) in
          main fuel rounds
      | _ => Done tt
      end
  end.
End Terminal.
