(* ===== verification/ConsoleProps.v ===== *)
(** * What the console asks the daemons for, and when *)
From S2P Require Import Prelude Text Protocol Programs Console Terminal.

Module ConsoleProps.
Import Text Protocol Programs Console Terminal.
#[local] Open Scope prog_scope.

(** ** What an observer of the console's calls knows

    The enrollment reported by the last call, if that was a status; whether a
    password was verified, and since then every status reported an enrolled
    operator, no reset or recovery succeeded and no new connection was made;
    whether the echo is off; and the lines typed with the echo off. *)
Record Audit := { reported : option bool; verified : bool; hidden : bool; typed : list string }.

Definition nobody : Audit := {| reported := None; verified := false; hidden := false; typed := [] |}.

Definition seen (r : option bool) (v : bool) (a : Audit) : Audit :=
  {| reported := r; verified := v; hidden := hidden a; typed := typed a |}.
Definition echo (h : bool) (a : Audit) : Audit :=
  {| reported := None; verified := verified a; hidden := h; typed := typed a |}.

Definition secret (line : string) : string := trim_end (clip 1025 line).

Definition note (a : Audit) (e : event Backend) : Audit :=
  let 'existT c r := e in
  match c return ConsoleReply c -> Audit with
  | GetStatus => fun r =>
      match r with
      | inl st => seen (Some (enrolled_of st)) (verified a && enrolled_of st) a
      | inr _ => seen None (verified a) a
      end
  | VerifyPassword _ => fun r => seen None (match r with inl _ => true | inr _ => verified a end) a
  | CallRecoverPassword _ _ => fun r => seen None (match r with inl _ => false | inr _ => verified a end) a
  | CallPlatform action => fun r =>
      seen None (match r, action with inl _, Reenroll => false | _, _ => verified a end) a
  | Connect => fun _ => seen None false a
  | HideEcho => fun r => if r : bool then echo true a else seen None (verified a) a
  | RestoreEcho => fun _ => echo false a
  | ReadStdin => fun r =>
      match r with
      | Some line =>
          {| reported := None; verified := verified a; hidden := hidden a;
             typed := if hidden a then (typed a ++ [secret line])%list else typed a |}
      | None => seen None (verified a) a
      end
  | _ => fun _ => seen None (verified a) a
  end r.

Definition may (a : Audit) (c : ConsoleCall) : Prop :=
  match c with
  | CallPlatform _ => exists enrolled, reported a = Some enrolled /\ (enrolled = true -> verified a = true)
  | VerifyPassword password => reported a = Some true /\ last (typed a) = Some password
  | CallRecoverPassword key password => exists before, typed a = (before ++ [key; password; password])%list
  | _ => True
  end /\ (hidden a = true -> c = ReadStdin \/ c = RestoreEcho).

Local Abbreviation audited := (monitored note may).

(** ** The controller knows no more than the observer *)
Definition agrees (a : Audit) (c : Controller) : Prop :=
  hidden a = false /\ (authenticated c = true -> verified a = true /\ last_enrolled c = Some true).

Definition kept (a : Audit) {A} (a' : Audit) (r : Controller * A) : Prop := agrees a' r.1 /\ typed a' = typed a.

Ltac agree := first [assumption | exact I | reflexivity | split; agree].

Lemma agrees_not a c : hidden a = false -> authenticated c = false -> agrees a c.
Proof. intros H Hc. split; [exact H|congruence]. Qed.

Lemma kept_bind {A B} a (m : prog Backend (Controller * A)) (k : Controller * A -> prog Backend B) R :
  audited a m (kept a) -> (forall a' c x, agrees a' c -> typed a' = typed a -> audited a' (k (c, x)) R) -> audited a (pbind m k) R.
Proof. intros Hm Hk. eapply monitored_bind; [exact Hm|]. intros a' [c x] [H1 H2]. by apply Hk. Qed.

Lemma open_may a c : hidden a = false ->
  match c with CallPlatform _ | VerifyPassword _ | CallRecoverPassword _ _ => False | _ => True end -> may a c.
Proof. intros H Hc. split; [by destruct c|congruence]. Qed.

Lemma status_audited a c : agrees a c -> audited a (status c) (fun a' r => kept a a' r /\
  match r.2 with
  | inl st => reported a' = Some (enrolled_of st) /\ verified a' = verified a && enrolled_of st /\ last_enrolled r.1 = Some (enrolled_of st)
  | inr _ => True
  end).
Proof.
  intros [Hh Ha]. split; [by apply open_may|]. intros [st|e]; simpl; [|by split_and!].
  split; [|done]. split; [|done]. split; [done|]. simpl. intros Hc.
  destruct (last_enrolled c) as [previous|] eqn:Hl; [|by destruct (Ha Hc) as [_ Hn]].
  destruct (Bool.eqb previous (enrolled_of st)) eqn:He; simpl in Hc; [|done].
  destruct (Ha Hc) as [Hv [= ->]]. apply Bool.eqb_prop in He. by rewrite Hv, <- He.
Qed.

(** What a refresh calls. *)
Definition reads (c : ConsoleCall) : Prop := match c with GetStatus | GetEnrollment => True | _ => False end.

Lemma only_refresh c : only (S:=Backend) reads (refresh c).
Proof.
  apply only_bind; [split; [done|]; by intros [st|e]|]. intros [c1 [st|e]]; [|done]. split; [done|]. by intros [enrollment|[| |[]|]].
Qed.

Lemma locked_status c t c1 r : authenticated c = false -> runs (status c) t (c1, r) ->
  authenticated c1 = false /\ exists r1, t = [existT GetStatus r1] /\ r1 = r.
Proof.
  intros Hc ([st|e] & t' & -> & Hr); destruct Hr as [-> [= -> ->]]; (split; [|by eexists]); [|done].
  simpl. rewrite Hc. by destruct (match last_enrolled c with Some _ => _ | None => _ end).
Qed.

#[local] Opaque Console.status.

Lemma refresh_audited a c : agrees a c -> audited a (refresh c) (kept a).
Proof.
  intros Hag. eapply monitored_bind; [by apply status_audited|]. intros a1 [c1 [st|e]] [[[Hh Ha] Ht] _]; simpl in *; [|by split].
  split; [by apply open_may|]. intros [enrollment|[| |[]|]]; simpl; (split; [by split|done]).
Qed.

#[local] Opaque refresh.

Lemma authenticate_audited a c password : agrees a c -> last (typed a) = Some password ->
  audited a (Console.authenticate c password) (kept a).
Proof.
  intros Hag Hp. eapply monitored_bind; [by apply status_audited|].
  intros a1 [c1 [st|e]] [[[Hh Ha] Ht] Hr]; simpl in *; [|agree]. destruct Hr as (Hr & Hv & Hl).
  destruct (enrolled_of st) eqn:He; simpl; [|split; [by apply agrees_not|done]].
  split; [split; [by rewrite Ht|congruence]|]. intros [[]|e]; simpl; [|by split].
  eapply monitored_bind; [apply status_audited; split; [done|]; intros Hc; by destruct (Ha Hc)|].
  intros a2 [c2 [st2|e]] [[[Hh2 Ha2] Ht2] Hr2]; simpl in *; [|split; [by split|congruence]]. destruct Hr2 as (_ & Hv2 & Hl2).
  destruct (enrolled_of st2); simpl; (split; [|congruence]); [by split|by apply agrees_not].
Qed.

Lemma act_audited a c action : agrees a c -> audited a (act c action) (kept a).
Proof.
  intros Hag. eapply monitored_bind; [by apply status_audited|].
  intros a1 [c1 [st|e]] [[[Hh Ha] Ht] Hr]; simpl in *; [|agree]. destruct Hr as (Hr & Hv & Hl).
  destruct (enrolled_of st && negb (authenticated c1)) eqn:E; [agree|].
  destruct (bool_decide (action = Enable) && reset_incomplete c1); [agree|]. split.
  - split; [|congruence]. exists (enrolled_of st). split; [done|]. intros He. rewrite He in E.
    destruct (authenticated c1) eqn:Hc; [|done]. by apply Ha.
  - intros [[]|e]; simpl.
    + eapply monitored_mono; [|apply refresh_audited].
      * intros a2 r [H1 H2]. split; [exact H1|]. rewrite H2. by destruct action.
      * destruct action; (split; [done|]; intros Hc; try discriminate Hc; by apply Ha).
    + destruct (bool_decide _); destruct action; agree.
Qed.

Lemma locked_act c action t x : authenticated c = false -> runs (act c action) t x ->
  forall before reply after, t = (before ++ existT (CallPlatform action) reply :: after)%list ->
  exists status, last before = Some (existT GetStatus (inl status)) /\ enrolled_of status = false.
Proof.
  intros Hc Hr before reply after He. unfold act in Hr. apply runs_bind in Hr as (t1 & [c1 r] & t2 & -> & H1 & H2).
  apply locked_status in H1 as (Hc1 & r1 & -> & ->); [|done].
  destruct r as [st|e].
  2: { destruct H2 as [-> _]. destruct before as [|? []]; discriminate He. }
  destruct (enrolled_of st) eqn:Hst; rewrite ?Hc1 in H2; cbn [andb negb] in H2.
  { destruct H2 as [-> _]. destruct before as [|? []]; discriminate He. }
  destruct before as [|e before]; [discriminate He|]. injection He as <- He.
  destruct (bool_decide (action = Enable) && reset_incomplete c1); [destruct H2 as [-> _]; by destruct before|].
  destruct H2 as (r2 & t3 & -> & H3). destruct before as [|e before]; [by exists st|]. exfalso. injection He as _ ->.
  destruct r2 as [[]|e2]; [|destruct H3 as [H3 _]; by destruct before].
  apply (only_runs _ _ (only_refresh _)), Forall_app in H3 as [_ H3]. by inversion H3.
Qed.

#[local] Opaque Console.authenticate act recover_password.

Lemma recover_password_audited a c key password before : agrees a c -> typed a = (before ++ [key; password; password])%list ->
  audited a (recover_password c key password) (kept a).
Proof.
  intros [Hh Ha] Ht. split; [split; [by exists before|congruence]|]. intros [[]|e]; simpl; [|agree].
  apply (monitored_mono note may _ (kept (seen None false a))); [by intros a' r [H1 H2]|]. by apply refresh_audited, agrees_not.
Qed.

(** ** The program *)
Lemma open_bind {B} a (c : ConsoleCall) (k : ConsoleReply c -> prog Backend B) R : hidden a = false ->
  match c with CallPlatform _ | VerifyPassword _ | CallRecoverPassword _ _ => False | _ => True end ->
  (forall r, audited (note a (existT c r : event Backend)) (k r) R) -> audited a (pbind (ask c) k) R.
Proof. intros Hh Hc Hk. split; [by apply open_may|]. exact Hk. Qed.

(** A call that leaves the controller's knowledge right. *)
Definition harmless (c : ConsoleCall) : bool :=
  match c with Print _ | Flush | IsTerminal | GetAttributes | Sleep _ => true | _ => false end.

Lemma harmless_bind {B} a (c : ConsoleCall) (k : ConsoleReply c -> prog Backend B) R : hidden a = false -> harmless c = true ->
  (forall r, audited (seen None (verified a) a) (k r) R) -> audited a (pbind (ask c) k) R.
Proof. intros Hh Hc Hk. apply open_bind; [done|by destruct c|]. intros r. specialize (Hk r). by destruct c. Qed.

Lemma read_line_audited {B} a c (k : option string -> prog Backend B) R : agrees a c ->
  (forall a' r, agrees a' c -> audited a' (k r) R) -> audited a (pbind (read_line 32) k) R.
Proof.
  intros [Hh Ha] Hk. apply open_bind; [done|done|]. intros r. apply Hk. by destruct r.
Qed.

Lemma read_secret_audited a c prompt : agrees a c ->
  audited a (read_secret prompt) (fun a' r => agrees a' c /\ match r with Some s => typed a' = (typed a ++ [s])%list | None => True end).
Proof.
  intros [Hh Ha]. unfold read_secret.
  apply harmless_bind; [done|done|]. intros _. apply harmless_bind; [done|done|]. intros []; simpl; [|agree].
  apply harmless_bind; [done|done|]. intros []; simpl; [|agree].
  apply harmless_bind; [done|done|]. intros []; simpl; [|agree].
  apply open_bind; [done|done|]. intros []; simpl.
  2: { split; [by apply open_may|]. intros []. agree. }
  split; [split; [done|auto]|]. intros [line|]; simpl; (split; [split; [done|auto]|]; intros []; simpl;
    split; [by apply open_may|]; intros []; simpl); [|agree].
  split; [by split|]. by destruct (is_empty line).
Qed.

#[local] Opaque read_secret.

(** What a choice leaves. *)
Definition stays {A} (a' : Audit) (r : Controller * A) : Prop := agrees a' r.1.

Lemma kept_stays {A} a a' (r : Controller * A) : kept a a' r -> stays a' r.
Proof. by intros []. Qed.

Lemma secret_bind {B} a c prompt (k : option string -> prog Backend B) R : agrees a c ->
  (forall a', agrees a' c -> audited a' (k None) R) ->
  (forall a' s, agrees a' c -> typed a' = (typed a ++ [s])%list -> audited a' (k (Some s)) R) ->
  audited a (pbind (read_secret prompt) k) R.
Proof.
  intros Ha Hn Hs. eapply monitored_bind; [by apply (read_secret_audited a c)|]. intros a' [s|] [H1 H2]; auto.
Qed.

Lemma call_authenticate a c : agrees a c -> audited a (authenticate c) stays.
Proof.
  intros Ha. apply (secret_bind a c); [done|done|]. intros a1 password Ha1 Ht1. simpl.
  eapply monitored_bind; [apply authenticate_audited; [done|by rewrite Ht1, last_snoc]|]. by intros a2 [c2 x] [H _].
Qed.

Lemma call_perform a c view action : agrees a c -> audited a (perform c view action) stays.
Proof.
  intros Ha. unfold perform. eapply (monitored_bind _ _ _ _ stays).
  { destruct (_ && _); [by apply call_authenticate|done]. }
  intros a1 [c1 [s|e]] Ha1; simpl; [|done].
  eapply monitored_bind; [by apply act_audited|]. by intros a2 [c2 x] [H _].
Qed.

Lemma call_recover a c : agrees a c -> audited a (recover c) stays.
Proof.
  intros Ha. apply (secret_bind a c); [done|done|]. intros a1 key Ha1 Ht1. simpl.
  apply (secret_bind a1 c); [done|done|]. intros a2 first Ha2 Ht2. simpl.
  apply (secret_bind a2 c); [done|done|]. intros a3 second Ha3 Ht3. simpl.
  destruct (String.eqb_spec first second) as [->|_]; simpl; [|done].
  eapply monitored_bind; [apply (recover_password_audited a3 c key second (typed a)); [done|]|].
  { by rewrite Ht3, Ht2, Ht1, <- !app_assoc. }
  by intros a4 [c4 x] [H _].
Qed.

Definition chosen (a' : Audit) (r : option (Controller * (string + ConsoleError.t))) : Prop :=
  match r with Some r => stays a' r | None => hidden a' = false end.

Lemma some_chosen a (m : method string) : audited a m stays -> audited a (let! r := m in Done (Some r)) chosen.
Proof. intros Hm. by eapply monitored_bind. Qed.

Lemma call_choose a c view choice : agrees a c -> audited a (choose c view choice) chosen.
Proof.
  intros Ha. unfold choose. cbv zeta. destruct (String.eqb _ "1").
  { by apply some_chosen, call_perform. }
  destruct (String.eqb _ "2").
  { destruct Ha as [Hh Ha]. apply harmless_bind; [done|done|]. intros _. apply harmless_bind; [done|done|].
    intros []; simpl negb; cbn iota; [|done].
    apply (read_line_audited _ c); [agree|]. intros a1 [line|] Ha1; [|apply Ha1].
    destruct (negb _); [exact Ha1|by apply some_chosen, call_perform]. }
  destruct (String.eqb _ "3"); [by apply some_chosen, call_recover|].
  destruct (String.eqb _ "4").
  { destruct (view_authenticated view); [by apply agrees_not; [apply Ha|]|].
    destruct (enrolled _); [by apply some_chosen, call_authenticate|exact Ha]. }
  by destruct (_ || _).
Qed.

Lemma call_run fuel : forall a c message, agrees a c -> audited a (run fuel c message) (fun a' _ => hidden a' = false).
Proof.
  induction fuel as [|fuel IH]; intros a c message Ha; cbn [run]; [apply Ha|].
  apply (kept_bind a); [by apply refresh_audited|]. intros a1 c1 [view|e] [Hh1 Ha1] _.
  - do 2 (apply harmless_bind; [done|done|]; intros _). apply harmless_bind; [done|done|]. intros []; simpl negb; cbn iota; [|done].
    apply (read_line_audited _ c1); [agree|]. intros a2 [choice|] Ha2; [|apply Ha2].
    eapply monitored_bind; [by apply call_choose|]. intros a3 [[c3 result]|] Ha3; [|done]. by apply IH.
  - do 3 (apply harmless_bind; [done|done|]; intros _).
    apply (read_line_audited _ c1); [agree|]. intros a2 [line|] Ha2; [by apply IH|apply Ha2].
Qed.

Lemma appliance_error_audited {B} a message (k : prog Backend B) R : hidden a = false ->
  (forall a', hidden a' = false -> audited a' k R) -> audited a (do! appliance_error message in k) R.
Proof. intros Hh Hk. do 3 (apply harmless_bind; [done|done|]; intros ?). by apply Hk. Qed.

Lemma call_main rounds fuel : forall a, hidden a = false -> audited a (main fuel rounds) (fun a' _ => hidden a' = false).
Proof.
  induction fuel as [|fuel IH]; intros a Hh; cbn [main]; [exact Hh|].
  apply open_bind; [done|done|]. intros connected. apply (monitored_bind _ _ _ _ (fun a' _ => hidden a' = false)).
  { destruct connected; [by apply call_run, agrees_not|]. by apply appliance_error_audited. }
  intros a1 [[]|[]|] Hh1; [done| |done].
  assert (Hend : forall a2, hidden a2 = false -> audited a2 (do! ask (Sleep RETRY_DELAY) in main fuel rounds) (fun a' _ => hidden a' = false)).
  { intros a2 Hh2. apply harmless_bind; [done|done|]. intros _. by apply IH. }
  destruct connected; [by apply appliance_error_audited|by apply Hend].
Qed.

(** C15. What the console asks the daemons for.  Whatever the operator types,
    and whatever the terminal and the daemons answer: remote management is
    changed only directly after a status, and if that status reports an
    operator then only with a password verified earlier on this connection,
    since when every status reported an operator and neither a
    re-enrollment nor a recovery succeeded; a password is sent for
    verification only directly after a status reporting an operator; the
    password and the keys sent are what was last typed with the echo off,
    the new password twice; and the echo is off for the reading of one line
    and back on before anything else is done.  A locked session is not
    authenticated: with an operator enrolled it changes nothing. *)
Theorem console_asks_only_when_allowed :
  (forall fuel rounds t result, runs (main fuel rounds) t result ->
     (forall before call reply after, t = (before ++ existT call reply :: after)%list -> may (foldl note nobody before) call) /\
     hidden (foldl note nobody t) = false) /\
  (forall c action t st result, runs (act (logout c) action) t (st, result) ->
     forall before reply after, t = (before ++ existT (CallPlatform action) reply :: after)%list ->
     exists status, last before = Some (existT GetStatus (inl status)) /\ enrolled_of status = false).
Proof.
  split.
  - intros fuel rounds t result Hr.
    destruct (monitored_runs note may _ _ nobody _ _ (call_main rounds fuel nobody eq_refl) Hr) as [HQ HP]. by split.
  - intros c action t st result Hr before reply after He.
    exact (locked_act (logout c) action t (st, result) eq_refl Hr before reply after He).
Qed.
End ConsoleProps.
