(* ===== verification/AuthErrors.v ===== *)
(** * What the callers of the authentication service are told

    The failures of the machine, the names of their errors on the bus, and
    what the remote server and the console make of these names. *)
From S2P Require Import Prelude Text Hash Store Machine MachineSpec Programs AuthService Peers Http Console.

Module AuthErrors.
Import Hash Store Machine MachineSpec AuthService.

(** [auth_failure] of an error reply, and the name of what it makes of it *)
Definition console_sees (name : string) : Console.AuthFailure.t :=
  Console.auth_failure (R:=unit) (Peers.MethodError name).

Definition console_debug (f : Console.AuthFailure.t) : string :=
  match f with
  | Console.AuthFailure.NotEnrolled => "NotEnrolled"
  | Console.AuthFailure.EnrollmentUnconfirmed => "EnrollmentUnconfirmed"
  | Console.AuthFailure.InvalidCredential => "InvalidCredential"
  | Console.AuthFailure.PasswordRejected => "PasswordRejected"
  | Console.AuthFailure.RateLimited => "RateLimited"
  | Console.AuthFailure.Busy => "Busy"
  | Console.AuthFailure.InvalidArgument => "InvalidArgument"
  | Console.AuthFailure.Unavailable => "Unavailable"
  end%string.

(** [ThisCase] to [this_case] *)
Fixpoint snake_tail (s : string) : string :=
  match s with
  | EmptyString => EmptyString
  | String a s =>
      let b := byte_of a in
      if is_ascii_upper b then String (char_of 95) (String (char_of (to_ascii_lowercase b)) (snake_tail s))
      else String a (snake_tail s)
  end.
Definition snake_case (s : string) : string :=
  match s with
  | EmptyString => EmptyString
  | String a s => String (char_of (to_ascii_lowercase (byte_of a))) (snake_tail s)
  end.

Example snake_case_words : snake_case "PairingAttemptsExhausted" = "pairing_attempts_exhausted"%string.
Proof. reflexivity. Qed.

(** ** The failures an operation can end with *)
Create HintDb failures discriminated.

Section Failures.
Context {D : Type} `{StoreOps D} `{Hasher} (env : Env) (P : Failure -> Prop).

Definition fails_with {A} (m : M (D:=D) A) : Prop := forall c f, (m c).1 = Err f -> P f.
Definition failing {A} (r : res A Failure) : Prop := forall f, r = Err f -> P f.

Lemma fails_bind {A B} (m : M A) (k : A -> M B) : fails_with m -> (forall a, fails_with (k a)) -> fails_with (bind m k).
Proof.
  intros Hm Hk c f. unfold bind. specialize (Hm c). destruct (m c) as [[a|g|] c']; simpl; [apply Hk| |done].
  intros [= ->]. by apply Hm.
Qed.
Lemma fails_ret {A} (a : A) : fails_with (ret a).
Proof. by intros c f. Qed.
Lemma fails_get : fails_with get.
Proof. by intros c f. Qed.
Lemma fails_modify g : fails_with (modify g).
Proof. by intros c f. Qed.
Lemma fails_fail {A} g : P g -> fails_with (fail (A:=A) g).
Proof. by intros Hg c f [= <-]. Qed.
Lemma fails_lift {A} (r : res A Failure) : failing r -> fails_with (lift r).
Proof. intros Hr c f. apply Hr. Qed.
Lemma fails_boot : fails_with (boot env).
Proof. by intros c f. Qed.
Lemma fails_wall : fails_with (wall env).
Proof. by intros c f. Qed.
Lemma failing_map_err {A E} (g : Failure) (r : res A E) : P g -> failing (map_err (fun _ => g) r).
Proof. intros Hg f. destruct r; [done| |done]. by intros [= <-]. Qed.
Lemma failing_ok_or {A} (g : Failure) (o : option A) : P g -> failing (ok_or o g).
Proof. intros Hg f. destruct o; [done|]. by intros [= <-]. Qed.
Lemma failing_parses r expected : failing (parses_to r expected).
Proof. by destruct r. Qed.
Lemma failing_if {A} (b : bool) (r s : res A Failure) : failing r -> failing s -> failing (if b then r else s).
Proof. by destruct b. Qed.
Lemma failing_ok {A} (a : A) : failing (Ok a).
Proof. done. Qed.
Lemma failing_err {A} g : P g -> failing (Err (A:=A) g).
Proof. by intros Hg f [= <-]. Qed.
Lemma fails_replying {A B} (g : A -> B) (m : M A) : fails_with m -> fails_with (replying g m).
Proof. intros Hm c f. unfold replying. specialize (Hm c). destruct (m c) as [[|e|] c']; simpl in *; [done| |done]. intros [= ->]. by apply Hm. Qed.
Lemma fails_commit p : P Unavailable -> fails_with (commit p).
Proof. intros HU c f. unfold commit. destruct (store_write _ _ _) as [[|e|] d]; simpl; [done| |done]. by intros [= <-]. Qed.
Lemma fails_random n : P Unavailable -> fails_with (random_bytes env n).
Proof. intros HU c f. by apply failing_ok_or. Qed.
End Failures.
#[export] Hint Resolve fails_ret fails_get fails_modify fails_boot fails_wall fails_fail fails_lift fails_commit fails_random
  fails_replying failing_map_err failing_ok_or failing_parses failing_ok failing_err : failures.

(** What the two methods the console calls can end with. *)
Definition console_failure (f : Failure) : Prop := console_debug (console_sees (default "" (AuthError.name (to_dbus f)))) = debug f.

Lemma console_failures :
  console_failure NotEnrolled /\ console_failure EnrollmentUnconfirmed /\ console_failure InvalidCredential /\
  console_failure PasswordRejected /\ console_failure RateLimited /\ console_failure InvalidArgument /\ console_failure Unavailable.
Proof. done. Qed.

(** Steps through an operation's binds and branches. *)
Ltac failing_steps :=
  repeat first
    [ progress auto with failures
    | apply fails_bind; [|intros ?]
    | apply fails_lift
    | apply failing_if
    | match goal with |- fails_with _ (match ?x with _ => _ end) => destruct x end
    | match goal with |- failing _ (match ?x with _ => _ end) => destruct x end ].

Section Methods.
Context {D : Type} `{StoreOps D} `{Hasher} (env : Env).

Lemma console_prepare : fails_with (D:=D) console_failure (prepare env).
Proof.
  pose proof console_failures as (?&?&?&?&?&?&?). unfold prepare, boot_now. failing_steps.
Qed.

Lemma console_backoff scope : fails_with (D:=D) console_failure (check_backoff env scope).
Proof. pose proof console_failures as (?&?&?&?&?&?&?). unfold check_backoff, boot_now. failing_steps. Qed.

Lemma console_record scope : fails_with (D:=D) console_failure (record_failure env scope).
Proof. pose proof console_failures as (?&?&?&?&?&?&?). unfold record_failure. cbv zeta. failing_steps. Qed.
#[local] Hint Resolve console_prepare console_backoff console_record : failures.

Lemma console_verify uid password : fails_with (D:=D) console_failure (Machine.verify_password env uid password).
Proof.
  pose proof console_failures as (?&?&?&?&?&?&?). unfold Machine.verify_password, check_password_bound, verify, record_success.
  failing_steps.
Qed.

Lemma console_recover key password : fails_with (D:=D) console_failure (Machine.recover_password env key password).
Proof.
  pose proof console_failures as (?&?&?&?&?&?&?).
  unfold Machine.recover_password, parse_recovery_key, check_password_bound, check_new_password, password_equals_key, verify, hash, record_success.
  failing_steps.
Qed.
End Methods.

Definition called_by_console (op : Op) : bool :=
  match op with VerifyPassword _ _ | RecoverPassword _ _ => true | _ => false end.

End AuthErrors.
