(* ===== verification/Deadlines.v ===== *)
(** * Deadlines across the daemons

    The platform's lifecycle calls are sequences of steps with a deadline
    each; the console gives up on a whole sequence at a deadline of its
    own. *)
From S2P Require Import Prelude Protocol Programs PlatformCalls PlatformRemote Platform Console.

Module Deadlines.
Import Protocol Programs PlatformCalls PlatformRemote.
#[local] Open Scope prog_scope.

(** The [timeout] around the body of each method of [SystemBackend]; those
    without one read a file or take a permit that is there or not. *)
Definition deadline (c : BackendCall) : Z :=
  match c with
  | RunWorker _ => WORKER_TIMEOUT
  | StartRemoted | StopRemoted => REMOTED_TIMEOUT
  | Auth _ | PendingPairing => AUTH_TIMEOUT
  | Network => Platform.NETWORK_TIMEOUT
  | Acquire | Drop | MarkerExists _ | Fingerprint => 0
  end.

Definition spent (t : list (event Backend)) : Z := foldr (fun e n => deadline (projT1 e) + n) 0 t.

Lemma spent_app t1 t2 : spent (t1 ++ t2) = spent t1 + spent t2.
Proof. induction t1 as [|e t1 IH]; simpl; [done|]. rewrite IH. lia. Qed.

(** ** Programs within a budget *)
Definition within {A} (m : prog Backend A) (budget : Z) : Prop := forall t a, runs m t a -> spent t <= budget.

Lemma within_done {A} (a : A) budget : 0 <= budget -> within (Done a) budget.
Proof. intros H t b [-> _]. exact H. Qed.

Lemma within_call {B} (c : BackendCall) (f : BackendReply c -> B) : within (let! r := backend c in Done (f r)) (deadline c).
Proof. intros t b (r & t' & -> & -> & _). simpl. lia. Qed.

Lemma within_bind {A B} (m : prog Backend A) (k : A -> prog Backend B) a b total :
  within m a -> a + b <= total -> (forall x, within (k x) b) -> within (let! x := m in k x) total.
Proof.
  intros Hm Hle Hk t y Hr. apply runs_bind in Hr as (t1 & x & t2 & -> & H1 & H2). rewrite spent_app.
  specialize (Hm _ _ H1). specialize (Hk _ _ _ H2). lia.
Qed.

Lemma within_try {A B E} (m : prog Backend (res A E)) (k : A -> prog Backend (res B E)) a b total :
  within m a -> a + b <= total -> 0 <= b -> (forall x, within (k x) b) -> within (let? x := m in k x) total.
Proof.
  intros Hm Hle Hb Hk. apply (within_bind _ _ a b); [done|done|].
  intros [x|e|]; [apply Hk|by apply within_done..].
Qed.

Lemma within_holding {A} (body : prog Backend (res A PlatformError.t)) budget : 0 <= budget -> within body budget -> within (holding body) budget.
Proof.
  intros Hb H. apply (within_bind _ _ 0 budget); [|lia|].
  - intros t a (r & t' & -> & -> & _). simpl. lia.
  - intros []; [|by apply within_done]. apply (within_bind _ _ budget 0); [done|lia|].
    intros r t a (r' & t' & -> & -> & _). simpl. lia.
Qed.

(** A step that may be skipped. *)
Lemma within_if {A E} (b : bool) (m : prog Backend (res A E)) r budget : within m budget -> 0 <= budget ->
  within (if b then m else Done r) budget.
Proof. intros H Hb. destruct b; [done|by apply within_done]. Qed.

Lemma enable_within : within enable 50000.
Proof.
  apply within_holding; [lia|]. apply (within_try _ _ 0 50000); [apply (within_call (MarkerExists ResetPending))|lia|lia|].
  intros []; [by apply within_done|].
  apply (within_try _ _ 30000 20000); [apply (within_call (RunWorker ENABLE_UNIT))|lia|lia|]. intros _.
  apply (within_try _ _ 10000 10000); [apply (within_call (Auth EnsurePendingPairing))|lia|lia|]. intros _.
  apply (within_call StartRemoted).
Qed.

Lemma disable_within : within disable 50000.
Proof.
  apply within_holding; [lia|].
  apply (within_try _ _ 30000 20000); [apply (within_call (RunWorker DISABLE_UNIT))|lia|lia|]. intros _.
  apply (within_try _ _ 10000 10000); [apply (within_call StopRemoted)|lia|lia|]. intros _.
  apply (within_call (Auth CancelPendingPairing)).
Qed.

Lemma reenroll_within : within reenroll 100000.
Proof.
  apply within_holding; [lia|].
  apply (within_try _ _ 10000 90000); [apply (within_call StopRemoted)|lia|lia|]. intros _.
  apply (within_try _ _ 10000 80000); [apply (within_call (Auth ResetEnrollment))|lia|lia|]. intros _.
  apply (within_try _ _ 30000 50000); [apply (within_call (RunWorker ROTATE_UNIT))|lia|lia|]. intros _.
  apply (within_try _ _ 0 50000); [apply (within_call (MarkerExists Enabled))|lia|lia|]. intros enabled.
  apply (within_try _ _ 10000 40000); [apply within_if; [apply (within_call (Auth EnsurePendingPairing))|lia]|lia|lia|]. intros _.
  apply (within_try _ _ 0 40000); [apply (within_call (MarkerExists ResetPending))|lia|lia|]. intros pending.
  apply (within_try _ _ 30000 10000); [apply within_if; [apply (within_call (RunWorker CLEAR_RESET_UNIT))|lia]|lia|lia|]. intros _.
  apply within_if; [apply (within_call StartRemoted)|lia].
Qed.

Lemma enrollment_within : within enrollment 13000.
Proof.
  apply within_holding; [lia|].
  apply (within_try _ _ 3000 10000); [apply (within_call Network)|lia|lia|]. intros network. cbv zeta.
  apply (within_try _ _ 0 10000); [apply (within_call Fingerprint)|lia|lia|]. intros fingerprint.
  apply (within_try _ _ 10000 0); [apply (within_call PendingPairing)|lia|lia|]. intros [[pending code] expires_at].
  destruct pending; [|by apply within_done]. by destruct (_ || _); apply within_done.
Qed.

(** ** What the console waits for *)
Definition lifecycle (action : Console.Action) : prog Backend (res unit PlatformError.t) :=
  match action with
  | Console.Enable => enable
  | Console.Disable => disable
  | Console.Reenroll => reenroll
  end.

(** Every step succeeds, and both markers are there. *)
Definition longest (n : nat) (c : BackendCall) : BackendReply c :=
  match c with
  | Acquire => true
  | Drop => tt
  | MarkerExists ResetPending => Ok (Nat.ltb 5 n)
  | MarkerExists _ => Ok true
  | RunWorker _ | StartRemoted | StopRemoted | Auth _ => Ok tt
  | PendingPairing => Ok (false, EmptyString, 0)
  | Network => Err tt
  | Fingerprint => Ok None
  end.

(** C40. The console's deadlines cover the platform's.  Whatever the steps of
    a lifecycle operation are answered, the deadlines of the steps it makes
    sum to at least ten seconds less than the console waits for it, and
    those of the enrollment to less than the console waits for that.  The
    sums 50 s and 100 s are reached: no smaller deadline would do with that
    margin. *)
Theorem console_outwaits_platform :
  (forall action t r, runs (lifecycle action) t r -> spent t + 10000 <= Console.lifecycle_timeout action) /\
  (forall t r, runs enrollment t r -> spent t + 10000 <= Console.READ_AUTH_TIMEOUT) /\
  (forall action, exists t r, runs (lifecycle action) t r /\ spent t + 10000 = Console.lifecycle_timeout action).
Proof.
  split_and!.
  - intros [] t r Hr; cbn in Hr |- *; unfold Console.LIFECYCLE_TIMEOUT, Console.REENROLL_TIMEOUT.
    + apply enable_within in Hr. lia.
    + apply disable_within in Hr. lia.
    + apply reenroll_within in Hr. lia.
  - intros t r Hr. apply enrollment_within in Hr. unfold Console.READ_AUTH_TIMEOUT. lia.
  - intros action. exists (exec (S:=Backend) longest 0 (lifecycle action)).1, (exec (S:=Backend) longest 0 (lifecycle action)).2.
    split; [apply exec_runs|]. by destruct action.
Qed.
End Deadlines.
