(* ===== verification/SharedRead.v ===== *)
(** * Shared observations ([platformd/src/shared_read.rs])

    Callers that share one observation in flight: the slot behind its lock,
    the watch channels, the tasks of the observations and their guards. *)
From S2P Require Import Prelude.

Module SharedRead.

Section Shared.
Context {T : Type}.

(** A flight is a watch channel: the last value sent, and whether its sender
    is still there. *)
Record Channel := { value : option T; open : bool }.

(** The task of an observation: under way, or over with its guard
    [EndFlight] and its sender still to be dropped, or not. *)
Inductive Task := Observing | Over (guard sender : bool).

(** A caller waiting for its flight. *)
Record SharedRead := {
  in_flight : option nat;
  channels : gmap nat Channel;
  tasks : gmap nat Task;
  callers : gmap nat nat
}.

Definition new : SharedRead := {| in_flight := None; channels := ∅; tasks := ∅; callers := ∅ |}.

(** What happens, in order: a call and the flight it joins or starts, the
    end of an observation, a call's return, and a caller that goes away. *)
Inductive Event :=
  | Called (caller flight : nat) (started : bool)
  | Completed (flight : nat) (v : T)
  | Panicked (flight : nat)
  | Returned (caller : nat) (result : option T)
  | Left (caller : nat).

Definition set_callers (f : gmap nat nat -> gmap nat nat) (s : SharedRead) : SharedRead :=
  {| in_flight := in_flight s; channels := channels s; tasks := tasks s; callers := f (callers s) |}.
Definition set_task (flight : nat) (t : Task) (s : SharedRead) : SharedRead :=
  {| in_flight := in_flight s; channels := channels s; tasks := <[flight := t]> (tasks s); callers := callers s |}.
Definition set_channel (flight : nat) (c : Channel) (s : SharedRead) : SharedRead :=
  {| in_flight := in_flight s; channels := <[flight := c]> (channels s); tasks := tasks s; callers := callers s |}.

(** [EndFlight::clear] *)
Definition clear (flight : nat) (s : SharedRead) : SharedRead :=
  {| in_flight := if bool_decide (in_flight s = Some flight) then None else in_flight s;
     channels := channels s; tasks := tasks s; callers := callers s |}.

(** [SharedRead::run] up to its wait: a new channel is [fresh]. *)
Definition call (caller fresh : nat) (s : SharedRead) : SharedRead * Event :=
  match in_flight s with
  | Some flight => (set_callers <[caller := flight]> s, Called caller flight false)
  | None =>
      (set_callers <[caller := fresh]>
         {| in_flight := Some fresh; channels := <[fresh := {| value := None; open := true |}]> (channels s);
            tasks := <[fresh := Observing]> (tasks s); callers := callers s |},
       Called caller fresh true)
  end.

(** What the task does with the value, under the lock. *)
Definition complete (flight : nat) (v : T) (s : SharedRead) : SharedRead :=
  set_task flight (Over true true) (set_channel flight {| value := Some v; open := true |} (clear flight s)).

(** [wait_for(Option::is_some)]: ready with a value, or when the sender is
    gone; the value then. *)
Definition waited (c : Channel) : option (option T) :=
  match value c with
  | Some v => Some (Some v)
  | None => if open c then None else Some None
  end.

Definition drop_sender (flight : nat) (s : SharedRead) : SharedRead :=
  match channels s !! flight with
  | Some c => set_channel flight {| value := value c; open := false |} s
  | None => s
  end.

Inductive step (s : SharedRead) : list Event -> SharedRead -> Prop :=
  | step_call caller fresh s' e : callers s !! caller = None -> channels s !! fresh = None -> call caller fresh s = (s', e) ->
      step s [e] s'
  | step_complete flight v : tasks s !! flight = Some Observing -> step s [Completed flight v] (complete flight v s)
  | step_panic flight : tasks s !! flight = Some Observing -> step s [Panicked flight] (set_task flight (Over true true) s)
  | step_drop_guard flight sender : tasks s !! flight = Some (Over true sender) ->
      step s [] (set_task flight (Over false sender) (clear flight s))
  | step_drop_sender flight guard : tasks s !! flight = Some (Over guard true) ->
      step s [] (set_task flight (Over guard false) (drop_sender flight s))
  | step_return caller flight c result : callers s !! caller = Some flight -> channels s !! flight = Some c ->
      waited c = Some result -> step s [Returned caller result] (set_callers (delete caller) s)
  | step_leave caller flight : callers s !! caller = Some flight -> step s [Left caller] (set_callers (delete caller) s).

(** The record of a run from [new]. *)
Inductive reach : list Event -> SharedRead -> Prop :=
  | reach_new : reach [] new
  | reach_step l s e s' : reach l s -> step s e s' -> reach (l ++ e) s'.
End Shared.
Arguments Event : clear implicits.
Arguments SharedRead : clear implicits.
End SharedRead.
