(* ===== verification/SharedReadProps.v ===== *)
(** * What the callers of a shared observation are given *)
From S2P Require Import Prelude Programs SharedRead.

Module SharedReadProps.
Import Programs SharedRead.

Section Shared.
Context {T : Type}.
Implicit Types (l : list (Event T)) (s : SharedRead T).

(** The event ends a wait of the caller. *)
Definition ends (i : nat) (e : Event T) : Prop :=
  match e with Returned j _ | Left j => i = j | _ => False end.

(** The caller's call, the flight it got, and what happened since. *)
Definition calling l (i flight : nat) (since : list (Event T)) : Prop :=
  exists before started, l = (before ++ Called i flight started :: since)%list /\ Forall (fun e => ~ ends i e) since.

Lemma calling_more l i flight since e : calling l i flight since -> Forall (fun e => ~ ends i e) e ->
  calling (l ++ e) i flight (since ++ e).
Proof.
  intros (before & started & -> & H) He. exists before, started. rewrite <- app_assoc. split; [done|]. by apply Forall_app.
Qed.

(** The end of an observation, or nothing at all. *)
Lemma quiet_here i (e : list (Event T)) : match e with [] | [Completed _ _] | [Panicked _] => True | _ => False end ->
  Forall (fun e => ~ ends i e) e.
Proof. destruct e as [|[] []]; try done; intros _; constructor; try done; simpl; tauto. Qed.

(** ** The invariant *)
Definition in_progress s flight : Prop := tasks s !! flight = Some Observing.

(** What is known of a flight: while it is in progress it is the one in the
    slot, and nothing has been sent; when it is over, how it ended. *)
Definition flight_ok l s (flight : nat) (c : Channel) : Prop :=
  match tasks s !! flight with
  | Some Observing => in_flight s = Some flight /\ c = {| value := None; open := true |}
  | Some (Over _ sender) => open c = sender /\
      match value c with Some v => Completed flight v ∈ l | None => Panicked flight ∈ l end
  | None => False
  end.

Record inv l s : Prop := {
  inv_flight flight c : channels s !! flight = Some c -> flight_ok l s flight c;
  inv_task flight : is_Some (tasks s !! flight) -> is_Some (channels s !! flight);
  inv_slot flight : in_flight s = Some flight -> exists c, channels s !! flight = Some c /\ value c = None;
  inv_caller i flight : callers s !! i = Some flight -> exists c since, channels s !! flight = Some c /\ calling l i flight since /\
    match value c with Some v => Completed flight v ∈ since | None => True end
}.

(** A return and its reason. *)
Definition answered (before : list (Event T)) (i : nat) (result : option T) : Prop :=
  exists flight since, calling before i flight since /\
    match result with Some v => Completed flight v ∈ since | None => Panicked flight ∈ before end.

Lemma inv_new : inv [] (new (T:=T)).
Proof. split; intros *; simpl; rewrite ?lookup_empty; try done; by intros []. Qed.

Lemma flight_more l s flight c e : flight_ok l s flight c -> flight_ok (l ++ e) s flight c.
Proof.
  unfold flight_ok. destruct (tasks s !! flight) as [[|guard sender]|]; [done| |done].
  intros [H1 H2]. split; [done|]. destruct (value c); apply elem_of_app; by left.
Qed.

(** A step of callers only. *)
Lemma inv_callers l s f e : inv l s ->
  (forall i flight, f (callers s) !! i = Some flight ->
     callers s !! i = Some flight /\ Forall (fun e => ~ ends i e) e \/
     in_flight s = Some flight /\ exists started, e = [Called i flight started]) ->
  inv (l ++ e) (set_callers f s).
Proof.
  intros I Hf. split; simpl.
  - intros flight c Hc. apply flight_more. by apply (inv_flight _ _ I).
  - apply (inv_task _ _ I).
  - apply (inv_slot _ _ I).
  - intros i flight Hi. destruct (Hf i flight Hi) as [[Hi' He]|[Hs [started ->]]].
    + destruct (inv_caller _ _ I i flight Hi') as (c & since & Hc & Hcall & Hv).
      exists c, (since ++ e)%list. split_and!; [done|by apply calling_more|].
      destruct (value c); [apply elem_of_app; by left|done].
    + destruct (inv_slot _ _ I _ Hs) as (c & Hc & Hv). exists c, []. rewrite Hv. split_and!; [done| |done].
      exists l, started. by split.
Qed.

(** A step of one flight: what it leaves in the channel, and of the slot. *)
Lemma inv_flight_step l s s' e flight c c' t' : inv l s -> channels s !! flight = Some c ->
  channels s' = <[flight := c']> (channels s) -> tasks s' = <[flight := t']> (tasks s) -> callers s' = callers s ->
  (in_flight s' = in_flight s \/ in_flight s' = None) -> (in_flight s' = None \/ in_flight s <> Some flight \/ value c' = None) ->
  (in_flight s' = None -> in_flight s = None \/ in_flight s = Some flight) ->
  (forall i, Forall (fun e => ~ ends i e) e) ->
  flight_ok (l ++ e) s' flight c' ->
  match value c' with Some v => Completed flight v ∈ e \/ value c = Some v | None => True end ->
  inv (l ++ e) s'.
Proof.
  intros I Hc Hch Hta Hca Hslot Hval Hnone Hends Hok Hv. split.
  - intros g d. rewrite Hch. destruct (decide (g = flight)) as [->|Hne].
    + rewrite lookup_insert_eq. by intros [= <-].
    + rewrite lookup_insert_ne by done. intros Hd. pose proof (inv_flight _ _ I _ _ Hd) as Hg. apply (flight_more _ _ _ _ e) in Hg.
      unfold flight_ok in *. rewrite Hta, lookup_insert_ne by done. destruct (tasks s !! g) as [[]|]; [|done..].
      destruct Hg as [Hg ->]. split; [|done]. destruct Hslot as [->|Hn]; [done|]. destruct (Hnone Hn) as [H|H]; congruence.
  - intros g. rewrite Hch, Hta. destruct (decide (g = flight)) as [->|Hne]; [by rewrite !lookup_insert_eq|].
    rewrite !lookup_insert_ne by done. apply (inv_task _ _ I).
  - intros g Hg. destruct Hslot as [Hs|Hs]; [|congruence]. rewrite Hs in Hg. destruct (inv_slot _ _ I _ Hg) as (d & Hd & Hdv).
    rewrite Hch. destruct (decide (g = flight)) as [->|Hne].
    + rewrite lookup_insert_eq. exists c'. split; [done|]. destruct Hval as [H|[H|H]]; [congruence|congruence|done].
    + exists d. by rewrite lookup_insert_ne.
  - intros i g. rewrite Hca. intros Hi. destruct (inv_caller _ _ I i g Hi) as (d & since & Hd & Hcall & Hdv). rewrite Hch.
    destruct (decide (g = flight)) as [->|Hne].
    + rewrite lookup_insert_eq. exists c', (since ++ e)%list. split_and!; [done|by apply calling_more|].
      replace d with c in Hdv by congruence. destruct (value c') as [v|]; [|done]. apply elem_of_app.
      destruct Hv as [Hv|Hv]; [by right|]. left. by rewrite Hv in Hdv.
    + rewrite lookup_insert_ne by done. exists d, (since ++ e)%list. split_and!; [done|by apply calling_more|].
      destruct (value d); [apply elem_of_app; by left|done].
Qed.

Lemma inv_start l s fresh : inv l s -> in_flight s = None -> channels s !! fresh = None ->
  inv l {| in_flight := Some fresh; channels := <[fresh := {| value := None; open := true |}]> (channels s);
           tasks := <[fresh := Observing]> (tasks s); callers := callers s |}.
Proof.
  intros I Hs Hf. split; simpl.
  - intros g d. unfold flight_ok. simpl. destruct (decide (g = fresh)) as [->|Hne].
    + rewrite !lookup_insert_eq. by intros [= <-].
    + rewrite !lookup_insert_ne by done. intros Hd. pose proof (inv_flight _ _ I _ _ Hd) as Hg. unfold flight_ok in Hg.
      destruct (tasks s !! g) as [[]|]; [|done..]. destruct Hg as [Hg _]. congruence.
  - intros g. destruct (decide (g = fresh)) as [->|Hne]; [by rewrite !lookup_insert_eq|].
    rewrite !lookup_insert_ne by done. apply (inv_task _ _ I).
  - intros g [= <-]. rewrite lookup_insert_eq. by eexists.
  - intros i g Hi. destruct (inv_caller _ _ I i g Hi) as (d & since & Hd & Hcall & Hdv). exists d, since.
    rewrite lookup_insert_ne by congruence. by split_and!.
Qed.

Lemma inv_call l s caller fresh s' e : inv l s -> channels s !! fresh = None -> call caller fresh s = (s', e) -> inv (l ++ [e]) s'.
Proof.
  intros I Hf. unfold call.
  assert (Hins : forall s0 flight started i g, in_flight s0 = Some flight -> <[caller := flight]> (callers s0) !! i = Some g ->
    callers s0 !! i = Some g /\ Forall (fun e => ~ ends i e) [Called (T:=T) caller flight started] \/
    in_flight s0 = Some g /\ exists started', [Called (T:=T) caller flight started] = [Called i g started']).
  { intros s0 flight started i g Hs0. destruct (decide (i = caller)) as [->|Hne].
    - rewrite lookup_insert_eq. intros [= <-]. right. split; [done|by eexists].
    - rewrite lookup_insert_ne by done. intros H. left. split; [done|]. apply Forall_singleton. simpl. tauto. }
  destruct (in_flight s) as [flight|] eqn:Hs; intros [= <- <-].
  - apply inv_callers; [done|]. intros i g. by apply Hins.
  - eapply (inv_callers l _ <[caller := fresh]>); [by apply inv_start|]. intros i g. by apply Hins.
Qed.

Lemma flight_of l s flight t : inv l s -> tasks s !! flight = Some t -> exists c, channels s !! flight = Some c /\ flight_ok l s flight c.
Proof.
  intros I Ht. destruct (inv_task _ _ I flight) as [c Hc]; [by eexists|]. exists c. split; [done|]. by apply (inv_flight _ _ I).
Qed.

(** The slot after a flight's guard cleared it. *)
Lemma cleared flight s : (in_flight (clear flight s) = in_flight s \/ in_flight (clear flight s) = None) /\
  (in_flight (clear flight s) = None -> in_flight s = None \/ in_flight s = Some flight) /\
  (in_flight (clear flight s) = None \/ in_flight s <> Some flight).
Proof. unfold clear. simpl. destruct (bool_decide_reflect (in_flight s = Some flight)); auto. Qed.

Lemma shared_inv_step l s e s' : inv l s -> step s e s' -> inv (l ++ e) s'.
Proof.
  intros I [caller fresh s1 e1 _ Hf Hc|flight v Ht|flight Ht|flight sender Ht|flight guard Ht|caller flight c result Hi Hc Hw|caller flight Hi].
  - by eapply inv_call.
  - destruct (flight_of _ _ _ _ I Ht) as (c & Hc & Hok). unfold flight_ok in Hok. rewrite Ht in Hok. destruct Hok as [Hs ->].
    destruct (cleared flight s) as (H1 & H2 & H3).
    eapply (inv_flight_step l s _ _ flight); [done|exact Hc|reflexivity..|exact H1| |exact H2|intros i; apply quiet_here; by simpl| |left; by left].
    + destruct H3 as [H3|H3]; auto.
    + unfold flight_ok. simpl. rewrite lookup_insert_eq. split; [done|]. apply elem_of_app. right. by left.
  - destruct (flight_of _ _ _ _ I Ht) as (c & Hc & Hok). unfold flight_ok in Hok. rewrite Ht in Hok. destruct Hok as [Hs ->].
    eapply (inv_flight_step l s _ _ flight _ _ (Over true true)); [done|exact Hc|..]; simpl; auto.
    + symmetry. by apply insert_id.
    + right. by right.
    + unfold flight_ok. simpl. rewrite lookup_insert_eq. split; [done|]. simpl. apply elem_of_app. right. by left.
    + done.
  - destruct (flight_of _ _ _ _ I Ht) as (c & Hc & Hok). unfold flight_ok in Hok. rewrite Ht in Hok. destruct Hok as [Ho Hv].
    destruct (cleared flight s) as (H1 & H2 & H3).
    eapply (inv_flight_step l s _ _ flight _ c (Over false sender)); [done|exact Hc|simpl; symmetry; by apply insert_id|reflexivity|reflexivity|exact H1| |exact H2|intros i; apply quiet_here; by simpl| |].
    + destruct H3 as [H3|H3]; auto.
    + unfold flight_ok. simpl. rewrite lookup_insert_eq. split; [done|]. by rewrite app_nil_r.
    + destruct (value c); auto.
  - destruct (flight_of _ _ _ _ I Ht) as (c & Hc & Hok). unfold flight_ok in Hok. rewrite Ht in Hok. destruct Hok as [Ho Hv].
    unfold drop_sender. rewrite Hc.
    eapply (inv_flight_step l s _ _ flight _ _ (Over guard false)); [done|exact Hc|reflexivity|reflexivity|reflexivity|by left| |simpl; by left|intros i; apply quiet_here; by simpl| |].
    + simpl. destruct (in_flight s) as [g|] eqn:Hs; [|by left]. right. destruct (decide (g = flight)) as [->|]; [|left; congruence].
      right. destruct (inv_slot _ _ I _ Hs) as (c' & Hc' & Hv'). congruence.
    + unfold flight_ok. simpl. rewrite lookup_insert_eq. split; [done|]. by rewrite app_nil_r.
    + simpl. destruct (value c); auto.
  - apply inv_callers; [done|]. intros i g Hg. left. destruct (decide (i = caller)) as [->|Hne]; [by rewrite lookup_delete_eq in Hg|].
    rewrite lookup_delete_ne in Hg by done. split; [done|]. apply Forall_singleton. simpl. congruence.
  - apply inv_callers; [done|]. intros i g Hg. left. destruct (decide (i = caller)) as [->|Hne]; [by rewrite lookup_delete_eq in Hg|].
    rewrite lookup_delete_ne in Hg by done. split; [done|]. apply Forall_singleton. simpl. congruence.
Qed.

Lemma shared_inv l s : reach l s -> inv l s.
Proof. induction 1; [apply inv_new|by eapply shared_inv_step]. Qed.

(** ** Returns *)
Lemma step_answered l s e s' i result before after : inv l s -> step s e s' -> e = (before ++ Returned i result :: after)%list ->
  answered (l ++ before) i result.
Proof.
  intros I Hstep He. destruct Hstep as [caller fresh s1 e1 _ _ Hc|flight v Ht|flight Ht|flight sender Ht|flight guard Ht
                                        |caller flight c result' Hi Hc Hw|caller flight Hi];
    try (by destruct before as [|? []]).
  - unfold call in Hc. destruct (in_flight s), before as [|? []]; naive_solver.
  - destruct before as [|? []]; [|done..]. injection He as -> ->. rewrite app_nil_r.
    destruct (inv_caller _ _ I _ _ Hi) as (c' & since & Hc' & Hcall & Hv). assert (c' = c) as -> by congruence.
    exists flight, since. split; [done|]. pose proof (inv_flight _ _ I _ _ Hc) as Hok. unfold flight_ok in Hok. unfold waited in Hw.
    destruct (value c) as [v|] eqn:Hval; [injection Hw as <-; exact Hv|]. destruct (open c) eqn:Ho; [done|]. injection Hw as <-.
    destruct (tasks s !! flight) as [[|guard sender]|]; [by destruct Hok as [_ ->]| |done]. by destruct Hok.
Qed.

Lemma answered_returns l s : reach l s -> forall before i result after, l = (before ++ Returned i result :: after)%list ->
  answered before i result.
Proof.
  induction 1 as [|l' s e s' Hr IH Hstep]; intros before i result after Heq; [by destruct before|].
  apply app_eq_inv in Heq as [(k & -> & He)|(k & -> & Hk)].
  - destruct k as [|x k].
    + rewrite app_nil_r in *. eapply (step_answered _ s e s' i result [] after) in Hstep; [|by apply shared_inv|done]. by rewrite app_nil_r in Hstep.
    + injection He as <- ->. by eapply IH.
  - eapply step_answered; [by apply shared_inv|done|done].
Qed.

(** C20. What a shared observation promises its callers.  At most one
    observation is in progress, and a call made meanwhile joins it; a call
    only ever joins an observation that is in progress, or one that
    panicked.  Every value a call returns is that of an observation that
    ended after the call was made, so nothing is cached; [None] is returned
    only if the observation joined panicked.  And no caller is stranded: its
    observation is in progress, or it can return, at the latest when the
    observation's task has dropped its sender. *)
Theorem shared_read_promises l s : reach l s ->
  (forall f g, in_progress s f -> in_progress s g -> f = g) /\
  (forall f caller fresh, in_progress s f -> call caller fresh s = (set_callers <[caller := f]> s, Called caller f false)) /\
  (forall f caller fresh, (call caller fresh s).2 = Called caller f false -> in_progress s f \/ Panicked f ∈ l) /\
  (forall before i result after, l = (before ++ Returned i result :: after)%list -> answered before i result) /\
  (forall i f, callers s !! i = Some f -> in_progress s f \/
     exists s1 result s2, (s1 = s \/ step s [] s1) /\ step s1 [Returned i result] s2).
Proof.
  intros Hr. pose proof (shared_inv _ _ Hr) as I.
  assert (Hslot : forall f, in_progress s f -> in_flight s = Some f).
  { intros f Hf. destruct (flight_of _ _ _ _ I Hf) as (c & _ & Hok). unfold flight_ok in Hok. rewrite Hf in Hok. apply Hok. }
  split_and!.
  - intros f g Hf Hg. apply Hslot in Hf, Hg. congruence.
  - intros f caller fresh Hf. unfold call. by rewrite (Hslot _ Hf).
  - intros f caller fresh. unfold call. destruct (in_flight s) as [g|] eqn:Hs; [|done]. intros [= ->].
    destruct (inv_slot _ _ I _ Hs) as (c & Hc & Hv). pose proof (inv_flight _ _ I _ _ Hc) as Hok. unfold flight_ok in Hok.
    unfold in_progress. rewrite Hv in Hok. destruct (tasks s !! f) as [[]|]; [by left|right; by destruct Hok|done].
  - by eapply answered_returns.
  - intros i f Hi. destruct (inv_caller _ _ I _ _ Hi) as (c & since & Hc & _ & _).
    pose proof (inv_flight _ _ I _ _ Hc) as Hok. unfold flight_ok in Hok.
    destruct (tasks s !! f) as [[|guard sender]|] eqn:Ht; [by left| |done]. right. destruct Hok as [Ho _].
    destruct (waited c) as [result|] eqn:Hw.
    { exists s, result, (set_callers (delete i) s). split; [by left|]. by econstructor. }
    assert (sender = true) as ->. { unfold waited in Hw. rewrite Ho in Hw. destruct (value c); [done|]. by destruct sender. }
    exists (set_task f (Over guard false) (drop_sender f s)), None. eexists. split; [right; by constructor|].
    eapply (step_return _ i f {| value := value c; open := false |}).
    + unfold drop_sender. by rewrite Hc.
    + unfold drop_sender. rewrite Hc. simpl. by rewrite lookup_insert_eq.
    + unfold waited in *. simpl. by destruct (value c).
Qed.
End Shared.

(** Two callers share an observation; a third starts one of its own, which
    panics. *)
#[local] Open Scope nat_scope.
Lemma shared_read_promises_witness : exists s,
  reach [Called 0 0 true; Called 1 0 false; Completed 0 7; Returned 1 (Some 7); Called 2 1 true; Panicked 1; Returned 2 None]%nat s /\
  answered [Called 0 0 true; Called 1 0 false; Completed 0 7; Returned 1 (Some 7); Called 2 1 true; Panicked 1]%nat 2%nat None.
Proof.
  pose proof (reach_step _ _ _ _ (reach_new (T:=nat)) ltac:(by eapply (step_call _ 0 0))) as Hr.
  pose proof (reach_step _ _ _ _ Hr ltac:(by eapply (step_call _ 1 9))) as Hr1.
  pose proof (reach_step _ _ _ _ Hr1 ltac:(by eapply (step_complete _ 0 7))) as Hr2.
  pose proof (reach_step _ _ _ _ Hr2 ltac:(by eapply (step_return _ 1 0))) as Hr3.
  pose proof (reach_step _ _ _ _ Hr3 ltac:(by eapply (step_call _ 2 1))) as Hr4.
  pose proof (reach_step _ _ _ _ Hr4 ltac:(by eapply (step_panic _ 1))) as Hr5.
  pose proof (reach_step _ _ _ _ Hr5 ltac:(by eapply (step_drop_sender _ 1 true))) as Hr6.
  pose proof (reach_step _ _ _ _ Hr6 ltac:(by eapply (step_return _ 2 1))) as Hr7.
  eexists. split; [exact Hr7|].
  destruct (shared_read_promises _ _ Hr7) as (_ & _ & _ & H & _). eapply H. reflexivity.
Defined.
End SharedReadProps.
