(* ===== verification/Client.v ===== *)
(** * The platform client ([crates/platform-client/src/lib.rs])

    The calls of the platform's users, and what their failures mean. *)
From S2P Require Import Prelude Text Protocol Programs.

Module Client.
Import Text Protocol Programs.
#[local] Open Scope prog_scope.

Definition METHOD_TIMEOUT : Z := 25000.

Module ClientError.
Inductive t :=
  | SystemBusUnavailable
  | ServiceUnavailable
  | RemoteMethod (remote_code remote_message : string)
  | InvalidResponse
  | UnsupportedSchema
  | Unsupported
  | RebootOutcomeUnknown.
End ClientError.

#[export] Instance ClientError_eq_dec : EqDecision ClientError.t.
Proof. solve_decision. Defined.

Definition code (e : ClientError.t) : string :=
  match e with
  | ClientError.SystemBusUnavailable | ClientError.ServiceUnavailable => "ServiceUnavailable"
  | ClientError.RemoteMethod code _ => code
  | ClientError.InvalidResponse => "InvalidResponse"
  | ClientError.UnsupportedSchema => "UnsupportedSchema"
  | ClientError.Unsupported => "Unsupported"
  | ClientError.RebootOutcomeUnknown => "OutcomeUnknown"
  end.

Definition message (e : ClientError.t) : string :=
  match e with
  | ClientError.SystemBusUnavailable => "The system D-Bus is unavailable"
  | ClientError.ServiceUnavailable => "The local platform status service could not be reached"
  | ClientError.RemoteMethod _ message => message
  | ClientError.InvalidResponse => "The platform returned an invalid status response"
  | ClientError.UnsupportedSchema => "The platform status schema is unsupported"
  | ClientError.Unsupported => "The platform API version does not support this operation"
  | ClientError.RebootOutcomeUnknown =>
      "Reboot request outcome unknown: connection closed while awaiting confirmation; the system may be rebooting."
  end.

(** ** Versions *)
Record PlatformApiVersion := { major : Z; minor : Z }.

Definition version_component (value : string) : option Z :=
  if is_empty value || negb (forallb is_ascii_digit (bytes_of value)) then None
  else parse_unsigned 4294967295 value.

Definition parse (value : string) : option PlatformApiVersion :=
  '(major, minor) ← split_once 46 value;
  major ← version_component major;
  minor ← version_component minor;
  Some {| major := major; minor := minor |}.

(** The derived order compares the major numbers first. *)
Definition supports (v : PlatformApiVersion) (major_ minor_ : Z) : bool :=
  (major_ <? major v) || ((major v =? major_) && (minor_ <=? minor v)).

(** ** What the bus answers

    [zbus::Error], as far as the client looks at it. *)
Inductive IoKind := BrokenPipe | UnexpectedEof | ConnectionReset | ConnectionAborted | TimedOut | OtherKind.

Inductive BusFailure :=
  | InputOutput (kind : IoKind)
  | MethodError (name : string) (text : option string)
  | OtherFailure.

Definition map_bus_error (error : BusFailure) : ClientError.t :=
  match error with
  | MethodError name text =>
      match strip_prefix "org.signallayer.Platform1.Error." name with
      | Some code => ClientError.RemoteMethod code (default "Platform status query failed"%string text)
      | None => ClientError.ServiceUnavailable
      end
  | _ => ClientError.ServiceUnavailable
  end.

Definition map_reboot_error (error : BusFailure) : ClientError.t :=
  match error with
  | InputOutput (BrokenPipe | UnexpectedEof | ConnectionReset | ConnectionAborted | TimedOut) =>
      ClientError.RebootOutcomeUnknown
  | error => map_bus_error error
  end.

(** The calls; [Stdout] and [Stderr] are the command line's. *)
Inductive ClientCall :=
  | ConnectBus
  | MakeProxy
  | GetStatus
  | StartUpdate
  | StartRollback
  | StartReboot
  | Stdout (line : string)
  | Stderr (line : string).

Definition ClientReply (c : ClientCall) : Type :=
  match c with
  | ConnectBus => bool
  | MakeProxy | StartUpdate | StartRollback | StartReboot => res unit BusFailure
  | GetStatus => res string BusFailure
  | Stdout _ | Stderr _ => unit
  end.

Definition Bus : Signature := {| call := ClientCall; reply := ClientReply |}.
Definition ask (c : ClientCall) : prog Bus (ClientReply c) := perform (S:=Bus) c.

(** [PlatformClient::connect] *)
Definition connect : prog Bus (res unit ClientError.t) :=
  let! connected := ask ConnectBus in
  Done (if connected : bool then Ok tt else Err ClientError.SystemBusUnavailable).

Definition proxy : prog Bus (res unit ClientError.t) := mapped_err map_bus_error (ask MakeProxy).

Section Client.
(** serde_json's [from_str] *)
Context (from_str : string -> option Status).

Definition decode_status (response : string) : res Status ClientError.t :=
  match from_str response with
  | None => Err ClientError.InvalidResponse
  | Some status =>
      if negb (String.eqb (schema_version status) SCHEMA_VERSION) then Err ClientError.UnsupportedSchema
      else Ok status
  end.

Definition get_status : prog Bus (res Status ClientError.t) :=
  let? _ := proxy in
  let? response := mapped_err map_bus_error (ask GetStatus) in
  Done (decode_status response).

Definition start_update : prog Bus (res unit ClientError.t) :=
  let? _ := proxy in mapped_err map_bus_error (ask StartUpdate).

Definition start_rollback : prog Bus (res unit ClientError.t) :=
  let? _ := proxy in mapped_err map_bus_error (ask StartRollback).

Definition require_reboot_support (status : res Status ClientError.t) : res unit ClientError.t :=
  match status with
  | Ok status =>
      match parse (platform_api_version status) with
      | None => Err ClientError.InvalidResponse
      | Some version => if negb (supports version 0 2) then Err ClientError.Unsupported else Ok tt
      end
  | Err e => Err e
  | Panic => Panic
  end.

Definition start_reboot : prog Bus (res unit ClientError.t) :=
  let! status := get_status in
  let? _ := Done (require_reboot_support status) in
  let? _ := proxy in
  mapped_err map_reboot_error (ask StartReboot).
End Client.

Example versions : parse "0.2" = Some {| major := 0; minor := 2 |} /\ parse "1.10" = Some {| major := 1; minor := 10 |} /\
  map parse [""; "0"; "0."; ".2"; "0.2.1"; "v0.2"; " 0.2"; "0.+2"; "0.-1"; "a.b"]%string = replicate 10 None.
Proof. vm_compute. done. Qed.
End Client.
