(* ===== verification/Corectl.v ===== *)
(** * The command line ([corectl/src/main.rs]) *)
From S2P Require Import Prelude Text Protocol Programs Client.

Module Corectl.
Import Text Protocol Programs Client.
#[local] Open Scope string_scope.
#[local] Open Scope Z_scope.
#[local] Open Scope prog_scope.

Definition EXIT_FAILURE : Z := 1.
Definition EXIT_OUTCOME_UNKNOWN : Z := 3.

Record Report := { exit : Z; stdout : option string; stderr : option string }.

Definition emit (r : Report) : prog Bus Z :=
  do! (match stdout r with Some s => ask (Stdout s) | None => Done tt end) in
  do! (match stderr r with Some s => ask (Stderr s) | None => Done tt end) in
  Done (exit r).

Definition nl : string := string_of [10].
Definition text (pieces : list string) : string := String.concat "" pieces.
Definition or_text (fallback : string) (o : option string) : string := default fallback o.

(** [{:?}] *)
Definition network_state (s : NetworkState.t) : string :=
  match s with
  | NetworkState.Unknown => "Unknown" | NetworkState.Disconnected => "Disconnected" | NetworkState.Connecting => "Connecting"
  | NetworkState.ConnectedLocal => "ConnectedLocal" | NetworkState.ConnectedSite => "ConnectedSite"
  | NetworkState.ConnectedGlobal => "ConnectedGlobal"
  end.
Definition health_state (s : HealthState.t) : string :=
  match s with HealthState.Healthy => "Healthy" | HealthState.Degraded => "Degraded" end.

Definition update_text (u : UpdateStatus) : string :=
  match update_state u with
  | UpdateState.Idle => "idle"
  | UpdateState.Running => "running"
  | UpdateState.Staged => text ["staged (reboot required; "; or_text "unknown" (deployment_id <$> staged u); ")"]
  | UpdateState.Failed => text ["failed ("; or_text "unknown worker failure" (Protocol.message <$> update_failure u); ")"]
  end.

Definition rollback_text (r : RollbackStatus) : string :=
  match rollback_state r with
  | RollbackState.Idle => "idle"
  | RollbackState.Running => "running"
  | RollbackState.Queued => "queued (reboot required)"
  | RollbackState.Failed => text ["failed ("; or_text "unknown worker failure" (Protocol.message <$> rollback_failure r); ")"]
  end.

Definition joined (l : list string) : string :=
  match l with [] => "none" | l => String.concat ", " l end.

(** The lines of [corectl status] *)
Definition status_lines (s : Status) : list string :=
  [ text [product s; " "; version s; nl; "Platform API: "; platform_api_version s; nl;
          "Source: "; or_text "unknown" (source_revision s); nl; "Build: "; or_text "unknown" (build_id s); nl;
          "Deployment: "; deployment_id (booted s); nl; "Image: "; or_text "unknown" (image_reference (booted s)); nl;
          "Digest: "; or_text "unknown" (image_digest (booted s)); nl;
          "Retained rollback: "; or_text "none" (deployment_id <$> retained_rollback s); nl;
          "Health: "; health_state (Protocol.health_state (health s)); " (systemd "; system_state (health s); "; ";
          display_unsigned (failed_units (health s)); " failed units)"];
    text ["Machine: "; machine_id (machine s); " ("; architecture (machine s); "; boot "; boot_id (machine s); ")"];
    text ["Network: "; network_state (state (network s))];
    match primary_connection (network s) with
    | Some primary => text ["Primary connection: "; interface primary; nl; "Addresses: "; joined (addresses primary); nl;
                            "Default gateways: "; joined (default_gateways primary)]
    | None => "Primary connection: none"
    end;
    text ["Update: "; update_text (update s)];
    text ["Rollback: "; rollback_text (rollback s)] ].

Section Corectl.
(** serde_json: the reading of a status, and the writing of an error, of a
    state and of a status *)
Context (from_str : string -> option Status) (error_json : string -> string -> string) (state_json : string -> string).
Context (to_string_pretty : Status -> option string).

Definition error_report (json : bool) (exit : Z) (code message : string) : Report :=
  if json then {| exit := exit; stdout := Some (error_json code message); stderr := None |}
  else {| exit := exit; stdout := None; stderr := Some (text ["corectl: "; code; ": "; message]) |}.

Definition report_error (json : bool) (code message : string) : prog Bus Z :=
  emit (error_report json EXIT_FAILURE code message).

Definition reboot_report (json : bool) (result : unit + ClientError.t) : Report :=
  match result with
  | inl _ => {| exit := 0; stderr := None;
                stdout := Some (if json then state_json "accepted"
                                else "Reboot accepted by systemd. The system is restarting.") |}
  | inr (ClientError.RebootOutcomeUnknown as error) =>
      if json then error_report json EXIT_OUTCOME_UNKNOWN (code error) (message error)
      else {| exit := EXIT_OUTCOME_UNKNOWN; stdout := None; stderr := Some (message error) |}
  | inr error => error_report json EXIT_FAILURE (code error) (message error)
  end.

Definition client_error (json : bool) (error : ClientError.t) : prog Bus Z := report_error json (code error) (message error).

Inductive Action := Status_ | Update | Rollback | Reboot.

Definition action_of (arguments : list string) : option Action :=
  let named (name : string) : bool :=
    bool_decide (arguments = [name]) || bool_decide (arguments = [name; "--json"]) in
  if named "status" then Some Status_
  else if named "update" then Some Update
  else if named "rollback" then Some Rollback
  else if named "reboot" then Some Reboot
  else None.

Definition usage : string :=
  "Usage: corectl status [--json] | corectl update [--json] | corectl rollback [--json] | corectl reboot [--json]".

Definition returned (m : prog Bus Z) : prog Bus (res Z unit) := let! code := m in Done (Ok code).

(** [update] and [rollback]: the worker runs on. *)
Definition started (json : bool) (line : string) (result : res unit ClientError.t) : prog Bus (res Z unit) :=
  match result with
  | Ok _ => do! ask (Stdout (if json then state_json "running" else line)) in Done (Ok 0)
  | Err error => returned (client_error json error)
  | Panic => Done Panic
  end.

(** [main], of the arguments after the program's name; the exit code, or the
    panic of an [expect]. *)
Definition main (arguments : list string) : prog Bus (res Z unit) :=
  let json := existsb (String.eqb "--json") arguments in
  match action_of arguments with
  | None => returned (report_error json "Usage" usage)
  | Some action =>
      let! client := connect in
      match client with
      | Err error => returned (client_error json error)
      | Panic => Done Panic
      | Ok _ =>
          match action with
          | Update =>
              let! r := start_update in started json "Update staging started. Use `corectl status` to observe it." r
          | Reboot =>
              let! r := start_reboot from_str in
              match r with
              | Ok _ => returned (emit (reboot_report json (inl tt)))
              | Err e => returned (emit (reboot_report json (inr e)))
              | Panic => Done Panic
              end
          | Rollback =>
              let! r := start_rollback in started json "Rollback selection started. Use `corectl status` to observe it." r
          | Status_ =>
              let! status := get_status from_str in
              match status with
              | Err error => returned (client_error json error)
              | Panic => Done Panic
              | Ok status =>
                  if json then
                    match to_string_pretty status with
                    | Some text => do! ask (Stdout text) in Done (Ok 0)
                    | None => Done Panic
                    end
                  else
                    do! foldr (fun line rest => do! ask (Stdout line) in rest) (Done tt) (status_lines status) in
                    Done (Ok 0)
              end
          end
      end
  end.
End Corectl.
End Corectl.
