(* ===== verification/CorectlProps.v ===== *)
(** * What the command line asks for and how it exits *)
From S2P Require Import Prelude Text Protocol Programs Client Corectl.

Module CorectlProps.
Import Text Protocol Programs Client Corectl.
#[local] Open Scope prog_scope.

(** ** The requests for a change, with their answers *)
Definition mutation (e : event Bus) : option (ClientCall * res unit BusFailure) :=
  let 'existT c r := e in
  match c return ClientReply c -> option (ClientCall * res unit BusFailure) with
  | StartUpdate => fun r => Some (StartUpdate, r)
  | StartRollback => fun r => Some (StartRollback, r)
  | StartReboot => fun r => Some (StartReboot, r)
  | _ => fun _ => None
  end r.

Definition mutations (t : list (event Bus)) : list (ClientCall * res unit BusFailure) := omap mutation t.

Definition request (a : Action) : option ClientCall :=
  match a with
  | Status_ => None
  | Update => Some StartUpdate
  | Rollback => Some StartRollback
  | Reboot => Some StartReboot
  end.

(** The connection was lost, or the deadline passed, with the request sent. *)
Definition lost (e : BusFailure) : bool :=
  match e with InputOutput OtherKind => false | InputOutput _ => true | _ => false end.

(** The exit code an answer deserves. *)
Definition verdict (a : Action) (r : res unit BusFailure) : Z :=
  match r, a with
  | Ok _, _ => 0
  | Err e, Reboot => if lost e then 3 else 1
  | _, _ => 1
  end.

(** ** What the parts of the program call *)
Definition harmless (c : ClientCall) : Prop :=
  match c with StartUpdate | StartRollback | StartReboot => False | _ => True end.

Lemma harmless_mutations (m : prog Bus Z) t code : only (S:=Bus) harmless m -> runs m t code -> mutations t = [].
Proof.
  intros Hm Hr. apply (only_runs _ _ Hm) in Hr. induction Hr as [|[c r] t Hc _ IH]; [done|].
  unfold mutations in *. by destruct c.
Qed.

Lemma only_emit r : only (S:=Bus) harmless (emit r).
Proof. by destruct r as [exit [] []]. Qed.

Lemma emit_runs r t code : runs (emit r) t code -> code = exit r.
Proof.
  assert (H : post (emit r) (fun code => code = exit r)) by (by destruct r as [exit [] []]).
  by apply (post_runs _ _ H).
Qed.

Section Corectl.
Context (from_str : string -> option Status) (error_json : string -> string -> string) (state_json : string -> string).
Context (to_string_pretty : Status -> option string).
Local Abbreviation main := (main from_str error_json state_json to_string_pretty).
Local Abbreviation error_report := (error_report error_json).

(** A run that ends with a report. *)
Lemma returned_emit r t x : runs (returned (emit r)) t x -> mutations t = [] /\ x = Ok (exit r).
Proof.
  intros H. apply runs_bind in H as (t1 & code & t2 & -> & H & [-> ->]). rewrite app_nil_r. split.
  - eapply harmless_mutations; [apply only_emit|exact H].
  - f_equal. by eapply emit_runs.
Qed.

(** A request after its proxy: not made, or made and answered. *)
Definition asked (c : ClientCall) (f : BusFailure -> ClientError.t) (t : list (event Bus)) (x : res unit ClientError.t) : Prop :=
  (mutations t = [] /\ match x with Ok _ => False | Err e => e <> ClientError.RebootOutcomeUnknown | Panic => True end) \/ exists r, mutations t = [(c, r)] /\ x = map_err f r.

Lemma bus_error_known e : map_bus_error e <> ClientError.RebootOutcomeUnknown.
Proof. destruct e as [|name text|]; try done. unfold map_bus_error. by destruct (strip_prefix _ name). Qed.

Lemma proxy_runs t x : runs proxy t x -> exists r, t = [existT MakeProxy r] /\ x = map_err map_bus_error r.
Proof. intros (r & ? & -> & -> & ->). by exists r. Qed.

Ltac asked_after_proxy :=
  intros H; apply runs_bind in H as (t1 & x1 & t2 & -> & H1 & H2); apply proxy_runs in H1 as ([[]|e|] & -> & ->);
  [destruct H2 as (r & ? & -> & -> & ->); right; by exists r
  |destruct H2 as [-> ->]; left; split; [done|apply bus_error_known]|destruct H2 as [-> ->]; by left].

Lemma update_asked t x : runs start_update t x -> asked StartUpdate map_bus_error t x.
Proof. asked_after_proxy. Qed.
Lemma rollback_asked t x : runs start_rollback t x -> asked StartRollback map_bus_error t x.
Proof. asked_after_proxy. Qed.
Lemma last_reboot_asked t x : runs (let? _ := proxy in mapped_err map_reboot_error (ask StartReboot)) t x ->
  asked StartReboot map_reboot_error t x.
Proof. asked_after_proxy. Qed.

(** A status read, and what it was. *)
Definition read (t : list (event Bus)) (st : Status) : Prop :=
  exists text, (existT GetStatus (Ok text) : event Bus) ∈ t /\ decode_status from_str text = Ok st.

Lemma get_status_runs t x : runs (get_status from_str) t x ->
  mutations t = [] /\ match x with Ok st => read t st | Err e => e <> ClientError.RebootOutcomeUnknown | Panic => True end.
Proof.
  intros H; apply runs_bind in H as (t1 & x1 & t2 & -> & H1 & H2); apply proxy_runs in H1 as ([[]|e|] & -> & ->);
    [|destruct H2 as [-> ->]; split; [done|apply bus_error_known]|by destruct H2 as [-> ->]].
  destruct H2 as ([text|e|] & ? & -> & [-> ->]); [|split; [done|apply bus_error_known]|done]. split; [done|].
  destruct (decode_status from_str text) as [st|e|] eqn:Hd; [| |done].
  2: { intros ->. revert Hd. unfold decode_status. destruct (from_str text); [by case_match|done]. }
  exists text. split; [right; by left|done].
Qed.

(** The platform supports the reboot. *)
Definition supported (st : Status) : Prop :=
  exists v, parse (platform_api_version st) = Some v /\ (0 < major v \/ (major v = 0 /\ 2 <= minor v)).

Lemma supports_spec v : supports v 0 2 = true <-> 0 < major v \/ (major v = 0 /\ 2 <= minor v).
Proof. unfold supports. rewrite orb_true_iff, andb_true_iff, Z.ltb_lt, Z.eqb_eq, Z.leb_le. done. Qed.

Lemma support_ok st : require_reboot_support (Ok st) = Ok tt -> supported st.
Proof.
  unfold require_reboot_support, supported. destruct (parse (platform_api_version st)) as [v|]; [|done].
  destruct (supports v 0 2) eqn:Hv; [|done]. intros _. exists v. split; [done|by apply supports_spec].
Qed.

Definition guarded (t : list (event Bus)) : Prop :=
  forall before r after, t = (before ++ (existT StartReboot r : event Bus) :: after)%list -> exists st, read before st /\ supported st.

Lemma mutations_app t1 t2 : mutations (t1 ++ t2) = (mutations t1 ++ mutations t2)%list.
Proof. apply omap_app. Qed.

Lemma mutated t r : (existT StartReboot r : event Bus) ∈ t -> (StartReboot, r) ∈ mutations t.
Proof. intros H. apply list_elem_of_omap. by exists (existT StartReboot r : event Bus). Qed.

Lemma other_guarded t : (forall r, (StartReboot, r) ∉ mutations t) -> guarded t.
Proof.
  intros H before r after ->. exfalso. apply (H r), mutated, elem_of_app. right. by left.
Qed.

Lemma unmutated_guarded t : mutations t = [] -> guarded t.
Proof. intros H. apply other_guarded. intros r. rewrite H. apply not_elem_of_nil. Qed.

Lemma read_after t0 t st : read t st -> read (t0 ++ t) st.
Proof. intros (text & Hin & Hd). exists text. split; [apply elem_of_app; by right|done]. Qed.

Lemma support_known st : require_reboot_support (Ok st) <> Err ClientError.RebootOutcomeUnknown.
Proof. unfold require_reboot_support. destruct (parse _) as [v|]; [|done]. by destruct (negb _). Qed.

(** Nothing else is requested around. *)
Lemma guarded_between t0 t t' : mutations t0 = [] -> guarded t -> mutations t' = [] -> guarded (t0 ++ t ++ t').
Proof.
  intros H0 H H' before r after Heq.
  assert (Hno : forall l, mutations l = [] -> (existT StartReboot r : event Bus) ∉ l).
  { intros l Hl Hin. apply mutated in Hin. rewrite Hl in Hin. by apply not_elem_of_nil in Hin. }
  apply app_eq_inv in Heq as [(k & -> & Hk)|(k & -> & Hk)].
  - destruct k as [|e k].
    + rewrite app_nil_r in *. destruct t as [|e t].
      * exfalso. apply (Hno _ H'). simpl in Hk. rewrite <- Hk. by left.
      * injection Hk as <- _. destruct (H [] r t eq_refl) as (st & (text & Hin & _) & _). by apply not_elem_of_nil in Hin.
    + injection Hk as <- _. exfalso. apply (Hno _ H0), elem_of_app. right. by left.
  - apply app_eq_inv in Hk as [(k' & -> & Hk')|(k' & -> & Hk')].
    + destruct k' as [|e k'].
      * exfalso. apply (Hno _ H'). simpl in Hk'. rewrite <- Hk'. by left.
      * injection Hk' as <- _. destruct (H k r k' eq_refl) as (st & Hr & Hs). exists st. split; [by apply read_after|done].
    + exfalso. apply (Hno _ H'). rewrite Hk'. apply elem_of_app. right. by left.
Qed.

Lemma start_reboot_runs t x : runs (start_reboot from_str) t x -> asked StartReboot map_reboot_error t x /\ guarded t.
Proof.
  intros H. apply runs_bind in H as (t1 & status & t2 & -> & H1 & H2). apply get_status_runs in H1 as [M1 R1].
  assert (Hend : t2 = [] -> match x with Ok _ => False | Err e => e <> ClientError.RebootOutcomeUnknown | Panic => True end -> asked StartReboot map_reboot_error (t1 ++ t2) x /\ guarded (t1 ++ t2)).
  { intros -> Hx. rewrite app_nil_r. split; [by left|by apply unmutated_guarded]. }
  destruct status as [st|e|]; [|destruct H2 as [-> ->]; by apply Hend..].
  apply runs_bind in H2 as (t3 & r & t4 & -> & [-> ->] & H2).
  destruct (require_reboot_support (Ok st)) as [[]|e|] eqn:Hs;
    [|destruct H2 as [-> ->]; apply Hend; [done|intros ->; by apply support_known in Hs]|destruct H2 as [-> ->]; by apply Hend].
  apply support_ok in Hs. apply last_reboot_asked in H2. simpl. split.
  - unfold asked in *. by rewrite mutations_app, M1.
  - intros before r after Heq. exists st. split; [|exact Hs].
    apply app_eq_inv in Heq as [(k & -> & Hk)|(k & -> & Hk)].
    + destruct k as [|e k]; [by rewrite app_nil_r in R1|]. injection Hk as <- _.
      exfalso. rewrite mutations_app in M1. apply app_nil in M1 as [_ M1]. discriminate M1.
    + destruct R1 as (text & Hin & Hd). exists text. split; [apply elem_of_app; by left|done].
Qed.

(** ** How a run ends *)
Lemma error_ends json e t code : runs (returned (client_error error_json json e)) t (Ok code) -> mutations t = [] /\ code = 1.
Proof.
  intros H. apply returned_emit in H as [M [= ->]]. split; [done|]. by destruct json.
Qed.

Lemma started_ends json line x t code : runs (started error_json state_json json line x) t (Ok code) ->
  mutations t = [] /\ code = match x with Ok _ => 0 | _ => 1 end /\ x <> Panic.
Proof.
  destruct x as [[]|e|]; simpl.
  - intros (r & ? & -> & -> & [= ->]). by split_and!.
  - intros H. apply error_ends in H as [M ->]. by split_and!.
  - by intros [_ ?].
Qed.

(** A request, the report of its answer, and the guard. *)
Lemma requested c f json line t1 x t2 code : c <> StartReboot -> asked c f t1 x ->
  runs (started error_json state_json json line x) t2 (Ok code) ->
  guarded (existT ConnectBus true :: t1 ++ t2) /\
  ((mutations t1 ++ mutations t2 = [] /\ code = 1)%list \/
   exists r, (mutations t1 ++ mutations t2 = [(c, r)])%list /\ code = match r with Ok _ => 0 | _ => 1 end).
Proof.
  intros Hc Ha H. apply started_ends in H as (M & -> & Hp). rewrite M, app_nil_r.
  assert (Hm : mutations (existT ConnectBus true :: t1 ++ t2) = mutations t1).
  { change (existT ConnectBus true :: t1 ++ t2)%list with ([existT ConnectBus true] ++ t1 ++ t2)%list.
    by rewrite !mutations_app, M, app_nil_r. }
  destruct Ha as [[Hn Hx]|(r & Hr & ->)].
  - split; [apply unmutated_guarded; by rewrite Hm|]. left. split; [done|]. by destruct x.
  - split; [|right; exists r; split; [done|by destruct r as [[]| |]]].
    apply other_guarded. intros r'. rewrite Hm, Hr. intros Hin. apply list_elem_of_singleton in Hin. by injection Hin as <- _.
Qed.

Lemma printed (lines : list string) t x : runs (do! foldr (fun line rest => do! ask (Stdout line) in rest) (Done tt) lines in
  Done (Ok (E:=unit) 0)) t x -> mutations t = [] /\ x = Ok 0.
Proof.
  revert t. induction lines as [|line lines IH]; intros t; simpl; [by intros [-> ->]|].
  intros (r & t' & -> & H). by apply IH in H as [M ->].
Qed.

Lemma reboot_ends json r t code : runs (returned (emit (reboot_report error_json state_json json r))) t (Ok code) ->
  mutations t = [] /\ code = match r with inl _ => 0 | inr ClientError.RebootOutcomeUnknown => 3 | inr _ => 1 end.
Proof.
  intros H. apply returned_emit in H as [M [= ->]]. split; [done|]. by destruct json, r as [|[]].
Qed.

Lemma lost_spec e : match map_reboot_error e with ClientError.RebootOutcomeUnknown => 3 | _ => 1 end = if lost e then 3 else 1.
Proof.
  destruct e as [[]|name text|]; try done. unfold map_reboot_error, map_bus_error, lost.
  by destruct (strip_prefix _ _).
Qed.

End Corectl.
End CorectlProps.
