(* ===== verification/Sessiond.v ===== *)
(** * The session daemon ([sessiond/src/main.rs])

    The status for the unprivileged: the platform's, with the three facts of
    remote management. *)
From S2P Require Import Prelude Protocol Programs FileSystem RemoteState PlatformRemote Client.

Module Sessiond.
Import Protocol Programs Client.
#[local] Open Scope prog_scope.

Definition BUS : string := "org.signallayer.Session1".
Definition PATH : string := "/org/signallayer/Session1".
Definition LISTENING_PATH : string := "/run/sl-remoted/listening".
Definition AUTH_BUS : string := "org.signallayer.Auth1".
Definition AUTH_PATH : string := "/org/signallayer/Auth1".
Definition AUTH_INTERFACE : string := "org.signallayer.Auth1".
Definition AUTH_TIMEOUT : Z := 10000.

Module SessionError.
Inductive t :=
  | PlatformUnavailable (message : string)
  | InvalidPlatformStatus (message : string)
  | UnsupportedPlatform (message : string)
  | RemoteManagementUnavailable (message : string)
  | AuthUnavailable (message : string)
  | ZBus.
End SessionError.

Definition map_platform_error (error : ClientError.t) : SessionError.t :=
  match error with
  | ClientError.InvalidResponse =>
      SessionError.InvalidPlatformStatus "The Platform service returned an invalid status response"
  | ClientError.UnsupportedSchema => SessionError.UnsupportedPlatform "The Platform status schema is unsupported"
  | ClientError.SystemBusUnavailable | ClientError.ServiceUnavailable | ClientError.RemoteMethod _ _
  | ClientError.Unsupported | ClientError.RebootOutcomeUnknown =>
      SessionError.PlatformUnavailable "Platform status is temporarily unavailable"
  end.

(** The calls: those of the platform client, [symlink_metadata] and those to
    the authentication service under a deadline. *)
Inductive SessionCall :=
  | OfClient (c : ClientCall)
  | SymlinkMetadata (path : string)
  | NewAuthProxy
  | GetEnrollmentState.

Definition SessionReply (c : SessionCall) : Type :=
  match c with
  | OfClient c => ClientReply c
  | SymlinkMetadata _ => res unit FileSystem.IoError
  | NewAuthProxy => awaited unit
  | GetEnrollmentState => awaited (bool * bool)
  end.

Definition Session : Signature := {| call := SessionCall; reply := SessionReply |}.
Definition ask (c : SessionCall) : prog Session (SessionReply c) := perform (S:=Session) c.

Definition of_client {A} (m : prog Bus A) : prog Session A := interp (S:=Bus) (fun c => ask (OfClient c)) m.

(** What [path_exists] makes of [symlink_metadata] *)
Definition presence (r : res unit FileSystem.IoError) : res bool unit :=
  match r with Ok _ => Ok true | Err FileSystem.NotFound => Ok false | _ => Err tt end.
Definition path_exists (path : string) : prog Session (res bool unit) :=
  let! r := ask (SymlinkMetadata path) in Done (presence r).

Definition compose (status : Status) (enabled listening enrolled : res bool unit) : res SessionStatus SessionError.t :=
  let unavailable := SessionError.RemoteManagementUnavailable "Remote-management state is temporarily unavailable" in
  match enabled with
  | Ok enabled =>
      match listening with
      | Ok listening =>
          match enrolled with
          | Ok enrolled => Ok (from_platform status {| enabled := enabled; listening := listening; enrolled := enrolled |})
          | _ => Err (SessionError.AuthUnavailable "The authentication service is temporarily unavailable")
          end
      | _ => Err unavailable
      end
  | _ => Err unavailable
  end.

Definition enrolled : prog Session (res bool unit) :=
  in_time tt (
    await? _ := ask NewAuthProxy in
    await? state := ask GetEnrollmentState in
    Done (Some (Ok (fst state)))).

(** [STATE_DIR] joined with [ENABLED] *)
Definition ENABLED_PATH : string := PlatformRemote.STATE_DIR +:+ "/" +:+ RemoteState.ENABLED.

Section Sessiond.
(** serde_json's [from_str] of a platform status and [to_string] of a session
    status *)
Context (from_str : string -> option Status) (to_string : SessionStatus -> option string).

Definition get_platform_status : prog Session (res string SessionError.t) :=
  let? status := mapped_err map_platform_error (of_client (get_status from_str)) in
  let! enabled := path_exists ENABLED_PATH in
  let! listening := path_exists LISTENING_PATH in
  let! enrolled := enrolled in
  let? status := Done (compose status enabled listening enrolled) in
  Done match to_string status with
       | Some text => Ok text
       | None => Err (SessionError.InvalidPlatformStatus "The Platform status response could not be serialized")
       end.
End Sessiond.
End Sessiond.
