(* ===== verification/SessiondProps.v ===== *)
(** * What the session status is made of *)
From S2P Require Import Prelude Protocol Programs FileSystem RemoteState PlatformRemote Client Corectl CorectlProps Peers Console Sessiond.

Module SessiondProps.
Import Protocol Programs Client Sessiond.
#[local] Open Scope prog_scope.

(** The calls that only look. *)
Definition looks (c : SessionCall) : Prop :=
  match c with
  | OfClient c => CorectlProps.harmless c
  | SymlinkMetadata path => path = ENABLED_PATH \/ path = LISTENING_PATH
  | _ => True
  end.

(** The replies, by what was asked. *)
Definition status_reply (e : event Session) : option (res string BusFailure) :=
  match e with existT (OfClient GetStatus) r => Some r | _ => None end.
Definition marker_reply (e : event Session) : option (string * res unit FileSystem.IoError) :=
  match e with existT (SymlinkMetadata path) r => Some (path, r) | _ => None end.
Definition enrollment_reply (e : event Session) : option (awaited (bool * bool)) :=
  match e with existT GetEnrollmentState r => Some r | _ => None end.

Section Sessiond.
Context (from_str : string -> option Status) (to_string : SessionStatus -> option string).
Local Abbreviation get_platform_status := (get_platform_status from_str to_string).

(** What was read in a run. *)
Definition platform_read (t : list (event Session)) (st : Status) : Prop :=
  exists text, Ok text ∈ omap status_reply t /\ decode_status from_str text = Ok st.
Definition marker_read (t : list (event Session)) (path : string) (present : bool) : Prop :=
  exists r, (path, r) ∈ omap marker_reply t /\ presence r = Ok present.
Definition marker_unreadable (t : list (event Session)) (path : string) : Prop :=
  exists r, (path, r) ∈ omap marker_reply t /\ presence r = Err tt.
Definition enrolled_read (t : list (event Session)) (is_enrolled : bool) : Prop :=
  exists pending, Some (Ok (is_enrolled, pending)) ∈ omap enrollment_reply t.

(** What a failure says of the reads. *)
Definition explains (t : list (event Session)) (e : SessionError.t) : Prop :=
  match e with
  | SessionError.PlatformUnavailable _ | SessionError.UnsupportedPlatform _ => forall st, ~ platform_read t st
  | SessionError.InvalidPlatformStatus _ =>
      (forall st, ~ platform_read t st) \/ exists st, platform_read t st /\ exists m, to_string (from_platform st m) = None
  | SessionError.RemoteManagementUnavailable _ => marker_unreadable t ENABLED_PATH \/ marker_unreadable t LISTENING_PATH
  | SessionError.AuthUnavailable _ => (exists e l, marker_read t ENABLED_PATH e /\ marker_read t LISTENING_PATH l) /\
      forall n, ~ enrolled_read t n
  | SessionError.ZBus => False
  end.

Lemma presence_not_panic r : presence r <> Panic.
Proof. by destruct r as [|[]|]. Qed.

(** The reads of the platform's status. *)
Lemma client_runs t x : runs (of_client (get_status from_str)) t x ->
  match x with
  | Ok st => exists text, t = [existT (OfClient MakeProxy) (Ok tt); existT (OfClient GetStatus) (Ok text)] /\ decode_status from_str text = Ok st
  | Err _ => forall st, ~ platform_read t st
  | Panic => True
  end.
Proof.
  intros ([[]|e|] & t1 & -> & H); [|destruct H as [-> ->]; by intros st (text & Hin & _); apply elem_of_nil in Hin|by destruct H as [_ ->]].
  destruct H as ([text|e|] & t2 & -> & -> & ->); [| |done].
  - destruct (decode_status from_str text) as [st|e|] eqn:Hd; [by exists text| |done].
    intros st (text' & Hin & Hd'). apply list_elem_of_singleton in Hin. injection Hin as ->. congruence.
  - intros st (text & Hin & _). apply list_elem_of_singleton in Hin. discriminate Hin.
Qed.

Lemma enrolled_runs t x : runs enrolled t x -> omap status_reply t = [] /\ omap marker_reply t = [] /\
  match x with Ok n => enrolled_read t n | _ => forall n, ~ enrolled_read t n end.
Proof.
  assert (Hnone : forall r, (forall n p, r <> Some (Ok (n, p))) -> forall n (a : event Session), enrollment_reply a = None ->
    ~ enrolled_read [a; existT GetEnrollmentState r] n).
  { intros r Hr n a Ha [p Hin]. simpl in Hin. rewrite Ha in Hin. apply list_elem_of_singleton in Hin. by destruct (Hr n p). }
  intros H. apply runs_bind in H as (t1 & o & t2 & -> & ([[[]|[]|]|] & t3 & -> & H) & [-> ->]); rewrite app_nil_r.
  2-4: destruct H as [-> ->]; split_and!; try done; intros n [p Hin]; by apply elem_of_nil in Hin.
  destruct H as ([[[n p]|[]|]|] & t4 & -> & [-> ->]); split_and!; try done; try (intros n; by apply Hnone).
  exists p. by apply list_elem_of_singleton.
Qed.

Lemma only_looks : only (S:=Session) looks get_platform_status.
Proof.
  apply only_bind.
  { apply only_bind; [|done]. apply (only_interp_when (S:=Bus) _ CorectlProps.harmless); [|by intros c Hc].
    split; [done|]. intros [[]|e|]; [|done..]. split; [done|]. by intros [text|e|]. }
  intros [st|e|]; [|done..]. split; [by left|]. intros re. split; [by right|]. intros rl. apply only_bind; [done|]. intros listening. apply only_bind.
  { split; [done|]. intros [[[]|[]|]|]; [|done..]. split; [done|]. by intros [[state|[]|]|]. }
  intros n. by destruct (compose _ _ _ _).
Qed.

(** What a run answers, by what was read in it. *)
Lemma status_runs t r : runs get_platform_status t r ->
  match r with
  | Ok text => exists st e l n, platform_read t st /\ marker_read t ENABLED_PATH e /\ marker_read t LISTENING_PATH l /\
      enrolled_read t n /\
      let status := from_platform st {| Protocol.enabled := e; listening := l; Protocol.enrolled := n |} in
      to_string status = Some text /\
      forall read_back, (forall s text, to_string s = Some text -> read_back text = Some s) ->
        Console.bus_status read_back (Peers.Replied text) = inl status
  | Err e => explains t e
  | Panic => True
  end.
Proof.
  intros H.
  apply runs_bind in H as (t1 & x & t2 & -> & H1 & H).
  apply runs_bind in H1 as (t3 & x1 & t4 & -> & H1 & [-> ->]). rewrite app_nil_r. apply client_runs in H1.
  destruct x1 as [st|e|]; [|destruct H as [-> ->]; rewrite app_nil_r; by destruct e; try left|by destruct H as [-> ->]].
  destruct H1 as (text & -> & Hd). cbn [map_err] in H.
  apply runs_bind in H as (t5 & e & t6 & -> & (re & ? & -> & -> & ->) & H).
  apply runs_bind in H as (t7 & l & t8 & -> & (rl & ? & -> & -> & ->) & H).
  apply runs_bind in H as (t9 & n & t10 & -> & Hn & H). apply enrolled_runs in Hn as (Hs & Hm & Hn).
  assert (t10 = []) as -> by (destruct (compose _ _ _ _); by destruct H as [-> _]). rewrite app_nil_r in *.
  set (T := (_ ++ _)%list).
  assert (HP : platform_read T st) by (exists text; split; [by left|done]).
  assert (Hmarkers : omap marker_reply T = [(ENABLED_PATH, re); (LISTENING_PATH, rl)]) by (unfold T; by rewrite !omap_app, Hm).
  assert (HN : forall b, enrolled_read T b <-> enrolled_read t9 b) by done.
  assert (HE : forall b, presence re = Ok b -> marker_read T ENABLED_PATH b).
  { intros b Hb. exists re. rewrite Hmarkers. split; [by left|done]. }
  assert (HL : forall b, presence rl = Ok b -> marker_read T LISTENING_PATH b).
  { intros b Hb. exists rl. rewrite Hmarkers. split; [right; by left|done]. }
  clearbody T. apply runs_bind in H as (t11 & status & t12 & Ht & [-> ->] & H). simpl in Ht. subst t12.
  pose proof (presence_not_panic re) as Ne. pose proof (presence_not_panic rl) as Nl.
  destruct (presence re) as [e|[]|] eqn:Ee; [|destruct H as [_ ->]; left; exists re; rewrite Hmarkers; split; [by left|done]|done].
  destruct (presence rl) as [l|[]|] eqn:El; [|destruct H as [_ ->]; right; exists rl; rewrite Hmarkers; split; [right; by left|done]|done].
  assert (Hend : (forall b, ~ enrolled_read t9 b) ->
    explains T (SessionError.AuthUnavailable "The authentication service is temporarily unavailable")).
  { intros Hno. split; [exists e, l; auto|]. intros b. rewrite HN. apply Hno. }
  destruct n as [n| |]; [|destruct H as [_ ->]; by apply Hend..]. cbn [compose] in H.
  destruct H as [_ ->]. destruct (to_string _) as [answer|] eqn:Hto.
  2: { right. exists st. split; [done|]. by eexists. }
  exists st, e, l, n. cbv zeta. split_and!; [done|auto|auto|by apply HN|exact Hto|].
  intros read_back Hback. apply Hback in Hto. unfold Console.bus_status. by rewrite Hto.
Qed.

End Sessiond.
End SessiondProps.
