(* ===== verification/ClientExamples.v ===== *)
(** * The users of the platform at work *)
From S2P Require Import Prelude Text Protocol Programs Client Corectl CorectlProps.

(** ** A reboot from the command line *)
Module CorectlExamples.
Import Text Protocol Programs Client Corectl CorectlProps.

Definition appliance (api : string) : Status := {|
  schema_version := SCHEMA_VERSION; product := "SignalLayerIT CoreOS"; version := "0.0.2";
  platform_api_version := api; source_revision := None; build_id := None;
  machine := {| machine_id := "machine"; architecture := "x86_64"; boot_id := "boot" |};
  network := {| state := NetworkState.ConnectedGlobal; primary_connection := None |};
  booted := {| deployment_id := "abc.0"; image_reference := None; image_digest := None |};
  retained_rollback := None;
  update := {| update_state := UpdateState.Idle; staged := None; update_reboot_required := false; update_failure := None |};
  rollback := {| rollback_state := RollbackState.Idle; rollback_reboot_required := false; rollback_failure := None |};
  health := {| Protocol.health_state := HealthState.Healthy; system_state := "running"; failed_units := 0 |}
|}.

(** The answer to [GetStatus] is the version of the API it reports. *)
Definition toy_from_str (text : string) : option Status := Some (appliance text).
Definition toy_error (code message : string) : string := code +:+ ": " +:+ message.

Definition corectl (arguments : list string) : prog Bus (res Z unit) :=
  main toy_from_str toy_error id (fun _ => None) arguments.

Definition answer (api : string) (reboot : res unit BusFailure) (n : nat) (c : ClientCall) : ClientReply c :=
  match c with
  | ConnectBus => true
  | MakeProxy | StartUpdate | StartRollback => Ok tt
  | StartReboot => reboot
  | GetStatus => Ok api
  | Stdout _ | Stderr _ => tt
  end.

Definition ran (api : string) (reboot : res unit BusFailure) (arguments : list string) : list (event Bus) * res Z unit :=
  exec (S:=Bus) (answer api reboot) 0 (corectl arguments).

Example lost_reboot : (ran "0.2" (Err (InputOutput UnexpectedEof)) ["reboot"%string]).2 = Ok 3.
Proof. vm_compute. reflexivity. Qed.

Example old_platform : map (fun e : event Bus => projT1 e) (ran "0.1" (Ok tt) ["reboot"; "--json"]%string).1 =
  [ConnectBus; MakeProxy; GetStatus; Stdout "Unsupported: The platform API version does not support this operation"]%string.
Proof. vm_compute. reflexivity. Qed.

End CorectlExamples.

From S2P Require Import Prelude Protocol Programs FileSystem Client Console Peers Sessiond SessiondProps.

(** ** A session status *)
Module SessiondExamples.
Import Protocol Programs Client Sessiond SessiondProps.

Definition toy_to_string (s : SessionStatus) : option string :=
  Some (session_version s +:+ (if Protocol.enrolled (remote_management s) then " enrolled" else "")%string).

Definition answer (n : nat) (c : SessionCall) : SessionReply c :=
  match c with
  | OfClient c => CorectlExamples.answer "0.2" (Ok tt) n c
  | SymlinkMetadata _ => Err FileSystem.NotFound
  | NewAuthProxy => Some (Ok tt)
  | GetEnrollmentState => Some (Ok (true, false))
  end.

Definition ran : list (event Session) * res string SessionError.t :=
  exec (S:=Session) answer 0 (get_platform_status CorectlExamples.toy_from_str toy_to_string).

End SessiondExamples.

From S2P Require Import Prelude Text Protocol Programs Console Terminal ConsoleProps.

(** ** An operator at the console *)
Module ConsoleExamples.
Import Text Protocol Programs Console Terminal ConsoleProps.
#[local] Open Scope string_scope.

Definition appliance : SessionStatus := {|
  session_schema_version := SESSION_SCHEMA_VERSION; session_product := "SignalLayerIT CoreOS"; session_version := "0.0.3";
  session_platform_api_version := "1"; session_source_revision := None; session_build_id := None;
  session_machine := {| machine_id := "machine"; architecture := "x86_64"; boot_id := "boot" |};
  session_network := {| state := NetworkState.ConnectedGlobal; primary_connection := None |};
  session_booted := {| deployment_id := "d"; image_reference := None; image_digest := None |};
  session_retained_rollback := None;
  session_update := {| update_state := UpdateState.Idle; staged := None; update_reboot_required := false; update_failure := None |};
  session_rollback := {| rollback_state := RollbackState.Idle; rollback_reboot_required := false; rollback_failure := None |};
  session_health := {| health_state := HealthState.Healthy; system_state := "running"; failed_units := 0 |};
  remote_management := {| enabled := true; listening := true; enrolled := true |}
|}.

(** The daemons agree to everything; the operator chooses 1, types the
    password, and then leaves. *)
Definition typing (n : nat) : option string :=
  match n with
  | 6 => Some ("1" +:+ nl)
  | 12 => Some ("a long password" +:+ nl)
  | _ => Some ""
  end%nat.

Definition answer (n : nat) (c : ConsoleCall) : ConsoleReply c :=
  match c with
  | Connect | Flush | IsTerminal | GetAttributes | HideEcho => true
  | GetStatus => inl appliance
  | GetEnrollment => inl no_enrollment
  | VerifyPassword _ | CallRecoverPassword _ _ | CallPlatform _ => inl tt
  | ReadStdin => typing n
  | Print _ | RestoreEcho | Sleep _ => tt
  end.

Definition evening : list (event Backend) * unit := exec (S:=Backend) answer 0 (main 1 2).

Definition asked (e : event Backend) : bool :=
  match projT1 e with VerifyPassword _ | CallPlatform _ | HideEcho | RestoreEcho => true | _ => false end.

Example evening_calls : map (fun e : event Backend => projT1 e) (List.filter asked evening.1) =
  [HideEcho; RestoreEcho; VerifyPassword "a long password"; CallPlatform Disable].
Proof. vm_compute. reflexivity. Qed.

Example pairing_code_shown : pairing_code "01234567" = "0123-4567" /\ pairing_code "0123" = "unavailable".
Proof. done. Qed.

(** That evening is a run, so what is promised of runs holds of it. *)
Lemma console_asks_witness :
  runs (main 1 2) evening.1 evening.2 /\
  forall before call reply after, evening.1 = (before ++ existT call reply :: after)%list -> may (foldl note nobody before) call.
Proof.
  pose proof (exec_runs (S:=Backend) answer (main 1 2) 0) as Hr. split; [exact Hr|].
  exact (proj1 (proj1 console_asks_only_when_allowed _ _ _ _ Hr)).
Defined.
End ConsoleExamples.
