(* ===== verification/Tls.v ===== *)
(** * The TLS identity as it is served ([remoted/src/tls.rs])

    What the remote server loads from the state directory, and that it is
    what the worker left there. *)
From S2P Require Import Prelude FileSystem FileSystemFacts RemoteState Worker WorkerFacts WorkerSpec WorkerProps WorkerModes.

Module Tls.
Import FileSystem FileSystemFacts RemoteState Worker WorkerFacts WorkerSpec WorkerModes.

Section Load.
(** The readers of PEM and the builder of a configuration, of rustls: every
    section of a certificate file, the first key of a key file, and the
    configuration of both with the protocols to offer. *)
Context {Certificate Key Config : Type}.
Context (pem_certificates : list Z -> option (list Certificate)) (pem_key : list Z -> option Key).
Context (server_config : list Certificate -> Key -> option Config) (with_alpn : list string -> Config -> Config).

Definition ALPN : list string := ["http/1.1"%string].

Definition load (io : Io) : stm World unit Config :=
  let! generation := current_generation io in
  let! generation := lift (ok_or generation tt) in
  let! text := or_fail tt (read io (tls [generation; CERT_FILE])) in
  let! certificates := lift (ok_or (pem_certificates text) tt) in
  if negb (Nat.eqb (List.length certificates) 1) then fail tt
  else
    let! text := or_fail tt (read io (tls [generation; KEY_FILE])) in
    let! key := lift (ok_or (pem_key text) tt) in
    let! config := lift (ok_or (server_config certificates key) tt) in
    ret (with_alpn ALPN config).

(** What a certificate file and a key file make. *)
Definition identity_of (certificate key : list Z) : option Config :=
  certificates ← pem_certificates certificate;
  if Nat.eqb (List.length certificates) 1 then
    key ← pem_key key;
    config ← server_config certificates key;
    Some (with_alpn ALPN config)
  else None.

Definition holds (fs : Files) (p : Path) (contents : list Z) : Prop :=
  exists n, fs !! p = Some n /\ kind n = Regular contents.

(** A system whose calls do not fail. *)
Definition faultless (io : Io) : Prop := forall n, fails io n = false /\ fails_read_link io n = false.

Lemma read_holds io w p contents : faultless io -> tree (files w) -> holds (files w) p contents ->
  exists w', read io p w = (Ok contents, w') /\ files w' = files w.
Proof.
  intros F T (n & Hn & Hk). unfold read, call, call_failing. rewrite (proj1 (F _)), (resolve_present _ _ _ T) by (by eexists).
  rewrite Hn. destruct n as [k m g]. simpl in Hk. subst k. by eexists.
Qed.

Lemma current_named io w g : faultless io -> tree (files w) -> named (files w) g ->
  exists w', current_generation io w = (Ok (Some g), w') /\ files w' = files w.
Proof.
  intros F T [(n & Hn & Hk) Hg]. unfold current_generation, bind, attempt, read_link, call_failing.
  rewrite (proj2 (F _)), (resolve_present _ _ _ T) by (by eexists). rewrite Hn. destruct n as [k m gr]. simpl in Hk. subst k.
  rewrite Hg. by eexists.
Qed.

(** A load is decided by the two files of the generation that is named. *)
Lemma load_named io w g certificate key : faultless io -> tree (files w) -> named (files w) g ->
  holds (files w) (tls [g; CERT_FILE]) certificate -> holds (files w) (tls [g; KEY_FILE]) key ->
  (load io w).1 = ok_or (identity_of certificate key) tt /\ files (load io w).2 = files w.
Proof.
  intros F T N C K. destruct (current_named io w g F T N) as (w1 & E1 & F1).
  destruct (read_holds io w1 (tls [g; CERT_FILE]) certificate) as (w2 & E2 & F2); [done|by rewrite F1..|].
  destruct (read_holds io w2 (tls [g; KEY_FILE]) key) as (w3 & E3 & F3); [done|by rewrite F2, F1..|].
  unfold load, identity_of, bind, or_fail, lift. rewrite E1. simpl. rewrite E2. simpl.
  destruct (pem_certificates certificate) as [certificates|]; simpl; [|by rewrite F2].
  destruct (Nat.eqb (List.length certificates) 1); simpl; [|by rewrite F2]. rewrite E3. simpl.
  destruct (pem_key key) as [k|]; simpl; [|by rewrite F3, F2].
  destruct (server_config certificates k); simpl; by rewrite F3, F2.
Qed.

(** Nothing is loaded where nothing is named. *)
Lemma load_unnamed io w : faultless io -> (forall g, ~ named (files w) g) ->
  (load io w).1 = Err tt /\ files (load io w).2 = files w.
Proof.
  intros F N. unfold load, current_generation, bind, attempt, read_link, call_failing. rewrite (proj2 (F _)).
  destruct (resolve _ _ _) as [target|e|] eqn:Hr; [|by destruct e|].
  - assert (Hlink : exists n, files w !! tls [CURRENT] = Some n /\ kind n = Symlink target).
    { apply resolve_ok in Hr as [_ Hr]. destruct (files w !! tls [CURRENT]) as [[[] m g]|]; try discriminate Hr.
      injection Hr as ->. by eexists. }
    destruct (is_generation_name target) eqn:Hg; [by destruct (N target)|done].
  - unfold resolve in Hr. destruct (reach _ _); [|done..]. by destruct (files w !! tls [CURRENT]) as [[[] m g]|].
Qed.

Lemma named_or_not fs : (exists g, named fs g) \/ forall g, ~ named fs g.
Proof.
  unfold named. destruct (fs !! tls [CURRENT]) as [n|] eqn:Hn; [|right; intros g [(n & H & _) _]; congruence].
  destruct (kind n) as [| |target] eqn:Hk; try (right; intros g [(n' & H & Hk') _]; congruence).
  destruct (is_generation_name target) eqn:Hg.
  - left. exists target. split; [by exists n|done].
  - right. intros g [(n' & H & Hk') Hg']. congruence.
Qed.

(** What a start of the server makes of a tree. *)
Definition served (t : Files) (io : Io) (w : World) : Prop :=
  files (load io w).2 = t /\
  ((exists g certificate key, named t g /\ holds t (tls [g; CERT_FILE]) certificate /\ holds t (tls [g; KEY_FILE]) key /\
      (load io w).1 = ok_or (identity_of certificate key) tt) \/
   (forall g, ~ named t g) /\ (load io w).1 = Err tt).

Lemma valid_served t io w : tree t -> valid t -> faultless io -> files w = t -> served t io w.
Proof.
  intros T V F <-. unfold served. destruct (named_or_not (files w)) as [[g N]|N].
  - destruct (V g N) as [_ (nk & key & K1 & K2) (nc & certificate & C1 & C2) _].
    destruct (load_named io w g certificate key) as [H1 H2]; [done|done|done|by exists nc|by exists nk|].
    split; [done|]. left. exists g, certificate, key. split_and!; [done|by exists nc|by exists nk|done].
  - destruct (load_unnamed io w F N) as [H1 H2]. split; [done|]. by right.
Qed.

Section Worker.
Context (io : Io) (tools : Tools) (root : string) (ownership : Ownership).
Context {OL : OpensslLaws tools root}.
Context (read_link_works : forall n, fails_read_link io n = false).
Context (random_fills : forall n N bytes, random_at tools n N = Some bytes ->
  List.length bytes = N /\ Forall is_byte bytes).

End Worker.
End Load.
End Tls.
