(* ===== verification/Startup.v ===== *)
(** * Starting the services ([remoted/src/main.rs], [remoted/src/netlink.rs],
    [authd/src/main.rs], and both [checked_interface.rs])

    The kernel's notifications, the order in which the remote server is put
    together, and the checks before a bus method is dispatched. *)
From S2P Require Import Prelude Text Programs.

Module Netlink.
Import Programs.
#[local] Open Scope prog_scope.

Definition EAGAIN : Z := 11.
Definition ENOBUFS : Z := 105.
Definition EINTR : Z := 4.

(** [Readable] waits for the socket; [Recv] is one [recv(2)]: how much was
    received, and [errno], which a success leaves as it was. *)
Inductive NetlinkCall := Readable | Recv | ClearReady.
Definition NetlinkReply (c : NetlinkCall) : Type :=
  match c with
  | Readable => res unit Z
  | Recv => Z * Z
  | ClearReady => unit
  end.
Definition Socket : Signature := {| call := NetlinkCall; reply := NetlinkReply |}.
Definition ask (c : NetlinkCall) : prog Socket (NetlinkReply c) := perform (S:=Socket) c.

(** How the inner loop ends: drained, with what was noticed, or an error;
    [None] is not yet, after [fuel] receives. *)
Fixpoint drain (fuel : nat) (notified : bool) : prog Socket (option (res bool Z)) :=
  match fuel with
  | O => Done None
  | Datatypes.S fuel =>
      let! (received, errno) := ask Recv in
      if 0 <? received then drain fuel true
      else
        if errno =? EAGAIN then do! ask ClearReady in Done (Some (Ok notified))
        else if errno =? ENOBUFS then drain fuel true
        else if errno =? EINTR then drain fuel notified
        else if received =? 0 then do! ask ClearReady in Done (Some (Ok notified))
        else Done (Some (Err errno))
  end.

(** [Netlink::changed], followed for [fuel] waits of at most [receives]. *)
Fixpoint changed (fuel receives : nat) : prog Socket (option (res unit Z)) :=
  match fuel with
  | O => Done None
  | Datatypes.S fuel =>
      let! ready := ask Readable in
      match ready with
      | Err e => Done (Some (Err e))
      | Panic => Done (Some Panic)
      | Ok _ =>
          let! drained := drain receives false in
          match drained with
          | None => Done None
          | Some (Ok notified) => if notified : bool then Done (Some (Ok tt)) else changed fuel receives
          | Some (Err e) => Done (Some (Err e))
          | Some Panic => Done (Some Panic)
          end
      end
  end.

(** A receive that tells of a change: a message, or that messages were lost. *)
Definition tells (e : event Socket) : bool :=
  match e with
  | existT Recv (received, errno) => (0 <? received) || (errno =? ENOBUFS)
  | _ => false
  end.

(** The socket was found empty. *)
Definition emptied (e : event Socket) : bool :=
  match e with
  | existT Recv (received, errno) => negb (0 <? received) && ((errno =? EAGAIN) || (received =? 0))
  | _ => false
  end.

Definition found (notified : bool) (t : list (event Socket)) (notified' : bool) : Prop :=
  notified' = notified || existsb tells t /\
  exists before last, t = (before ++ [last; existT ClearReady tt])%list /\ emptied last = true.

Lemma found_more notified e t notified' b : found b t notified' -> b = notified || tells e -> found notified (e :: t) notified'.
Proof.
  intros [-> (before & last & -> & Hl)] Hb. split; [cbn [existsb]; by rewrite Hb, <- orb_assoc|]. by exists (e :: before), last.
Qed.

Lemma found_end notified e t notified' : runs (do! ask ClearReady in Done (Some (Ok (E:=Z) notified))) t (Some (Ok notified')) ->
  tells e = false -> emptied e = true -> found notified (e :: t) notified'.
Proof.
  intros ([] & ? & -> & -> & [= ->]) Ht He. split; [cbn [existsb]; by rewrite Ht, orb_false_r|]. by exists [], e.
Qed.

Lemma drain_runs fuel : forall notified t notified', runs (drain fuel notified) t (Some (Ok notified')) -> found notified t notified'.
Proof.
  induction fuel as [|fuel IH]; intros notified t notified'; cbn [drain]; [by intros [_ ?]|].
  intros ([received errno] & t' & -> & H). cbn [pbind] in H.
  destruct (Z.ltb_spec 0 received) as [Hr|Hr].
  { eapply found_more; [by apply IH|]. cbn. destruct (Z.ltb_spec 0 received); [by rewrite orb_true_r|lia]. }
  assert (Hno : (0 <? received) = false) by (apply Z.ltb_ge; lia).
  destruct (errno =? EAGAIN) eqn:Ea.
  { apply found_end; [done| |]; cbn; rewrite Hno, ?Ea; [|done]. apply Z.eqb_eq in Ea. by subst. }
  destruct (errno =? ENOBUFS) eqn:Eb.
  { eapply found_more; [by apply IH|]. cbn. by rewrite Eb, orb_true_r, orb_true_r. }
  destruct (errno =? EINTR) eqn:Ec.
  { eapply found_more; [by apply IH|]. cbn. by rewrite Hno, Eb, orb_false_r. }
  destruct (received =? 0) eqn:Ed; [|by destruct H].
  apply found_end; [done| |]; cbn; by rewrite Hno, ?Eb, ?Ed, ?orb_true_r.
Qed.

(** A return is the report of a change noticed since the call, and leaves
    the socket empty: a change that comes later wakes the next call. *)
Theorem changed_reports fuel receives : forall t, runs (changed fuel receives) t (Some (Ok tt)) ->
  existsb tells t = true /\ exists before last, t = (before ++ [last; existT ClearReady tt])%list /\ emptied last = true.
Proof.
  induction fuel as [|fuel IH]; intros t; cbn [changed]; [by intros [_ ?]|].
  intros ([[]|e|] & t' & -> & H); cbn [pbind] in H; [|by destruct H as [_ H]..].
  apply runs_bind in H as (t1 & drained & t2 & -> & H1 & H2).
  destruct drained as [[notified|e|]|]; [|by destruct H2 as [_ H2]..].
  apply drain_runs in H1 as [Hn (before & last & -> & Hl)]. cbn in Hn.
  destruct notified.
  - destruct H2 as [-> _]. rewrite app_nil_r. cbn [existsb]. split; [apply orb_true_iff; right; exact (eq_sym Hn)|]. by exists (existT Readable (Ok tt) :: before), last.
  - apply IH in H2 as [He (before' & last' & -> & Hl')]. split; [cbn [existsb]; apply orb_true_iff; right; rewrite existsb_app; apply orb_true_iff; by right|].
    exists (existT Readable (Ok tt) :: (before ++ [last; existT ClearReady tt]) ++ before')%list, last'.
    split; [|done]. cbn [app]. by rewrite <- !app_assoc.
Qed.
End Netlink.

(** ** The order in which the remote server is put together *)
Module RemotedMain.
Import Programs.
#[local] Open Scope prog_scope.

Definition LISTENING_MARKER : string := "/run/sl-remoted/listening".
Definition FAILURE : Z := 1.

(** The parts that can fail, the controller's run until its notifications
    do, with the kind of that failure, and the journal. *)
Inductive MainCall := LoadTls | OpenNetlink | SystemBus | SessionOwnerEvents | RunController | Stderr (line : string).
Definition MainReply (c : MainCall) : Type :=
  match c with
  | LoadTls | OpenNetlink | SystemBus | SessionOwnerEvents => bool
  | RunController => string
  | Stderr _ => unit
  end.
Definition Process : Signature := {| call := MainCall; reply := MainReply |}.
Definition ask (c : MainCall) : prog Process (MainReply c) := perform (S:=Process) c.

Definition failed (line : string) : prog Process Z := do! ask (Stderr line) in Done FAILURE.

Definition main (version : string) : prog Process Z :=
  do! ask (Stderr ("sl-remoted " +:+ version)) in
  let! tls := ask LoadTls in
  if negb tls then failed "sl-remoted: the TLS identity could not be loaded" else
  let! network_events := ask OpenNetlink in
  if negb network_events then failed "sl-remoted: network change notifications are unavailable" else
  let! connection := ask SystemBus in
  if negb connection then failed "sl-remoted: the system bus is unavailable" else
  let! session_events := ask SessionOwnerEvents in
  if negb session_events then failed "sl-remoted: Session1 owner notifications are unavailable" else
  let! kind := ask RunController in
  failed ("sl-remoted: invalidation notifications failed: " +:+ kind).

(** The controller runs only with an identity and with both kinds of
    notification. *)
Lemma controller_has_notifications version : justly (S:=Process)
  (fun before c => c = RunController ->
     forall needed, needed ∈ [LoadTls; OpenNetlink; SystemBus; SessionOwnerEvents] ->
     exists r, (existT needed r : event Process) ∈ before /\ match needed return MainReply needed -> Prop with
       | LoadTls | OpenNetlink | SystemBus | SessionOwnerEvents => fun r => r = true
       | _ => fun _ => True end r)
  [] (main version) (fun _ code => code = FAILURE).
Proof.
  split; [done|]. intros []. split; [done|]. intros []; [|by split]. split; [done|]. intros []; [|by split].
  split; [done|]. intros []; [|by split]. split; [done|]. intros []; [|by split].
  split; [|intros kind; by split]. intros _ needed Hn. set_unfold in Hn.
  destruct Hn as [->|[->|[->|[->|[]]]]]; exists true; (split; [set_solver|done]).
Qed.
End RemotedMain.

(** ** What is checked before a method is dispatched *)
Module CheckedInterface.
Import Text.

(** The body of a message, as the bus library describes it. *)
Record Body := { signature : string; is_unit : bool; is_empty : bool }.

Definition METHOD_SIGNATURES : list (string * string) :=
  [("VerifyPassword", "s"); ("ConsumePairing", "(ss)"); ("ConfirmRecoveryKey", "s"); ("RecoverPassword", "(ss)");
   ("EnsurePendingPairing", ""); ("CancelPendingPairing", ""); ("ResetEnrollment", ""); ("GetPendingPairing", "");
   ("GetEnrollmentState", "")]%string.

(** [authd]'s [has_unexpected_arguments] *)
Definition auth_unexpected (member : string) (body : Body) : bool :=
  match List.find (fun entry => String.eqb entry.1 member) METHOD_SIGNATURES with
  | None => false
  | Some (_, expected) =>
      if Text.is_empty expected then negb (is_unit body) || negb (is_empty body)
      else negb (String.eqb (signature body) expected)
  end.

Definition ZERO_ARGUMENT_METHODS : list string :=
  ["GetStatus"; "StartUpdate"; "StartRollback"; "StartReboot"; "EnableRemoteManagement"; "DisableRemoteManagement";
   "ReenrollRemoteManagement"; "GetRemoteManagementEnrollment"]%string.

(** [platformd]'s *)
Definition platform_unexpected (member : string) (body : Body) : bool :=
  existsb (String.eqb member) ZERO_ARGUMENT_METHODS && (negb (is_unit body) || negb (is_empty body)).

(** [Interface::call]: the error's text, or the generated dispatch. *)
Definition checked_call {A} (unexpected : string -> Body -> bool) (text : string -> string)
    (dispatch : A) (member : string) (body : Body) : A + string :=
  if unexpected member body then inr (text member) else inl dispatch.

(** [systemd]'s [STATE_DIRECTORY], of its bytes *)
Definition DEFAULT_STATE_DIRECTORY : string := "/var/lib/sl-authd".
Definition state_directory (environment : option (list Z)) : string :=
  default DEFAULT_STATE_DIRECTORY (
    value ← environment;
    text ← from_utf8 value;
    let first := match split_once 58 text with Some (first, _) => first | None => text end in
    if bool_decide (is_Some (strip_prefix "/" first)) then Some first else None).

Example state_directories : map state_directory
  [None; Some (bytes_of "/var/lib/sl-authd"); Some (bytes_of "/var/lib/a:/var/lib/b"); Some (bytes_of "relative")] =
  ["/var/lib/sl-authd"; "/var/lib/sl-authd"; "/var/lib/a"; "/var/lib/sl-authd"]%string.
Proof. vm_compute. reflexivity. Qed.

(** Every method of the authentication service has its one signature. *)
Lemma one_signature member expected body : In (member, expected) METHOD_SIGNATURES ->
  (is_unit body = true <-> signature body = ""%string) ->
  auth_unexpected member body = false <-> signature body = expected /\ (expected = ""%string -> is_empty body = true).
Proof.
  intros Hin Hu. unfold METHOD_SIGNATURES in Hin.
  repeat (destruct Hin as [[= <- <-]|Hin]; [unfold auth_unexpected; cbn [List.find METHOD_SIGNATURES fst String.eqb Ascii.eqb Bool.eqb];
    cbn [Text.is_empty String.eqb]; rewrite ?orb_false_iff, ?negb_false_iff, ?String.eqb_eq; naive_solver|]).
  destruct Hin.
Qed.
End CheckedInterface.
