(* ===== verification/Bus.v ===== *)
(** * The buses between the daemons

    The messages the callers send and the interfaces that answer them: the
    typed arguments, the tables of methods the [zbus::interface] blocks
    declare, the checks before the dispatch, and the calls of
    [remoted/src/peers.rs], [console/src/lib.rs], [platformd/src/main.rs],
    [platformd/src/remote.rs], [sessiond/src/main.rs],
    [remote-worker/src/main.rs] and [crates/platform-client/src/lib.rs]. *)
From S2P Require Import Prelude Text Protocol Machine MachineSpec Programs Startup Platform PlatformRemote NetworkObserver AuthService Peers Console Sessiond Client.

Module Wire.

(** The D-Bus types of the arguments, and the values. *)
Inductive Ty := TString | TBool | TU64.
Inductive Value := VString (s : string) | VBool (b : bool) | VU64 (n : Z).

#[export] Instance Ty_eq_dec : EqDecision Ty.
Proof. solve_decision. Defined.
#[export] Instance Value_eq_dec : EqDecision Value.
Proof. solve_decision. Defined.

Definition type_of (v : Value) : Ty :=
  match v with VString _ => TString | VBool _ => TBool | VU64 _ => TU64 end.

Definition letter (t : Ty) : string := match t with TString => "s" | TBool => "b" | TU64 => "t" end.

(** The signature of a body, as [checked_interface.rs] says the library
    renders it: several arguments in parentheses. *)
Definition signature_text (types : list Ty) : string :=
  match types with
  | [] => ""
  | [t] => letter t
  | types => "(" +:+ foldr (fun t text => letter t +:+ text) "" types +:+ ")"
  end.

(** A type of Rust that is the body of a message: its arguments' types, its
    encoding, and the decoding of a body of these types. *)
Class Wire (A : Type) := {
  types : list Ty;
  to_body : A -> list Value;
  from_body : list Value -> option A;
  to_body_types a : map type_of (to_body a) = types;
  from_to_body a : from_body (to_body a) = Some a;
  to_from_body body a : from_body body = Some a -> body = to_body a;
  from_body_types body : map type_of body = types -> is_Some (from_body body)
}.
#[global] Hint Mode Wire ! : typeclass_instances.
Arguments types A {_}.

Ltac wire :=
  intros; simplify_eq/=; try done; try (by eexists); try (by destruct_and?; repeat case_match; simplify_eq/=);
  match goal with
  | body : list Value |- _ => destruct body as [|[] body]; wire
  | _ => repeat match goal with u : unit |- _ => destruct u | p : (_ * _)%type |- _ => destruct p end; try done
  end.

#[export, refine] Instance wire_unit : Wire unit := {
  types := [];
  to_body _ := [];
  from_body body := match body with [] => Some tt | _ => None end
}.
Proof. all: wire. Defined.

#[export, refine] Instance wire_string : Wire string := {
  types := [TString];
  to_body s := [VString s];
  from_body body := match body with [VString s] => Some s | _ => None end
}.
Proof. all: wire. Defined.

#[export, refine] Instance wire_strings : Wire (string * string) := {
  types := [TString; TString];
  to_body p := [VString p.1; VString p.2];
  from_body body := match body with [VString s; VString t] => Some (s, t) | _ => None end
}.
Proof. all: wire. Defined.

(** [(bool, bool)], [(bool, String, u64)] and [(String, String, String, u64)] *)
#[export, refine] Instance wire_enrollment_state : Wire (bool * bool) := {
  types := [TBool; TBool];
  to_body p := [VBool p.1; VBool p.2];
  from_body body := match body with [VBool a; VBool b] => Some (a, b) | _ => None end
}.
Proof. all: wire. Defined.

#[export, refine] Instance wire_pending_pairing : Wire (bool * string * Z) := {
  types := [TBool; TString; TU64];
  to_body p := [VBool p.1.1; VString p.1.2; VU64 p.2];
  from_body body := match body with [VBool b; VString s; VU64 n] => Some (b, s, n) | _ => None end
}.
Proof. all: wire. Defined.

#[export, refine] Instance wire_enrollment : Wire (string * string * string * Z) := {
  types := [TString; TString; TString; TU64];
  to_body p := [VString p.1.1.1; VString p.1.1.2; VString p.1.2; VU64 p.2];
  from_body body := match body with [VString s; VString t; VString u; VU64 n] => Some (s, t, u, n) | _ => None end
}.
Proof. all: wire. Defined.

(** What the checks of [checked_interface.rs] see of a body. *)
Definition described (body : list Value) : CheckedInterface.Body := {|
  CheckedInterface.signature := signature_text (map type_of body);
  CheckedInterface.is_unit := bool_decide (body = []);
  CheckedInterface.is_empty := bool_decide (body = [])
|}.
End Wire.

(** ** The interfaces *)
Module Interfaces.
Import Text Wire Protocol.

(** A method of an [impl] under [zbus::interface]: the name of the function,
    and the types of its arguments and of its result. *)
Record Method := { fn : string; inputs : list Ty; output : list Ty }.

(** The member of a function: its words capitalised and joined. *)
Fixpoint camel (start : bool) (name : string) : string :=
  match name with
  | EmptyString => EmptyString
  | String a name =>
      if byte_of a =? 95 then camel true name
      else String (if start then char_of (to_ascii_uppercase (byte_of a)) else a) (camel false name)
  end.
Definition member_name (m : Method) : string := camel true (fn m).

Record Interface := {
  bus_name : string;
  served_at : string;
  interface_name : string;
  methods : list Method;
  unexpected : string -> CheckedInterface.Body -> bool;
  refusal : string -> string
}.

Definition auth_methods : list Method := [
  {| fn := "verify_password"; inputs := types string; output := types unit |};
  {| fn := "consume_pairing"; inputs := types (string * string); output := types string |};
  {| fn := "confirm_recovery_key"; inputs := types string; output := types unit |};
  {| fn := "recover_password"; inputs := types (string * string); output := types unit |};
  {| fn := "ensure_pending_pairing"; inputs := types unit; output := types unit |};
  {| fn := "cancel_pending_pairing"; inputs := types unit; output := types unit |};
  {| fn := "reset_enrollment"; inputs := types unit; output := types unit |};
  {| fn := "get_pending_pairing"; inputs := types unit; output := types (bool * string * Z) |};
  {| fn := "get_enrollment_state"; inputs := types unit; output := types (bool * bool) |}].

Definition authd : Interface := {|
  bus_name := "org.signallayer.Auth1"; served_at := "/org/signallayer/Auth1"; interface_name := "org.signallayer.Auth1";
  methods := auth_methods; unexpected := CheckedInterface.auth_unexpected;
  refusal member := member +:+ " called with the wrong signature" |}.

Definition platform_methods : list Method := [
  {| fn := "get_status"; inputs := types unit; output := types string |};
  {| fn := "start_update"; inputs := types unit; output := types unit |};
  {| fn := "start_rollback"; inputs := types unit; output := types unit |};
  {| fn := "start_reboot"; inputs := types unit; output := types unit |};
  {| fn := "enable_remote_management"; inputs := types unit; output := types unit |};
  {| fn := "disable_remote_management"; inputs := types unit; output := types unit |};
  {| fn := "reenroll_remote_management"; inputs := types unit; output := types unit |};
  {| fn := "get_remote_management_enrollment"; inputs := types unit; output := types (string * string * string * Z) |}].

Definition platformd : Interface := {|
  bus_name := Protocol.BUS; served_at := Protocol.PATH; interface_name := "org.signallayer.Platform1";
  methods := platform_methods; unexpected := CheckedInterface.platform_unexpected;
  refusal member := member +:+ " takes no arguments" |}.

Definition sessiond : Interface := {|
  bus_name := Sessiond.BUS; served_at := Sessiond.PATH; interface_name := "org.signallayer.Session1";
  methods := [{| fn := "get_platform_status"; inputs := types unit; output := types string |}];
  unexpected _ _ := false; refusal member := member |}.

Definition observer : Interface := {|
  bus_name := NetworkObserver.BUS; served_at := NetworkObserver.PATH; interface_name := "org.signallayer.NetworkObserver1";
  methods := [{| fn := "get_network_status"; inputs := types unit; output := types string |}];
  unexpected _ _ := false; refusal member := member |}.

Definition daemons : list Interface := [authd; platformd; sessiond; observer].

(** A method call, as it is addressed. *)
Record Message := { destination : string; object_path : string; interface : string; member : string; body : list Value }.

Inductive Dispatch := InvalidArgs (text : string) | UnknownMethod | Handler (m : Method) (arguments : list Value).

(** [Interface::call]: the check, and the generated dispatch.  A method
    without arguments is called whatever the body, which the check is for;
    the arguments of another are decoded at their types. *)
Definition call (i : Interface) (member : string) (body : list Value) : Dispatch :=
  let dispatched :=
    match List.find (fun m => String.eqb (member_name m) member) (methods i) with
    | None => UnknownMethod
    | Some m =>
        match inputs m with
        | [] => Handler m []
        | inputs => if bool_decide (map type_of body = inputs) then Handler m body else InvalidArgs ""
        end
    end in
  match CheckedInterface.checked_call (unexpected i) (refusal i) dispatched member (described body) with
  | inl dispatched => dispatched
  | inr text => InvalidArgs text
  end.

(** The interface a message reaches: the owner of the name, the object and
    the interface. *)
Definition reaches (m : Message) (i : Interface) : bool :=
  String.eqb (bus_name i) (destination m) && String.eqb (served_at i) (object_path m)
  && String.eqb (interface_name i) (interface m).

Definition delivered (m : Message) : option (Interface * Dispatch) :=
  (fun i => (i, call i (member m) (body m))) <$> List.find (reaches m) daemons.

(** The handler of the authentication service a dispatch calls. *)
Definition auth_request (m : Method) (arguments : list Value) : option AuthService.Request :=
  let named := String.eqb (fn m) in
  if named "verify_password" then AuthService.CallVerifyPassword <$> from_body arguments
  else if named "consume_pairing" then (fun p => AuthService.CallConsumePairing p.1 p.2) <$> from_body arguments
  else if named "confirm_recovery_key" then AuthService.CallConfirmRecoveryKey <$> from_body arguments
  else if named "recover_password" then (fun p => AuthService.CallRecoverPassword p.1 p.2) <$> from_body arguments
  else if named "ensure_pending_pairing" then Some AuthService.CallEnsurePendingPairing
  else if named "cancel_pending_pairing" then Some AuthService.CallCancelPendingPairing
  else if named "reset_enrollment" then Some AuthService.CallResetEnrollment
  else if named "get_pending_pairing" then Some AuthService.CallGetPendingPairing
  else if named "get_enrollment_state" then Some AuthService.CallGetEnrollmentState
  else None.

Definition served_by_auth (member : string) (body : list Value) : option AuthService.Request :=
  match call authd member body with Handler m arguments => auth_request m arguments | _ => None end.

(** The body of a reply of the service. *)
Definition reply_body (r : MachineSpec.Reply) : list Value :=
  match r with
  | MachineSpec.Done => to_body tt
  | MachineSpec.RecoveryKey key => to_body key
  | MachineSpec.PendingPairing pending text expires_at => to_body (pending, text, expires_at)
  | MachineSpec.EnrollmentState enrolled pending => to_body (enrolled, pending)
  end.
End Interfaces.

(** ** The callers *)
Module Callers.
Import Wire Interfaces Programs.
#[local] Open Scope prog_scope.

(** What the bus library answers: [None] is the caller's deadline. *)
Inductive Failed := ErrorReply (name : string) | OtherError.
Inductive BusCall :=
  | NewProxy (destination path interface : string)
  | CallMethod (m : Message).
Definition BusReply (c : BusCall) : Type :=
  match c with
  | NewProxy _ _ _ => option (unit + Failed)
  | CallMethod _ => option (list Value + Failed)
  end.
Definition Bus : Signature := {| Programs.call := BusCall; reply := BusReply |}.
Definition ask (c : BusCall) : prog Bus (BusReply c) := perform (S:=Bus) c.

Definition failed {R} (f : Failed) : Peers.Outcome R :=
  match f with ErrorReply name => Peers.MethodError name | OtherError => Peers.BusError end.

(** A call of a method, and how it is addressed; a reply that is not of the
    type expected is an error of the bus library. *)
Record Site := {
  result : Type;
  result_wire : Wire result;
  bus : string;
  path : string;
  interface : string;
  member : string;
  arguments : list Value
}.
#[local] Existing Instance result_wire.

Definition site (R : Type) {W : Wire R} {A : Type} {V : Wire A} (bus path interface member : string) (arguments : A) : Site := {|
  result := R; bus := bus; path := path; interface := interface; member := member; arguments := to_body arguments |}.

Definition message (s : Site) : Message := {|
  destination := bus s; object_path := path s; Interfaces.interface := interface s;
  Interfaces.member := member s; body := arguments s |}.

(** [timeout(limit, async { let proxy = Proxy::new(..).await?;
    proxy.call(member, body).await })] *)
Definition call (s : Site) : prog Bus (Peers.Outcome (result s)) :=
  let! proxy := ask (NewProxy (bus s) (path s) (interface s)) in
  match proxy with
  | None => Done Peers.Elapsed
  | Some (inr f) => Done (failed f)
  | Some (inl _) =>
      let! reply := ask (CallMethod (message s)) in
      Done match reply with
           | None => Peers.Elapsed
           | Some (inr f) => failed f
           | Some (inl body) => match from_body body with Some r => Peers.Replied r | None => Peers.BusError end
           end
  end.

(** [remoted/src/peers.rs] *)
Module Remoted.
Definition call_auth (R : Type) {W : Wire R} {A : Type} {V : Wire A} (member : string) (body : A) : Site :=
  site R Peers.AUTH_BUS Peers.AUTH_PATH Peers.AUTH_BUS member body.
Definition verify_password (password : string) : Site := call_auth unit "VerifyPassword" password.
Definition consume_pairing (pairing_code new_password : string) : Site :=
  call_auth string "ConsumePairing" (pairing_code, new_password).
Definition confirm_recovery_key (recovery_key : string) : Site := call_auth unit "ConfirmRecoveryKey" recovery_key.
Definition status : Site :=
  site string Peers.SESSION_BUS Peers.SESSION_PATH Peers.SESSION_BUS "GetPlatformStatus" tt.
End Remoted.

(** [console/src/lib.rs] *)
Module Console.
Definition call_bus (R : Type) {W : Wire R} {A : Type} {V : Wire A} (bus path member : string) (body : A) : Site :=
  site R bus path bus member body.
Definition status : Site := call_bus string Console.SESSION_BUS Console.SESSION_PATH "GetPlatformStatus" tt.
Definition enrollment : Site :=
  call_bus (string * string * string * Z) Console.PLATFORM_BUS Console.PLATFORM_PATH "GetRemoteManagementEnrollment" tt.
Definition verify_password (password : string) : Site :=
  call_bus unit Console.AUTH_BUS Console.AUTH_PATH "VerifyPassword" password.
Definition recover_password (recovery_key new_password : string) : Site :=
  call_bus unit Console.AUTH_BUS Console.AUTH_PATH "RecoverPassword" (recovery_key, new_password).
Definition platform (action : Console.Action) : Site :=
  call_bus unit Console.PLATFORM_BUS Console.PLATFORM_PATH (Console.member action) tt.
End Console.

(** [platformd/src/remote.rs], [platformd/src/main.rs] *)
Module Platformd.
Definition auth (c : PlatformRemote.AuthCall) : Site :=
  site unit PlatformRemote.AUTH_BUS PlatformRemote.AUTH_PATH PlatformRemote.AUTH_INTERFACE (PlatformRemote.member c) tt.
Definition pending_pairing : Site :=
  site (bool * string * Z) PlatformRemote.AUTH_BUS PlatformRemote.AUTH_PATH PlatformRemote.AUTH_INTERFACE "GetPendingPairing" tt.
Definition observe_network : Site :=
  site string Platform.NETWORK_OBSERVER_BUS Platform.NETWORK_OBSERVER_PATH Platform.NETWORK_OBSERVER_INTERFACE
    "GetNetworkStatus" tt.
End Platformd.

(** [sessiond/src/main.rs] *)
Module Sessiond.
Definition enrolled : Site :=
  site (bool * bool) Sessiond.AUTH_BUS Sessiond.AUTH_PATH Sessiond.AUTH_INTERFACE "GetEnrollmentState" tt.
End Sessiond.

(** [remote-worker/src/main.rs] *)
Module RemoteWorker.
Definition AUTH_BUS : string := "org.signallayer.Auth1".
Definition AUTH_PATH : string := "/org/signallayer/Auth1".
Definition AUTH_INTERFACE : string := "org.signallayer.Auth1".
Definition AUTH_TIMEOUT : Z := 10000.
Definition reset_enrollment : Site := site unit AUTH_BUS AUTH_PATH AUTH_INTERFACE "ResetEnrollment" tt.
End RemoteWorker.

(** The proxy of [crates/protocol/src/lib.rs]: the methods of its trait, at
    its default service, path and interface. *)
Module Proxy.
Definition trait_methods : list Method := [
  {| fn := "get_status"; inputs := types unit; output := types string |};
  {| fn := "start_update"; inputs := types unit; output := types unit |};
  {| fn := "start_rollback"; inputs := types unit; output := types unit |};
  {| fn := "start_reboot"; inputs := types unit; output := types unit |};
  {| fn := "enable_remote_management"; inputs := types unit; output := types unit |};
  {| fn := "disable_remote_management"; inputs := types unit; output := types unit |};
  {| fn := "reenroll_remote_management"; inputs := types unit; output := types unit |};
  {| fn := "get_remote_management_enrollment"; inputs := types unit; output := types (string * string * string * Z) |}].

Definition proxied (R : Type) {W : Wire R} (fn : string) : Site :=
  site R "org.signallayer.Platform1" "/org/signallayer/Platform1" "org.signallayer.Platform1" (camel true fn) tt.
Definition get_status : Site := proxied string "get_status".
Definition start_update : Site := proxied unit "start_update".
Definition start_rollback : Site := proxied unit "start_rollback".
Definition start_reboot : Site := proxied unit "start_reboot".
End Proxy.

(** Every call of one daemon, of the console or of the command line on
    another. *)
Inductive call_site : Site -> Prop :=
  | remoted_verify_password password : call_site (Remoted.verify_password password)
  | remoted_consume_pairing code password : call_site (Remoted.consume_pairing code password)
  | remoted_confirm_recovery_key key : call_site (Remoted.confirm_recovery_key key)
  | remoted_status : call_site Remoted.status
  | console_status : call_site Console.status
  | console_enrollment : call_site Console.enrollment
  | console_verify_password password : call_site (Console.verify_password password)
  | console_recover_password key password : call_site (Console.recover_password key password)
  | console_platform action : call_site (Console.platform action)
  | platformd_auth c : call_site (Platformd.auth c)
  | platformd_pending_pairing : call_site Platformd.pending_pairing
  | platformd_observe_network : call_site Platformd.observe_network
  | sessiond_enrolled : call_site Sessiond.enrolled
  | worker_reset_enrollment : call_site RemoteWorker.reset_enrollment
  | client_get_status : call_site Proxy.get_status
  | client_start_update : call_site Proxy.start_update
  | client_start_rollback : call_site Proxy.start_rollback
  | client_start_reboot : call_site Proxy.start_reboot.
End Callers.
