(* ===== verification/BusProps.v ===== *)
(** * The calls between the daemons are well typed *)
From S2P Require Import Prelude Text Hash Store Machine MachineSpec Programs Startup PlatformCalls PlatformRemote AuthService Peers Bus.

Module BusProps.
Import Hash Store Machine MachineSpec Wire Interfaces Callers Programs.
#[local] Existing Instance result_wire.

(** The bus carries a call: the proxy is made, and the reply is a body of
    the types the method declares. *)
Definition carried (m : Method) (e : event Bus) : Prop :=
  match e with
  | existT (NewProxy _ _ _) reply => reply = Some (inl tt)
  | existT (CallMethod _) reply => exists body, reply = Some (inl body) /\ map type_of body = output m
  end.

(** What reaches the handler: the interface, the method, its arguments. *)
Definition handled (s : Site) (i : Interface) (m : Method) : Prop :=
  i ∈ daemons /\ m ∈ methods i /\ delivered (message s) = Some (i, Handler m (arguments s)) /\
  map type_of (arguments s) = inputs m /\ output m = types (result s).

Lemma call_runs s m t o : output m = types (result s) -> runs (Callers.call s) t o -> Forall (carried m) t ->
  exists r, o = Peers.Replied r /\ (existT (CallMethod (message s)) (Some (inl (to_body r))) : event Bus) ∈ t.
Proof.
  intros Ho (p & t1 & -> & H) [Hp Ht]%Forall_cons. cbn in Hp. subst p.
  destruct H as (reply & t2 & -> & -> & ->). apply Forall_cons in Ht as [(body & -> & Hb) _].
  destruct (from_body_types (A:=result s) body) as [r Hr]; [by rewrite Hb|]. rewrite Hr. exists r. split; [done|].
  apply to_from_body in Hr. subst. right. left.
Qed.

(** C14. The calls between the daemons are well typed.  Every call that the
    remote server, the console, the platform and session daemons, the remote
    worker and the platform client make on one another names a bus, an
    object, an interface and a member that one daemon serves; it passes that
    daemon's check of its signature and reaches the handler with exactly the
    arguments sent, at the types the handler declares.  When the bus carries
    the call, the caller gets the handler's result: a reply of the declared
    types is never taken for a failure. *)
Theorem calls_are_well_typed s : call_site s -> exists i m, handled s i m /\
  forall t o, runs (Callers.call s) t o -> Forall (carried m) t ->
    exists r, o = Peers.Replied r /\ (existT (CallMethod (message s)) (Some (inl (to_body r))) : event Bus) ∈ t.
Proof.
  intros Hs. assert (exists i m, handled s i m) as (i & m & H).
  { destruct Hs as [| | | | | | | |[]|[]| | | | | | | |]; eexists _, _;
      (split_and!; [| |reflexivity|reflexivity|reflexivity]); cbn; set_solver. }
  exists i, m. split; [done|]. intros t o. apply call_runs. apply H.
Qed.

Lemma calls_are_well_typed_witness :
  call_site (Platformd.auth PlatformRemote.ResetEnrollment) /\
  exists i m, handled (Platformd.auth PlatformRemote.ResetEnrollment) i m /\
  forall t o, runs (Callers.call (Platformd.auth PlatformRemote.ResetEnrollment)) t o -> Forall (carried m) t ->
    exists r, o = Peers.Replied r /\
      (existT (CallMethod (message (Platformd.auth PlatformRemote.ResetEnrollment))) (Some (inl (to_body r))) : event Bus) ∈ t.
Proof. split; [constructor|]. apply (calls_are_well_typed (Platformd.auth PlatformRemote.ResetEnrollment)). constructor. Defined.

(** ** The interface of the authentication service *)

(** The one message that asks for each request. *)
Definition request_message (r : AuthService.Request) : string * list Value :=
  match r with
  | AuthService.CallVerifyPassword password => ("VerifyPassword", to_body password)
  | AuthService.CallConsumePairing code password => ("ConsumePairing", to_body (code, password))
  | AuthService.CallConfirmRecoveryKey key => ("ConfirmRecoveryKey", to_body key)
  | AuthService.CallRecoverPassword key password => ("RecoverPassword", to_body (key, password))
  | AuthService.CallEnsurePendingPairing => ("EnsurePendingPairing", to_body tt)
  | AuthService.CallCancelPendingPairing => ("CancelPendingPairing", to_body tt)
  | AuthService.CallResetEnrollment => ("ResetEnrollment", to_body tt)
  | AuthService.CallGetPendingPairing => ("GetPendingPairing", to_body tt)
  | AuthService.CallGetEnrollmentState => ("GetEnrollmentState", to_body tt)
  end%string.

Lemma served_message r : served_by_auth (request_message r).1 (request_message r).2 = Some r.
Proof. by destruct r. Qed.

Lemma served_only member body r : served_by_auth member body = Some r -> (member, body) = request_message r.
Proof.
  unfold served_by_auth, Interfaces.call, CheckedInterface.checked_call. cbn [unexpected authd methods].
  unfold CheckedInterface.auth_unexpected.
  assert (Hm : forall name (m : Method), member_name m = name -> String.eqb name member = String.eqb (member_name m) member) by congruence.
  cbn [List.find CheckedInterface.METHOD_SIGNATURES fst auth_methods].
  repeat match goal with |- context [String.eqb (member_name ?m) member] =>
    let name := eval vm_compute in (member_name m) in rewrite <- (Hm name m eq_refl) end.
  repeat match goal with |- context [String.eqb ?name member] => destruct (String.eqb_spec name member) as [<-|_] end; [..|done].
  all: destruct body as [|[] [|[] [|[] body]]]; intros H; vm_compute in H; simplify_eq; reflexivity.
Qed.
(** The operation of the core a request comes to. *)
Definition comes_to (r : AuthService.Request) (o : Op) : Prop :=
  match r with
  | AuthService.CallVerifyPassword password => exists uid, o = VerifyPassword uid password
  | AuthService.CallConsumePairing code password => o = ConsumePairing code password
  | AuthService.CallConfirmRecoveryKey key => o = ConfirmRecoveryKey key
  | AuthService.CallRecoverPassword key password => o = RecoverPassword key password
  | AuthService.CallEnsurePendingPairing => o = EnsurePendingPairing
  | AuthService.CallCancelPendingPairing => o = CancelPendingPairing
  | AuthService.CallResetEnrollment => o = ResetEnrollment
  | AuthService.CallGetPendingPairing => o = GetPendingPairing
  | AuthService.CallGetEnrollmentState => o = GetEnrollmentState
  end.

Lemma run_runs method uid permit o t v : runs (AuthService.run method uid permit o) t v ->
  exists result, (existT (AuthService.WithCore o) result : event AuthService.Auth) ∈ t /\ v = map_err AuthService.to_dbus result.
Proof.
  intros (result & t1 & -> & H). exists result. split; [left|]. cbn [pbind] in H. apply runs_bind in H as (t2 & [] & t3 & _ & _ & H).
  destruct H as ([] & t4 & _ & _ & ->). done.
Qed.

Lemma serve_runs r t v : runs (AuthService.serve r) t (Ok v) -> exists o, comes_to r o /\
  (existT (AuthService.WithCore o) (Ok v) : event AuthService.Auth) ∈ t.
Proof.
  assert (Hrun : forall method uid permit o t v, runs (AuthService.run method uid permit o) t (Ok v) ->
    (existT (AuthService.WithCore o) (Ok v) : event AuthService.Auth) ∈ t).
  { intros method uid permit o t' v' H. apply run_runs in H as ([w|f|] & Hin & He); try done. by injection He as ->. }
  assert (Hadmitted : forall method (m : prog AuthService.Auth (res Reply AuthService.AuthError.t)) t v,
    runs (try_bind (AuthService.admit_request method) (fun _ => m)) t (Ok v) -> exists t1 t2, t = (t1 ++ t2)%list /\ runs m t2 (Ok v)).
  { intros method m t' v' H. apply runs_bind in H as (t1 & [[]|e|] & t2 & -> & _ & H); [by exists t1, t2| |]; by destruct H. }
  destruct r; cbn [AuthService.serve]; intros H; try (eexists; split; [reflexivity|by eapply Hrun]).
  { apply Hadmitted in H as (t1 & t2 & -> & ([uid|] & t3 & -> & H)); [|by destruct H as ([] & ? & _ & _ & H)].
    eexists. split; [by exists uid|]. apply elem_of_app. right. right. by eapply Hrun. }
  all: apply Hadmitted in H as (t1 & t2 & -> & H); eexists; split; [reflexivity|]; apply elem_of_app; right; by eapply Hrun.
Qed.

Section Replies.
Context {D : Type} `{StoreOps D} `{Hasher} (env : Env).

(** The core's part of a run is what the core does in some state. *)
Definition from_core (e : event AuthService.Auth) : Prop :=
  match e with
  | existT (AuthService.WithCore o) result => exists (s s' : AuthService.Shared (D:=D)), AuthService.with_core env o s = (result, s')
  | _ => True
  end.

Lemma core_reply_types r o (s s' : AuthService.Shared (D:=D)) v : comes_to r o -> AuthService.with_core env o s = (Ok v, s') ->
  exists m arguments, Interfaces.call authd (request_message r).1 (request_message r).2 = Handler m arguments /\
    map type_of (reply_body v) = output m.
Proof.
  intros Ho Hs. unfold AuthService.with_core in Hs. destruct (AuthService.poisoned s); [done|].
  destruct (run_op env o (AuthService.core s)) as [reply c] eqn:Hr.
  assert (reply = Ok v) as -> by (destruct reply; by simplify_eq).
  destruct r; cbn in Ho; match type of Ho with ex _ => destruct Ho as [uid Ho] | _ => idtac end; subst o;
    apply replying_inv in Hr as (r0 & _ & Hv); destruct r0; simplify_eq/=; repeat case_match; simplify_eq/=;
    eexists _, _; (split; [vm_compute; reflexivity|reflexivity]).
Qed.

End Replies.
End BusProps.
