(* ===== verification/Relay.v ===== *)
(** * The network report from NetworkManager to the listeners

    The observer's report goes through [platformd] and [sessiond] to the
    remote server, as JSON at each step.  What the server listens on, and
    what the platform advertises, is what NetworkManager reported. *)
From S2P Require Import Prelude Text IpAddr IpAddrFacts Protocol Programs FileSystem RemoteState PlatformCalls PlatformRemote Platform Network NetworkObserver NetworkObserverProps Client Console Sessiond SessiondProps.

Module Relay.
Import Text IpAddr IpAddrFacts Protocol Programs.

(** ** What NetworkManager said *)
Module Said.
Import NetworkObserver NetworkObserverProps.
#[local] Open Scope prog_scope.

Local Abbreviation Entry := (gmap string OwnedValue).
Definition family_of (interface : string) : Z := if String.eqb interface IP4_CONFIG_INTERFACE then 4 else 6.

(** The address lists that were read, each with its family. *)
Definition note (st : list (Z * list Entry)) (e : event NetworkManager) : list (Z * list Entry) :=
  match e with
  | existT (GetAddressData _ interface _) (Some (Ok data)) => (st ++ [(family_of interface, data)])%list
  | _ => st
  end.
Definition said (t : list (event NetworkManager)) : list (Z * list Entry) := foldl note [] t.

(** A text of the report: an entry that was read, normalised. *)
Definition reported (st : list (Z * list Entry)) (s : string) : Prop :=
  exists family data entry, (family, data) ∈ st /\ entry ∈ data /\ parse_entry family entry = Ok s.

Lemma collect_elems family entries : forall set r, collect family set entries = Ok r ->
  forall s, s ∈ r <-> s ∈ set \/ exists entry, entry ∈ entries /\ parse_entry family entry = Ok s.
Proof.
  induction entries as [|entry entries IH]; intros set r H s; simpl in H.
  { injection H as <-. split; [by left|]. intros [?|(e & He & _)]; [done|by apply elem_of_nil in He]. }
  destruct (parse_entry family entry) as [text| |] eqn:He; simpl in H; try done. rewrite (IH _ _ H), insert_in.
  split.
  - intros [[->|Hs]|(e & Hin & Hp)]; [right; exists entry; split; [left|done]|by left|right; exists e; split; [by right|done]].
  - intros [Hs|(e & [->|Hin]%elem_of_cons & Hp)]; [by left; right|left; left; congruence|right; by exists e].
Qed.

Lemma collect_parses family entries : forall set r, collect family set entries = Ok r ->
  forall entry, entry ∈ entries -> exists s, parse_entry family entry = Ok s.
Proof.
  induction entries as [|entry entries IH]; intros set r H e; simpl in H; [by intros ?%elem_of_nil|].
  destruct (parse_entry family entry) as [text| |] eqn:He; simpl in H; try done.
  intros [->|Hin]%elem_of_cons; [by exists text|by eapply IH].
Qed.

(** The texts gathered are the report of what was read, none of it invalid. *)
Definition gathers (st : list (Z * list Entry)) (g : list string * list string) : Prop :=
  (forall s, s ∈ g.1 <-> reported st s) /\
  forall family data entry, (family, data) ∈ st -> entry ∈ data ->
    (family = 4 \/ family = 6) /\ exists s, parse_entry family entry = Ok s.
Definition ends {A} (Q : list (Z * list Entry) -> A -> Prop) (st : list (Z * list Entry)) (r : awaited A) : Prop :=
  match r with Some (Ok a) => Q st a | _ => True end.

Lemma reported_more st family data s : reported (st ++ [(family, data)]) s <->
  reported st s \/ exists entry, entry ∈ data /\ parse_entry family entry = Ok s.
Proof.
  split.
  - intros (f & d & e & [Hin|[= -> ->]%list_elem_of_singleton]%elem_of_app & He & Hp); [left; by exists f, d, e|right; by exists e].
  - intros [(f & d & e & Hin & He & Hp)|(e & He & Hp)].
    + exists f, d, e. split; [apply elem_of_app; by left|done].
    + exists family, data, e. split; [apply elem_of_app; right; by apply list_elem_of_singleton|done].
Qed.

Local Abbreviation watched := (monitored note (fun _ _ => True)).

Lemma watched_await {A B} st (m : prog NetworkManager (awaited A)) (k : A -> prog NetworkManager (awaited B)) Q R :
  watched st m (ends Q) -> (forall st a, Q st a -> watched st (k a) (ends R)) -> watched st (await_bind tt m k) (ends R).
Proof.
  intros Hm Hk. eapply monitored_bind; [exact Hm|]. intros st' [[a|[]|]|] H; simpl; try done. by apply Hk.
Qed.

(** A call other than that of an address list. *)
Tactic Notation "quiet" ident(x) := eapply (watched_await _ _ _ (fun st' _ => st' = _));
  [split; [done|]; by intros [[|[]|]|]|intros ? x ->].

Lemma watched_gather st primary path_property default_property config g :
  gathers st g ->
  watched st (gather primary path_property default_property config (family_of config) g) (ends gathers).
Proof.
  intros Hg. unfold gather. quiet path. destruct (String.eqb path "/"); [done|]. quiet proxy.
  set (family := family_of config).
  eapply (watched_await _ _ _ (fun st' data => st' = (st ++ [(family, data)])%list)).
  { split; [done|]. by intros [[data|[]|]|]. }
  intros st' data ->. eapply (watched_await _ _ _ (fun st' texts => st' = (st ++ [(family, data)])%list /\ parse_address_data data family = Ok texts)).
  { simpl. by destruct (parse_address_data data family) as [texts|[]|]. }
  intros st' texts [-> Hp].
  assert (H1 : gathers (st ++ [(family, data)]) (extend g.1 texts, g.2)).
  { destruct Hg as [Hg Hall]. split.
    - intros s. cbn [fst]. rewrite extend_in, reported_more, (Hg s), (collect_elems _ _ _ _ Hp). set_solver.
    - intros f d e [Hin|[= -> ->]%list_elem_of_singleton]%elem_of_app He; [by eapply Hall|].
      split; [|by eapply collect_parses]. unfold family, family_of. destruct (String.eqb _ _); auto. }
  quiet is_default. destruct is_default; [|exact H1]. quiet gateway.
  eapply (watched_await _ _ _ (fun st' _ => st' = (st ++ [(family, data)])%list)).
  { simpl. by destruct (parse_gateway gateway family) as [gw|[]|]. }
  intros st' gw ->. destruct gw; exact H1.
Qed.

(** The report of an observation: without a primary connection no address
    list was read; otherwise the addresses are those that were read. *)
Definition reports (st : list (Z * list Entry)) (status : NetworkStatus) : Prop :=
  match primary_connection status with
  | None => st = []
  | Some primary => gathers st (addresses primary, default_gateways primary)
  end.

Lemma watched_observe : watched [] observe_network (fun st r => forall status, r = Ok status -> reports st status).
Proof.
  apply monitored_bind with (Q := ends reports); [|intros st [[status|[]|]|] H; simpl; try done; intros ? [= <-]; exact H].
  quiet proxy. quiet state. quiet path. destruct (String.eqb path "/"); [done|]. quiet active. quiet devices.
  destruct devices as [|device [|]]; try done. quiet proxy2. quiet interface.
  destruct (invalid_interface interface); [done|].
  eapply watched_await; [apply (watched_gather [] _ _ _ IP4_CONFIG_INTERFACE)|].
  { split; [|by intros f d e ?%elem_of_nil].
    intros s. split; [by intros ?%elem_of_nil|]. by intros (f & d & e & Hin%elem_of_nil & _). }
  intros st4 g4 H4. eapply watched_await; [by apply (watched_gather _ _ _ _ IP6_CONFIG_INTERFACE)|].
  intros st6 [addresses gateways] H6. exact H6.
Qed.

(** An address NetworkManager announced, and its prefix length. *)
Definition announced (t : list (event NetworkManager)) (a : IpAddr) (p : Z) : Prop :=
  exists family data entry s n, (family, data) ∈ said t /\ entry ∈ data /\
    entry !! "address"%string = Some (VStr s) /\ parse s = Some a /\ entry !! "prefix"%string = Some (VU32 n) /\ p = Z.of_N n.

Lemma parse_entry_spec family entry text : parse_entry family entry = Ok text -> exists s a n,
  entry !! "address"%string = Some (VStr s) /\ parse s = Some a /\ entry !! "prefix"%string = Some (VU32 n) /\
  text = prefixed a (Z.of_N n) /\ (family = 4 \/ family = 6 -> Z.of_N n <= 128).
Proof.
  unfold parse_entry. rewrite lookup_delete_ne by done.
  destruct (entry !! "address"%string) as [[s| |]|]; cbn [ok_or res_bind try_into_string]; try done.
  destruct (entry !! "prefix"%string) as [[|n|]|]; cbn [ok_or res_bind try_into_u32]; try done.
  destruct (parse s) as [a|] eqn:Ha; cbn [ok_or res_bind]; [|done]. destruct (_ || _) eqn:E; [done|]. intros [= <-].
  exists s, a, n. split_and!; [done..|]. apply orb_false_iff in E as [E4 E6].
  intros [-> | ->]; simpl in E4, E6; [apply orb_false_iff in E4 as [_ E]|apply orb_false_iff in E6 as [_ E]]; apply Z.ltb_ge in E; lia.
Qed.

Lemma observe_reports t status : runs observe_network t (Ok status) -> reports (said t) status.
Proof. intros H. by apply (monitored_runs _ _ _ _ _ _ _ watched_observe) in H as [H _]; apply H. Qed.

(** The addresses of a status are those announced, each with its length. *)
Lemma addresses_announced t status : runs observe_network t (Ok status) ->
  match primary_connection status with
  | None => forall a p, ~ announced t a p
  | Some primary => (forall s, s ∈ addresses primary <-> exists a p, announced t a p /\ s = prefixed a p) /\
      forall a p, announced t a p -> p <= 128
  end.
Proof.
  intros H%observe_reports. unfold reports in H. destruct (primary_connection status) as [primary|].
  2: { intros a p (f & d & e & s & n & Hin & _). rewrite H in Hin. by apply elem_of_nil in Hin. }
  destruct H as [Hs Hall]. assert (Htext : forall a p, announced t a p -> reported (said t) (prefixed a p) /\ p <= 128).
  { intros a p (f & d & e & text & n & Hin & He & H1 & H2 & H3 & ->). destruct (Hall _ _ _ Hin He) as [Hf [s Hp]].
    pose proof Hp as (text' & a' & n' & H1' & H2' & H3' & -> & Hn)%parse_entry_spec.
    simplify_eq. split; [by exists f, d, e|by apply Hn]. }
  split; [|by intros a p [_ Hp]%Htext]. intros s. rewrite (Hs s). split.
  - intros (f & d & e & Hin & He & Hp). apply parse_entry_spec in Hp as (text & a & n & H1 & H2 & H3 & -> & _).
    exists a, (Z.of_N n). split; [|done]. by exists f, d, e, text, n.
  - intros (a & p & Hap%Htext & ->). apply Hap.
Qed.
End Said.

(** ** The status of [platformd] *)
Section Platformd.
Context {J : Platform.Json}.

Lemma network_runs t network : runs Platform.observe_network t (Ok network) -> exists json,
  (existT PlatformCalls.GetNetworkStatus (Some (Ok json)) : event PlatformCalls.Platform) ∈ t /\
  Platform.network_from_str json ≫= Platform.validate_network_status = Some network.
Proof.
  intros H. apply or_error_runs, in_time_runs in H.
  apply await_bind_runs in H as (t1 & [] & t2 & -> & _ & H).
  apply await_bind_runs in H as (t3 & json & t4 & -> & (r3 & ? & -> & -> & <-) & -> & H).
  exists json. split; [set_solver|]. by destruct (Platform.network_from_str json ≫= _) as [n|]; simplify_eq/=.
Qed.

Lemma observed_network release backend machine network health update rollback status :
  Platform.status_from_observations release backend machine network health update rollback = Ok status ->
  Protocol.network status = network /\ Protocol.schema_version status = SCHEMA_VERSION.
Proof.
  unfold Platform.status_from_observations. intros H.
  repeat match type of H with
  | res_bind ?m _ = _ => destruct m as [?|?|] eqn:?; cbn [res_bind] in H; try done
  | (if ?b then _ else _) = _ => destruct b; try done
  | (let '(_, _) := ?p in _) = _ => destruct p
  end. by injection H as <-.
Qed.

Lemma platform_runs t text : runs Platform.observe_status t (Ok text) -> exists json network status,
  (existT PlatformCalls.GetNetworkStatus (Some (Ok json)) : event PlatformCalls.Platform) ∈ t /\
  Platform.network_from_str json ≫= Platform.validate_network_status = Some network /\
  Platform.status_to_string status = Some text /\
  Protocol.network status = network /\ Protocol.schema_version status = SCHEMA_VERSION.
Proof.
  intros H. unfold Platform.observe_status in H.
  apply try_bind_runs in H as (ta & update & tb & -> & _ & H).
  apply try_bind_runs in H as (tc & rollback & td & -> & _ & H).
  apply runs_bind in H as (te & release0 & tf & -> & _ & H).
  apply try_bind_runs in H as (tg & release & th & -> & _ & H).
  apply try_bind_runs in H as (ti & machine & tj & -> & _ & H).
  apply try_bind_runs in H as (tk & [backend network] & tl & -> & Hj & H).
  apply try_join_runs in Hj as (t1 & t2 & _ & Hn & Hin). apply network_runs in Hn as (json & Hjson & Hvalid).
  apply runs_bind in H as (tm & manager & tn & -> & _ & H).
  apply try_bind_runs in H as (to & ? & tp & -> & _ & H).
  apply try_bind_runs in H as (tq & health & tr & -> & _ & H).
  apply try_bind_runs in H as (ts & status & tu & -> & [-> Hs] & -> & Ht).
  symmetry in Hs. apply observed_network in Hs as [Hnet Hschema].
  exists json, network, status. split_and!; [|done| |done|done]; [|by destruct (Platform.status_to_string status); simplify_eq/=].
  specialize (Hin _ (or_intror Hjson)). set_solver.
Qed.
End Platformd.

(** ** The addresses of the report, read back *)
Import NetworkObserver NetworkObserverProps Network Said.

Lemma prefixed_inj a p b q : wf a -> wf b -> 0 <= p <= 128 -> 0 <= q <= 128 -> prefixed a p = prefixed b q -> a = b /\ p = q.
Proof.
  intros Ha Hb Hp Hq He. pose proof (f_equal (split_once 47) He) as Hs. unfold prefixed in Hs.
  rewrite !(split_once_app 47) in Hs by (done || by apply display_no). injection Hs as Hd Hn. split.
  - pose proof (f_equal parse Hd) as H. rewrite !parse_display in H by done. by injection H.
  - pose proof (f_equal (parse_unsigned (Z.max p q)) Hn) as H. rewrite !parse_display_unsigned in H by lia. by injection H.
Qed.

Section Entries.
Context (t : list (event NetworkManager)) (status : NetworkStatus) (primary : PrimaryConnection).
Context (Hrun : runs observe_network t (Ok status)) (Hprimary : primary_connection status = Some primary).

Lemma announced_wf a p : announced t a p -> wf a /\ 0 <= p <= width a /\ prefixed a p ∈ addresses primary.
Proof.
  intros Hap. pose proof (addresses_announced _ _ Hrun) as H. rewrite Hprimary in H.
  destruct H as [H Hbound]. pose proof (Hbound _ _ Hap) as Hmax.
  assert (Hin : prefixed a p ∈ addresses primary) by (apply H; by exists a, p). pose proof (width_bound) as Hw.
  pose proof (post_runs _ _ observe_network_ok _ _ Hrun _ eq_refl _ Hprimary) as [_ [_ Htext _ _ _]]. cbn [fst] in Htext.
  destruct (Htext _ Hin) as (b & q & Hb & Hq & He).
  destruct Hap as (f & d & e & s & n & _ & _ & _ & Hs & _ & ->).
  apply prefixed_inj in He as [-> Hnq]; [|by apply parse_wf in Hs|done|lia|specialize (Hw b); lia]. rewrite Hnq. split_and!; [done|lia|lia|by rewrite <- Hnq].
Qed.

Lemma announced_entry s : s ∈ addresses primary -> exists a p, announced t a p /\ s = prefixed a p /\
  entry_of s = if p =? 0 then None else Some (a, p).
Proof.
  intros Hin. pose proof (addresses_announced _ _ Hrun) as H. rewrite Hprimary in H. apply H in Hin as (a & p & Hap & ->).
  exists a, p. split_and!; [done..|]. apply announced_wf in Hap as (Ha & Hp & _). by apply entry_of_text.
Qed.

Lemma entries_announced entries : mapM entry_of (addresses primary) = Some entries ->
  forall a p, (a, p) ∈ entries <-> announced t a p.
Proof.
  intros He%mapM_Some a p. split.
  - intros [i Hi]%list_elem_of_lookup. eapply Forall2_lookup_r in He as (s & Hs & He); [|exact Hi].
    apply list_elem_of_lookup_2, announced_entry in Hs as (b & q & Hbq & _ & Hs). rewrite Hs in He.
    destruct (q =? 0); [done|]. by injection He as -> ->.
  - intros Hap. destruct (announced_wf _ _ Hap) as (Ha & Hp & [i Hi]%list_elem_of_lookup).
    eapply Forall2_lookup_l in He as (e & Hin & He); [|exact Hi]. rewrite entry_of_text in He by done.
    destruct (p =? 0); [done|]. injection He as <-. by eapply list_elem_of_lookup_2.
Qed.

Lemma no_entries : mapM entry_of (addresses primary) = None -> exists a, announced t a 0.
Proof.
  intros (s & Hs & He)%mapM_None%Exists_exists. apply announced_entry in Hs as (a & p & Hap & -> & H). rewrite H in He.
  destruct (Z.eqb_spec p 0) as [->|]; [by exists a|done].
Qed.
End Entries.

(** The view of the remote server follows NetworkManager: it listens on the
    eligible addresses announced, and a source is on-link when it shares the
    announced prefix of one of them. *)
Definition follows (t : list (event NetworkManager)) (view : View) : Prop :=
  (forall a, a ∈ listen view <-> listenable a = true /\ exists p, announced t a p) /\
  forall source, wf source -> on_link view source = true <->
    exists a p, announced t a p /\ same_family (canonical source) a /\ leading (canonical source) p = leading a p.

Lemma fields_follow t status : runs observe_network t (Ok status) ->
  match view_from_fields {| schema_version := SESSION_SCHEMA;
                            primary_addresses := Protocol.addresses <$> primary_connection status |} with
  | Ok view => follows t view
  | Err _ => exists a, announced t a 0
  | Panic => False
  end.
Proof.
  intros Hrun. destruct (primary_connection status) as [primary|] eqn:Hp; cbn [fmap option_fmap option_map].
  - pose proof (view_spec SESSION_SCHEMA (addresses primary)) as H. destruct (view_from_fields _) as [view|[]|]; [| |done].
    + destruct H as (_ & entries & He & Hl & Hsource).
      pose proof (entries_announced _ _ _ Hrun Hp _ He) as Hin. split.
      * intros a. rewrite Hl, foldl_listen_in. split.
        -- intros [?%elem_of_nil|[Ha Hla]]; [done|]. split; [done|]. apply list_elem_of_fmap in Ha as ([b p] & -> & Hbp).
           exists p. by apply Hin.
        -- intros [Hla [p Hap%Hin]]. right. split; [|done]. apply list_elem_of_fmap. by exists (a, p).
      * intros source Hs. rewrite (Hsource source Hs). split.
        -- intros (a & p & Hap%Hin & _ & H). by exists a, p.
        -- intros (a & p & Hap%Hin & H). exists a, p. split_and!; try done; [|apply H..].
           pose proof (entries_range _ _ _ _ He Hap). lia.
    + destruct H as [|He]; [done|]. by eapply no_entries.
  - pose proof (addresses_announced _ _ Hrun) as H. rewrite Hp in H. change (follows t default_view). split; cbn [listen prefixes default_view].
    + intros a. split; [by intros ?%elem_of_nil|]. intros [_ [p Hap]]. by destruct (H a p).
    + intros source _. split; [done|]. intros (a & p & Hap & _). by destruct (H a p).
Qed.
Lemma url_of_view status view :
  view_from_fields {| schema_version := SESSION_SCHEMA;
                      primary_addresses := Protocol.addresses <$> primary_connection status |} = Ok view ->
  (listen view = [] /\ PlatformRemote.enrollment_url status = EmptyString) \/
  exists a, a ∈ listen view /\ PlatformRemote.enrollment_url status = "https://" +:+ endpoint a PORT +:+ "/".
Proof.
  destruct (primary_connection status) as [primary|] eqn:Hp; intros Hv; [by eapply url_is_served|].
  left. injection Hv as <-. split; [done|]. unfold PlatformRemote.enrollment_url. by rewrite Hp.
Qed.

(** ** The daemons together

    serde_json writes a status so that its readers find what was written:
    the next daemon the same record, and the remote server, which reads some
    fields only, those fields. *)
Definition fields_of (s : SessionStatus) : StatusFields := {|
  schema_version := session_schema_version s;
  primary_addresses := Protocol.addresses <$> primary_connection (session_network s)
|}.

Section Daemons.
Context {J : Platform.Json} (network_to_string : NetworkStatus -> option string).
Context (status_from_str : string -> option Status) (session_to_string : SessionStatus -> option string).
Context (fields_from_str : string -> option StatusFields).

Class Readable : Prop := {
  network_readable s text : network_to_string s = Some text -> Platform.network_from_str text = Some s;
  status_readable s text : Platform.status_to_string s = Some text -> status_from_str text = Some s;
  session_readable s text : session_to_string s = Some text -> fields_from_str text = Some (fields_of s)
}.

(** The runs that make a status of the remote server's: each daemon reads
    the reply of the one before it. *)
Definition relayed (t1 : list (event NetworkManager)) (text3 : string) : Prop :=
  exists t2 t3 text1 text2,
    runs (get_network_status network_to_string) t1 (Ok text1) /\
    (forall text, (existT PlatformCalls.GetNetworkStatus (Some (Ok text)) : event PlatformCalls.Platform) ∈ t2 -> text = text1) /\
    runs Platform.observe_status t2 (Ok text2) /\
    (forall text, (existT (Sessiond.OfClient Client.GetStatus) (Ok text) : event Sessiond.Session) ∈ t3 -> text = text2) /\
    runs (Sessiond.get_platform_status status_from_str session_to_string) t3 (Ok text3).

Lemma observer_runs t text : runs (get_network_status network_to_string) t (Ok text) ->
  exists t' status, runs observe_network t' (Ok status) /\ said t = said t' /\ network_to_string status = Some text.
Proof.
  intros ([] & t1 & -> & H); [|by destruct H].
  cbn [pbind] in H. apply runs_bind in H as (t2' & r & t3' & -> & H & ([] & t4 & -> & -> & <-)).
  apply try_bind_runs in H as (t5 & status & t6 & -> & H & -> & Ht). apply or_error_runs in H.
  exists t5, status. split; [done|]. rewrite app_nil_r. split; [|by destruct (network_to_string status); simplify_eq/=].
  unfold said. cbn [foldl note]. by rewrite foldl_app.
Qed.

Lemma said_announced t t' : said t = said t' -> forall a p, announced t a p <-> announced t' a p.
Proof. intros Hs a p. unfold announced. by rewrite Hs. Qed.
Lemma validated status network : Platform.validate_network_status status = Some network -> network = status.
Proof.
  unfold Platform.validate_network_status. destruct (primary_connection status); [|by intros [= <-]].
  destruct (_ || _); [done|by intros [= <-]].
Qed.

(** What the relay delivers: the fields of the observed status. *)
Lemma relayed_fields `{!Readable} t1 text3 : relayed t1 text3 -> exists t' status,
  runs observe_network t' (Ok status) /\ said t1 = said t' /\
  fields_from_str text3 = Some {| schema_version := SESSION_SCHEMA;
                                  primary_addresses := Protocol.addresses <$> primary_connection status |}.
Proof.
  intros (t2 & t3 & text1 & text2 & (t' & status & Hrun & Hsaid & Htext1)%observer_runs & Hreads2 & Hplatform & Hreads3 & Hsession).
  exists t', status. split_and!; [done..|].
  apply platform_runs in Hplatform as (json & network & st & Hjson & Hvalid & Htext2 & Hnetwork & Hschema).
  rewrite (Hreads2 _ Hjson), (network_readable _ _ Htext1) in Hvalid. cbn [mbind option_bind] in Hvalid. apply validated in Hvalid as ->.
  apply SessiondProps.status_runs in Hsession as (st' & e & l & n & (text & Hin & Hdecode) & _ & _ & _ & Htext3 & _).
  assert (text = text2) as ->.
  { apply Hreads3. apply list_elem_of_omap in Hin as ([c reply] & Hin & Hr). destruct c as [[]| | |]; try done. injection Hr as ->. exact Hin. }
  unfold Client.decode_status in Hdecode. rewrite (status_readable _ _ Htext2), Hschema, String.eqb_refl in Hdecode.
  injection Hdecode as <-. apply session_readable in Htext3. rewrite Htext3. unfold fields_of. cbn. by rewrite Hnetwork.
Qed.

(** The server's view, of texts whose readers find what was written. *)
Lemma relay_delivers t1 text3 : Readable -> relayed t1 text3 ->
  exists t' status, runs observe_network t' (Ok status) /\ said t1 = said t' /\
    match view_from_status fields_from_str text3 with
    | Ok view => follows t1 view /\
        ((listen view = [] /\ PlatformRemote.enrollment_url status = EmptyString) \/
         exists a, a ∈ listen view /\ PlatformRemote.enrollment_url status = "https://" +:+ endpoint a PORT +:+ "/")
    | Err _ => exists a, announced t1 a 0
    | Panic => False
    end.
Proof.
  intros HR (t' & status & Hrun & Hsaid & Hfields)%relayed_fields.
  exists t', status. split_and!; [done..|]. unfold view_from_status. rewrite Hfields. cbn [ok_or res_bind].
  pose proof (fields_follow t' status Hrun) as H. pose proof (url_of_view status) as Hurl.
  destruct (view_from_fields _) as [view|[]|]; [| |done].
  - split; [|by apply Hurl]. destruct H as [H1 H2]. split; [intros a; rewrite H1|intros source Hs; rewrite (H2 source Hs)];
      by setoid_rewrite (said_announced _ _ Hsaid).
  - destruct H as [a Ha]. exists a. by apply (said_announced _ _ Hsaid).
Qed.
End Daemons.
End Relay.
