(* ===== verification/RemoteAccess.v ===== *)
(** * Remote access, end to end

    The remote server with its requests in flight and its session table, the
    calls to the authentication service over the bus, and the service's own
    run: what it takes to be shown the status. *)
From S2P Require Import Prelude Text Hash Store Machine MachineFacts MachineSpec MachineProps Programs AuthService AuthServiceProps Sessions Peers Http HttpProps Bus BusProps.

Module RemoteAccess.
Import Programs.

(** ** The server at work *)
Section Server.
Context (pair_request : list Z -> option (string * string)) (confirm_request login_request : list Z -> option string).
Context (recovery_key_json : string -> string).
Context (split_parse : string -> list (option (string * string))) (cookie_text : string -> string -> Z -> string).
Context (INDEX_HTML APP_JS APP_CSS : string).
Context (iter : gmap string Sessions.Session -> list (string * Sessions.Session)).
(** What the authentication service can answer to a password. *)
Context (verified : string -> unit + Peers.AuthFailure.t -> Prop).

Local Abbreviation router := (Http.router pair_request confirm_request login_request recovery_key_json split_parse cookie_text INDEX_HTML APP_JS APP_CSS).
Local Abbreviation session_cookie := (Http.session_cookie split_parse).
Local Abbreviation Event := (nat * Http.HttpRequest * event Http.Http)%type.

(** The table behind its lock, and the requests: a finished or abandoned one
    stays, as its answer. *)
Record World := { table : Sessions.Sessions; requests : gmap nat (Http.HttpRequest * prog Http.Http Http.Response) }.

(** The three operations on the table, at the time and with the random bytes
    of the call; the other calls leave it. *)
Definition effect (s : Sessions.Sessions) (c : Http.HttpCall) : Http.HttpReply c -> Sessions.Sessions -> Prop :=
  match c return Http.HttpReply c -> Sessions.Sessions -> Prop with
  | Http.CreateSession => fun reply s' => exists now random result,
      Sessions.create iter now random s = (result, s') /\ reply = match result with Ok id => Some id | _ => None end
  | Http.ValidateSession id => fun reply s' => exists now, Sessions.validate id now s = (reply, s')
  | Http.RemoveSession id => fun _ s' => s' = Sessions.remove id s
  | Http.VerifyPassword password => fun reply s' => verified password reply /\ s' = s
  | _ => fun _ s' => s' = s
  end.

(** A request arrives, makes a call, or is abandoned with its connection. *)
Inductive step (w : World) : option Event -> World -> Prop :=
  | step_request i r : requests w !! i = None ->
      step w None {| table := table w; requests := <[i := (r, router r)]> (requests w) |}
  | step_call i r c k (reply : Http.HttpReply c) s : requests w !! i = Some (r, Act (S:=Http.Http) c k) ->
      effect (table w) c reply s ->
      step w (Some (i, r, existT c reply)) {| table := s; requests := <[i := (r, k reply)]> (requests w) |}
  | step_abandon i r m response : requests w !! i = Some (r, m) ->
      step w None {| table := table w; requests := <[i := (r, Done response)]> (requests w) |}.

Definition start : World := {| table := Sessions.new; requests := ∅ |}.

Inductive reach : list Event -> World -> Prop :=
  | reach_start : reach [] start
  | reach_step l w e w' : reach l w -> step w e w' -> reach (l ++ match e with Some e => [e] | None => [] end) w'.

(** ** Each request by itself *)
Definition mine (i : nat) (l : list Event) : list (event Http.Http) :=
  omap (fun e : Event => if bool_decide (e.1.1 = i) then Some e.2 else None) l.

Lemma mine_app i l l' : mine i (l ++ l') = (mine i l ++ mine i l')%list.
Proof. apply omap_app. Qed.

Lemma mine_here i r e : mine i [(i, r, e)] = [e].
Proof. unfold mine. cbn. by rewrite bool_decide_true. Qed.

Lemma mine_other i j r e : i <> j -> mine i [(j, r, e)] = [].
Proof. intros Hne. unfold mine. cbn. by rewrite bool_decide_false. Qed.

Lemma mine_in i e l : e ∈ mine i l -> exists r, (i, r, e) ∈ l.
Proof.
  intros ([[j r] e'] & Hin & He)%list_elem_of_omap. cbn in He. case_bool_decide; [|done]. simplify_eq. by exists r.
Qed.

(** What a request may do, with its connection. *)
Definition allowed (r : Http.HttpRequest) (before : list (event Http.Http)) (c : Http.HttpCall) : Prop :=
  exists conn, Http.conn r = Some conn /\ HttpProps.justified split_parse r conn before c.

Lemma justly_weaken {S A} (P P' : list (event S) -> call S -> Prop) (m : prog S A) (Q Q' : list (event S) -> A -> Prop) :
  (forall t c, P t c -> P' t c) -> (forall t a, Q t a -> Q' t a) -> forall before, justly P before m Q -> justly P' before m Q'.
Proof.
  intros HP HQ. induction m as [a|c k IH]; intros before; simpl; [apply HQ|]. intros [H1 H2]. split; [by apply HP|]. auto.
Qed.

Lemma router_allowed r : justly (S:=Http.Http) (allowed r) [] (router r) (fun _ _ => True).
Proof.
  unfold Http.router. apply justly_bind. unfold Http.host_check. destruct (Http.conn r) as [conn|] eqn:Hc; [|done].
  destruct (Http.host_ok r conn); cbn [negb]; [|done].
  eapply justly_weaken; [| |exact (HttpProps.just_route pair_request confirm_request login_request recovery_key_json
    split_parse cookie_text INDEX_HTML APP_JS APP_CSS r conn [])]; [|done]. intros before c H. by exists conn.
Qed.

Record disciplined (l : list Event) (w : World) : Prop := {
  disciplined_new i : requests w !! i = None -> mine i l = [];
  disciplined_next i r m : requests w !! i = Some (r, m) -> justly (S:=Http.Http) (allowed r) (mine i l) m (fun _ _ => True);
  disciplined_past before i r c reply after : l = (before ++ (i, r, existT c reply) :: after)%list -> allowed r (mine i before) c
}.

Lemma reach_disciplined l w : reach l w -> disciplined l w.
Proof.
  induction 1 as [|l w e w' Hr [IHn IHp IHa] Hs]; [split; [done|by intros i r m|by intros [] *]|].
  destruct Hs as [i r Hi|i r c k reply s Hi He|i r m response Hi]; cbn [requests]; rewrite ?app_nil_r.
  - split; cbn [requests]; [|intros j r' m'|done].
    + intros j [Hj _]%lookup_insert_None. auto.
    + rewrite lookup_insert_Some. intros [[<- [= <- <-]]|[_ Hj]]; [|by apply IHp]. rewrite (IHn _ Hi). apply router_allowed.
  - destruct (IHp _ _ _ Hi) as [Hc Hk]. split; cbn [requests].
    + intros j [Hj Hne]%lookup_insert_None. rewrite mine_app, mine_other, (IHn _ Hj) by done. done.
    + intros j r' m'. rewrite lookup_insert_Some, mine_app. intros [[<- [= <- <-]]|[Hne Hj]].
      * rewrite mine_here. apply Hk.
      * rewrite mine_other, app_nil_r by done. by apply IHp.
    + intros before j r' c' reply' after Hl. apply snoc_split in Hl as [[-> He']|[after' ->]]; [|by eapply IHa].
      pose proof (f_equal (fun e : Event => e.1) He') as H1. pose proof (f_equal (fun e : Event => projT1 e.2) He') as H2.
      cbn in H1, H2. injection H1 as -> ->. by subst c'.
  - split; cbn [requests]; [|intros j r' m'|done].
    + intros j [Hj _]%lookup_insert_None. auto.
    + rewrite lookup_insert_Some. intros [[<- [= <- <-]]|[_ Hj]]; [done|by apply IHp].
Qed.
(** ** Where a session comes from *)
Definition kept (id : string) (l : list Event) : Prop := forall i r, (i, r, existT (Http.RemoveSession id) tt) ∉ l.

Definition created (id : string) (l : list Event) : Prop :=
  exists before j r after, l = (before ++ (j, r, existT Http.CreateSession (Some id)) :: after)%list /\ kept id after.

Lemma created_more id l e : created id l -> (forall i r, e <> (i, r, existT (Http.RemoveSession id) tt)) -> created id (l ++ [e]).
Proof.
  intros (before & j & r & after & -> & Hk) He. exists before, j, r, (after ++ [e])%list. split; [by rewrite <- app_assoc|].
  intros i r' [Hin|Hin%list_elem_of_singleton]%elem_of_app; [by destruct (Hk i r')|by destruct (He i r')].
Qed.

(** The event of another kind of call. *)
Lemma other_call {i r c reply} id : match c with Http.RemoveSession id' => id' <> id | _ => True end ->
  forall j r', ((i, r, existT c reply) : Event) <> (j, r', existT (Http.RemoveSession id) tt).
Proof.
  intros Hc j r' He. pose proof (f_equal (fun e : Event => projT1 e.2) He) as H. cbn in H. by subst c.
Qed.

(** No operation leaves the lock poisoned. *)
Lemma table_sound l w : reach l w -> Sessions.poisoned (table w) = false.
Proof.
  induction 1 as [|l w e w' Hr IH Hs]; [done|].
  destruct Hs as [i r Hi|i r c k reply s Hi He|i r m response Hi]; cbn [table]; [done| |done].
  destruct c as [limit|code password|key|password| |id'|id'| |line]; cbn [effect] in He; try (by subst).
  - by destruct He as [_ ->].
  - destruct He as (now & random & result & Hc & _). by apply Sessions.create_inv in Hc as [(t & bytes & _ & _ & _ & _ & ->)|[_ ->]].
  - destruct He as [now He]. unfold Sessions.validate in He. repeat case_match; by simplify_eq.
  - subst s. unfold Sessions.remove. by rewrite IH.
Qed.

Lemma table_created l w id : reach l w -> is_Some (Sessions.sessions (table w) !! id) -> created id l.
Proof.
  intros Hr. revert id. induction Hr as [|l w e w' Hr IH Hs]; intros id; [intros [s Hid]; cbn in Hid; by rewrite lookup_empty in Hid|].
  destruct Hs as [i r Hi|i r c k reply s Hi He|i r m response Hi]; cbn [table]; rewrite ?app_nil_r; [apply IH| |apply IH].
  assert (Hsame : s = table w -> match c with Http.RemoveSession id' => id' <> id | _ => True end ->
    is_Some (Sessions.sessions s !! id) -> created id (l ++ [(i, r, existT c reply)])).
  { intros -> Hc Hid. apply created_more; [by apply IH|by apply other_call]. }
  destruct c as [limit|code password|key|password| |id'|id'| |line]; cbn [effect] in He; try (by apply Hsame).
  - destruct He as [_ ->]. by apply Hsame.
  - destruct He as (now & random & result & Hc & Hreply). intros [session Hid].
    apply Sessions.create_inv in Hc as [(t & bytes & -> & -> & _ & -> & ->)|[-> ->]]; [|apply Hsame; [done|done|by exists session]].
    cbn in Hid. apply Sessions.admit_new_lookup in Hid as [[-> _]|(_ & Hid & _)].
    + subst reply. exists l, i, r, []. split; [done|]. by intros j r' ?%elem_of_nil.
    + apply created_more; [apply IH; by exists session|by apply other_call].
  - destruct He as [now He]. unfold Sessions.validate in He. repeat case_match; simplify_eq; try (by apply Hsame); cbn.
    + intros Hid. apply created_more; [|by apply other_call]. apply IH. destruct (decide (id = id')) as [->|Hne]; [by eexists|].
      by rewrite lookup_insert_ne in Hid.
    + intros Hid. apply created_more; [|by apply other_call]. apply IH. apply lookup_delete_is_Some in Hid. apply Hid.
  - subst s. unfold Sessions.remove. rewrite (table_sound _ _ Hr). cbn. intros [Hne Hid]%lookup_delete_is_Some.
    apply created_more; [by apply IH|by apply other_call].
Qed.

(** ** Being shown the status *)
Lemma mine_split i e l : e ∈ mine i l -> exists before r after, l = (before ++ (i, r, e) :: after)%list.
Proof. intros [r Hin]%mine_in. apply list_elem_of_split in Hin as (before & after & ->). by exists before, r, after. Qed.

(** The state an event of the record happened in. *)
Lemma reach_event l w : reach l w -> forall before e after, l = (before ++ e :: after)%list ->
  exists w1 w2, reach before w1 /\ step w1 (Some e) w2.
Proof.
  induction 1 as [|l w e w' Hr IH Hs]; intros before e' after Hl; [by destruct before|].
  destruct e as [e|]; [|rewrite app_nil_r in Hl; by eapply IH].
  apply snoc_split in Hl as [[-> ->]|[after' ->]]; [by exists w, w'|by eapply IH].
Qed.

Lemma step_effect w1 i r e w2 : step w1 (Some (i, r, e)) w2 -> effect (table w1) (projT1 e) (projT2 e) (table w2).
Proof. intros Hs. inversion Hs; subst. done. Qed.

(** The requests do not change. *)
Lemma reach_requests l w : reach l w -> forall i r e, (i, r, e) ∈ l -> exists m, requests w !! i = Some (r, m).
Proof.
  induction 1 as [|l w e w' Hr IH Hs]; intros j r' e' Hin; [by apply elem_of_nil in Hin|].
  apply elem_of_app in Hin as [Hin|Hin].
  - destruct (IH _ _ _ Hin) as [m Hm]. destruct Hs as [i r Hi|i r c k reply s Hi He|i r m' response Hi]; cbn [requests];
      (destruct (decide (i = j)) as [->|Hne]; [rewrite lookup_insert_eq|rewrite lookup_insert_ne by done; by exists m]);
      rewrite Hm in Hi; simplify_eq; by eexists.
  - destruct Hs as [i r Hi|i r c k reply s Hi He|i r m' response Hi]; try by apply elem_of_nil in Hin.
    apply list_elem_of_singleton in Hin. simplify_eq. cbn [requests]. rewrite lookup_insert_eq. by eexists.
Qed.

Lemma same_request l w i r r' e e' : reach l w -> (i, r, e) ∈ l -> (i, r', e') ∈ l -> r = r'.
Proof.
  intros Hr [m Hm]%(reach_requests _ _ Hr) [m' Hm']%(reach_requests _ _ Hr). by simplify_eq.
Qed.

Lemma session_from_login l w id : reach l w -> forall before j r after,
  l = (before ++ (j, r, existT Http.CreateSession (Some id)) :: after)%list ->
  exists password, (j, r, existT (Http.VerifyPassword password) (inl tt)) ∈ before /\ verified password (inl tt).
Proof.
  intros Hr before j r after Hl. pose proof (disciplined_past _ _ (reach_disciplined _ _ Hr) _ _ _ _ _ _ Hl) as (conn & _ & password & Hp).
  apply mine_split in Hp as (b & r' & a & ->). exists password.
  assert (r' = r) as ->.
  { apply (same_request l w j r' r (existT (Http.VerifyPassword password) (inl tt)) (existT Http.CreateSession (Some id)) Hr);
      rewrite Hl; set_solver. }
  split; [set_solver|].
  rewrite <- app_assoc in Hl. cbn [app] in Hl. destruct (reach_event _ _ Hr _ _ _ Hl) as (w1 & w2 & _ & Hs).
  apply step_effect in Hs. apply Hs.
Qed.

Lemma status_from_login l w : reach l w -> forall before i r status after,
  l = (before ++ (i, r, existT Http.GetStatus status) :: after)%list ->
  exists id, session_cookie (Http.headers r) = Some id /\
  exists b1 j r' b2 b3,
    before = (b1 ++ (j, r', existT Http.CreateSession (Some id)) :: b2 ++ (i, r, existT (Http.ValidateSession id) true) :: b3)%list /\
    kept id b2 /\
    exists password, (j, r', existT (Http.VerifyPassword password) (inl tt)) ∈ b1 /\ verified password (inl tt).
Proof.
  intros Hr before i r status after Hl.
  pose proof (disciplined_past _ _ (reach_disciplined _ _ Hr) _ _ _ _ _ _ Hl) as (conn & _ & id & Hcookie & Hv).
  exists id. split; [exact Hcookie|]. apply mine_split in Hv as (b & r1 & b3 & ->).
  assert (r1 = r) as ->.
  { apply (same_request l w i r1 r (existT (Http.ValidateSession id) true) (existT Http.GetStatus status) Hr);
      rewrite Hl; set_solver. }
  pose proof Hl as Hl'. rewrite <- app_assoc in Hl'. cbn [app] in Hl'.
  destruct (reach_event _ _ Hr _ _ _ Hl') as (w1 & w2 & Hr1 & Hs). apply step_effect in Hs as [now Hs].
  assert (is_Some (Sessions.sessions (table w1) !! id)) as Hid.
  { unfold Sessions.validate in Hs. repeat case_match; simplify_eq; by eexists. }
  destruct (table_created _ _ _ Hr1 Hid) as (b1 & j & r' & b2 & -> & Hk).
  exists b1, j, r', b2, b3. split; [by rewrite <- app_assoc|]. split; [exact Hk|].
  rewrite <- app_assoc in Hl'. cbn [app] in Hl'. by eapply session_from_login.
Qed.
End Server.

(** ** What the service answers, and why *)
Import Hash Store Machine MachineFacts MachineSpec MachineProps AuthServiceProps BusProps Wire Interfaces Callers Programs.

Section Chain.
Context {D : Type} `{StoreLaws D} `{HR : Hasher} (env : Env).
Context {HL : HasherLaws store_valid_hash} {EL : EnvLaws env}.

(** A reply on the bus is that of a request the service performed: the
    message reaches it, and its operation is in the record of the service. *)
Definition answered (served : list (nat * event AuthService.Auth)) (m : Message) (reply : option (list Value + Failed)) : Prop :=
  match reply with
  | Some (inl body) => exists i method arguments request t v,
      delivered m = Some (authd, Handler method arguments) /\ auth_request method arguments = Some request /\
      runs (AuthService.serve request) t (Ok v) /\
      Forall (fun e => match projT1 e with AuthService.WithCore _ => (i, e) ∈ served | _ => True end) t /\
      body = reply_body v
  | _ => True
  end.

(** [BusAuth::verify_password] over that bus *)
Definition verified_by (served : list (nat * event AuthService.Auth)) (password : string)
    (reply : unit + Peers.AuthFailure.t) : Prop :=
  exists t (outcome : Peers.Outcome unit), runs (Callers.call (Remoted.verify_password password)) t outcome /\
    reply = Peers.auth_call outcome /\
    forall m r, (existT (CallMethod m) r : event Bus) ∈ t -> answered served m r.

Lemma verified_performed served password : verified_by served password (inl tt) ->
  exists uid v, (VerifyPassword uid password, Ok v) ∈ performed served.
Proof.
  intros (t & outcome & Hrun & Hreply & Hbus).
  destruct Hrun as ([[[]|f]|] & t1 & -> & Hrun); [|by destruct Hrun as [_ ->]; destruct f|by destruct Hrun as [_ ->]].
  destruct Hrun as (r & t2 & -> & [-> ->]). specialize (Hbus _ r (list_elem_of_further _ _ _ (list_elem_of_here _ _))).
  destruct r as [[body|f]|]; [|by destruct f|done].
  destruct Hbus as (i & method & arguments & request & ts & v & Hd & Hr & Hs & Hin & ->).
  assert (request = AuthService.CallVerifyPassword password) as ->.
  { vm_compute in Hd. injection Hd as <- <-. vm_compute in Hr. by injection Hr as <-. }
  apply serve_runs in Hs as (o & [uid ->] & Ho). exists uid, v. rewrite Forall_forall in Hin. apply Hin in Ho.
  apply list_elem_of_omap. by exists (i, existT (AuthService.WithCore (VerifyPassword uid password)) (Ok v)).
Qed.

Lemma run_all_split ops c trace c' before op r after : run_all env ops c = (trace, c') -> trace = (before ++ (op, r) :: after)%list ->
  exists ops1 c1 c2, run_all env ops1 c = (before, c1) /\ run_op env op c1 = (r, c2).
Proof.
  revert c trace before. induction ops as [|o ops IH]; intros c trace before Hrun ->; cbn [run_all] in Hrun; [by destruct before|].
  destruct (run_op env o c) as [r1 c1] eqn:Ho. destruct (run_all env ops c1) as [trace1 c2] eqn:Ha.
  destruct before as [|e before]; simplify_eq/=; [by exists [], c, c1|].
  destruct (IH _ _ before Ha eq_refl) as (ops1 & d1 & d2 & Hops & Hop). exists (o :: ops1), d1, d2. cbn [run_all]. by rewrite Ho, Hops.
Qed.

(** The credential that was verified, and where it came from. *)
Definition enrolled_by (trace : list (Op * res Reply Failure)) (password : string) : Prop :=
  exists before uid after ph rh, trace = (before ++ (VerifyPassword uid password, Ok MachineSpec.Done) :: after)%list /\
    hasher_verify (bytes_of password) ph = Ok true /\ provenance before (AEnrolled ph rh).

Lemma verified_enrolled d served w uid password v :
  (forall ph rh, loaded d <> AEnrolled ph rh) -> (forall ph rh dl, loaded d <> AUnconfirmed ph rh dl) ->
  AuthService.reach env (open env d) served w -> (VerifyPassword uid password, Ok v) ∈ performed served ->
  enrolled_by (performed served) password.
Proof.
  intros He Hu Hr Hin. destruct (open_starts env d) as [W Ha].
  destruct (reach_sequential env _ _ _ W Hr) as (_ & _ & Hrun).
  apply list_elem_of_split in Hin as (before & after & Hl).
  destruct (run_all_split _ _ _ _ _ _ _ _ Hrun Hl) as (ops1 & c1 & c2 & Hrun1 & Hop).
  assert (Hp : provenance [] (auth (open env d))).
  { destruct Ha as [Ha| ->]; [|done]. apply (provenance_norm [] _ _ Ha). destruct (loaded d) eqn:El; try done.
    - by edestruct Hu. - by edestruct He. }
  destruct (run_all_provenance env _ [] _ _ _ W Hp Hrun1) as [W1 Hp1]. cbn [app] in Hp1.
  destruct (run_refines env _ _ _ _ W1 Hop) as (_ & _ & a & Hn & Heff).
  inversion Heff; subst. exists before, uid, after, ph, rh. split_and!; [exact Hl|done|]. by apply (provenance_norm before) in Hn.
Qed.

(** C3. Who is shown the status.  Let the remote server and the
    authentication service run, with any requests in flight, over a state
    that held no enrollment.  Whenever the server asks for the status to
    answer a request, the request's cookie names a session that was accepted
    for it; the session was created earlier, and not removed before it was
    accepted, for a login whose password went over the bus to the service;
    and the service verified that password against the enrolled hash, which
    a pairing or a recovery set, after the pairing's recovery key was
    confirmed. *)
Theorem status_needs_the_password pair_request confirm_request login_request recovery_key_json split_parse cookie_text
    INDEX_HTML APP_JS APP_CSS iter d served ws l w :
  (forall ph rh, loaded d <> AEnrolled ph rh) -> (forall ph rh dl, loaded d <> AUnconfirmed ph rh dl) ->
  AuthService.reach env (open env d) served ws ->
  reach pair_request confirm_request login_request recovery_key_json split_parse cookie_text INDEX_HTML APP_JS APP_CSS
    iter (verified_by served) l w ->
  forall before i r status after, l = (before ++ (i, r, existT Http.GetStatus status) :: after)%list ->
  exists id, Http.session_cookie split_parse (Http.headers r) = Some id /\
  exists b1 j r' b2 b3,
    before = (b1 ++ (j, r', existT Http.CreateSession (Some id)) :: b2 ++ (i, r, existT (Http.ValidateSession id) true) :: b3)%list /\
    kept id b2 /\
    exists password, (j, r', existT (Http.VerifyPassword password) (inl tt)) ∈ b1 /\
      enrolled_by (performed served) password.
Proof.
  intros He Hu Hs Hr before i r status after Hl.
  destruct (status_from_login _ _ _ _ _ _ _ _ _ _ _ _ _ Hr _ _ _ _ _ Hl)
    as (id & Hc & b1 & j & r' & b2 & b3 & Hb & Hk & password & Hin & (uid & v & Hv)%verified_performed).
  exists id. split; [exact Hc|]. exists b1, j, r', b2, b3. split_and!; [exact Hb|exact Hk|].
  exists password. split; [exact Hin|]. by eapply verified_enrolled.
Qed.
End Chain.
End RemoteAccess.
