(* ===== verification/RemoteAccessExamples.v ===== *)
(** * The authentication service, the bus and the remote API at work *)
From S2P Require Import Prelude Hash Store Machine MachineFacts MachineSpec MachineProps MachineExamples Programs AuthService AuthServiceProps.

(** ** Six clients of the authentication service at once *)
Module AuthServiceExamples.
Import Hash Store Machine MachineFacts MachineSpec MachineProps MachineExamples Programs AuthService AuthServiceProps.
#[local] Existing Instance toy_store.
#[local] Existing Instance toy_hasher.
#[local] Existing Instance toy_store_laws.
#[local] Existing Instance toy_hasher_laws.
#[local] Existing Instance toy_env_laws.

#[local] Abbreviation World := (World (D:=Fs)).

(** The next call of request [i]; every sender is known. *)
Definition answer (s : Shared (D:=Fs)) (c : AuthCall) : AuthReply c * Shared :=
  match c return AuthReply c * Shared with
  | Admit => fetch_admit s
  | DropPermit => (tt, drop_permit s)
  | SenderUid => (Some 1000, s)
  | WithCore o => with_core toy_env o s
  | Log _ => (tt, s)
  end.

Lemma answer_effect s c : effect toy_env s c (answer s c).1 (answer s c).2.
Proof.
  destruct c; simpl; try done; [by destruct (fetch_admit s)|by destruct (with_core toy_env _ s)].
Qed.

Definition move (i : nat) (w : World) : option (event Auth * World) :=
  match pool w !! i with
  | Some (Act c k) =>
      let a := answer (shared w) c in
      Some (existT c a.1, {| shared := a.2; pool := <[i := k a.1]> (pool w) |})
  | _ => None
  end.

Lemma move_reach c l w i e w' : reach toy_env c l w -> move i w = Some (e, w') -> reach toy_env c (l ++ [(i, e)]) w'.
Proof.
  intros Hr. unfold move. destruct (pool w !! i) as [[|call k]|] eqn:Hi; [done| |done]. intros [= <- <-].
  apply (reach_step _ _ _ _ (Some (i, existT call (answer (shared w) call).1)) _ Hr).
  constructor; [done|apply answer_effect].
Qed.

Fixpoint moves (order : list nat) (l : list (nat * event Auth)) (w : World) : option (list (nat * event Auth) * World) :=
  match order with
  | [] => Some (l, w)
  | i :: order => '(e, w') ← move i w; moves order (l ++ [(i, e)]) w'
  end.

Lemma moves_reach c order : forall l w l' w', reach toy_env c l w -> moves order l w = Some (l', w') -> reach toy_env c l' w'.
Proof.
  induction order as [|i order IH]; intros l w l' w' Hr; simpl; [by intros [= <- <-]|].
  destruct (move i w) as [[e w1]|] eqn:Hm; [|done]. cbn. apply IH. by eapply move_reach.
Qed.

Definition recorded (order : list nat) (w : World) : list (nat * event Auth) :=
  match moves order [] w with Some (l, _) => l | None => [] end.
Definition moved (order : list nat) (w : World) : World := match moves order [] w with Some (_, w) => w | None => w end.

Definition completes (order : list nat) (w : World) : bool := match moves order [] w with Some _ => true | None => false end.

Lemma moved_reach c order w : reach toy_env c [] w -> completes order w = true ->
  reach toy_env c (recorded order w) (moved order w).
Proof.
  unfold completes, recorded, moved. intros Hr. destruct (moves order [] w) as [[l w']|] eqn:Hm; [|done].
  intros _. by eapply moves_reach.
Qed.

Definition enrolled : Core Fs := after enrolled_ops.

(** The clients [0] to [5] ask to verify a password. *)
Fixpoint arrived (n : nat) (w : World) : World :=
  match n with
  | O => w
  | S n => {| shared := shared (arrived n w);
              pool := <[n := serve (CallVerifyPassword "wrong")]> (pool (arrived n w)) |}
  end.

Lemma request_reach c l w n : (forall m, (m < n)%nat -> pool w !! m = None) -> reach toy_env c l w ->
  reach toy_env c l (arrived n w) /\ forall m, (n <= m)%nat -> pool (arrived n w) !! m = pool w !! m.
Proof.
  intros Hw Hr. induction n as [|n IH]; [done|]. destruct IH as [IH1 IH2]; [intros m Hm; apply Hw; lia|]. split.
  - rewrite <- (app_nil_r l). apply (reach_step _ _ _ _ None _ IH1). constructor. rewrite IH2, Hw by lia. done.
  - intros m Hm. simpl. rewrite lookup_insert_ne by lia. apply IH2. lia.
Qed.

(** All are admitted that can be; the sender of [0] is looked up and its
    password is verified. *)
Definition order : list nat := [0; 1; 2; 3; 4; 5; 5; 0; 0]%nat.
Definition crowd : list (nat * event Auth) := recorded order (arrived 6 (start enrolled)).
Definition crowded : World := moved order (arrived 6 (start enrolled)).

Lemma crowded_reach : reach toy_env enrolled crowd crowded.
Proof.
  apply moved_reach; [apply request_reach; [done|apply reach_start]|]. vm_compute. reflexivity.
Qed.

Example crowded_state :
  admitted (shared crowded) = 5%nat /\ performed crowd = [(VerifyPassword 1000 "wrong", Err InvalidCredential)] /\
  (match pool crowded !! 5%nat with Some (Programs.Done r) => Some r | _ => None end) = Some (Err (to_dbus Busy)).
Proof. vm_compute. done. Qed.

Lemma requests_are_ordered_witness : admitted (shared crowded) = 5%nat /\
  admitted (shared crowded) = size (holders crowd) /\ (size (holders crowd) <= MAX_ADMITTED)%nat /\
  (forall before i call r after, crowd = (before ++ (i, existT call r) :: after)%list -> hashes call = true -> i ∈ holders before) /\
  (forall i r, pool crowded !! i = Some (Programs.Done r) -> i ∉ holders crowd) /\
  poisoned (shared crowded) = false /\ run_all toy_env (map fst (performed crowd)) enrolled = (performed crowd, core (shared crowded)).
Proof.
  split; [exact (proj1 crowded_state)|].
  apply (requests_are_ordered toy_env enrolled crowd crowded); [exact (after_wf enrolled_ops)|exact crowded_reach].
Defined.
End AuthServiceExamples.

From S2P Require Import Prelude Text IpAddr Network Programs Controller Server Sessions Peers Http HttpProps.

(** ** A login over the remote API *)
Module HttpExamples.
Import Text IpAddr Network Programs Controller Server Peers Http HttpProps.

(** One cookie to a header, its name up to the first [=]; the text of a
    cookie without attributes. *)
Definition toy_split (s : string) : list (option (string * string)) :=
  match String.index 0 "=" s with
  | Some n => [Some (substring 0 n s, substring (n + 1) (String.length s) s)]
  | None => [None]
  end.
Definition toy_cookie (name value : string) (max_age : Z) : string := name +:+ "=" +:+ value.
Definition toy_password (body : list Z) : option string := Some (string_of body).
Definition toy_pair (body : list Z) : option (string * string) := None.

Definition toy_router : HttpRequest -> prog Http Response :=
  router toy_pair toy_password toy_password id toy_split toy_cookie "index" "js" "css".

Definition browser : SocketAddr := (V4 3232235786, 50000).
Definition appliance : SocketAddr := (V4 3232235777, 8443).
Definition here : ConnInfo := {| Server.local := appliance; peer := browser |}.

Definition sent (m : Method) (p : string) (host origin : string) : HttpRequest := {|
  method := m; path := p; authority := None; conn := Some here;
  headers := [("host", bytes_of host); ("origin", bytes_of origin); ("content-type", bytes_of "application/json");
              ("cookie", bytes_of "__Host-sl_session=abc")]%string
|}.

Definition login_request : HttpRequest := sent POST "/api/v1/login" "192.168.1.1:8443" "https://192.168.1.1:8443".

(** The peers say yes. *)
Definition yes (n : nat) (c : HttpCall) : HttpReply c :=
  match c with
  | ReadBody _ => Some (bytes_of "a long password")
  | ConsumePairing _ _ => inl "key"%string
  | ConfirmRecoveryKey _ | VerifyPassword _ => inl tt
  | CreateSession => Some "0123"%string
  | ValidateSession _ => true
  | RemoveSession _ | Log _ => tt
  | GetStatus => Some "{}"%string
  end.

Definition ran (r : HttpRequest) : list (event Http) * Response := exec (S:=Http) yes 0 (toy_router r).

Example login_calls : map (fun e : event Http => projT1 e) (ran login_request).1 =
  [ReadBody 4096; VerifyPassword "a long password"; CreateSession; Log "sl-remoted: login from 192.168.1.10: ok"]%string /\
  status (ran login_request).2 = 204.
Proof. vm_compute. done. Qed.

Example status_calls : map (fun e : event Http => projT1 e) (ran (sent GET "/api/v1/status" "192.168.1.1:8443" "null")).1 =
  [ValidateSession "abc"; GetStatus]%string.
Proof. vm_compute. done. Qed.

Example rebound : ran (sent GET "/" "evil.example:8443" "") = ([], with_security_headers (error 421 "misdirected")).
Proof. vm_compute. done. Qed.

Example cross_site : map (fun e : event Http => projT1 e) (ran (sent POST "/api/v1/login" "192.168.1.1:8443" "https://evil.example")).1 =
  [Log "sl-remoted: login from 192.168.1.10: forbidden_origin"]%string.
Proof. vm_compute. done. Qed.

(** The login above is a run, so what is promised of runs holds of it. *)
Lemma remote_api_guarded_witness :
  runs (toy_router login_request) (ran login_request).1 (ran login_request).2 /\
  cookies_issued toy_cookie (ran login_request).1 (ran login_request).2.
Proof.
  pose proof (exec_runs (S:=Http) yes (toy_router login_request) 0) as Hr. split; [exact Hr|].
  exact (proj1 (proj2 (remote_api_guarded toy_pair toy_password toy_password id toy_split toy_cookie "index" "js" "css" _ _ _ Hr))).
Defined.
End HttpExamples.

From S2P Require Import Prelude Hash Store Machine MachineSpec MachineProps MachineExamples Programs Startup AuthService Peers Bus BusProps.

(** ** A password over the bus *)
Module BusExamples.
Import Hash Store Machine MachineSpec MachineExamples Programs Wire Interfaces Callers BusProps.
#[local] Existing Instance toy_store.
#[local] Existing Instance toy_hasher.

Definition answer (_ : nat) (c : AuthService.AuthCall) : AuthService.AuthReply c :=
  match c return AuthService.AuthReply c with
  | AuthService.Admit => true
  | AuthService.DropPermit | AuthService.Log _ => tt
  | AuthService.SenderUid => Some 1000
  | AuthService.WithCore _ => Ok MachineSpec.Done
  end.

Definition asked : AuthService.Request := AuthService.CallVerifyPassword toy_password.
Definition ran := exec (S:=AuthService.Auth) answer 0 (AuthService.serve asked).

Definition before : AuthService.Shared (D:=Fs) :=
  {| AuthService.core := AuthServiceExamples.enrolled; AuthService.poisoned := false; AuthService.admitted := 1 |}.

Example verified : (AuthService.with_core toy_env (VerifyPassword 1000 toy_password) before).1 = Ok MachineSpec.Done.
Proof. vm_compute. reflexivity. Qed.

(** One argument less, one more, or of another type: refused. *)
Example refused : map (served_by_auth "ConsumePairing")
  [[]; [VString "a"]; [VString "a"; VBool true]; [VString "a"; VString "b"; VString "c"]] = replicate 4 None /\
  served_by_auth "GetEnrollmentState" [VString "a"] = None /\ served_by_auth "Introspect" [] = None.
Proof. vm_compute. done. Qed.

End BusExamples.

From S2P Require Import Prelude Text IpAddr Hash Store Machine MachineFacts MachineSpec MachineProps MachineExamples Programs AuthService AuthServiceProps Sessions Server Peers Http Bus BusProps RemoteAccess.

(** ** A login, and the status it leads to *)
Module RemoteAccessExamples.
Import Hash Store Machine MachineFacts MachineSpec MachineProps MachineExamples AuthServiceProps AuthServiceExamples Wire Interfaces Callers RemoteAccess Programs.
#[local] Existing Instance toy_argon2.
#[local] Existing Instance binary_json.
#[local] Existing Instance toy_store.
#[local] Existing Instance toy_hasher.
#[local] Existing Instance toy_store_laws.
#[local] Existing Instance toy_hasher_laws.
#[local] Existing Instance toy_env_laws.

(** ** The service: a pairing, its consumption, its confirmation, a password *)
Definition asked : list AuthService.Request :=
  [AuthService.CallEnsurePendingPairing; AuthService.CallConsumePairing toy_code MachineExamples.toy_password;
   AuthService.CallConfirmRecoveryKey toy_key; AuthService.CallVerifyPassword MachineExamples.toy_password].

Fixpoint submitted (n : nat) : AuthService.World (D:=Fs) :=
  match n with
  | O => AuthService.start toy_start
  | S n => {| AuthService.shared := AuthService.shared (submitted n);
              AuthService.pool := <[n := AuthService.serve (nth n asked AuthService.CallGetEnrollmentState)]> (AuthService.pool (submitted n)) |}
  end.

Lemma submitted_reach n : AuthService.reach toy_env toy_start [] (submitted n) /\
  forall m, (n <= m)%nat -> AuthService.pool (submitted n) !! m = None.
Proof.
  induction n as [|n [IH1 IH2]]; [by split; [constructor|]|]. split.
  - rewrite <- (app_nil_r []). apply (AuthService.reach_step _ _ _ _ None _ IH1). constructor. by apply IH2.
  - intros m Hm. simpl. rewrite lookup_insert_ne by lia. apply IH2. lia.
Qed.

(** Each request to its end, one after the other. *)
Definition order : list nat := [0; 0; 1; 1; 1; 1; 2; 2; 2; 2; 3; 3; 3; 3; 3]%nat.
Definition served : list (nat * event AuthService.Auth) := Eval vm_compute in recorded order (submitted 4).

Lemma served_reach : AuthService.reach toy_env toy_start served (moved order (submitted 4)).
Proof.
  change served with (recorded order (submitted 4)). apply moved_reach; [apply submitted_reach|]. vm_compute. reflexivity.
Qed.

Example served_operations : performed served =
  [(EnsurePendingPairing, Ok MachineSpec.Done); (ConsumePairing toy_code MachineExamples.toy_password, Ok (RecoveryKey toy_key));
   (ConfirmRecoveryKey toy_key, Ok MachineSpec.Done); (VerifyPassword 1000 MachineExamples.toy_password, Ok MachineSpec.Done)].
Proof. vm_compute. reflexivity. Qed.

(** ** The bus: its reply is the service's *)
Definition service_answer (_ : nat) (c : AuthService.AuthCall) : AuthService.AuthReply c :=
  match c return AuthService.AuthReply c with
  | AuthService.Admit => true
  | AuthService.DropPermit | AuthService.Log _ => tt
  | AuthService.SenderUid => Some 1000
  | AuthService.WithCore _ => Ok MachineSpec.Done
  end.

Lemma password_verified : verified_by served MachineExamples.toy_password (inl tt).
Proof.
  set (site := Remoted.verify_password MachineExamples.toy_password).
  exists [existT (NewProxy (bus site) (path site) (interface site)) (Some (inl tt));
          existT (CallMethod (message site)) (Some (inl []))], (Peers.Replied tt).
  split.
  { exists (Some (inl tt)), [existT (CallMethod (message site)) (Some (inl []))]. split; [reflexivity|]. by exists (Some (inl [])), []. }
  split; [done|].
  intros m r H. apply elem_of_cons in H as [Hin|Hin%list_elem_of_singleton]; [discriminate (f_equal (@projT1 _ _) Hin)|].
  assert (m = message site) as -> by (pose proof (f_equal (@projT1 _ _) Hin) as Hm; by injection Hm).
  destruct r as [[body|f]|]; [|done..]. assert (body = []) as ->.
  { pose proof (f_equal (fun e : event Bus => match e with existT (CallMethod _) r => r | _ => None end) Hin) as Hr. by injection Hr. }
  exists 3%nat. eexists _, _, (AuthService.CallVerifyPassword MachineExamples.toy_password).
  set (ran := exec (S:=AuthService.Auth) service_answer 0 (AuthService.serve (AuthService.CallVerifyPassword MachineExamples.toy_password))).
  exists ran.1, MachineSpec.Done. split_and!; [reflexivity|reflexivity| | |reflexivity].
  - assert (ran.2 = Ok MachineSpec.Done) as <- by (vm_compute; reflexivity). apply exec_runs.
  - vm_compute. repeat constructor.
Qed.

(** ** The remote server *)
Definition session_id : string := Eval vm_compute in string_of (hex_of lower_digit (Sessions.sample_id 1)).

Definition status_request : Http.HttpRequest := {|
  Http.method := Http.GET; Http.path := "/api/v1/status"; Http.authority := None; Http.conn := Some HttpExamples.here;
  Http.headers := [("host", bytes_of "192.168.1.1:8443"); ("cookie", bytes_of ("__Host-sl_session=" +:+ session_id))]%string
|}.

Definition verdict (password : string) : unit + Peers.AuthFailure.t :=
  if String.eqb password MachineExamples.toy_password then inl tt else inr Peers.AuthFailure.InvalidCredential.

(** The clock stands, and the random source gives the same bytes. *)
Definition http_answer (s : Sessions.Sessions) (c : Http.HttpCall) : Http.HttpReply c * Sessions.Sessions :=
  match c return Http.HttpReply c * Sessions.Sessions with
  | Http.ReadBody _ => (Some (bytes_of MachineExamples.toy_password), s)
  | Http.ConsumePairing _ _ => (inr Peers.AuthFailure.Unavailable, s)
  | Http.ConfirmRecoveryKey _ => (inr Peers.AuthFailure.Unavailable, s)
  | Http.VerifyPassword _ => (inl tt, s)
  | Http.CreateSession =>
      let (r, s') := Sessions.create map_to_list (Some 5) (Some (Sessions.sample_id 1)) s in
      (match r with Ok id => Some id | _ => None end, s')
  | Http.ValidateSession id => Sessions.validate id (Some 6) s
  | Http.RemoveSession id => (tt, Sessions.remove id s)
  | Http.Log _ => (tt, s)
  | Http.GetStatus => (Some "{}"%string, s)
  end.

Definition verified := verified_by served.
Local Abbreviation toy_reach := (reach HttpExamples.toy_pair HttpExamples.toy_password HttpExamples.toy_password id HttpExamples.toy_split HttpExamples.toy_cookie
  "index" "js" "css" map_to_list verified).

Definition password_call (c : Http.HttpCall) : bool :=
  match c with Http.VerifyPassword p => String.eqb p MachineExamples.toy_password | _ => true end.

Lemma http_effect s c : password_call c = true -> effect map_to_list verified s c (http_answer s c).1 (http_answer s c).2.
Proof.
  destruct c; cbn [password_call]; intros Hp; cbn [effect http_answer]; try done.
  - apply String.eqb_eq in Hp as ->. split; [exact password_verified|done].
  - exists (Some 5), (Some (Sessions.sample_id 1)). destruct (Sessions.create map_to_list (Some 5) (Some (Sessions.sample_id 1)) s) as [r s'] eqn:E.
    by exists r.
  - exists (Some 6). by destruct (Sessions.validate id (Some 6) s).
Qed.

(** The next call of request [i]. *)
Definition next (i : nat) (w : World) : option ((nat * Http.HttpRequest * event Http.Http) * World) :=
  match requests w !! i with
  | Some (r, Act c k) =>
      if password_call c then
        let a := http_answer (table w) c in
        Some ((i, r, existT c a.1), {| table := a.2; requests := <[i := (r, k a.1)]> (requests w) |})
      else None
  | _ => None
  end.

Fixpoint follow (order : list nat) (w : World) : option (list (nat * Http.HttpRequest * event Http.Http) * World) :=
  match order with
  | [] => Some ([], w)
  | i :: order => '(e, w) ← next i w; '(l, w) ← follow order w; Some (e :: l, w)
  end.

Lemma follow_reach order : forall l w l' w', toy_reach l w -> follow order w = Some (l', w') -> toy_reach (l ++ l') w'.
Proof.
  induction order as [|i order IH]; intros l w l' w' Hr; simpl; [intros [= <- <-]; by rewrite app_nil_r|].
  unfold next. destruct (requests w !! i) as [[r [|c k]]|] eqn:Hi; [done| |done].
  destruct (password_call c) eqn:Hc; [|done]. cbn [mbind option_bind].
  match goal with |- context [follow order ?w1] => set (w1' := w1) end.
  destruct (follow order w1') as [[l1 w2]|] eqn:Hf; [|done]. cbn [mbind option_bind]. intros [= <- <-].
  rewrite cons_middle, app_assoc. apply (IH _ w1'); [|exact Hf].
  apply (reach_step _ _ _ _ _ _ _ _ _ _ _ l w (Some (i, r, existT c (http_answer (table w) c).1)) w1' Hr).
  constructor; [exact Hi|by apply http_effect].
Qed.

Definition toy_router := HttpExamples.toy_router.
Definition arriving (i : nat) (r : Http.HttpRequest) (w : World) : World :=
  {| table := table w; requests := <[i := (r, toy_router r)]> (requests w) |}.
Definition arrived : World := arriving 1 status_request (arriving 0 HttpExamples.login_request start).

Lemma arriving_reach i r l w : requests w !! i = None -> toy_reach l w -> toy_reach l (arriving i r w).
Proof.
  intros Hi Hr. rewrite <- (app_nil_r l). refine (reach_step _ _ _ _ _ _ _ _ _ _ _ l w None _ Hr _). by constructor.
Qed.

Lemma requests_reach : toy_reach [] arrived.
Proof. repeat (apply arriving_reach; [reflexivity|]). apply reach_start. Qed.

(** The login, and then the status. *)
Definition http_order : list nat := [0; 0; 0; 0; 1; 1]%nat.
Definition http_run := match follow http_order arrived with Some run => run | None => ([], arrived) end.

Lemma http_reach : toy_reach http_run.1 http_run.2.
Proof.
  assert (follow http_order arrived = Some http_run) as H.
  { unfold http_run. destruct (follow http_order arrived) eqn:E; [done|]. vm_compute in E. discriminate E. }
  destruct http_run as [l w]. exact (follow_reach _ [] _ _ _ requests_reach H).
Qed.

Example http_calls : map (fun e => (e.1.1, projT1 e.2)) http_run.1 =
  [(0%nat, Http.ReadBody 4096); (0%nat, Http.VerifyPassword MachineExamples.toy_password); (0%nat, Http.CreateSession);
   (0%nat, Http.Log "sl-remoted: login from 192.168.1.10: ok");
   (1%nat, Http.ValidateSession session_id); (1%nat, Http.GetStatus)].
Proof. vm_compute. reflexivity. Qed.

Lemma shown : exists before, http_run.1 = (before ++ [(1%nat, status_request, existT Http.GetStatus (Some "{}"%string))])%list.
Proof. exists (take 5 http_run.1). vm_compute. reflexivity. Qed.

Lemma not_enrolled : (forall ph rh, loaded {| disk := toy_disk; past := [] |} <> AEnrolled ph rh) /\
  (forall ph rh dl, loaded {| disk := toy_disk; past := [] |} <> AUnconfirmed ph rh dl).
Proof.
  assert (loaded {| disk := toy_disk; past := [] |} = AUnenrolled false) as -> by (vm_compute; reflexivity). done.
Qed.

Lemma status_needs_the_password_witness : exists id,
  Http.session_cookie HttpExamples.toy_split (Http.headers status_request) = Some id /\
  exists password, enrolled_by (performed served) password.
Proof.
  destruct shown as [before Hb].
  destruct (status_needs_the_password toy_env HttpExamples.toy_pair HttpExamples.toy_password HttpExamples.toy_password id
    HttpExamples.toy_split HttpExamples.toy_cookie "index" "js" "css" map_to_list {| disk := toy_disk; past := [] |} served
    (moved order (submitted 4)) http_run.1 http_run.2 (proj1 not_enrolled) (proj2 not_enrolled)
    served_reach http_reach before 1%nat status_request (Some "{}"%string) [] Hb)
    as (session & Hc & b1 & j & r' & b2 & b3 & _ & _ & password & _ & Hp).
  exists session. split; [exact Hc|]. by exists password.
Defined.
End RemoteAccessExamples.
