(* ===== verification/WorkerSystem.v ===== *)
(** * The remote-management worker on its system ([remote-worker/src/main.rs])

    [SystemTools]: the openssl process, the call of [sl-authd] and the
    kernel's random source behind the worker's [Tools], and the executable
    made of them. *)
From S2P Require Import Prelude Random Programs FileSystem FileSystemFacts RemoteState Worker WorkerFacts WorkerSpec WorkerProps WorkerModes Peers PlatformRemote Bus.

Module WorkerSystem.
Import Programs FileSystem FileSystemFacts RemoteState Worker WorkerFacts WorkerSpec WorkerProps WorkerModes.

Definition OPENSSL_CONF : string := "/usr/lib/signallayer/openssl.cnf".

(** ** The openssl process *)
Inductive Stdio := Null | Piped.

(** [std::process::Command] *)
Record Command := {
  program : string;
  arguments : list string;
  environment : list (string * string);
  stdin : Stdio;
  stdout : Stdio;
  stderr : Stdio
}.

Definition openssl_command (arguments : list string) : Command := {|
  program := OPENSSL; arguments := arguments; environment := [("OPENSSL_CONF", OPENSSL_CONF)]%string;
  stdin := Null; stdout := Piped; stderr := Null |}.

(** [std::process::Output] *)
Record Output := { success : bool; output_bytes : list Z }.

(** ** The call of [ResetEnrollment]: its runtime, its connection, and the
    call on it; [None] is the deadline. *)
Inductive ResetCall := BuildRuntime | SystemBus | OnBus (c : Callers.BusCall).
Definition ResetReply (c : ResetCall) : Type :=
  match c with
  | BuildRuntime => bool
  | SystemBus => option (unit + Callers.Failed)
  | OnBus c => Callers.BusReply c
  end.
Definition Reset : Signature := {| Programs.call := ResetCall; reply := ResetReply |}.
Definition ask (c : ResetCall) : prog Reset (ResetReply c) := perform (S:=Reset) c.

Definition reset_enrollment : prog Reset (res unit unit) := (
  let! built := ask BuildRuntime in
  if built : bool then
    let! connection := ask SystemBus in
    match connection with
    | Some (inl _) =>
        let! outcome := interp (S:=Callers.Bus) (fun c => ask (OnBus c)) (Callers.call Callers.RemoteWorker.reset_enrollment) in
        Done match outcome with Peers.Replied _ => Ok tt | _ => Err tt end
    | _ => Done (Err tt)
    end
  else Done (Err tt))%prog.

(** ** The group database: the status of [getgrnam_r] with a buffer of that
    size, and the group of the entry it found. *)
Definition group_id (getgrnam_r : string -> Z -> Z * option Z) (name : string) : option Z :=
  if existsb (Z.eqb 0) (bytes_of name) then None
  else let (status, entry) := getgrnam_r name (16 * 1024) in if status =? 0 then entry else None.

(** ** [SystemTools]

    Each is the answer at the worker's [n]-th call: of a process and what it
    does to the files, of the kernel to the [k]-th [getrandom] of a request,
    and of the bus.  A request is interrupted fewer than [interruptions]
    times. *)
Section System.
Context (spawn : nat -> Command -> Files -> option Output * Files).
Context (getrandom : nat -> nat -> list Z -> list Z * Z * Z) (interruptions : nat).
Context (bus : nat -> nat -> forall c : ResetCall, ResetReply c).

Definition system_openssl (n : nat) (arguments : list string) (fs : Files) : res (list Z) unit * Files :=
  let (output, fs) := spawn n (openssl_command arguments) fs in
  (match output with
   | None => Err tt
   | Some output => if success output then Ok (output_bytes output) else Err tt
   end, fs).

Definition system_random (n N : nat) : option (list Z) :=
  match Random.inline_fill (getrandom n) (interruptions + N) 0 (replicate N 0) 0 with
  | Some (buffer, Ok _) => Some buffer
  | _ => None
  end.

Definition system_reset (n : nat) : bool := is_ok (exec (S:=Reset) (bus n) 0 reset_enrollment).2.

Definition system_tools : Tools := {|
  openssl_at := system_openssl; reset_at := system_reset; random_at := system_random; faults _ _ := false |}.

(** The executable: its exit code, and the state it leaves. *)
Definition executable (io : Io) (getgrnam_r : string -> Z -> Z * option Z) (arguments : list string) (st : State) : Z * State :=
  main io system_tools PlatformRemote.STATE_DIR (group_id getgrnam_r) arguments st.
End System.

(** ** What the system promises *)

(** The two commands the worker knows. *)
Definition fixed_command (root : string) (c : Command) : Prop :=
  (exists g, is_generation_name g = true /\
     (arguments c = req_arguments root (tls [g]) \/ arguments c = fingerprint_arguments root (tls [g]))) /\
  program c = "/usr/bin/openssl"%string /\ environment c = [("OPENSSL_CONF", "/usr/lib/signallayer/openssl.cnf")]%string /\
  stdin c = Null /\ stderr c = Null.

(** What the manual of openssl says of them: [req] writes the key and the
    certificate, and [x509] nothing. *)
Class OpensslProcess (spawn : nat -> Command -> Files -> option Output * Files) (root : string) := {
  spawn_req n g fs output fs' : is_generation_name g = true -> tree fs ->
    spawn n (openssl_command (req_arguments root (tls [g]))) fs = (output, fs') ->
    tree fs' /\ (forall p, p <> tls [g; KEY_FILE] -> p <> tls [g; CERT_FILE] -> fs' !! p = fs !! p);
  spawn_fingerprint n g fs output fs' : is_generation_name g = true ->
    spawn n (openssl_command (fingerprint_arguments root (tls [g]))) fs = (output, fs') -> fs' = fs
}.

(** What [getrandom(2)] does: it writes bytes in the buffer it is given. *)
Class KernelRandom (getrandom : nat -> nat -> list Z -> list Z * Z * Z) (interruptions : nat) := {
  getrandom_in_place n : Random.in_place (Random.kernel_call (getrandom n));
  getrandom_bytes n k chunk : Forall is_byte chunk -> Forall is_byte (getrandom n k chunk).1.1;
  getrandom_uninterrupted n k chunk : (interruptions <= k)%nat -> (Random.kernel_call (getrandom n) k chunk).2 <> Err Random.EINTR
}.

Lemma inline_fill_bytes getrandom : Random.in_place (Random.kernel_call getrandom) ->
  (forall n chunk, Forall is_byte chunk -> Forall is_byte (getrandom n chunk).1.1) ->
  forall fuel n buffer filled out u, Forall is_byte buffer -> (filled <= List.length buffer)%nat ->
  Random.inline_fill getrandom fuel n buffer filled = Some (out, Ok u) ->
  List.length out = List.length buffer /\ Forall is_byte out.
Proof.
  intros Hcall Hb. induction fuel as [|fuel IH]; intros n buffer filled out u HB Hle; simpl;
    destruct (Nat.ltb_spec filled (List.length buffer)) as [Hlt|Hge]; try (intros; by simplify_eq).
  pose proof (Hcall n (skipn filled buffer)) as Hlen. pose proof (Hb n _ (Forall_drop is_byte filled buffer HB)) as HB'.
  unfold Random.kernel_call in Hlen. destruct (getrandom n (skipn filled buffer)) as [[chunk result] errno].
  assert (List.length chunk = List.length buffer - filled)%nat as Hc by (destruct (result <? 0); cbn [fst] in Hlen; by rewrite Hlen, length_skipn).
  assert (List.length (firstn filled buffer ++ chunk) = List.length buffer) as Hl by (rewrite length_app, length_firstn; lia).
  rewrite length_skipn. destruct ((0 <? result) && _) eqn:Hok; [bool_hyps|destruct ((result <? 0) && _); [|done]].
  all: intros Hr; apply IH in Hr as [Hl' Hb']; rewrite ?Hl in *; [done|apply Forall_app_2; [by apply Forall_take|done]|lia].
Qed.

Section Promises.
Context (root : string) (interruptions : nat) (spawn : nat -> Command -> Files -> option Output * Files).
Context (getrandom : nat -> nat -> list Z -> list Z * Z * Z) {K : KernelRandom getrandom interruptions}.
Context (bus : nat -> nat -> forall c : ResetCall, ResetReply c).

Local Abbreviation tools := (system_tools spawn getrandom interruptions bus).

Lemma system_random_fills n N bytes : random_at tools n N = Some bytes -> List.length bytes = N /\ Forall is_byte bytes.
Proof.
  cbn [random_at system_tools]. unfold system_random. destruct (Random.inline_fill _ _ _ _ _) as [[out [u|e|]]|] eqn:E; try done.
  intros [= <-]. apply inline_fill_bytes in E as [Hl Hb]; [by rewrite length_replicate in Hl|apply getrandom_in_place|apply getrandom_bytes| |lia].
  apply Forall_replicate. by unfold is_byte.
Qed.

(** The fuel is enough: no answer is for want of it. *)
Lemma system_random_returns n N : is_Some (Random.inline_fill (getrandom n) (interruptions + N) 0 (replicate N 0) 0).
Proof.
  rewrite Random.inline_fill_equiv by (apply getrandom_in_place || lia).
  apply (Random.fill_with_returns _ (getrandom_in_place n) interruptions);
    [intros k chunk; apply getrandom_uninterrupted| |lia|rewrite length_replicate; lia].
  intros k chunk. unfold Random.kernel_call. by destruct (getrandom n k chunk) as [[? result] ?], (result <? 0).
Qed.

(** Every theorem on the modes holds of the executable. *)
#[export] Instance system_laws {P : OpensslProcess spawn root} : OpensslLaws tools root.
Proof.
  split; cbn [openssl_at system_tools]; unfold system_openssl.
  - intros n g fs r fs' Hg T. destruct (spawn _ _ _) as [output fs1] eqn:E. intros [= _ <-]. by eapply spawn_req.
  - intros n g fs r fs' Hg. destruct (spawn _ _ _) as [output fs1] eqn:E. intros [= _ <-]. by eapply spawn_fingerprint.
  - intros n arguments fs. destruct (spawn _ _ _) as [[output|] fs1]; [|done]. cbn. by destruct (success output).
Qed.
End Promises.

(** ** What the worker runs *)
Section Commands.
Context (io : Io) (root : string) (interruptions : nat) (ownership : Ownership).
Context (spawn spawn' : nat -> Command -> Files -> option Output * Files).
Context (getrandom : nat -> nat -> list Z -> list Z * Z * Z) {K : KernelRandom getrandom interruptions}.
Context (bus : nat -> nat -> forall c : ResetCall, ResetReply c).
(** Two systems that differ, at most, in how they run any other command. *)
Context (agree : forall n c fs, fixed_command root c -> spawn n c fs = spawn' n c fs).

Local Abbreviation tools := (system_tools spawn getrandom interruptions bus).
Local Abbreviation tools' := (system_tools spawn' getrandom interruptions bus).

Lemma bind_same {S F A B} (m m' : stm S F A) (k k' : A -> stm S F B) st : m st = m' st ->
  (forall a st', m st = (Ok a, st') -> k a st' = k' a st') -> bind m k st = bind m' k' st.
Proof. intros Hm Hk. unfold bind. rewrite <- Hm. destruct (m st) as [[a|e|] st'] eqn:E; [by apply Hk|done..]. Qed.

Lemma fixed_openssl arguments st : fixed_command root (openssl_command arguments) -> openssl tools arguments st = openssl tools' arguments st.
Proof. intros Hf. unfold openssl. cbn [openssl_at system_tools]. unfold system_openssl. by rewrite agree. Qed.

Lemma fill_generation_same g st : is_generation_name g = true ->
  fill_generation io tools root ownership (tls [g]) st = fill_generation io tools' root ownership (tls [g]) st.
Proof.
  intros Hg. unfold fill_generation. do 2 (apply bind_same; [done|intros _ ? _]).
  apply bind_same; [unfold or_failed; rewrite fixed_openssl; [done|split; [exists g; auto|done]]|intros _ ? _].
  apply bind_same; [unfold or_failed; rewrite fixed_openssl; [done|split; [exists g; auto|done]]|done].
Qed.

Lemma generate_identity_same st : generate_identity io tools root ownership st = generate_identity io tools' root ownership st.
Proof.
  unfold generate_identity. do 3 (apply bind_same; [done|intros _ ? _]). apply bind_same; [done|]. intros bytes st1 Hr.
  apply (random_ok tools (system_random_fills interruptions spawn getrandom bus)) in Hr as [Hg _].
  apply bind_same; [done|]. intros _ st2 _. apply bind_same; [|done]. unfold attempt. by rewrite fill_generation_same.
Qed.

Lemma identity_same {A} (k : string -> W A) st :
  (let! g := generate_identity io tools root ownership in k g) st = (let! g := generate_identity io tools' root ownership in k g) st.
Proof. apply bind_same; [apply generate_identity_same|done]. Qed.

Lemma run_same m st : run io tools root ownership m st = run io tools' root ownership m st.
Proof.
  unfold run. apply bind_same; [done|]. intros _ st1 _. destruct m; try done; [|apply identity_same].
  unfold enable. apply bind_same; [done|]. intros [] st2 _; [done|]. apply bind_same; [done|]. intros identity st3 _.
  apply bind_same; [|done]. destruct identity as [[]| |]; [done|apply identity_same|done..].
Qed.
End Commands.

(** C29. The worker runs no command but the two it knows, for a generation of
    its own, by their full paths, with an environment of exactly
    [OPENSSL_CONF] and no input: on two systems that treat these alike,
    whatever else they do, every invocation ends with the same exit code, files
    and calls of [sl-authd]. *)
Theorem only_fixed_commands io interruptions getrandom bus getgrnam_r (spawn spawn' : nat -> Command -> Files -> option Output * Files) :
  KernelRandom getrandom interruptions ->
  (forall n c fs, fixed_command PlatformRemote.STATE_DIR c -> spawn n c fs = spawn' n c fs) -> forall arguments st,
  executable spawn getrandom interruptions bus io getgrnam_r arguments st =
  executable spawn' getrandom interruptions bus io getgrnam_r arguments st.
Proof.
  intros K agree arguments st. unfold executable, main. destruct (parse_mode arguments) as [mode|]; [|done].
  destruct (writes_identity mode); [destruct (group_id _ _) as [gid|]; [|done]|];
    by rewrite (run_same io PlatformRemote.STATE_DIR interruptions _ spawn spawn' getrandom bus agree).
Qed.
End WorkerSystem.
