(* ===== verification/WorkerSystemExamples.v ===== *)
(** * The executable of the worker, and the server after it, at work *)
From S2P Require Import Prelude Random Programs FileSystem FileSystemFacts RemoteState Worker WorkerFacts WorkerSpec WorkerExamples PlatformRemote Bus WorkerSystem.

(** ** The worker's executable at work

    An openssl process, a kernel and a bus, and the executable among them. *)
Module WorkerSystemExamples.
Import FileSystem FileSystemFacts RemoteState Worker WorkerExamples WorkerSystem.

(** An openssl that makes a key and a certificate in the one generation that
    has none, or prints a fingerprint. *)
Definition process (n : nat) (c : Command) (fs : Files) : option Output * Files :=
  match List.find (fun g => bool_decide (arguments c = req_arguments PlatformRemote.STATE_DIR (tls [g]))) (children fs (tls [])) with
  | Some g =>
      (Some {| success := true; output_bytes := [] |},
       <[tls [g; KEY_FILE] := {| kind := Regular [1]; mode := 384; group := None |}]>
         (<[tls [g; CERT_FILE] := {| kind := Regular [2]; mode := 384; group := None |}]> fs))
  | None =>
      (Some {| success := true;
               output_bytes := bytes_of (OPENSSL_FINGERPRINT_PREFIX +:+ fingerprint_file_contents toy_fingerprint) |}, fs)
  end.

(** The same system, on which a command with any other environment destroys
    the files. *)
Definition trapped (n : nat) (c : Command) (fs : Files) : option Output * Files :=
  if bool_decide (environment c = [("OPENSSL_CONF", OPENSSL_CONF)]%string) then process n c fs else (None, ∅).

Definition kernel (n k : nat) (chunk : list Z) : list Z * Z * Z :=
  match k with
  | O => (chunk, -1, Random.EINTR)
  | _ => (replicate (List.length chunk) 7, Z.of_nat (List.length chunk), 0)
  end.

#[export] Instance kernel_random : KernelRandom kernel 1.
Proof.
  split.
  - intros n [|k] chunk; unfold Random.kernel_call; cbn; [done|]. by destruct (_ <? 0); cbn; rewrite length_replicate.
  - intros n [|k] chunk H; cbn; [done|]. apply Forall_replicate. unfold is_byte. lia.
  - intros n [|k] chunk Hk; [lia|]. unfold Random.kernel_call. cbn. destruct (Z.ltb_spec (Z.of_nat (List.length chunk)) 0); [lia|done].
Qed.

Definition answering (n k : nat) (c : ResetCall) : ResetReply c :=
  match c return ResetReply c with
  | BuildRuntime => true
  | SystemBus => Some (inl tt)
  | OnBus (Callers.NewProxy _ _ _) => Some (inl tt)
  | OnBus (Callers.CallMethod _) => Some (inl [])
  end.

Definition groups (name : string) (buffer : Z) : Z * option Z :=
  (0, if bool_decide (name = "sl-remoted"%string) then Some 90 else None).

Definition ran (spawn : nat -> Command -> Files -> option Output * Files) (argument : string) : Z * State :=
  executable spawn kernel 1 answering toy_io groups [argument] (toy_state enrolled_files).

Example executable_rotates : (ran process "rotate-tls").1 = 0 /\ (ran process "rotate").1 = 2.
Proof. vm_compute. done. Qed.

Example executable_resets : (ran process "boot-reset").1 = 0 /\ List.length (resets (ran process "boot-reset").2) = 1%nat.
Proof. vm_compute. done. Qed.

Lemma only_fixed_commands_witness : (ran process "rotate-tls").1 = 0 /\ ran process "rotate-tls" = ran trapped "rotate-tls".
Proof.
  split; [vm_compute; reflexivity|].
  apply (only_fixed_commands toy_io 1 kernel answering groups process trapped kernel_random).
  intros n c fs (_ & _ & He & _). unfold trapped. rewrite bool_decide_true; [reflexivity|exact He].
Defined.
End WorkerSystemExamples.

From S2P Require Import Prelude FileSystem FileSystemFacts RemoteState Worker WorkerFacts WorkerSpec WorkerProps WorkerModes WorkerExamples Tls.

(** ** The server after a rotation *)
Module TlsExamples.
Import FileSystem FileSystemFacts RemoteState Worker WorkerFacts WorkerSpec WorkerProps WorkerModes WorkerExamples Tls.

(** Every file is one certificate, or a key; a configuration is both. *)
Definition one (text : list Z) : option (list (list Z)) := Some [text].
Definition both (certificates : list (list Z)) (key : list Z) : option (list Z) := Some (List.concat certificates ++ key)%list.

End TlsExamples.
