(* ===== verification/Daemons.v ===== *)
(** * The daemons on the bus and on the network

    How each daemon puts its object on the bus (the [main] functions), what
    wraps an object there (both [checked_interface.rs]), and the system calls
    behind the notifications, the listeners and the clocks of the remote
    server. *)
From S2P Require Import Prelude Hash Store Machine MachineFacts MachineSpec IpAddr Network Programs PlatformCalls Protocol SharedRead NetworkObserver Controller Server Startup AuthService Console Platform Peers Sessiond Bus.

(** ** Putting an object on the bus *)
Module Serving.
Import Programs.
#[local] Open Scope prog_scope.

Section Serve.
Context {O : Type}.

(** The connection, the object server, the name, and [Build], the builder
    that is given an object and a name and does it all; [Forever] is
    [pending], which no reply ends. *)
Inductive ServeCall :=
  | SystemBus
  | ServeAt (path : string) (object : O)
  | RequestName (name : string)
  | ConnectPlatform
  | Build (name path : string) (object : O)
  | Stderr (line : string)
  | Forever.
Definition ServeReply (c : ServeCall) : Type :=
  match c with
  | Stderr _ => unit
  | Forever => Empty_set
  | _ => res unit unit
  end.
Definition Serving : Signature := {| call := ServeCall; reply := ServeReply |}.
Definition ask (c : ServeCall) : prog Serving (ServeReply c) := perform (S:=Serving) c.

Definition forever : prog Serving (res unit unit) := let! never := ask Forever in match never : Empty_set with end.

(** The end of [main] of [authd], [platformd] and the network observer. *)
Definition serve (path name : string) (object : O) : prog Serving (res unit unit) :=
  let? _ := ask SystemBus in
  let? _ := ask (ServeAt path object) in
  let? _ := ask (RequestName name) in
  forever.

(** A name is asked for when the object answers, and no start succeeds
    otherwise than by going on forever. *)
Lemma serve_order path name object : justly (S:=Serving)
  (fun before c => match c with
    | RequestName _ => existT (ServeAt path object) (Ok tt) ∈ before
    | ServeAt _ _ => existT SystemBus (Ok tt) ∈ before
    | Forever => existT (RequestName name) (Ok tt) ∈ before
    | _ => True end)
  [] (serve path name object) (fun _ r => r <> Ok tt).
Proof.
  split; [done|]. intros [[]|e|]; [|done..]. split; [set_solver|]. intros [[]|e|]; [|done..].
  split; [set_solver|]. intros [[]|e|]; [|done..]. split; [set_solver|]. intros [].
Qed.
End Serve.
Arguments ServeCall : clear implicits.
Arguments Serving : clear implicits.
End Serving.

(** ** [authd/src/main.rs], and the sender of a call *)
Module AuthdMain.
Import Hash Store Machine MachineFacts MachineSpec AuthService CheckedInterface Programs Serving.
#[local] Open Scope prog_scope.

Definition BUS : string := "org.signallayer.Auth1".
Definition PATH : string := "/org/signallayer/Auth1".

Section Main.
Context {D : Type} `{StoreLaws D} `{HR : Hasher} (env : Env) (directory : string -> D).

(** [Shared::new] *)
Definition new (c : Core D) : Shared (D:=D) := {| core := c; poisoned := false; admitted := 0 |}.

(** The state is read before the bus is there; the contents of a directory
    are [directory]'s. *)
Definition main (version : string) (environment : option (list Z)) : prog (Serving (Shared (D:=D))) (res unit unit) :=
  do! ask (Stderr ("sl-authd " +:+ version)) in
  serve PATH BUS (new (open env (directory (state_directory environment)))).

(** A name is taken for no object but one with the state of the directory,
    well-formed, and no one admitted. *)
Lemma serves_its_state {HL : HasherLaws store_valid_hash} {EL : EnvLaws env} version environment t r (before after : list (event (Serving (Shared (D:=D))))) name answer :
  runs (main version environment) t r -> t = (before ++ existT (RequestName name) answer :: after)%list ->
  exists s, (existT (ServeAt PATH s) (Ok tt) : event (Serving (Shared (D:=D)))) ∈ before /\
    wf (core s) /\ admitted s = O /\ poisoned s = false /\
    (norm (loaded (directory (state_directory environment))) (auth (core s)) \/ auth (core s) = AInvalid).
Proof.
  intros ([] & t1 & -> & Hr) Ht. exists (new (open env (directory (state_directory environment)))).
  destruct before as [|e before]; [discriminate (f_equal (fun l => hd_error (map (@projT1 _ _) l)) Ht)|].
  injection Ht as <- Ht. apply (justly_runs _ _ _ _ _ _ (serve_order PATH BUS _)) in Hr as [_ Hp].
  apply Hp in Ht. split; [by right|]. destruct (open_starts env (directory (state_directory environment))) as [W Ha]. done.
Qed.
End Main.
End AuthdMain.

(** ** [sender_uid] of [authd/src/service.rs], of the header's sender *)
Module Sender.
Import Programs Machine AuthService.
#[local] Open Scope prog_scope.

Inductive SenderCall := NewDBusProxy | GetConnectionUnixUser (unique_name : string).
Definition SenderReply (c : SenderCall) : Type :=
  match c with NewDBusProxy => res unit unit | GetConnectionUnixUser _ => res Z unit end.
Definition Fdo : Signature := {| call := SenderCall; reply := SenderReply |}.

Definition sender_uid (sender : option string) : prog Fdo (res Z AuthError.t) :=
  let unavailable := to_dbus Unavailable in
  let? sender := Done (ok_or sender unavailable) in
  let? _ := or_error unavailable (perform (S:=Fdo) NewDBusProxy) in
  or_error unavailable (perform (S:=Fdo) (GetConnectionUnixUser sender)).

(** The user is the one the bus gives for the caller's own connection. *)
Lemma sender_uid_asked sender t uid : runs (sender_uid sender) t (Ok uid) ->
  exists name, sender = Some name /\ t = [existT NewDBusProxy (Ok tt); existT (GetConnectionUnixUser name) (Ok uid)].
Proof.
  intros H. apply try_bind_runs in H as (t1 & name & t2 & -> & [-> Hs] & H). destruct sender as [name'|]; [|done]. injection Hs as ->.
  apply try_bind_runs in H as (t3 & [] & t4 & -> & H3 & H4). apply or_error_runs in H3, H4.
  destruct H3 as (? & ? & -> & -> & <-), H4 as (? & ? & -> & -> & <-). by exists name'.
Qed.
End Sender.

(** ** The other daemons' [main] *)
Module PlatformdMain.
Import Protocol Programs Serving.

(** [struct Platform]: the reads in flight, and the permits of the two
    semaphores. *)
Record Platform := {
  status_reads : SharedRead.SharedRead (res string PlatformError.t);
  mutation_starts : nat;
  remote_management : nat
}.

Definition new : Platform := {| status_reads := SharedRead.new; mutation_starts := 1; remote_management := 1 |}.
Definition main : prog (Serving Platform) (res unit unit) := serve PATH BUS new.

(** [get_status], of what the shared observation gives this caller *)
Definition get_status (observed : option (res string PlatformError.t)) : res string PlatformError.t :=
  default (Err (Platform.invalid "Status observation failed")) observed.
End PlatformdMain.

Module ObserverMain.
Import Programs Serving.
Record Observer := { requests : nat }.
Definition main : prog (Serving Observer) (res unit unit) := serve NetworkObserver.PATH NetworkObserver.BUS {| requests := 1 |}.
End ObserverMain.

Module SessiondMain.
Import Programs Serving.
#[local] Open Scope prog_scope.
Inductive SessionService := Session.
Definition main (version : string) : prog (Serving SessionService) (res unit unit) :=
  do! ask (Stderr ("sl-sessiond " +:+ version)) in
  let? _ := ask ConnectPlatform in
  let? _ := ask (Build Sessiond.BUS Sessiond.PATH Session) in
  forever.
End SessiondMain.

(** ** What is served in place of an object

    [zbus]'s [Interface]: what an object answers to each kind of request, of
    its arguments; [CheckedAuth] and [CheckedPlatform] pass everything on but
    a call with the wrong arguments. *)
Module CheckedObject.
Import CheckedInterface.

Section Checked.
Context {Name Properties Property Arguments Value Answer SetAnswer Text : Type}.

Record Object := {
  name : Name;
  get : Property -> Arguments -> option Value;
  get_all : Arguments -> Properties;
  set : Property -> Value -> Arguments -> Answer;
  set_mut : Property -> Value -> Arguments -> option SetAnswer;
  call : string -> Body -> Arguments -> Answer + string;
  call_mut : string -> Body -> Arguments -> Answer + string;
  introspect_to_writer : nat -> Text
}.

Definition checked (unexpected : string -> Body -> bool) (text : string -> string) (object : Object) : Object := {|
  name := name object;
  get := get object;
  get_all := get_all object;
  set := set object;
  set_mut := set_mut object;
  call member body arguments :=
    match checked_call unexpected text tt member body with
    | inl _ => call object member body arguments
    | inr error => inr error
    end;
  call_mut := call_mut object;
  introspect_to_writer := introspect_to_writer object
|}.

(** [CheckedAuth], [CheckedPlatform] *)
Definition CheckedAuth : Object -> Object := checked auth_unexpected (fun method => method +:+ " called with the wrong signature").
Definition CheckedPlatform : Object -> Object := checked platform_unexpected (fun method => method +:+ " takes no arguments").
End Checked.
End CheckedObject.

(** ** Opening the notification socket ([remoted/src/netlink.rs]) *)
Module NetlinkSocket.
Import Programs.
#[local] Open Scope prog_scope.

Definition RTMGRP_LINK : Z := 0x1.
Definition RTMGRP_IPV4_IFADDR : Z := 0x10.
Definition RTMGRP_IPV4_ROUTE : Z := 0x40.
Definition RTMGRP_IPV6_IFADDR : Z := 0x100.
Definition RTMGRP_IPV6_ROUTE : Z := 0x400.
Definition AF_NETLINK : Z := 16.
Definition SOCK_RAW : Z := 3.
Definition SOCK_CLOEXEC : Z := 0x80000.
Definition SOCK_NONBLOCK : Z := 0x800.
Definition NETLINK_ROUTE : Z := 0.

Definition GROUPS : Z :=
  Z.lor (Z.lor (Z.lor (Z.lor RTMGRP_LINK RTMGRP_IPV4_IFADDR) RTMGRP_IPV6_IFADDR) RTMGRP_IPV4_ROUTE) RTMGRP_IPV6_ROUTE.

(** [sockaddr_nl], of 12 bytes *)
Record Address := { nl_family : Z; nl_pid : Z; nl_groups : Z }.

(** [Socket] and [Bind] return with [errno]; [Register] is
    [AsyncFd::with_interest], which keeps the descriptor or drops it. *)
Inductive OsCall :=
  | Socket (domain kind protocol : Z)
  | Bind (fd : Z) (address : Address) (length : Z)
  | Register (fd : Z)
  | Close (fd : Z).
Definition OsReply (c : OsCall) : Type :=
  match c with
  | Socket _ _ _ | Bind _ _ _ => Z * Z
  | Register _ => res unit Z
  | Close _ => unit
  end.
Definition Os : Signature := {| call := OsCall; reply := OsReply |}.
Definition ask (c : OsCall) : prog Os (OsReply c) := perform (S:=Os) c.

(** [Netlink::open]: the error is read before the descriptor is dropped. *)
Definition open : prog Os (res Z Z) :=
  let! (raw, errno) := ask (Socket AF_NETLINK (Z.lor (Z.lor SOCK_RAW SOCK_CLOEXEC) SOCK_NONBLOCK) NETLINK_ROUTE) in
  if raw <? 0 then Done (Err errno) else
  let! (bound, errno) := ask (Bind raw {| nl_family := AF_NETLINK; nl_pid := 0; nl_groups := GROUPS |} 12) in
  if bound <? 0 then do! ask (Close raw) in Done (Err errno) else
  let! registered := ask (Register raw) in
  match registered with
  | Ok _ => Done (Ok raw)
  | Err e => do! ask (Close raw) in Done (Err e)
  | Panic => do! ask (Close raw) in Done Panic
  end.

(** The descriptors open after a run. *)
Definition descriptors (open : gset Z) (e : event Os) : gset Z :=
  match e with
  | existT (Socket _ _ _) (raw, _) => if raw <? 0 then open else {[raw]} ∪ open
  | existT (Close fd) _ => open ∖ {[fd]}
  | _ => open
  end.

(** A success is a socket bound to the five groups, and the one descriptor
    open; a failure leaves none. *)
Lemma open_leaks_nothing t r : runs open t r ->
  match r with
  | Ok fd => foldl descriptors ∅ t = {[fd]} /\
      exists errno errno' bound, t = [existT (Socket 16 0x80803 0) (fd, errno);
        existT (Bind fd {| nl_family := 16; nl_pid := 0; nl_groups := 0x551 |} 12) (bound, errno'); existT (Register fd) (Ok tt)] /\
        0 <= fd /\ 0 <= bound
  | _ => foldl descriptors ∅ t = ∅
  end.
Proof.
  intros ([raw errno] & t1 & -> & H). cbn [pbind] in H. destruct (raw <? 0) eqn:Hr.
  { destruct H as [-> ->]. cbn. by rewrite Hr. }
  destruct H as ([bound errno'] & t2 & -> & H). cbn [pbind] in H. destruct (bound <? 0) eqn:Hb.
  { destruct H as ([] & t3 & -> & -> & ->). cbn. rewrite Hr. set_solver. }
  destruct H as ([[]|e|] & t3 & -> & H); cbn [pbind] in H; cbn; rewrite Hr.
  - destruct H as [-> ->]. cbn. apply Z.ltb_ge in Hr, Hb. split; [by rewrite union_empty_r_L|]. exists errno, errno', bound. done.
  - destruct H as ([] & t4 & -> & -> & ->). cbn. set_solver.
  - destruct H as ([] & t4 & -> & -> & ->). cbn. set_solver.
Qed.
End NetlinkSocket.

(** ** The listening sockets ([remoted/src/server.rs]) *)
Module Sockets.
Import Programs IpAddr Network Controller Server.
#[local] Open Scope prog_scope.

Inductive SocketCall :=
  | NewV4 | NewV6
  | SetReuseaddr (value : bool)
  | BindTo (address : SocketAddr)
  | Listen (backlog : Z)
  | LocalAddr.
Definition SocketReply (c : SocketCall) : Type :=
  match c with LocalAddr => res SocketAddr unit | _ => res unit unit end.
Definition Tcp : Signature := {| call := SocketCall; reply := SocketReply |}.
Definition ask (c : SocketCall) : prog Tcp (SocketReply c) := perform (S:=Tcp) c.

Definition bind (address : SocketAddr) : prog Tcp (res unit unit) :=
  let? _ := (match address.1 with V4 _ => ask NewV4 | V6 _ => ask NewV6 end) in
  let? _ := ask (SetReuseaddr true) in
  let? _ := ask (BindTo address) in
  ask (Listen BACKLOG).

(** [TcpListeners::bind]: what cannot be bound is left out. *)
Fixpoint bind_each (addresses : list IpAddr) (l : TcpListeners) : prog Tcp (list SocketAddr * TcpListeners) :=
  match addresses with
  | [] => Done (bound l, l)
  | address :: addresses =>
      let! listener := bind (address, port l) in
      match listener with
      | Ok _ =>
          let! local := ask LocalAddr in
          match local with
          | Ok local => bind_each addresses {| port := port l; bound := (bound l ++ [local])%list; tasks := tasks l |}
          | _ => bind_each addresses l
          end
      | _ => bind_each addresses l
      end
  end.

(** A socket's own address is the one it was bound to: what the operating
    system does, on an event with those before it. *)
Fixpoint faithful (last : option SocketAddr) (t : list (event Tcp)) : Prop :=
  match t with
  | [] => True
  | existT (BindTo address) _ :: t => faithful (Some address) t
  | existT LocalAddr (Ok local) :: t => last = Some local /\ faithful last t
  | _ :: t => faithful last t
  end.

Definition listening (address : SocketAddr) (t : list (event Tcp)) : Prop :=
  (existT (BindTo address) (Ok tt) : event Tcp) ∈ t /\ (existT (Listen BACKLOG) (Ok tt) : event Tcp) ∈ t.

Lemma listening_more before address t : listening address t -> listening address (before ++ t).
Proof. intros [H1 H2]. split; apply elem_of_app; by right. Qed.

Lemma bind_runs address t r : runs (bind address) t r -> forall last t', faithful last (t ++ t')%list ->
  match r with
  | Ok _ => faithful (Some address) t' /\ listening address t
  | _ => exists last, faithful last t'
  end.
Proof.
  intros H last t' F. unfold bind in H. destruct address as [[bits|bits] p]; cbn [fst] in H.
  all: destruct H as ([[]|e|] & t1 & -> & H); cbn in H, F; [|destruct H as [-> ->]; eauto..].
  all: destruct H as ([[]|e|] & t2 & -> & H); cbn in H, F; [|destruct H as [-> ->]; eauto..].
  all: destruct H as ([[]|e|] & t3 & -> & H); cbn in H, F; [|destruct H as [-> ->]; eauto..].
  all: destruct H as (r' & t4 & -> & -> & ->); cbn in F; destruct r' as [[]|e|]; [split; [done|split; set_solver]|eauto..].
Qed.

(** The listeners are those of some of the addresses, in order, each bound
    and listening. *)
Lemma bind_each_grants addresses : forall l t r last, runs (bind_each addresses l) t r -> faithful last t ->
  exists granted, granted `sublist_of` addresses /\ r.2 = listeners_bind granted l /\ r.1 = bound r.2 /\
    Forall (fun a => listening (a, port l) t) granted.
Proof.
  induction addresses as [|address addresses IH]; intros l t r last H F.
  { destruct H as [-> ->]. exists []. split; [done|]. unfold listeners_bind. cbn. rewrite app_nil_r. by destruct l. }
  cbn [bind_each] in H. apply runs_bind in H as (t1 & listener & t2 & -> & H1 & H2). pose proof (bind_runs _ _ _ H1 _ _ F) as Fb.
  assert (Hskip : forall mid t3, t2 = (mid ++ t3)%list -> (exists last, faithful last t3) -> runs (bind_each addresses l) t3 r ->
    exists granted, granted `sublist_of` (address :: addresses) /\ r.2 = listeners_bind granted l /\ r.1 = bound r.2 /\
    Forall (fun a => listening (a, port l) (t1 ++ t2)) granted).
  { intros mid t3 -> [last' F'] H. destruct (IH _ _ _ _ H F') as (granted & Hs & Hr & Hb & Hg). exists granted.
    split_and!; [by apply sublist_cons|done|done|]. eapply Forall_impl; [exact Hg|]. intros a Ha. by apply listening_more, listening_more. }
  destruct listener as [[]|e|]; [|by apply (Hskip [] t2)..]. destruct Fb as (F' & Hin & Hl).
  destruct H2 as ([local|e|] & t3 & -> & H2); cbn in F', H2; [|by eapply (Hskip (_ :: []) t3); [reflexivity|eexists|]..].
  destruct F' as [[= <-] F']. destruct (IH _ _ _ _ H2 F') as (granted & Hs & Hr & Hb & Hg). exists (address :: granted).
  split_and!; [by apply sublist_skip| |done|].
  - rewrite Hr. unfold listeners_bind. cbn. by rewrite <- app_assoc.
  - constructor; [split; apply elem_of_app; by left|]. eapply Forall_impl; [exact Hg|]. intros a Ha.
    by apply listening_more, (listening_more (_ :: [])).
Qed.
End Sockets.

(** ** The clock of the sessions ([remoted/src/sessions.rs]) *)
Module BootClock.
(** [now], of what [clock_gettime] returned and left in [tv_sec] *)
Definition now (result tv_sec : Z) : option Z :=
  if result =? 0 then (if in_range 0 u64_max tv_sec then Some tv_sec else None) else None.

(** The same time as the authentication service's, of a signed [tv_sec]. *)
Lemma now_is_boot result tv_sec : tv_sec < 2 ^ 63 -> now result tv_sec = Machine.system_boot result tv_sec.
Proof.
  unfold now, Machine.system_boot, in_range, u64_max. intros H. destruct (result =? 0); [|done].
  destruct (Z.ltb_spec tv_sec 0), (Z.leb_spec 0 tv_sec), (Z.leb_spec tv_sec (2 ^ 64 - 1)); cbn; try done; lia.
Qed.
End BootClock.

(** ** The subscription to [Session1]'s owners ([remoted/src/peers.rs]) *)
Module OwnerEvents.
Import Programs.
#[local] Open Scope prog_scope.
Inductive OwnerCall := NewProxy (destination path interface : string) | ReceiveOwnerChanged (name : string).
Definition Owners : Signature := {| call := OwnerCall; reply := fun _ => res unit unit |}.

Definition new : prog Owners (res unit unit) :=
  let? _ := perform (S:=Owners) (NewProxy Peers.SESSION_BUS Peers.SESSION_PATH Peers.SESSION_BUS) in
  perform (S:=Owners) (ReceiveOwnerChanged Peers.SESSION_BUS).
End OwnerEvents.

(** ** The console's connection ([console/src/lib.rs]) *)
Module ConsoleBus.
Import Programs Console.
#[local] Open Scope prog_scope.
Inductive ConnectCall := System | BuildWith (method_timeout : Z).
Definition Connecting : Signature := {| call := ConnectCall; reply := fun _ => res unit unit |}.

Definition connect : prog Connecting (res unit ConsoleError.t) :=
  let? _ := or_error ConsoleError.StatusUnavailable (perform (S:=Connecting) System) in
  or_error ConsoleError.StatusUnavailable (perform (S:=Connecting) (BuildWith REENROLL_TIMEOUT)).

(** The connection's own deadline is never before a call's: [limits] are
    those of every kind of call. *)
Definition limits : list Z := READ_AUTH_TIMEOUT :: map lifecycle_timeout [Enable; Disable; Reenroll].

Lemma own_deadlines_first t : runs connect t (Ok tt) ->
  exists timeout, (existT (BuildWith timeout) (Ok tt) : event Connecting) ∈ t /\ Forall (fun limit => limit <= timeout) limits.
Proof.
  intros H. apply try_bind_runs in H as (t1 & [] & t2 & -> & _ & H). apply or_error_runs in H as (? & ? & -> & -> & <-).
  exists REENROLL_TIMEOUT. split; [set_solver|]. by repeat constructor.
Qed.
End ConsoleBus.

(** ** The fixture of the lifecycle tests ([management-fixture/src/main.rs]) *)
Module Fixture.
(** The lines it prints. *)
Definition main : list string := ["SignalLayer Candidate C fixture"]%string.
End Fixture.
