(* ===== verification/Lifecycle.v ===== *)
(** * Remote management, end to end

    The platform daemon's sequences among the parts they control: the worker
    and its files, the authentication service and its state, and the remote
    server, while others call the authentication service too. *)
From S2P Require Import Prelude Hash Store Machine MachineFacts MachineSpec MachineProps FileSystem FileSystemFacts RemoteState Worker WorkerFacts WorkerSpec WorkerProps WorkerModes Programs PlatformCalls Protocol PlatformRemote PlatformRemoteProps.

Module Lifecycle.
Import Hash Store Machine MachineFacts MachineSpec MachineProps FileSystem FileSystemFacts RemoteState Worker WorkerFacts WorkerSpec WorkerProps WorkerModes Programs PlatformRemote PlatformRemoteProps.

(** ** The world of the sequences *)

(** The argument each unit gives the worker: [ExecStart] of
    [image/platform/sl-rm-*.service]. *)
Definition exec_start (unit_name : string) : option (list string) :=
  if String.eqb unit_name ENABLE_UNIT then Some ["enable"]%string
  else if String.eqb unit_name DISABLE_UNIT then Some ["disable"]%string
  else if String.eqb unit_name ROTATE_UNIT then Some ["rotate-tls"]%string
  else if String.eqb unit_name CLEAR_RESET_UNIT then Some ["clear-reset-pending"]%string
  else None.

Definition op_of (c : AuthCall) : Op :=
  match c with
  | PlatformRemote.EnsurePendingPairing => MachineSpec.EnsurePendingPairing
  | PlatformRemote.CancelPendingPairing => MachineSpec.CancelPendingPairing
  | PlatformRemote.ResetEnrollment => MachineSpec.ResetEnrollment
  end.

Definition marker_name (m : Marker) : string :=
  match m with PlatformRemote.Enabled => RemoteState.ENABLED | PlatformRemote.ResetPending => RESET_PENDING end.

Section World.
Context {D : Type} `{StoreLaws D} `{HR : Hasher} (env : Env).
Context {HL : HasherLaws store_valid_hash} {EL : EnvLaws env}.
Context (io : Io) (tools : Tools) (root : string) {OL : OpensslLaws tools root} (group_id : string -> option Z).

(** The worker's state, the authentication service's with what it was asked
    and answered, and whether the remote server runs. *)
Record World := {
  worker : State;
  daemon : Core D;
  served : list (Op * res Reply Failure);
  running : bool
}.

Definition tree_at (w : World) : Files := tree_of (worker w).
Definition set_worker (st : State) (w : World) : World :=
  {| worker := st; daemon := daemon w; served := served w; running := running w |}.
Definition set_running (b : bool) (w : World) : World :=
  {| worker := worker w; daemon := daemon w; served := served w; running := b |}.

(** An operation of the authentication service, and those of others. *)
Definition performed (op : Op) (w : World) : res Reply Failure * World :=
  let (r, d) := run_op env op (daemon w) in
  (r, {| worker := worker w; daemon := d; served := (served w ++ [(op, r)])%list; running := running w |}).

Definition others (w w' : World) : Prop :=
  exists ops trace, run_all env ops (daemon w) = (trace, daemon w') /\
    w' = {| worker := worker w; daemon := daemon w'; served := (served w ++ trace)%list; running := running w |}.

(** A worker's run: to exit code 0, or stopped at any instant. *)
Definition exits (arguments : list string) (st st' : State) : Prop := Worker.main io tools root group_id arguments st = (0, st').
Definition stops (arguments : list string) (st st' : State) : Prop :=
  st' = st \/ exists code last trees, Worker.main io tools root group_id arguments st = (code, last) /\
    past (world last) = (past (world st) ++ trees)%list /\ tree_of st' ∈ (trees ++ [tree_of last])%list.

(** What a call does to the world, by its reply. *)
Definition effect (e : event Backend) (w w' : World) : Prop :=
  let '(existT c r) := e in
  match c return BackendReply c -> Prop with
  | MarkerExists m => fun r => w' = w /\ forall b, r = Ok b -> b = bool_decide (is_Some (tree_at w !! [marker_name m]))
  | RunWorker u => fun r => exists arguments st, exec_start u = Some arguments /\ w' = set_worker st w /\
      match r with Ok _ => exits arguments (worker w) st | _ => stops arguments (worker w) st end
  | StartRemoted => fun r => exists b, w' = set_running b w /\ (r = Ok tt -> b = true)
  | StopRemoted => fun r => exists b, w' = set_running b w /\ (r = Ok tt -> b = false)
  | Auth c => fun r =>
      match r with
      | Ok _ => exists reply, performed (op_of c) w = (Ok reply, w')
      | _ => w' = w \/ exists reply, performed (op_of c) w = (reply, w')
      end
  | PlatformRemote.PendingPairing => fun r =>
      match r with
      | Ok (pending, code, expires_at) =>
          performed GetPendingPairing w = (Ok (MachineSpec.PendingPairing pending code expires_at), w')
      | _ => w' = w \/ exists reply, performed GetPendingPairing w = (reply, w')
      end
  | Fingerprint => fun r => w' = w /\
      exists reader disk disk', files disk = tree_at w /\ current_fingerprint reader disk = (r, disk')
  | Acquire | Drop | Network => fun _ => w' = w
  end r.

(** The calls of a sequence, with what others ask between them. *)
Fixpoint happens (w : World) (t : list (event Backend)) (w' : World) : Prop :=
  match t with
  | [] => others w w'
  | e :: t => exists w1 w2, others w w1 /\ effect e w1 w2 /\ happens w2 t w'
  end.

(** What a successful step does. *)
Definition does (s : Step) (w w' : World) : Prop :=
  match s with
  | Checked m b => w' = w /\ b = bool_decide (is_Some (tree_at w !! [marker_name m]))
  | Ran u => exists arguments st, exec_start u = Some arguments /\ exits arguments (worker w) st /\ w' = set_worker st w
  | Started => w' = set_running true w
  | Stopped => w' = set_running false w
  | Authenticated c => exists reply, performed (op_of c) w = (Ok reply, w')
  | Took | Dropped => w' = w
  | _ => True
  end.

Fixpoint followed (w : World) (steps : list Step) (w' : World) : Prop :=
  match steps with
  | [] => others w w'
  | s :: steps => exists w1 w2, others w w1 /\ does s w1 w2 /\ followed w2 steps w'
  end.

Lemma effect_does e w w' : effect e w w' -> does (step e) w w'.
Proof.
  destruct e as [[] r]; cbn; try done.
  - by destruct r.
  - intros [-> Hr]. destruct r as [b|e|]; cbn; [|done..]. split; [done|]. by apply Hr.
  - intros (arguments & st & Hu & -> & Hst). destruct r as [[]|e|]; cbn; [|done..]. by exists arguments, st.
  - intros (b & -> & Hb). destruct r as [[]|e|]; cbn; [|done..]. by rewrite Hb.
  - intros (b & -> & Hb). destruct r as [[]|e|]; cbn; [|done..]. by rewrite Hb.
  - destruct r as [[]|e|]; cbn; done.
Qed.

Lemma happens_followed t : forall w w', happens w t w' -> followed w (map step t) w'.
Proof.
  induction t as [|e t IH]; intros w w'; cbn; [done|]. intros (w1 & w2 & Ho & He & Ht). exists w1, w2.
  split; [done|]. split; [by apply effect_does|by apply IH].
Qed.
(** ** What others can do *)
Lemma sequence_wf ops : forall c trace c', wf c -> run_all env ops c = (trace, c') -> wf c'.
Proof.
  induction ops as [|op ops IH]; intros c trace c' W Hrun; cbn [run_all] in Hrun; [by simplify_eq|].
  destruct (run_op env op c) as [r c1] eqn:Hop. destruct (run_all env ops c1) as [trace1 c2] eqn:Hall. simplify_eq.
  apply (run_refines env) in Hop as (W1 & _); [|done]. by eapply IH.
Qed.

Lemma others_spec w w' : others w w' -> wf (daemon w) ->
  worker w' = worker w /\ running w' = running w /\ wf (daemon w') /\
  exists trace, served w' = (served w ++ trace)%list /\
    forall before, provenance before (MachineFacts.auth (daemon w)) -> provenance (before ++ trace) (MachineFacts.auth (daemon w')).
Proof.
  intros (ops & trace & Hrun & ->) W. cbn. split_and!; [done|done| |].
  - by eapply sequence_wf.
  - exists trace. split; [done|]. intros before Hp. by apply (run_all_provenance env _ before _ _ _ W) in Hrun as [_ Hp'].
Qed.

Lemma performed_spec op w r w' : performed op w = (r, w') -> wf (daemon w) ->
  worker w' = worker w /\ running w' = running w /\ wf (daemon w') /\ served w' = (served w ++ [(op, r)])%list /\
  (exists a, norm (MachineFacts.auth (daemon w)) a /\ MachineSpec.effect op a r (MachineFacts.auth (daemon w'))) /\
  forall before, provenance before (MachineFacts.auth (daemon w)) -> provenance (before ++ [(op, r)]) (MachineFacts.auth (daemon w')).
Proof.
  unfold performed. intros Hp W. destruct (run_op env op (daemon w)) as [r' d] eqn:E. simplify_eq. cbn.
  destruct (run_refines env _ _ _ _ W E) as (W' & _ & a & Hn & He). split_and!; [done..| |].
  - by exists a.
  - intros before Hb. eapply provenance_effect; [|exact He]. by eapply provenance_norm.
Qed.

(** ** What a unit's run leaves *)
Context (read_link_works : forall n, fails_read_link io n = false).
Context (random_fills : forall n N bytes, random_at tools n N = Some bytes -> List.length bytes = N /\ Forall is_byte bytes).
Context (lists : lists_everything io).

(** The run of a mode behind an exit code. *)
Lemma main_runs u arguments : exec_start u = Some arguments -> exists mode, forall st,
  (main io tools root group_id arguments st = (1, st) \/
   exists ownership, (main io tools root group_id arguments st).2 = (run io tools root ownership mode st).2 /\
     ((main io tools root group_id arguments st).1 = 0 -> is_ok (run io tools root ownership mode st).1 = true)).
Proof.
  intros Hu. assert (exists mode, arguments = [Mode_name mode]) as [mode ->].
  { unfold exec_start in Hu. repeat (destruct (String.eqb _ _); [injection Hu as <-; first
      [by exists Worker.Enable|by exists Worker.Disable|by exists RotateTls|by exists ClearResetPending]|]). done. }
  exists mode. intros st. unfold main. assert (parse_mode [Mode_name mode] = Some mode) as -> by (by destruct mode).
  destruct (writes_identity mode); [destruct (group_id REMOTED_GROUP) as [gid|]; [|by left]|]; right; eexists;
    destruct (run _ _ _ _ _ st) as [[]] eqn:E; rewrite E; done.
Qed.

Definition good (w : World) : Prop := tree (tree_at w) /\ valid (tree_at w) /\ wf (daemon w).

Lemma stops_good u arguments st st' : exec_start u = Some arguments -> stops arguments st st' ->
  tree (tree_of st) -> valid (tree_of st) -> tree (tree_of st') /\ valid (tree_of st').
Proof.
  intros Hu [->|(code & last & trees & Hm & Hp & Hin)] T V; [done|].
  destruct (main_runs _ _ Hu) as [mode Hr]. destruct (Hr st) as [Hf|(ownership & Hr2 & _)].
  - rewrite Hf in Hm. simplify_eq. rewrite <- (app_nil_r (past _)) in Hp at 1. apply app_inv_head in Hp as <-.
    apply list_elem_of_singleton in Hin as ->. done.
  - destruct (run_keeps io tools root ownership read_link_works random_fills mode st T V) as (new & Hp' & Ht).
    rewrite <- Hr2, Hm in Hp', Ht. cbn [snd] in Hp', Ht. rewrite Hp in Hp'. apply app_inv_head in Hp' as ->. by apply Ht.
Qed.

Lemma exits_good u arguments st st' : exec_start u = Some arguments -> exits arguments st st' ->
  tree (tree_of st) -> valid (tree_of st) -> tree (tree_of st') /\ valid (tree_of st').
Proof.
  intros Hu He T V. unfold exits in He. destruct (main_runs _ _ Hu) as [mode Hr]. destruct (Hr st) as [Hf|(ownership & Hr2 & _)].
  - by rewrite Hf in He.
  - pose proof (keeps_end _ _ _ (run_keeps io tools root ownership read_link_works random_fills mode st T V)) as K.
    by rewrite <- Hr2, He in K.
Qed.

(** Everything leaves a good world good, the failures too. *)
Lemma effect_good e w w' : effect e w w' -> good w -> good w'.
Proof.
  intros He (T & V & W). assert (Hop : forall op r, performed op w = (r, w') -> good w').
  { intros op r (Hw & _ & W' & _)%performed_spec; [|done]. unfold good, tree_at. by rewrite Hw. }
  destruct e as [[] r]; cbn in He; try (by subst w'); try (by destruct He as [-> _]).
  - destruct He as (arguments & st & Hu & -> & Hst). unfold good, tree_at. cbn.
    enough (tree (tree_of st) /\ valid (tree_of st)) as [T' V'] by done.
    destruct r as [[]|e|]; [by eapply exits_good|by eapply stops_good..].
  - by destruct He as (b & -> & _).
  - by destruct He as (b & -> & _).
  - destruct r as [[]|e|]; [|destruct He as [->|[r Hr]]; [done|by eapply Hop]..]. destruct He as [r Hr]. by eapply Hop.
  - destruct r as [[[pending code] expires_at]|e|]; [by eapply Hop|destruct He as [->|[r Hr]]; [done|by eapply Hop]..].
Qed.

Lemma others_good w w' : others w w' -> good w -> good w'.
Proof. intros Ho (T & V & W). apply others_spec in Ho as (Hw & _ & W' & _); [|done]. unfold good, tree_at. by rewrite Hw. Qed.

Lemma happens_good t : forall w w', happens w t w' -> good w -> good w'.
Proof.
  induction t as [|e t IH]; intros w w'; cbn; [apply others_good|]. intros (w1 & w2 & Ho & He & Ht) G.
  eapply IH; [exact Ht|]. eapply effect_good; [exact He|]. by eapply others_good.
Qed.

(** ** The identity *)

(** An identity that was not there in the tree [fs], and no other. *)
Definition renewed (fs t : Files) : Prop :=
  exists g gid, group_id REMOTED_GROUP = Some gid /\ named t g /\ complete t g /\ protected t g gid /\ ~ named fs g /\
    forall g', is_generation_name g' = true -> g' <> g -> gone t g'.

Lemma renewed_untouched fs t t' : renewed fs t -> untouched t t' -> renewed fs t'.
Proof.
  intros (g & gid & Hg & N & C & P & F & O) [Hc Hq]. assert (G : is_generation_name g = true) by apply N.
  exists g, gid. split_and!; [done| |by apply (complete_agree t); auto|by apply (protected_agree t); auto|done|].
  - by apply (named_agree _ _ _ (eq_sym Hc)).
  - intros g' Hg' Hne q. rewrite Hq by done. by apply O.
Qed.

(** The other markers are as they were. *)
Definition same_marker (name : string) (fs t : Files) : Prop := t !! [name] = fs !! [name].

(** A mode after the stale temporaries are gone. *)
Definition mode_body (ownership : Ownership) (m : Mode) : W unit :=
  match m with
  | Worker.Enable => Worker.enable io tools root ownership
  | Disable => remove_marker io tools RemoteState.ENABLED
  | RotateTls => new_identity io tools root ownership
  | BootReset => boot_reset io tools ownership
  | ClearResetPending => remove_marker io tools RESET_PENDING
  end.

Lemma run_parts ownership m st u st' : run io tools root ownership m st = (Ok u, st') -> tree (tree_of st) -> valid (tree_of st) ->
  exists st1, mode_body ownership m st1 = (Ok u, st') /\ tree (tree_of st1) /\ valid (tree_of st1) /\ untouched (tree_of st) (tree_of st1) /\
    same_marker RemoteState.ENABLED (tree_of st) (tree_of st1) /\ same_marker RESET_PENDING (tree_of st) (tree_of st1).
Proof.
  intros Hrun T V. unfold run in Hrun. inv_bind Hrun. destruct (stale_end io _ _ _ T V Hm) as (T1 & V1 & E1 & M1).
  destruct (frame_end _ _ _ _ _ (remove_stale_frame io _ st) Hm T) as [_ E].
  destruct r as [v| |]; [|by destruct Hrun..]. exists c. split; [exact Hrun|].
  split_and!; [done|done| |by apply M1|by apply M1]. split; [done|]. intros g q Hg. apply E. intros Hp.
  repeat (apply elem_of_cons in Hp as [Hp|Hp]; [|]); [by injection Hp..|injection Hp as -> ->; by rewrite temporary_not_generation in Hg|].
  by apply elem_of_nil in Hp.
Qed.
Lemma rotated st st' : exits ["rotate-tls"%string] st st' -> tree (tree_of st) -> valid (tree_of st) ->
  renewed (tree_of st) (tree_of st') /\
  same_marker RemoteState.ENABLED (tree_of st) (tree_of st') /\ same_marker RESET_PENDING (tree_of st) (tree_of st').
Proof.
  unfold exits, main. change (parse_mode ["rotate-tls"%string]) with (Some RotateTls). cbn [writes_identity].
  destruct (group_id REMOTED_GROUP) as [gid|] eqn:Hg; [|done].
  destruct (run _ _ _ _ _ st) as [[u|e|] st1] eqn:Hrun; intros He T V; simplify_eq.
  apply run_parts in Hrun as (c & Hb & T1 & V1 & [Hc Hq] & M1 & M2); [|done..]. cbn [mode_body] in Hb.
  destruct (frame_end _ _ _ _ _ (new_identity_frame io tools root (RemotedGroup gid) random_fills c) Hb T1) as [_ E].
  destruct (new_identity_ok io tools root (RemotedGroup gid) read_link_works random_fills lists _ _ _ T1 V1 Hb)
    as (g & gid' & [= <-] & N & C & P & F & O). split_and!.
  - exists g, gid. split_and!; try done. intros Hn. apply F. by apply (named_agree _ _ _ (eq_sym Hc)).
  - unfold same_marker. rewrite E; [exact M1|]. by intros [|[q [=]]].
  - unfold same_marker. rewrite E; [exact M2|]. by intros [|[q [=]]].
Qed.

Lemma reset_cleared st st' : exits ["clear-reset-pending"%string] st st' -> tree (tree_of st) -> valid (tree_of st) ->
  untouched (tree_of st) (tree_of st') /\ same_marker RemoteState.ENABLED (tree_of st) (tree_of st') /\ ~ marked (tree_of st').
Proof.
  unfold exits, main. change (parse_mode ["clear-reset-pending"%string]) with (Some ClearResetPending). cbn [writes_identity].
  destruct (run _ _ _ _ _ st) as [[u|e|] st1] eqn:Hrun; intros He T V; simplify_eq.
  apply run_parts in Hrun as (c & Hb & T1 & V1 & [Hc Hq] & M1 & M2); [|done..]. cbn [mode_body] in Hb.
  destruct (frame_end _ _ _ _ _ (remove_marker_frame io tools RESET_PENDING c) Hb T1) as [_ E].
  apply remove_marker_ok in Hb; [|done]. split_and!.
  - split; [by rewrite E|]. intros g q Hg. rewrite E by done. by apply Hq.
  - unfold same_marker. by rewrite E.
  - unfold marked. rewrite Hb. by intros [].
Qed.

(** ** The credentials *)

(** The enrollment was reset since [w0], and whatever is enrolled comes from
    what was asked afterwards. *)
Definition since_reset (w0 : World) (paired : bool) (w : World) : Prop :=
  exists before after, served w = (served w0 ++ before ++ (MachineSpec.ResetEnrollment, Ok MachineSpec.Done) :: after)%list /\
    provenance after (MachineFacts.auth (daemon w)) /\
    (paired = true -> (MachineSpec.EnsurePendingPairing, Ok MachineSpec.Done) ∈ after).

Lemma since_others w0 paired w w' : others w w' -> wf (daemon w) -> since_reset w0 paired w -> since_reset w0 paired w'.
Proof.
  intros Ho W (before & after & Hs & Hp & Hin). apply others_spec in Ho as (_ & _ & _ & trace & Hs' & Hp'); [|done].
  exists before, (after ++ trace)%list. split_and!; [|by apply Hp'|intros; apply elem_of_app; auto].
  by rewrite Hs', Hs, <- app_assoc, <- app_assoc.
Qed.

Lemma reset_done w0 w w' reply : performed (op_of PlatformRemote.ResetEnrollment) w = (Ok reply, w') -> wf (daemon w) ->
  (exists more, served w = (served w0 ++ more)%list) -> since_reset w0 false w'.
Proof.
  intros Hp W [more Hs]. apply performed_spec in Hp as (_ & _ & _ & Hs' & (a & _ & He) & _); [|done].
  assert (MachineFacts.auth (daemon w') = AUnenrolled false /\ reply = MachineSpec.Done) as [Ha ->] by (by inversion He).
  exists more, []. split_and!; [by rewrite Hs', Hs, <- app_assoc|by rewrite Ha|done].
Qed.

Lemma pairing_done w0 w w' reply : performed (op_of PlatformRemote.EnsurePendingPairing) w = (Ok reply, w') -> wf (daemon w) ->
  since_reset w0 false w -> since_reset w0 true w'.
Proof.
  intros Hp W (before & after & Hs & Hb & _). apply performed_spec in Hp as (_ & _ & _ & Hs' & (a & _ & He) & Hp'); [|done].
  assert (reply = MachineSpec.Done) as -> by (by inversion He).
  exists before, (after ++ [(op_of PlatformRemote.EnsurePendingPairing, Ok MachineSpec.Done)])%list.
  split_and!; [by rewrite Hs', Hs, <- app_assoc, <- app_assoc|by apply Hp'|]. intros _. apply elem_of_app. right. by left.
Qed.
(** ** The stages of a re-enrollment *)
Definition stage (w0 : World) (paired : bool) (R : Files -> Prop) (up : bool) (w : World) : Prop :=
  good w /\ running w = up /\ R (tree_at w) /\ since_reset w0 paired w.

Definition renewed_since (w0 : World) (t : Files) : Prop :=
  renewed (tree_at w0) t /\ same_marker RemoteState.ENABLED (tree_at w0) t.
Definition finished_since (w0 : World) (t : Files) : Prop := renewed_since w0 t /\ ~ marked t.

Lemma stage_others w0 paired R up w w' : others w w' -> stage w0 paired R up w -> stage w0 paired R up w'.
Proof.
  intros Ho (G & Hu & HR' & Hs). pose proof (others_good _ _ Ho G) as G'. assert (W : wf (daemon w)) by apply G.
  pose proof (since_others _ _ _ _ Ho W Hs) as Hs'. apply others_spec in Ho as (Hw & Hr & _); [|done].
  unfold stage, tree_at in *. rewrite Hw, Hr. done.
Qed.

Lemma stage_auth c w0 paired (R : Files -> Prop) up w reply w' : performed (op_of c) w = (Ok reply, w') ->
  good w -> running w = up -> R (tree_at w) -> since_reset w0 paired w' -> stage w0 paired R up w'.
Proof.
  intros Hp G Hu HR' Hs. assert (effect (existT (Auth c) (Ok tt)) w w') as He by (by exists reply).
  apply effect_good in He; [|done]. assert (W : wf (daemon w)) by apply G.
  apply performed_spec in Hp as (Hw & Hr & _); [|done]. unfold stage, tree_at in *. by rewrite Hw, Hr.
Qed.

Lemma stage_unit u w0 paired (R R' : Files -> Prop) up w w' : does (Ran u) w w' -> stage w0 paired R up w ->
  (forall arguments st, exec_start u = Some arguments -> exits arguments (worker w) st -> R' (tree_of st)) -> stage w0 paired R' up w'.
Proof.
  intros (arguments & st & Hu & Hx & ->) ((T & V & W) & Hr & _ & Hs) HR'. unfold stage, good, tree_at. cbn.
  destruct (exits_good _ _ _ _ Hu Hx T V). split_and!; try done. by eapply HR'.
Qed.

Lemma finish_stages w0 enabled pending w w' : stage w0 enabled (renewed_since w0) false w ->
  followed w (Checked PlatformRemote.ResetPending pending :: (if pending then [Ran CLEAR_RESET_UNIT] else []) ++
    (if enabled then [Started] else []) ++ [Dropped]) w' -> stage w0 enabled (finished_since w0) enabled w'.
Proof.
  intros S (w1 & w2 & O1 & [-> Hp] & Hf). apply (stage_others _ _ _ _ _ _ O1) in S. clear w O1.
  assert (exists w2, stage w0 enabled (finished_since w0) false w2 /\
    followed w2 ((if enabled then [Started] else []) ++ [Dropped]) w') as (w2 & S2 & Hf2).
  { destruct pending; cbn [app] in Hf.
    - destruct Hf as (w3 & w4 & O2 & D2 & Hf). exists w4. split; [|done]. apply (stage_others _ _ _ _ _ _ O2) in S.
      eapply stage_unit; [exact D2|exact S|]. intros arguments st Hu Hx. injection Hu as <-.
      destruct S as ((T & V & _) & _ & [Hn Hm] & _). apply reset_cleared in Hx as (U & M & N); [|done..].
      split; [|done]. split; [by eapply renewed_untouched|]. unfold same_marker in *. by rewrite M.
    - exists w1. split; [|done]. destruct S as (G & Hr & HR' & Hs). split_and!; try done.
      symmetry in Hp. by apply bool_decide_eq_false in Hp. }
  clear w1 S Hp Hf. destruct enabled; cbn [app] in Hf2.
  - destruct Hf2 as (w3 & w4 & O3 & -> & w5 & w6 & O5 & -> & O6). apply (stage_others _ _ _ _ _ _ O3) in S2.
    eapply stage_others; [exact O6|]. eapply stage_others; [exact O5|]. by destruct S2 as (G & _ & HR' & Hs).
  - destruct Hf2 as (w5 & w6 & O5 & -> & O6). eapply stage_others; [exact O6|]. by eapply stage_others.
Qed.

Lemma reenroll_stages w0 w w' enabled pending : good w -> worker w = worker w0 -> (exists more, served w = (served w0 ++ more)%list) ->
  followed w (reenroll_plan enabled pending ++ [Dropped]) w' ->
  enabled = bool_decide (is_Some (tree_at w0 !! [RemoteState.ENABLED])) /\ stage w0 enabled (finished_since w0) enabled w'.
Proof.
  intros G Hw [more Hs] Hf. unfold reenroll_plan in Hf.
  destruct Hf as (w1 & w2 & O1 & -> & w3 & w4 & O2 & [r1 D2] & w5 & w6 & O3 & D3 & w7 & w8 & O4 & [-> He] & Hf).
  assert (S4 : stage w0 false (eq (tree_at w0)) false w4).
  { pose proof (others_good _ _ O1 G) as G1. apply others_spec in O1 as (Hw1 & _ & _ & t1 & Hs1 & _); [|apply G].
    pose proof (others_good _ _ O2 G1) as G3. apply others_spec in O2 as (Hw3 & Hr3 & _ & t3 & Hs3 & _); [|apply G1].
    cbn in Hw3, Hr3, Hs3. apply (stage_auth _ _ _ _ _ _ _ _ D2); [done|done|by unfold tree_at; rewrite Hw3, Hw1, Hw|].
    eapply reset_done; [exact D2|apply G3|]. eexists. by rewrite Hs3, Hs1, Hs, <- !app_assoc. }
  assert (S7 : stage w0 false (renewed_since w0) false w7).
  { eapply stage_others; [exact O4|]. pose proof (stage_others _ _ _ _ _ _ O3 S4) as S5.
    eapply stage_unit; [exact D3|exact S5|]. intros arguments st Hu Hx. injection Hu as <-.
    destruct S5 as ((T & V & _) & _ & HR' & _). apply rotated in Hx as (N & M & _); [|done..].
    unfold renewed_since. rewrite HR'. done. }
  assert (enabled = bool_decide (is_Some (tree_at w0 !! [RemoteState.ENABLED]))) as Hen.
  { rewrite He. destruct S7 as (_ & _ & [_ M] & _). unfold same_marker in M. cbn [marker_name]. by rewrite M. }
  split; [exact Hen|]. clear Hen He w1 w3 w4 w5 w6 G Hw Hs O1 O2 O3 O4 D2 D3 S4.
  destruct enabled; cbn [app] in Hf; rewrite <- ?app_assoc in Hf.
  - destruct Hf as (w8 & w9 & O5 & [r2 D5] & Hf). apply (stage_others _ _ _ _ _ _ O5) in S7.
    eapply finish_stages; [|exact Hf]. destruct S7 as (G & Hr & HR' & Hs). eapply stage_auth; [exact D5|done..|].
    eapply pairing_done; [exact D5|apply G|exact Hs].
  - eapply finish_stages; [exact S7|exact Hf].
Qed.

(** ** Enabling and disabling *)
Lemma enabled_by st st' : exits ["enable"%string] st st' -> tree (tree_of st) -> valid (tree_of st) ->
  is_Some (tree_of st' !! [RemoteState.ENABLED]) /\ ~ marked (tree_of st') /\ exists g, named (tree_of st') g /\ complete (tree_of st') g.
Proof.
  unfold exits, main. change (parse_mode ["enable"%string]) with (Some Worker.Enable). cbn [writes_identity].
  destruct (group_id REMOTED_GROUP) as [gid|] eqn:Hg; [|done].
  destruct (run _ _ _ _ _ st) as [[u|e|] st1] eqn:Hrun; intros He T V; simplify_eq.
  apply run_parts in Hrun as (c & Hb & T1 & V1 & _); [|done..]. cbn [mode_body] in Hb.
  apply enable_ok in Hb as (_ & M & N & g & Hn & C & _); [|done..]. split_and!; [done|done|]. by exists g.
Qed.

Lemma disabled_by st st' : exits ["disable"%string] st st' -> tree (tree_of st) -> valid (tree_of st) ->
  tree_of st' !! [RemoteState.ENABLED] = None /\ untouched (tree_of st) (tree_of st').
Proof.
  unfold exits, main. change (parse_mode ["disable"%string]) with (Some Disable). cbn [writes_identity].
  destruct (run _ _ _ _ _ st) as [[u|e|] st1] eqn:Hrun; intros He T V; simplify_eq.
  apply run_parts in Hrun as (c & Hb & T1 & V1 & [Hc Hq] & _); [|done..]. cbn [mode_body] in Hb.
  destruct (frame_end _ _ _ _ _ (remove_marker_frame io tools RemoteState.ENABLED c) Hb T1) as [_ E].
  apply remove_marker_ok in Hb; [|done]. split; [done|]. split; [by rewrite E|]. intros g q Hg. rewrite E by done. by apply Hq.
Qed.

(** The files, and whether the server runs, stay as they are while others
    ask and the authentication service answers. *)
Definition settled_as (R : Files -> Prop) (up : option bool) (w : World) : Prop :=
  good w /\ R (tree_at w) /\ forall b, up = Some b -> running w = b.

Lemma settled_others R up w w' : others w w' -> settled_as R up w -> settled_as R up w'.
Proof.
  intros Ho (G & HR' & Hu). pose proof (others_good _ _ Ho G) as G'. apply others_spec in Ho as (Hw & Hr & _); [|apply G].
  unfold settled_as, tree_at in *. by rewrite Hw, Hr.
Qed.

Lemma settled_auth c R up w w' : does (Authenticated c) w w' -> settled_as R up w -> settled_as R up w'.
Proof.
  intros [reply Hp] (G & HR' & Hu). assert (effect (existT (Auth c) (Ok tt)) w w') as He by (by exists reply).
  apply effect_good in He; [|done]. apply performed_spec in Hp as (Hw & Hr & _); [|apply G].
  unfold settled_as, tree_at in *. by rewrite Hw, Hr.
Qed.

Lemma settled_unit u (R R' : Files -> Prop) up w w' : does (Ran u) w w' -> settled_as R up w ->
  (forall arguments st, exec_start u = Some arguments -> exits arguments (worker w) st -> R' (tree_of st)) -> settled_as R' up w'.
Proof.
  intros (arguments & st & Hu & Hx & ->) ((T & V & W) & _ & Hr) HR'. unfold settled_as, good, tree_at. cbn.
  destruct (exits_good _ _ _ _ Hu Hx T V). split_and!; try done. by eapply HR'.
Qed.

Lemma settled_running b R up w w' : w' = set_running b w -> settled_as R up w -> settled_as R (Some b) w'.
Proof. intros -> (G & HR' & _). split_and!; [done|done|]. by intros ? [= <-]. Qed.

Definition exposed (t : Files) : Prop :=
  is_Some (t !! [RemoteState.ENABLED]) /\ ~ marked t /\ exists g, named t g /\ complete t g.
Definition hidden (fs t : Files) : Prop := t !! [RemoteState.ENABLED] = None /\ untouched fs t.

Lemma enable_settles w w' : good w -> followed w ([Ran ENABLE_UNIT; Authenticated PlatformRemote.EnsurePendingPairing; Started; Dropped]) w' ->
  settled_as exposed (Some true) w'.
Proof.
  intros G (w1 & w2 & O1 & D1 & w3 & w4 & O2 & D2 & w5 & w6 & O3 & D3 & w7 & w8 & O4 & -> & O5).
  eapply settled_others; [exact O5|]. eapply settled_others; [exact O4|]. eapply settled_running; [exact D3|].
  eapply settled_others; [exact O3|]. eapply settled_auth; [exact D2|]. eapply settled_others; [exact O2|].
  pose proof (others_good _ _ O1 G) as G1. eapply (settled_unit _ (fun _ => True) _ None); [exact D1|by split_and!|].
  intros arguments st Hu Hx. injection Hu as <-. apply enabled_by in Hx; [exact Hx|apply G1..].
Qed.

Lemma disable_settles w w' : good w -> followed w (disable_plan ++ [Dropped]) w' -> settled_as (hidden (tree_at w)) (Some false) w'.
Proof.
  intros G (w1 & w2 & O1 & D1 & w3 & w4 & O2 & D2 & w5 & w6 & O3 & D3 & w7 & w8 & O4 & -> & O5).
  eapply settled_others; [exact O5|]. eapply settled_others; [exact O4|]. eapply settled_auth; [exact D3|].
  eapply settled_others; [exact O3|]. eapply settled_running; [exact D2|]. eapply settled_others; [exact O2|].
  pose proof (others_good _ _ O1 G) as G1. apply others_spec in O1 as (Hw & _); [|apply G].
  eapply (settled_unit _ (fun _ => True) _ None); [exact D1|by split_and!|].
  intros arguments st Hu Hx. injection Hu as <-. unfold tree_at in *. rewrite <- Hw. apply disabled_by in Hx; [exact Hx|apply G1..].
Qed.

End World.
End Lifecycle.
