(* ===== verification/Enrollment.v ===== *)
(** * What the operator is shown

    The enrollment the platform daemon reports, in the world of
    [Lifecycle.v]: its address is one the remote server listens on, its
    fingerprint that of the identity in use, and its code the one that
    enrolls. *)
From S2P Require Import Prelude Codes Hash Store Machine MachineFacts MachineSpec MachineProps MachineLive FileSystem FileSystemFacts RemoteState Worker WorkerFacts WorkerSpec WorkerProps WorkerModes IpAddr Protocol Programs PlatformCalls PlatformRemote PlatformRemoteProps Network Lifecycle.

Module Enrollment.
Import Hash Store Machine MachineFacts MachineSpec MachineProps MachineLive FileSystem FileSystemFacts RemoteState Worker WorkerFacts WorkerSpec Programs PlatformRemote Network Lifecycle.

(** ** The fingerprint *)

(** The fingerprint [fp] of the identity in use, or none without one. *)
Definition fingerprint_in_use (fs : Files) (fp : option string) : Prop :=
  match fp with
  | None => fs !! tls [CURRENT] = None
  | Some fp => exists g n contents, named fs g /\ fs !! tls [g; FINGERPRINT_FILE] = Some n /\
      kind n = Regular contents /\ parse_fingerprint_file contents = Some fp
  end.

Lemma generation_in_use io w r w' : tree (files w) -> current_generation io w = (Ok r, w') ->
  files w' = files w /\ match r with Some g => named (files w) g | None => files w !! tls [CURRENT] = None end.
Proof.
  intros T. unfold current_generation, bind, attempt, read_link, call_failing. destruct (fails_read_link io _); [done|].
  destruct (files w !! tls [CURRENT]) as [n|] eqn:Hn.
  - rewrite (resolve_present _ _ _ T), Hn by (by exists n). destruct n as [[| |target] m gr]; simpl; [done..|].
    destruct (is_generation_name target) eqn:Hg; [|done]. intros H. unfold ret in H. simplify_eq.
    split; [done|]. split; [|done]. by eexists.
  - unfold resolve. rewrite Hn. destruct (reach _ _); simpl; intros H; unfold ret in H; by simplify_eq.
Qed.

Lemma current_fingerprint_ok io w r w' : tree (files w) -> current_fingerprint io w = (Ok r, w') -> fingerprint_in_use (files w) r.
Proof.
  intros T H. unfold current_fingerprint in H. inv_bind H. destruct r0 as [generation|e|]; [|by destruct H..].
  apply generation_in_use in Hm as [E Hg]; [|done]. destruct generation as [g|]; [|unfold ret in H; by simplify_eq].
  inv_bind H. destruct r0 as [contents|e|]; [|by destruct H..]. unfold or_fail in Hm.
  destruct (read io _ c) as [[contents'|e|] c1] eqn:Hr; simplify_eq/=. apply call_ok in Hr as (Hr & _).
  apply resolve_ok in Hr as [_ Hr]. rewrite E in Hr.
  destruct (files w !! tls [g; FINGERPRINT_FILE]) as [[k m gr]|] eqn:Hn; [|done]. destruct k; simplify_eq/=.
  destruct (parse_fingerprint_file contents) as [fp|] eqn:Hf; unfold ret, fail in H; simplify_eq.
  by exists g, {| kind := Regular contents; mode := m; group := gr |}, contents.
Qed.

(** ** The code *)
Section Shown.
Context {D : Type} `{StoreLaws D} `{HR : Hasher} (env : Env).
Context {HL : HasherLaws store_valid_hash} {EL : EnvLaws env}.

(** What the service says of a pairing, of the state it leaves. *)
Lemma pending_pairing_run c pending text at_ c' :
  run_op env GetPendingPairing c = (Ok (MachineSpec.PendingPairing pending text at_), c') ->
  if pending then exists q, pairing c' = Some q /\ Codes.encode_pairing_code (code q) = Ok text /\ at_ = expires_at q
  else pairing c' = None.
Proof.
  unfold run_op. intros Hrun. apply replying_inv in Hrun as (r & Hrun & Hr). unfold get_pending_pairing in Hrun.
  inv_bind Hrun. destruct r0 as [u|e|]; [|destruct Hrun as [-> _]; done..]. rewrite bind_get in Hrun.
  destruct (pairing c0) as [q|] eqn:Hq; [|unfold ret in Hrun; by simplify_eq/=].
  destruct (Codes.encode_pairing_code (code q)) as [t|e|] eqn:Ht; [|unfold bind, lift in Hrun; simplify_eq/=..].
  rewrite bind_lift in Hrun. unfold ret in Hrun. simplify_eq/=. by exists q.
Qed.
Context (io : Io) (tools : Tools) (root : string) {OL : OpensslLaws tools root} (group_id : string -> option Z).
Context (read_link_works : forall n, fails_read_link io n = false).
Context (random_fills : forall n N bytes, random_at tools n N = Some bytes -> List.length bytes = N /\ Forall is_byte bytes).
Context (lists : WorkerProps.lists_everything io).

Local Abbreviation performed := (performed env).
Local Abbreviation others := (others env).
Local Abbreviation happens := (happens env io tools root group_id).

Lemma run_all_app ops ops' : forall c, run_all env (ops ++ ops') c =
  let (trace, c1) := run_all env ops c in let (trace', c2) := run_all env ops' c1 in ((trace ++ trace')%list, c2).
Proof.
  induction ops as [|op ops IH]; intros c; cbn [app run_all]; [by destruct (run_all env ops' c)|].
  destruct (run_op env op c) as [r c1]. rewrite IH. destruct (run_all env ops c1) as [t1 c2].
  by destruct (run_all env ops' c2).
Qed.

Lemma others_trans w1 w2 w3 : others w1 w2 -> others w2 w3 -> others w1 w3.
Proof.
  intros (ops & t & H1 & ->) (ops' & t' & H2 & ->). cbn in H2 |- *. exists (ops ++ ops')%list, (t ++ t')%list.
  rewrite run_all_app, H1, H2. split; [done|]. cbn. by rewrite app_assoc.
Qed.

(** What the remote server listens on for this network, and the address shown. *)
Definition address_shown (network : Protocol.NetworkStatus) (url : string) : Prop :=
  forall view, view_from_fields {| schema_version := SESSION_SCHEMA;
      primary_addresses := Protocol.addresses <$> Protocol.primary_connection network |} = Ok view ->
    (listen view = [] /\ url = EmptyString) \/
    exists a, a ∈ listen view /\ url = "https://" +:+ endpoint a PORT +:+ "/".

Lemma address_of network : address_shown network (enrollment_url network).
Proof.
  intros view Hv. destruct (Protocol.primary_connection network) as [primary|] eqn:Hp; [by eapply url_is_served|].
  unfold view_from_fields in Hv. cbn in Hv. simplify_eq. left. unfold enrollment_url. by rewrite Hp.
Qed.

(** The code shown: there is no pairing and none is shown; or it is that of
    the pairing, no other text pairs, and it does when the system works. *)
Definition code_shown (text : string) (expires : Z) (w : World) : Prop :=
  match pairing (daemon w) with
  | None => text = EmptyString /\ expires = 0
  | Some q =>
      Codes.parse_pairing_code text = Ok (code q) /\ expires = expires_at q /\
      (forall other pw key w', performed (ConsumePairing other pw) w = (Ok (RecoveryKey key), w') ->
         Codes.parse_pairing_code other = Ok (code q)) /\
      (forall usable boot0 wall0, Working env usable boot0 wall0 -> live env usable boot0 (daemon w) ->
         forall pw, acceptable pw -> exists key w', performed (ConsumePairing text pw) w = (Ok (RecoveryKey key), w'))
  end.

Lemma code_of w pending text at_ w' : wf (daemon w) ->
  performed GetPendingPairing w = (Ok (MachineSpec.PendingPairing pending text at_), w') ->
  code_shown (if pending then text else EmptyString) (if pending then at_ else 0) w'.
Proof.
  intros W Hp. pose proof (performed_spec _ _ _ _ _ Hp W) as (_ & _ & W' & _). unfold Lifecycle.performed in Hp.
  destruct (run_op env GetPendingPairing (daemon w)) as [r d] eqn:Hrun. injection Hp as -> <-. cbn [daemon] in *.
  apply pending_pairing_run in Hrun. unfold code_shown. cbn [daemon]. destruct pending; [|by rewrite Hrun].
  destruct Hrun as (q & Hq & Ht & ->). rewrite Hq. destruct (wf_pairing _ W' _ Hq) as (Hu & _ & Hl & Hb & _).
  destruct (code_accepted q text Hb Hl Ht) as [Hc _]. split; [exact Hc|]. split; [done|]. split.
  - intros other pw key w2 Hp2. pose proof (performed_spec env _ _ _ _ Hp2 W') as (_ & _ & _ & _ & (a & Hn & He) & _). cbn [daemon] in Hn.
    unfold MachineFacts.auth in Hn. rewrite Hu, Hq in Hn. inversion He; subst. by inversion Hn; subst.
  - intros usable boot0 wall0 WK L pw Ha. destruct (consume_live env usable boot0 wall0 d q text pw L Hq Ha Ht)
      as (c' & key & ph & rh & dl & k & Hc' & _). exists key. eexists. unfold Lifecycle.performed. cbn [daemon]. by rewrite Hc'.
Qed.

Lemma enrollment_calls t url fp text at_ : runs enrollment t (Ok (url, fp, text, at_)) ->
  exists network f (pending : bool) (text' : string) (at' : Z), url = enrollment_url network /\ fp = default EmptyString f /\
    text = (if pending then text' else EmptyString) /\ at_ = (if pending then at' else 0) /\
    t = ([existT Acquire true; existT Network (Ok network); existT Fingerprint (Ok f);
         existT PlatformRemote.PendingPairing (Ok (pending : bool, text', at')); existT Drop tt] : list (event Backend)).
Proof.
  intros Hr. destruct Hr as ([] & t1 & -> & Hr); cbn in Hr; [|by destruct Hr].
  destruct Hr as ([network|e|] & t2 & -> & Hr); cbn in Hr; [|by destruct Hr as ([] & ? & ? & ? & ?)..].
  destruct Hr as ([f|e|] & t3 & -> & Hr); cbn in Hr; [|by destruct Hr as ([] & ? & ? & ? & ?)..].
  destruct Hr as ([[[pending text'] at']|e|] & t4 & -> & Hr); cbn in Hr; [|by destruct Hr as ([] & ? & ? & ? & ?)..].
  exists network, f, pending, text', at'. destruct pending; [destruct (negb _ || _)|].
  all: destruct Hr as ([] & t5 & -> & -> & [=]); subst; (split_and!; [done|by destruct f|done..]).
Qed.

(** C9. The enrollment screen is true.  Whatever others ask of the
    authentication service meanwhile, when the platform daemon reports an
    enrollment: the address is one the remote server listens on for the
    network reported, or empty when it listens on none; the fingerprint is
    that of the one complete identity in use, which the report leaves in
    use, or empty without one; and at the moment the service answered, the
    code was that of the pending pairing, with its deadline, the only one to
    pair with and good for it when the system works, or there was no pairing
    and none is shown. *)
Theorem shown_enrollment_is_true w t url fp text at_ w' : good w ->
  runs enrollment t (Ok (url, fp, text, at_)) -> happens w t w' ->
  tree_at w' = tree_at w /\
  (exists network, (existT Network (Ok network) : event Backend) ∈ t /\ address_shown network url) /\
  (exists f, fingerprint_in_use (tree_at w') f /\ fp = default EmptyString f) /\
  exists moment more, code_shown text at_ moment /\ others moment w' /\ served moment = (served w ++ more)%list.
Proof.
  intros G Hr Hh. apply enrollment_calls in Hr as (network & f & pending & text' & at' & -> & -> & -> & -> & ->).
  destruct Hh as (w1 & w2 & O1 & -> & w3 & w4 & O2 & -> & w5 & w6 & O3 & [-> Hf] & w7 & w8 & O4 & Hp & w9 & w10 & O5 & -> & O6).
  pose proof (others_trans _ _ _ O1 (others_trans _ _ _ O2 (others_trans _ _ _ O3 O4))) as O7.
  pose proof (others_trans _ _ _ O1 (others_trans _ _ _ O2 O3)) as Oa. pose proof (others_trans _ _ _ O5 O6) as O9.
  pose proof (others_good env _ _ O7 G) as G7. pose proof (others_good env _ _ Oa G) as Ga.
  apply (others_spec env) in O7 as (E7 & _ & _ & trace & Hs & _); [|apply G]. apply (others_spec env) in Oa as (Ea & _); [|apply G].
  pose proof (performed_spec env _ _ _ _ Hp (proj2 (proj2 G7))) as (E8 & _ & W8 & Hs8 & _).
  pose proof (others_spec env _ _ O9 W8) as (E9 & _). assert (worker w' = worker w) as Ew by congruence.
  assert (tree_at w' = tree_at w) as Et by (unfold tree_at; by rewrite Ew). split_and!; [exact Et| | |].
  - exists network. split; [set_solver|]. apply address_of.
  - exists f. split; [|done]. destruct Hf as (reader & disk & disk' & Hd & Hf). rewrite Et.
    apply current_fingerprint_ok in Hf; [|rewrite Hd; apply Ga]. rewrite Hd in Hf. unfold tree_at in *. by rewrite Ea in Hf.
  - exists w8. eexists. split; [|split; [exact O9|by rewrite Hs8, Hs, <- app_assoc]]. eapply code_of; [apply G7|exact Hp].
Qed.
End Shown.
End Enrollment.
