(* ===== verification/LifecycleExamples.v ===== *)
(** * The lifecycle and the enrollment at work *)
From S2P Require Import Prelude Hash Store Machine MachineFacts MachineSpec MachineProps MachineExamples FileSystem FileSystemFacts RemoteState Worker WorkerFacts WorkerSpec WorkerProps WorkerModes WorkerExamples Programs PlatformCalls Protocol PlatformRemote PlatformRemoteProps Lifecycle.

(** ** Remote management at work

    A re-enrollment, an enable and a disable of an enrolled appliance. *)
Module LifecycleExamples.
Import Store Machine MachineFacts MachineSpec MachineProps FileSystem FileSystemFacts RemoteState Worker WorkerSpec WorkerModes WorkerExamples Programs PlatformRemote Lifecycle.
#[local] Existing Instance Hash.toy_argon2.
#[local] Existing Instance Store.binary_json.
#[local] Existing Instance MachineExamples.toy_store.
#[local] Existing Instance MachineExamples.toy_hasher.
#[local] Existing Instance MachineExamples.toy_store_laws.
#[local] Existing Instance MachineExamples.toy_hasher_laws.
#[local] Existing Instance MachineExamples.toy_env_laws.

Definition toy_group (name : string) : option Z := if String.eqb name REMOTED_GROUP then Some 90 else None.

Local Abbreviation performed := (performed MachineExamples.toy_env).
Local Abbreviation happens := (happens MachineExamples.toy_env toy_io toy_tools toy_root toy_group).
Local Abbreviation others := (others MachineExamples.toy_env).
Local Abbreviation World := (World (D:=Store.Fs)).

(** An appliance with remote management enabled, and someone enrolled. *)
Definition enabled_files : Files := <[[RemoteState.ENABLED] := toy_node (Regular [])]> enrolled_files.
Definition at_work : World := {|
  worker := toy_state enabled_files; daemon := MachineExamples.after MachineExamples.enrolled_ops; served := []; running := true |}.

Lemma enabled_valid : valid enabled_files.
Proof.
  assert (E : forall q, enabled_files !! tls q = enrolled_files !! tls q) by (intros q; unfold enabled_files; by rewrite lookup_insert_ne).
  apply (valid_agree enrolled_files); [apply enrolled_valid|apply E|intros; apply E].
Qed.

Lemma at_work_good : good at_work.
Proof.
  split_and!; [apply treeb_ok; vm_compute; reflexivity|apply enabled_valid|apply MachineExamples.after_wf].
Qed.

(** Nothing is asked by others, or one password is tried. *)
Lemma quiet w : others w w.
Proof. exists [], []. split; [done|]. rewrite app_nil_r. by destruct w. Qed.

Definition tried (w : World) : World := (performed (VerifyPassword 1000 MachineExamples.toy_password) w).2.

Lemma one_asked op w : others w (performed op w).2.
Proof.
  unfold Lifecycle.performed. destruct (run_op MachineExamples.toy_env op (daemon w)) as [r d] eqn:E.
  exists [op], [(op, r)]. cbn [daemon snd]. split; [|done]. cbn [run_all]. by rewrite E.
Qed.

Definition ran (argument : string) (w : World) : World :=
  set_worker (Worker.main toy_io toy_tools toy_root toy_group [argument] (worker w)).2 w.

Definition stopped : World := set_running false at_work.
Definition reset : World := (performed MachineSpec.ResetEnrollment stopped).2.
Definition refused : World := tried reset.
Definition rotated : World := ran "rotate-tls" refused.
Definition paired : World := (performed MachineSpec.EnsurePendingPairing rotated).2.
Definition reenrolled : World := set_running true paired.

(** The password that was enrolled is of no use after the reset. *)
Example old_password_refused : exists e, (performed (VerifyPassword 1000 MachineExamples.toy_password) at_work).1 = Ok MachineSpec.Done /\
  (performed (VerifyPassword 1000 MachineExamples.toy_password) reset).1 = Err e.
Proof. eexists. vm_compute. done. Qed.

Definition reenroll_events : list (event Backend) := [
  existT Acquire true; existT StopRemoted (Ok tt); existT (Auth ResetEnrollment) (Ok tt); existT (RunWorker ROTATE_UNIT) (Ok tt);
  existT (MarkerExists Enabled) (Ok true); existT (Auth EnsurePendingPairing) (Ok tt);
  existT (MarkerExists PlatformRemote.ResetPending) (Ok false); existT StartRemoted (Ok tt); existT Drop tt].

Lemma reenroll_runs : runs reenroll reenroll_events (Ok tt).
Proof. repeat (eexists _, _; split; [reflexivity|]). by split. Qed.

Lemma performs c w : (performed (op_of c) w).1 = Ok MachineSpec.Done ->
  exists reply, performed (op_of c) w = (Ok reply, (performed (op_of c) w).2).
Proof. destruct (performed (op_of c) w) as [r w']. cbn. intros ->. by eexists. Qed.

Local Abbreviation effect := (effect MachineExamples.toy_env toy_io toy_tools toy_root toy_group).

Lemma unit_effect u argument w : exec_start u = Some [argument] ->
  (Worker.main toy_io toy_tools toy_root toy_group [argument] (worker w)).1 = 0 ->
  effect (existT (RunWorker u) (Ok tt)) w (ran argument w).
Proof.
  intros Hu Hx. exists [argument], (Worker.main toy_io toy_tools toy_root toy_group [argument] (worker w)).2. split; [exact Hu|].
  split; [reflexivity|]. unfold exits. destruct (Worker.main _ _ _ _ _ _) as [code st]. cbn in *. by subst.
Qed.

Lemma reenroll_happens : happens at_work reenroll_events reenrolled.
Proof.
  exists at_work, at_work. split; [apply quiet|]. split; [done|].
  exists at_work, stopped. split; [apply quiet|]. split; [by exists false|].
  exists stopped, reset. split; [apply quiet|]. split; [apply (performs ResetEnrollment); vm_compute; reflexivity|].
  exists refused, rotated. split; [apply one_asked|].
  split; [apply (unit_effect ROTATE_UNIT "rotate-tls" refused); vm_compute; reflexivity|].
  exists rotated, rotated. split; [apply quiet|]. split; [split; [done|]; intros b [= <-]; vm_compute; reflexivity|].
  exists rotated, paired. split; [apply quiet|]. split; [apply (performs EnsurePendingPairing); vm_compute; reflexivity|].
  exists paired, paired. split; [apply quiet|]. split; [split; [done|]; intros b [= <-]; vm_compute; reflexivity|].
  exists paired, reenrolled. split; [apply quiet|]. split; [by exists true|].
  exists reenrolled, reenrolled. split; [apply quiet|]. split; [done|]. apply quiet.
Qed.


(** ** An enable and a disable *)
Definition hidden_first : World := ran "disable" at_work.
Definition hidden_then : World := (performed MachineSpec.CancelPendingPairing (set_running false hidden_first)).2.
Definition disable_events : list (event Backend) := [
  existT Acquire true; existT (RunWorker DISABLE_UNIT) (Ok tt); existT StopRemoted (Ok tt);
  existT (Auth CancelPendingPairing) (Ok tt); existT Drop tt].

Lemma disable_happens : happens at_work disable_events hidden_then.
Proof.
  exists at_work, at_work. split; [apply quiet|]. split; [done|].
  exists at_work, hidden_first. split; [apply quiet|].
  split; [apply (unit_effect DISABLE_UNIT "disable" at_work); vm_compute; reflexivity|].
  exists hidden_first, (set_running false hidden_first). split; [apply quiet|]. split; [by exists false|].
  exists (set_running false hidden_first), hidden_then. split; [apply quiet|].
  split; [apply (performs CancelPendingPairing); vm_compute; reflexivity|].
  exists hidden_then, hidden_then. split; [apply quiet|]. split; [done|]. apply quiet.
Qed.

Lemma disable_runs : runs disable disable_events (Ok tt).
Proof. repeat (eexists _, _; split; [reflexivity|]). by split. Qed.

End LifecycleExamples.

From S2P Require Import Prelude Hash Store Machine MachineFacts MachineSpec MachineProps MachineExamples FileSystem FileSystemFacts RemoteState Worker WorkerFacts WorkerProps WorkerExamples Programs Protocol PlatformRemote Network Lifecycle Enrollment.

(** ** What the operator is shown, at work

    The enrollment of an appliance with a pairing pending, reported while
    someone else tries a password. *)
Module EnrollmentExamples.
Import Store Machine MachineFacts MachineSpec MachineProps FileSystem FileSystemFacts RemoteState Worker WorkerExamples Programs PlatformRemote Lifecycle LifecycleExamples Enrollment.
#[local] Existing Instance Hash.toy_argon2.
#[local] Existing Instance Store.binary_json.
#[local] Existing Instance MachineExamples.toy_store.
#[local] Existing Instance MachineExamples.toy_hasher.
#[local] Existing Instance MachineExamples.toy_store_laws.
#[local] Existing Instance MachineExamples.toy_hasher_laws.
#[local] Existing Instance MachineExamples.toy_env_laws.

Local Abbreviation World := (World (D:=Store.Fs)).
Local Abbreviation happens := (happens MachineExamples.toy_env toy_io toy_tools toy_root toy_group).

(** An enabled appliance with a pairing pending. *)
Definition waiting : World := {|
  worker := toy_state enabled_files; daemon := MachineExamples.after [MachineSpec.EnsurePendingPairing]; served := []; running := true |}.

Lemma waiting_good : good waiting.
Proof. split_and!; [apply treeb_ok; vm_compute; reflexivity|apply enabled_valid|apply MachineExamples.after_wf]. Qed.

Definition toy_network : Protocol.NetworkStatus := {|
  Protocol.state := Protocol.NetworkState.ConnectedGlobal;
  Protocol.primary_connection := Some {| Protocol.interface := "end0"; Protocol.addresses := ["192.168.1.20/24"%string]; Protocol.default_gateways := [] |} |}.

Definition shown_events : list (event Backend) := [
  existT Acquire true; existT Network (Ok toy_network); existT Fingerprint (Ok (Some toy_fingerprint));
  existT PlatformRemote.PendingPairing (Ok (true, MachineExamples.toy_code, 1600)); existT Drop tt].

Lemma shown_runs : runs enrollment shown_events (Ok ("https://192.168.1.20:8443/"%string, toy_fingerprint, MachineExamples.toy_code, 1600)).
Proof. do 4 (eexists _, _; split; [reflexivity|]). vm_compute. eexists _, _. split; [reflexivity|]. by split. Qed.

Definition asked : World := tried waiting.
Definition answered : World := (performed MachineExamples.toy_env GetPendingPairing asked).2.

Lemma shown_happens : happens waiting shown_events answered.
Proof.
  exists waiting, waiting. split; [apply quiet|]. split; [done|].
  exists waiting, waiting. split; [apply quiet|]. split; [done|].
  exists waiting, waiting. split; [apply quiet|]. split.
  { split; [done|]. exists toy_io, (world (toy_state enabled_files)), (current_fingerprint toy_io (world (toy_state enabled_files))).2.
    split; [reflexivity|]. vm_compute. reflexivity. }
  exists asked, answered. split; [apply one_asked|]. split; [vm_compute; reflexivity|].
  exists answered, answered. split; [apply quiet|]. split; [done|]. apply quiet.
Qed.

Lemma shown_enrollment_is_true_witness :
  tree_at answered = tree_at waiting /\
  (exists f, fingerprint_in_use (tree_at answered) f /\ toy_fingerprint = default EmptyString f) /\
  exists moment, code_shown MachineExamples.toy_env MachineExamples.toy_code 1600 moment.
Proof.
  destruct (shown_enrollment_is_true MachineExamples.toy_env toy_io toy_tools toy_root toy_group toy_reads toy_random toy_lists
    waiting shown_events _ _ _ _ answered waiting_good shown_runs shown_happens) as (T & _ & F & m & _ & S & _).
  split; [exact T|]. split; [exact F|]. exists m. exact S.
Defined.
End EnrollmentExamples.
