(* ===== verification/UnitTests.v ===== *)
(** * The repository's unit tests

    The vocabulary of the tests written beside the code (the [mod tests] of
    its files), which the [*Tests.v] files run on the model: a test is a
    boolean, and it passes when it is [true].  A test that panics, by a failed
    assertion or an [unwrap], is [false]. *)
From S2P Require Import Prelude.

(** [assert_eq!], [assert_ne!], and an assertion at each element. *)
Definition assert_eq {A} `{EqDecision A} (left right : A) : bool := bool_decide (left = right).
Definition assert_ne {A} `{EqDecision A} (left right : A) : bool := negb (bool_decide (left = right)).
Definition for_each {A} (l : list A) (body : A -> bool) : bool := forallb body l.

(** [unwrap] of a result and of an option. *)
Definition unwrapping {A E} (r : res A E) (k : A -> bool) : bool := match r with Ok a => k a | _ => false end.
Definition unwrapping_some {A} (o : option A) (k : A -> bool) : bool := match o with Some a => k a | None => false end.

Notation "'unwrap!' x ':=' r 'in' k" := (unwrapping r (fun x => k))
  (at level 10, x pattern, r at level 100, k at level 200) : rust_scope.
Notation "'some!' x ':=' r 'in' k" := (unwrapping_some r (fun x => k))
  (at level 10, x pattern, r at level 100, k at level 200) : rust_scope.

(** [str::contains], [str::repeat], [str::replacen(_, _, 1)] and [str::replace] *)
Fixpoint contains (pattern s : string) : bool :=
  String.prefix pattern s || match s with EmptyString => false | String _ rest => contains pattern rest end.

Fixpoint repeat_str (n : nat) (s : string) : string :=
  match n with O => EmptyString | S n => s +:+ repeat_str n s end.

Fixpoint replace_first (pattern by_ s : string) : string :=
  match strip_prefix pattern s with
  | Some rest => by_ +:+ rest
  | None => match s with EmptyString => EmptyString | String c rest => String c (replace_first pattern by_ rest) end
  end.

(** [s.replace(pattern, ..)] of a one-character pattern *)
Fixpoint replace_char (pattern : ascii) (by_ s : string) : string :=
  match s with
  | EmptyString => EmptyString
  | String c rest => (if Ascii.eqb c pattern then by_ else String c EmptyString) +:+ replace_char pattern by_ rest
  end.

(** Every element passes. *)
Lemma for_each_spec {A} (l : list A) body : for_each l body = true <-> Forall (fun a => body a = true) l.
Proof. unfold for_each. rewrite forallb_forall, Forall_forall. setoid_rewrite list_elem_of_In. done. Qed.

Lemma assert_eq_spec {A} `{EqDecision A} (a b : A) : assert_eq a b = true <-> a = b.
Proof. apply bool_decide_eq_true. Qed.

Lemma assert_eq_refl {A} `{EqDecision A} (a : A) : assert_eq a a = true.
Proof. by apply assert_eq_spec. Qed.

(** [to_be_bytes] of an unsigned integer of [n] bytes *)
Definition to_be_bytes (n : nat) (v : Z) : list Z :=
  map (fun i => Z.land (Z.shiftr v (8 * Z.of_nat (n - 1 - i))) 255) (seq 0 n).

Lemma to_be_bytes_ok n v : List.length (to_be_bytes n v) = n /\ Forall is_byte (to_be_bytes n v).
Proof.
  unfold to_be_bytes. split; [by rewrite length_map, length_seq|]. apply Forall_map, Forall_true. intros i. unfold is_byte.
  change 255 with (Z.ones 8). rewrite Z.land_ones by lia. change (2 ^ 8) with 256.
  generalize (Z.shiftr v (8 * Z.of_nat (n - 1 - i))). intros x. pose proof (Z.mod_pos_bound x 256). lia.
Qed.
