(* ===== verification/Wire.v ===== *)
(** * JSON documents and the wire format

    The documents of serde_json, and what the [derive]s of
    [crates/protocol/src/lib.rs] make of them. *)
From S2P Require Import Prelude.

(** ** JSON documents

    The values serde_json reads and writes, and what the code does with
    them.  The text of a document is the library's: that it reads back what
    it printed is all the development knows of it. *)
Module Documents.

(** [serde_json::Value], with the entries of an object as they stand in the
    text; [Real] is a number that is not an integer of 64 bits. *)
Inductive Value :=
  | Null
  | Bool (b : bool)
  | Number (n : Z)
  | Real (text : string)
  | Text (s : string)
  | Array (items : list Value)
  | Object (entries : list (string * Value)).

(** Induction with the items and the entries. *)
Section Induction.
Context (P : Value -> Prop) (PNull : P Null) (PBool : forall b, P (Bool b)) (PNumber : forall n, P (Number n))
  (PReal : forall t, P (Real t)) (PText : forall s, P (Text s))
  (PArray : forall items, Forall P items -> P (Array items))
  (PObject : forall entries, Forall (fun e => P e.2) entries -> P (Object entries)).

Fixpoint Value_ind' (v : Value) : P v :=
  match v with
  | Null => PNull
  | Bool b => PBool b
  | Number n => PNumber n
  | Real t => PReal t
  | Text s => PText s
  | Array items => PArray items ((fix go l : Forall P l :=
      match l with [] => Forall_nil_2 _ | v :: l => Forall_cons_2 _ _ _ (Value_ind' v) (go l) end) items)
  | Object entries => PObject entries ((fix go l : Forall (fun e => P e.2) l :=
      match l with [] => Forall_nil_2 _ | e :: l => Forall_cons_2 _ _ _ (Value_ind' e.2) (go l) end) entries)
  end.
End Induction.

(** Values as stdpp's trees, which are countable. *)
Fixpoint tree_of (v : Value) : gen_tree (bool + Z + string) :=
  match v with
  | Null => GenNode 0 []
  | Bool b => GenLeaf (inl (inl b))
  | Number n => GenLeaf (inl (inr n))
  | Real t => GenNode 1 [GenLeaf (inr t)]
  | Text s => GenLeaf (inr s)
  | Array items => GenNode 2 (map tree_of items)
  | Object entries => GenNode 3 (map (fun '(key, v) => GenNode 4 [GenLeaf (inr key); tree_of v]) entries)
  end.

Fixpoint of_tree (t : gen_tree (bool + Z + string)) : Value :=
  match t with
  | GenLeaf (inl (inl b)) => Bool b
  | GenLeaf (inl (inr n)) => Number n
  | GenLeaf (inr s) => Text s
  | GenNode 1 [GenLeaf (inr t)] => Real t
  | GenNode 2 items => Array (map of_tree items)
  | GenNode 3 entries => Object (map (fun e =>
      match e with GenNode _ [GenLeaf (inr key); v] => (key, of_tree v) | _ => (EmptyString, Null) end) entries)
  | _ => Null
  end.

Lemma of_tree_of v : of_tree (tree_of v) = v.
Proof.
  induction v as [| | | | |items IH|entries IH] using Value_ind'; simpl; try done; f_equal; rewrite map_map.
  - induction IH; simpl; congruence.
  - induction IH as [|[key v] l Hv _ IH]; simpl in *; congruence.
Qed.

#[export] Instance Value_eq_dec : EqDecision Value.
Proof. refine (fun v w => cast_if (decide (tree_of v = tree_of w))); [rewrite <- (of_tree_of v), <- (of_tree_of w)|]; congruence. Defined.
#[export] Instance Value_countable : Countable Value := inj_countable' tree_of of_tree of_tree_of.

(** ** Access

    [value.get(key)] and [value["key"]]; [value.pointer("/a/b")]. *)
Definition get (key : string) (v : Value) : option Value :=
  match v with Object entries => snd <$> List.find (fun e => String.eqb e.1 key) entries | _ => None end.

Definition pointer (path : list string) (v : Value) : option Value := foldl (fun v key => v ≫= get key) (Some v) path.

Definition as_str (v : Value) : option string := match v with Text s => Some s | _ => None end.
Definition as_bool (v : Value) : option bool := match v with Bool b => Some b | _ => None end.
Definition as_u64 (v : Value) : option Z := match v with Number n => if (0 <=? n) && (n <=? u64_max) then Some n else None | _ => None end.
Definition is_null (v : Value) : bool := match v with Null => true | _ => false end.
Definition is_object (v : Value) : bool := match v with Object _ => true | _ => false end.

(** [value["a"]["b"] = new], which panics below something else than an object *)
Fixpoint set_entry (key : string) (v : Value) (entries : list (string * Value)) : list (string * Value) :=
  match entries with
  | [] => [(key, v)]
  | (k, old) :: entries => if String.eqb k key then (k, v) :: entries else (k, old) :: set_entry key v entries
  end.

Fixpoint set (path : list string) (new : Value) (v : Value) : option Value :=
  match path, v with
  | [], _ => Some new
  | key :: path, Object entries =>
      new ← set path new (default Null (get key v));
      Some (Object (set_entry key new entries))
  | key :: path, Null => new ← set path new Null; Some (Object [(key, new)])
  | _, _ => None
  end.

(** [value.as_object_mut().unwrap().remove(key)] at a path *)
Definition remove (path : list string) (key : string) (v : Value) : option Value :=
  match pointer path v with
  | Some (Object entries) => set path (Object (List.filter (fun e => negb (String.eqb e.1 key)) entries)) v
  | _ => None
  end.

(** ** Texts *)

(** The integers of serde_json's numbers; the keys of an object differ. *)
Definition is_i64_or_u64 (n : Z) : bool := (- 2 ^ 63 <=? n) && (n <=? u64_max).

Fixpoint printable (v : Value) : bool :=
  match v with
  | Number n => is_i64_or_u64 n
  | Real _ => false
  | Array items => forallb printable items
  | Object entries => bool_decide (NoDup entries.*1) && forallb (fun '(_, v) => printable v) entries
  | _ => true
  end.

(** [serde_json::to_string] and [serde_json::from_str] of a value. *)
Class SerdeJson := {
  print : Value -> string;
  parse : string -> option Value;
  parse_print v : printable v = true -> parse (print v) = Some v
}.

(** A text of its own for each value, in place of JSON's. *)
Fixpoint text_of_positive (p : positive) : string :=
  match p with xH => "" | xO p => String "0" (text_of_positive p) | xI p => String "1" (text_of_positive p) end.
Fixpoint positive_of_text (s : string) : option positive :=
  match s with
  | EmptyString => Some xH
  | String "0" s => xO <$> positive_of_text s
  | String "1" s => xI <$> positive_of_text s
  | _ => None
  end.

Lemma positive_of_text_of p : positive_of_text (text_of_positive p) = Some p.
Proof. induction p as [p IH|p IH|]; simpl; by rewrite ?IH. Qed.

Definition toy_serde : SerdeJson.
Proof.
  refine {| print v := text_of_positive (encode v); parse s := positive_of_text s ≫= decode |}.
  intros v _. rewrite positive_of_text_of. apply decode_encode.
Defined.
End Documents.

From S2P Require Import Prelude Protocol.

(** ** The wire format ([crates/protocol/src/lib.rs])

    What [#[derive(Serialize, Deserialize)]] makes of the types of the
    contract: the documents they are written as and those they are read
    from, with the attributes [deny_unknown_fields], [rename_all] and
    [default].  A reader finds what was written, and nothing else passes for
    a status. *)
Module Wire.
Import Documents Protocol.

(** ** The derived implementations

    [missing] is what an absent field is read as: an [Option] is [None].
    [fits] holds of the values the Rust type has. *)
Class Serde (A : Type) := {
  to_value : A -> Value;
  from_value : Value -> option A;
  missing : option A;
  fits : A -> bool
}.

Class SerdeLaws (A : Type) `{Serde A} := {
  reads_back a : fits a = true -> from_value (to_value a) = Some a;
  prints a : fits a = true -> printable (to_value a) = true
}.

#[export] Instance serde_string : Serde string :=
  {| to_value := Text; from_value := as_str; missing := None; fits _ := true |}.
#[export] Instance serde_bool : Serde bool :=
  {| to_value := Bool; from_value := as_bool; missing := None; fits _ := true |}.

(** An unsigned integer up to [max]: [u32] and [u64] are tagged types here,
    for [Z] is both. *)
Definition serde_unsigned (max : Z) : Serde Z := {|
  to_value := Number;
  from_value v := match v with Number n => if (0 <=? n) && (n <=? max) then Some n else None | _ => None end;
  missing := None;
  fits n := (0 <=? n) && (n <=? max)
|}.

#[export] Instance serde_option {A} `{Serde A} : Serde (option A) := {|
  to_value o := match o with Some a => to_value a | None => Null end;
  from_value v := match v with Null => Some None | _ => Some <$> from_value v end;
  missing := Some None;
  fits o := match o with Some a => fits a && negb (is_null (to_value a)) | None => true end
|}.

#[export] Instance serde_list {A} `{Serde A} : Serde (list A) := {|
  to_value l := Array (map to_value l);
  from_value v := match v with Array items => mapM from_value items | _ => None end;
  missing := None;
  fits l := forallb fits l
|}.

#[export] Instance serde_string_laws : SerdeLaws string.
Proof. by split. Qed.
#[export] Instance serde_bool_laws : SerdeLaws bool.
Proof. by split. Qed.

Lemma serde_unsigned_laws max : max <= u64_max -> @SerdeLaws Z (serde_unsigned max).
Proof.
  intros Hm. split; cbn; intros n Hn; [by rewrite Hn|]. unfold is_i64_or_u64. bool_hyps.
  apply andb_true_iff. split; apply Z.leb_le; lia.
Qed.

#[export] Instance serde_option_laws {A} `{SerdeLaws A} : SerdeLaws (option A).
Proof.
  split; intros [a|]; cbn; try done; intros [Ha Hn]%andb_true_iff; [|by apply prints].
  rewrite reads_back by done. by destruct (to_value a).
Qed.

#[export] Instance serde_list_laws {A} `{SerdeLaws A} : SerdeLaws (list A).
Proof.
  split; cbn; intros l Hl; induction l as [|a l IH]; cbn in *; try done; apply andb_true_iff in Hl as [Ha Hl].
  - by rewrite reads_back, IH.
  - by rewrite prints, IH.
Qed.

(** ** Enumerations

    [rename_all = snake_case] without data: the name, or an object from the
    name to nothing. *)
Definition read_variant {A} (variants : list (string * A)) (v : Value) : option A :=
  let named (s : string) := snd <$> List.find (fun e => String.eqb e.1 s) variants in
  match v with
  | Text s => named s
  | Object [(s, Null)] => named s
  | _ => None
  end.

(** ** Structures

    A field with its [#[serde(default)]].  An object gives each known field
    at most once, and no other when they are denied; an array gives the
    fields in order. *)
Record Field := { name : string; defaulted : bool }.
Definition plain (name : string) : Field := {| name := name; defaulted := false |}.
Definition default_ (name : string) : Field := {| name := name; defaulted := true |}.

Definition shape (deny : bool) (fields : list Field) (v : Value) : bool :=
  match v with
  | Object entries =>
      forallb (fun f => Nat.leb (List.length (List.filter (fun e => String.eqb e.1 (name f)) entries)) 1) fields
      && (negb deny || forallb (fun e => existsb (fun f => String.eqb (name f) e.1) fields) entries)
  | Array items => Nat.leb (List.length items) (List.length fields) && forallb defaulted (skipn (List.length items) fields)
  | _ => false
  end.

(** The field [f], the [index]-th, of a value of the right shape. *)
Definition read_field {A} `{Serde A} (index : nat) (f : Field) (v : Value) : option A :=
  match v with
  | Object _ => match get (name f) v with Some w => from_value w | None => missing end
  | Array items => match items !! index with Some w => from_value w | None => missing end
  | _ => None
  end.

Definition checked {A} (deny : bool) (fields : list Field) (v : Value) (k : option A) : option A :=
  if shape deny fields v then k else None.

(** A field of a written object is read back. *)
Lemma found {A} `{SerdeLaws A} i f entries (a : A) : get (name f) (Object entries) = Some (to_value a) -> fits a = true ->
  read_field i f (Object entries) = Some a.
Proof. intros Hg Hf. cbn [read_field]. rewrite Hg. by apply reads_back. Qed.

Lemma printable_object entries : NoDup entries.*1 -> Forall (fun e => printable e.2 = true) entries -> printable (Object entries) = true.
Proof.
  intros Hn Hp. cbn [printable]. rewrite bool_decide_true by done. cbn. induction Hp as [|[k v] l Hv Hp IH]; [done|].
  cbn in *. rewrite Hv. apply IH. by apply NoDup_cons in Hn as [_ ?].
Qed.

(** The laws of a structure, from those of its fields. *)
Ltac structure write read :=
  split; intros s Hs; cbn [fits] in Hs; repeat (apply andb_true_iff in Hs as [Hs ?]);
  [ change (read (write s) = Some s); destruct s; unfold read, write, checked;
    match goal with |- context [shape ?d ?f ?v] => replace (shape d f v) with true by reflexivity end;
    repeat (erewrite found; [cbn [mbind option_bind]|reflexivity|eassumption]); reflexivity
  | change (printable (write s) = true); unfold write; apply printable_object;
    [apply (bool_decide_unpack _); vm_compute; exact I | repeat (constructor; [cbn [snd]; apply prints; assumption|]); constructor] ].

(** ** The enumerations of the contract *)
Definition network_state_variants : list (string * NetworkState.t) := [("unknown", NetworkState.Unknown); ("disconnected", NetworkState.Disconnected); ("connecting", NetworkState.Connecting); ("connected_local", NetworkState.ConnectedLocal); ("connected_site", NetworkState.ConnectedSite); ("connected_global", NetworkState.ConnectedGlobal)]%string.
#[export] Instance serde_network_state : Serde NetworkState.t := {|
  to_value s := Text match s with | NetworkState.Unknown => "unknown" | NetworkState.Disconnected => "disconnected" | NetworkState.Connecting => "connecting" | NetworkState.ConnectedLocal => "connected_local" | NetworkState.ConnectedSite => "connected_site" | NetworkState.ConnectedGlobal => "connected_global" end;
  from_value := read_variant network_state_variants;
  missing := None;
  fits _ := true
|}.
#[export] Instance serde_network_state_laws : SerdeLaws NetworkState.t.
Proof. split; by intros []. Qed.

Definition update_state_variants : list (string * UpdateState.t) := [("idle", UpdateState.Idle); ("running", UpdateState.Running); ("staged", UpdateState.Staged); ("failed", UpdateState.Failed)]%string.
#[export] Instance serde_update_state : Serde UpdateState.t := {|
  to_value s := Text match s with | UpdateState.Idle => "idle" | UpdateState.Running => "running" | UpdateState.Staged => "staged" | UpdateState.Failed => "failed" end;
  from_value := read_variant update_state_variants;
  missing := None;
  fits _ := true
|}.
#[export] Instance serde_update_state_laws : SerdeLaws UpdateState.t.
Proof. split; by intros []. Qed.

Definition rollback_state_variants : list (string * RollbackState.t) := [("idle", RollbackState.Idle); ("running", RollbackState.Running); ("queued", RollbackState.Queued); ("failed", RollbackState.Failed)]%string.
#[export] Instance serde_rollback_state : Serde RollbackState.t := {|
  to_value s := Text match s with | RollbackState.Idle => "idle" | RollbackState.Running => "running" | RollbackState.Queued => "queued" | RollbackState.Failed => "failed" end;
  from_value := read_variant rollback_state_variants;
  missing := None;
  fits _ := true
|}.
#[export] Instance serde_rollback_state_laws : SerdeLaws RollbackState.t.
Proof. split; by intros []. Qed.

Definition health_state_variants : list (string * HealthState.t) := [("healthy", HealthState.Healthy); ("degraded", HealthState.Degraded)]%string.
#[export] Instance serde_health_state : Serde HealthState.t := {|
  to_value s := Text match s with | HealthState.Healthy => "healthy" | HealthState.Degraded => "degraded" end;
  from_value := read_variant health_state_variants;
  missing := None;
  fits _ := true
|}.
#[export] Instance serde_health_state_laws : SerdeLaws HealthState.t.
Proof. split; by intros []. Qed.

(** ** The structures of the contract *)
Section Structures.
#[local] Instance serde_u32 : Serde Z := serde_unsigned u32_max.
#[local] Instance serde_u32_laws : SerdeLaws Z.
Proof. apply serde_unsigned_laws. done. Qed.

Definition machine_fields : list Field := map plain ["machine_id"; "architecture"; "boot_id"]%string.
Definition write_machine (s : MachineStatus) : Value := Object [
    ("machine_id", to_value (machine_id s)); ("architecture", to_value (architecture s));
    ("boot_id", to_value (boot_id s))]%string.
Definition read_machine (v : Value) : option MachineStatus := checked true machine_fields v (
    f0 ← read_field 0 (plain "machine_id") v;
    f1 ← read_field 1 (plain "architecture") v;
    f2 ← read_field 2 (plain "boot_id") v;
    Some {| machine_id := f0; architecture := f1; boot_id := f2 |}).
#[export] Instance serde_machine : Serde MachineStatus := {|
  to_value := write_machine; from_value := read_machine; missing := None;
  fits s := fits (machine_id s) && fits (architecture s) && fits (boot_id s)
|}.
#[export] Instance serde_machine_laws : SerdeLaws MachineStatus.
Proof. structure write_machine read_machine. Qed.

Definition primary_fields : list Field := map plain ["interface"; "addresses"; "default_gateways"]%string.
Definition write_primary (s : PrimaryConnection) : Value := Object [
    ("interface", to_value (interface s)); ("addresses", to_value (addresses s));
    ("default_gateways", to_value (default_gateways s))]%string.
Definition read_primary (v : Value) : option PrimaryConnection := checked true primary_fields v (
    f0 ← read_field 0 (plain "interface") v;
    f1 ← read_field 1 (plain "addresses") v;
    f2 ← read_field 2 (plain "default_gateways") v;
    Some {| interface := f0; addresses := f1; default_gateways := f2 |}).
#[export] Instance serde_primary : Serde PrimaryConnection := {|
  to_value := write_primary; from_value := read_primary; missing := None;
  fits s := fits (interface s) && fits (addresses s) && fits (default_gateways s)
|}.
#[export] Instance serde_primary_laws : SerdeLaws PrimaryConnection.
Proof. structure write_primary read_primary. Qed.

Definition network_fields : list Field := map plain ["state"; "primary_connection"]%string.
Definition write_network (s : NetworkStatus) : Value := Object [
    ("state", to_value (state s)); ("primary_connection", to_value (primary_connection s))]%string.
Definition read_network (v : Value) : option NetworkStatus := checked true network_fields v (
    f0 ← read_field 0 (plain "state") v;
    f1 ← read_field 1 (plain "primary_connection") v;
    Some {| state := f0; primary_connection := f1 |}).
#[export] Instance serde_network : Serde NetworkStatus := {|
  to_value := write_network; from_value := read_network; missing := None;
  fits s := fits (state s) && fits (primary_connection s)
|}.
#[export] Instance serde_network_laws : SerdeLaws NetworkStatus.
Proof. structure write_network read_network. Qed.

Definition deployment_fields : list Field := map plain ["deployment_id"; "image_reference"; "image_digest"]%string.
Definition write_deployment (s : Deployment) : Value := Object [
    ("deployment_id", to_value (deployment_id s)); ("image_reference", to_value (image_reference s));
    ("image_digest", to_value (image_digest s))]%string.
Definition read_deployment (v : Value) : option Deployment := checked true deployment_fields v (
    f0 ← read_field 0 (plain "deployment_id") v;
    f1 ← read_field 1 (plain "image_reference") v;
    f2 ← read_field 2 (plain "image_digest") v;
    Some {| deployment_id := f0; image_reference := f1; image_digest := f2 |}).
#[export] Instance serde_deployment : Serde Deployment := {|
  to_value := write_deployment; from_value := read_deployment; missing := None;
  fits s := fits (deployment_id s) && fits (image_reference s) && fits (image_digest s)
|}.
#[export] Instance serde_deployment_laws : SerdeLaws Deployment.
Proof. structure write_deployment read_deployment. Qed.

Definition failure_fields : list Field := map plain ["code"; "message"]%string.
Definition write_failure (s : WorkerFailure) : Value := Object [
    ("code", to_value (code s)); ("message", to_value (message s))]%string.
Definition read_failure (v : Value) : option WorkerFailure := checked true failure_fields v (
    f0 ← read_field 0 (plain "code") v;
    f1 ← read_field 1 (plain "message") v;
    Some {| code := f0; message := f1 |}).
#[export] Instance serde_failure : Serde WorkerFailure := {|
  to_value := write_failure; from_value := read_failure; missing := None;
  fits s := fits (code s) && fits (message s)
|}.
#[export] Instance serde_failure_laws : SerdeLaws WorkerFailure.
Proof. structure write_failure read_failure. Qed.

Definition update_fields : list Field := map plain ["state"; "staged"; "reboot_required"; "failure"]%string.
Definition write_update (s : UpdateStatus) : Value := Object [
    ("state", to_value (update_state s)); ("staged", to_value (staged s));
    ("reboot_required", to_value (update_reboot_required s)); ("failure", to_value (update_failure s))]%string.
Definition read_update (v : Value) : option UpdateStatus := checked true update_fields v (
    f0 ← read_field 0 (plain "state") v;
    f1 ← read_field 1 (plain "staged") v;
    f2 ← read_field 2 (plain "reboot_required") v;
    f3 ← read_field 3 (plain "failure") v;
    Some {| update_state := f0; staged := f1; update_reboot_required := f2; update_failure := f3 |}).
#[export] Instance serde_update : Serde UpdateStatus := {|
  to_value := write_update; from_value := read_update; missing := None;
  fits s := fits (update_state s) && fits (staged s) && fits (update_reboot_required s) &&
    fits (update_failure s)
|}.
#[export] Instance serde_update_laws : SerdeLaws UpdateStatus.
Proof. structure write_update read_update. Qed.

Definition rollback_fields : list Field := map plain ["state"; "reboot_required"; "failure"]%string.
Definition write_rollback (s : RollbackStatus) : Value := Object [
    ("state", to_value (rollback_state s)); ("reboot_required", to_value (rollback_reboot_required s));
    ("failure", to_value (rollback_failure s))]%string.
Definition read_rollback (v : Value) : option RollbackStatus := checked true rollback_fields v (
    f0 ← read_field 0 (plain "state") v;
    f1 ← read_field 1 (plain "reboot_required") v;
    f2 ← read_field 2 (plain "failure") v;
    Some {| rollback_state := f0; rollback_reboot_required := f1; rollback_failure := f2 |}).
#[export] Instance serde_rollback : Serde RollbackStatus := {|
  to_value := write_rollback; from_value := read_rollback; missing := None;
  fits s := fits (rollback_state s) && fits (rollback_reboot_required s) && fits (rollback_failure s)
|}.
#[export] Instance serde_rollback_laws : SerdeLaws RollbackStatus.
Proof. structure write_rollback read_rollback. Qed.

Definition health_fields : list Field := map plain ["state"; "system_state"; "failed_units"]%string.
Definition write_health (s : Health) : Value := Object [
    ("state", to_value (health_state s)); ("system_state", to_value (system_state s));
    ("failed_units", to_value (failed_units s))]%string.
Definition read_health (v : Value) : option Health := checked true health_fields v (
    f0 ← read_field 0 (plain "state") v;
    f1 ← read_field 1 (plain "system_state") v;
    f2 ← read_field 2 (plain "failed_units") v;
    Some {| health_state := f0; system_state := f1; failed_units := f2 |}).
#[export] Instance serde_health : Serde Health := {|
  to_value := write_health; from_value := read_health; missing := None;
  fits s := fits (health_state s) && fits (system_state s) && fits (failed_units s)
|}.
#[export] Instance serde_health_laws : SerdeLaws Health.
Proof. structure write_health read_health. Qed.

Definition status_fields : list Field := map plain ["schema_version"; "product"; "version"; "platform_api_version"; "source_revision"; "build_id"; "machine";
    "network"; "booted"; "retained_rollback"; "update"; "rollback"; "health"]%string.
Definition write_status (s : Status) : Value := Object [
    ("schema_version", to_value (schema_version s)); ("product", to_value (product s));
    ("version", to_value (version s)); ("platform_api_version", to_value (platform_api_version s));
    ("source_revision", to_value (source_revision s)); ("build_id", to_value (build_id s));
    ("machine", to_value (machine s)); ("network", to_value (network s)); ("booted", to_value (booted s));
    ("retained_rollback", to_value (retained_rollback s)); ("update", to_value (update s));
    ("rollback", to_value (rollback s)); ("health", to_value (health s))]%string.
Definition read_status (v : Value) : option Status := checked true status_fields v (
    f0 ← read_field 0 (plain "schema_version") v;
    f1 ← read_field 1 (plain "product") v;
    f2 ← read_field 2 (plain "version") v;
    f3 ← read_field 3 (plain "platform_api_version") v;
    f4 ← read_field 4 (plain "source_revision") v;
    f5 ← read_field 5 (plain "build_id") v;
    f6 ← read_field 6 (plain "machine") v;
    f7 ← read_field 7 (plain "network") v;
    f8 ← read_field 8 (plain "booted") v;
    f9 ← read_field 9 (plain "retained_rollback") v;
    f10 ← read_field 10 (plain "update") v;
    f11 ← read_field 11 (plain "rollback") v;
    f12 ← read_field 12 (plain "health") v;
    Some {| schema_version := f0; product := f1; version := f2; platform_api_version := f3;
            source_revision := f4; build_id := f5; machine := f6; network := f7; booted := f8;
            retained_rollback := f9; update := f10; rollback := f11; health := f12 |}).
#[export] Instance serde_status : Serde Status := {|
  to_value := write_status; from_value := read_status; missing := None;
  fits s := fits (schema_version s) && fits (product s) && fits (version s) && fits (platform_api_version s) &&
    fits (source_revision s) && fits (build_id s) && fits (machine s) && fits (network s) &&
    fits (booted s) && fits (retained_rollback s) && fits (update s) && fits (rollback s) &&
    fits (health s)
|}.
#[export] Instance serde_status_laws : SerdeLaws Status.
Proof. structure write_status read_status. Qed.

Definition remote_management_fields : list Field := map plain ["enabled"; "listening"; "enrolled"]%string.
Definition write_remote_management (s : RemoteManagementStatus) : Value := Object [
    ("enabled", to_value (enabled s)); ("listening", to_value (listening s)); ("enrolled", to_value (enrolled s))]%string.
Definition read_remote_management (v : Value) : option RemoteManagementStatus := checked true remote_management_fields v (
    f0 ← read_field 0 (plain "enabled") v;
    f1 ← read_field 1 (plain "listening") v;
    f2 ← read_field 2 (plain "enrolled") v;
    Some {| enabled := f0; listening := f1; enrolled := f2 |}).
#[export] Instance serde_remote_management : Serde RemoteManagementStatus := {|
  to_value := write_remote_management; from_value := read_remote_management; missing := None;
  fits s := fits (enabled s) && fits (listening s) && fits (enrolled s)
|}.
#[export] Instance serde_remote_management_laws : SerdeLaws RemoteManagementStatus.
Proof. structure write_remote_management read_remote_management. Qed.

Definition session_fields : list Field := map plain ["schema_version"; "product"; "version"; "platform_api_version"; "source_revision"; "build_id"; "machine";
    "network"; "booted"; "retained_rollback"; "update"; "rollback"; "health"; "remote_management"]%string.
Definition write_session (s : SessionStatus) : Value := Object [
    ("schema_version", to_value (session_schema_version s)); ("product", to_value (session_product s));
    ("version", to_value (session_version s));
    ("platform_api_version", to_value (session_platform_api_version s));
    ("source_revision", to_value (session_source_revision s)); ("build_id", to_value (session_build_id s));
    ("machine", to_value (session_machine s)); ("network", to_value (session_network s));
    ("booted", to_value (session_booted s)); ("retained_rollback", to_value (session_retained_rollback s));
    ("update", to_value (session_update s)); ("rollback", to_value (session_rollback s));
    ("health", to_value (session_health s)); ("remote_management", to_value (remote_management s))]%string.
Definition read_session (v : Value) : option SessionStatus := checked true session_fields v (
    f0 ← read_field 0 (plain "schema_version") v;
    f1 ← read_field 1 (plain "product") v;
    f2 ← read_field 2 (plain "version") v;
    f3 ← read_field 3 (plain "platform_api_version") v;
    f4 ← read_field 4 (plain "source_revision") v;
    f5 ← read_field 5 (plain "build_id") v;
    f6 ← read_field 6 (plain "machine") v;
    f7 ← read_field 7 (plain "network") v;
    f8 ← read_field 8 (plain "booted") v;
    f9 ← read_field 9 (plain "retained_rollback") v;
    f10 ← read_field 10 (plain "update") v;
    f11 ← read_field 11 (plain "rollback") v;
    f12 ← read_field 12 (plain "health") v;
    f13 ← read_field 13 (plain "remote_management") v;
    Some {| session_schema_version := f0; session_product := f1; session_version := f2;
            session_platform_api_version := f3; session_source_revision := f4; session_build_id := f5;
            session_machine := f6; session_network := f7; session_booted := f8;
            session_retained_rollback := f9; session_update := f10; session_rollback := f11;
            session_health := f12; remote_management := f13 |}).
#[export] Instance serde_session : Serde SessionStatus := {|
  to_value := write_session; from_value := read_session; missing := None;
  fits s := fits (session_schema_version s) && fits (session_product s) && fits (session_version s) &&
    fits (session_platform_api_version s) && fits (session_source_revision s) &&
    fits (session_build_id s) && fits (session_machine s) && fits (session_network s) &&
    fits (session_booted s) && fits (session_retained_rollback s) && fits (session_update s) &&
    fits (session_rollback s) && fits (session_health s) && fits (remote_management s)
|}.
#[export] Instance serde_session_laws : SerdeLaws SessionStatus.
Proof. structure write_session read_session. Qed.

(** ** The two schemas

    A field that is required is there, at its place or under its name, and
    an object has no other than those that are known. *)
Lemma checked_some {A} deny fields v (k : option A) a : checked deny fields v k = Some a -> shape deny fields v = true /\ k = Some a.
Proof. unfold checked. by destruct (shape deny fields v). Qed.

Lemma known_keys fields entries key : shape true fields (Object entries) = true -> is_Some (get key (Object entries)) ->
  key ∈ map name fields.
Proof.
  cbn. intros [_ Hall]%andb_true_iff [v Hg]. destruct (List.find _ entries) as [[k w]|] eqn:Hf; [|done].
  apply List.find_some in Hf as [Hin Hk]. apply String.eqb_eq in Hk. cbn in Hk. subst k.
  rewrite forallb_forall in Hall. apply Hall in Hin. apply existsb_exists in Hin as (f & Hf & Hn).
  apply String.eqb_eq in Hn. cbn in Hn. subst key. apply list_elem_of_In, List.in_map. exact Hf.
Qed.

Lemma session_is_no_status v s : read_session v = Some s -> read_status v = None.
Proof.
  intros [Hs Hr]%checked_some. destruct (read_status v) as [st|] eqn:He; [exfalso|done].
  unfold read_status in He. apply checked_some in He as [Ht _].
  assert (exists rm, read_field 13 (plain "remote_management") v = Some (rm : RemoteManagementStatus)) as [rm Hrm].
  { repeat match type of Hr with (?m ≫= _) = Some _ => destruct m as [?|] eqn:?; [cbn [mbind option_bind] in Hr|done] end. eauto. }
  destruct v as [| | | | |items|entries]; try done.
  - cbn [read_field] in Hrm. destruct (items !! 13%nat) eqn:Hi; [|done]. apply lookup_lt_Some in Hi.
    cbn in Ht. apply andb_true_iff in Ht as [Ht _]. apply Nat.leb_le in Ht. lia.
  - cbn [read_field] in Hrm. destruct (get _ _) as [w|] eqn:Hg; [|done].
    pose proof (known_keys _ _ "remote_management" Ht (ex_intro _ w Hg)) as Hk. revert Hk. by apply (bool_decide_unpack (~ _)).
Qed.
End Structures.
End Wire.
