(* ===== verification/Wired.v ===== *)
(** * The daemons over the wire

    The other documents of the system, the contract of the two schemas, and
    the network report on its way as texts. *)
From S2P Require Import Prelude Wire Protocol Network Hash Store Relay.

(** ** The other documents

    What the remote server reads of a session status
    ([remoted/src/network.rs]), the bodies of its requests
    ([remoted/src/http.rs]) and the state file of the authentication service
    ([authd/src/store.rs]), as their [derive]s make them. *)
Module WireReaders.
Import Documents Wire.

(** ** The status as the remote server reads it

    [struct Status], [Network] and [Primary]; unknown fields are ignored.
    They are only ever read; what they would be written as completes the
    class. *)
Definition primary_reader : Serde (list string) := {|
  to_value l := Object [("addresses"%string, to_value l)];
  from_value v := checked false [plain "addresses"] v (read_field 0 (plain "addresses") v);
  missing := None;
  fits := fits
|}.

Definition network_reader : Serde (option (list string)) := {|
  to_value o := Object [("primary_connection"%string, @to_value _ (@serde_option _ primary_reader) o)];
  from_value v := checked false [plain "primary_connection"] v
    (@read_field _ (@serde_option _ primary_reader) 0 (plain "primary_connection") v);
  missing := None;
  fits _ := true
|}.

Definition read_fields (v : Value) : option Network.StatusFields := checked false (map plain ["schema_version"; "network"]%string) v (
  schema ← read_field 0 (plain "schema_version") v;
  primary ← @read_field _ network_reader 1 (plain "network") v;
  Some {| Network.schema_version := schema; Network.primary_addresses := primary |}).

(** It finds in a session status what the contract says is there. *)
Lemma strings_read l : @from_value (list string) _ (to_value l) = Some l.
Proof. apply reads_back. cbn. by apply forallb_forall. Qed.

Lemma fields_read (s : Protocol.SessionStatus) : read_fields (to_value s) = Some (Relay.fields_of s).
Proof.
  destruct s as [? ? ? ? ? ? ? [state [[i addresses g]|]]]; unfold read_fields, checked, Relay.fields_of; cbn [to_value serde_session write_session];
    match goal with |- context [shape ?d ?f ?v] => replace (shape d f v) with true by reflexivity end; [|reflexivity].
  cbn -[from_value]. unfold read_field. cbn -[from_value].
  change (@from_value _ network_reader _) with (@from_value (list string) _ (to_value addresses) ≫= fun l => Some (Some l)).
  by rewrite strings_read.
Qed.

(** ** The bodies of the requests *)
Definition read_one (field : string) (v : Value) : option string := checked true [plain field] v (read_field 0 (plain field) v).
Definition pair_request (v : Value) : option (string * string) := checked true (map plain ["pairing_code"; "password"]%string) v (
  pairing_code ← read_field 0 (plain "pairing_code") v;
  password ← read_field 1 (plain "password") v;
  Some (pairing_code, password)).
Definition confirm_request : Value -> option string := read_one "recovery_key".
Definition login_request : Value -> option string := read_one "password".

(** A pairing body with any further field is refused, and both are needed. *)
Lemma pair_request_exact entries request : pair_request (Object entries) = Some request ->
  (forall key, is_Some (get key (Object entries)) <-> key ∈ ["pairing_code"; "password"]%string).
Proof.
  intros [Hs Hr]%checked_some key. split; [exact (known_keys _ _ key Hs)|]. cbn [read_field name plain] in Hr.
  destruct (get "pairing_code" _) as [c|] eqn:Hc; [|done]. destruct (from_value c : option string); [|done].
  cbn [mbind option_bind] in Hr. destruct (get "password" _) as [p|] eqn:Hp; [|done].
  intros [->|[->|[]%elem_of_nil]%elem_of_cons]%elem_of_cons; by eexists.
Qed.

(** ** The state file *)
Definition state_fields : list Field :=
  [plain "version"; plain "state"; default_ "password_hash"; default_ "recovery_key_hash"; default_ "confirmation_deadline"]%string.

(** [skip_serializing_if = Option::is_none] *)
Definition unless_none {A} `{Serde A} (name : string) (o : option A) : list (string * Value) :=
  match o with Some a => [(name, to_value a)] | None => [] end.

Local Abbreviation u32 := (serde_unsigned u32_max).
Local Abbreviation u64 := (serde_unsigned u64_max).

Definition write_state (f : Store.StateFile) : Value := Object (
  [("version", @to_value _ u32 (Store.version f)); ("state", to_value (Store.state f))]%string
  ++ unless_none "password_hash" (Store.password_hash f)
  ++ unless_none "recovery_key_hash" (Store.recovery_key_hash f)
  ++ @unless_none _ u64 "confirmation_deadline" (Store.confirmation_deadline f))%list.

Definition read_state (v : Value) : option Store.StateFile := checked true state_fields v (
  version ← @read_field _ u32 0 (plain "version") v;
  state ← read_field 1 (plain "state") v;
  password_hash ← read_field 2 (plain "password_hash") v;
  recovery_key_hash ← read_field 3 (plain "recovery_key_hash") v;
  deadline ← @read_field _ (@serde_option _ u64) 4 (plain "confirmation_deadline") v;
  Some {| Store.version := version; Store.state := state; Store.password_hash := password_hash;
          Store.recovery_key_hash := recovery_key_hash; Store.confirmation_deadline := deadline |}).

(** The values a [StateFile] has: [u32] and [u64] fields in range. *)
Definition state_fits (f : Store.StateFile) : bool :=
  @fits _ u32 (Store.version f) && match Store.confirmation_deadline f with Some d => @fits _ u64 d | None => true end.

Lemma state_read f : state_fits f = true -> read_state (write_state f) = Some f.
Proof.
  intros Hf. unfold state_fits in Hf. cbn in Hf. destruct f as [v st [ph|] [rh|] [d|]]; cbn in Hf; bool_hyps;
    unfold read_state, checked, write_state;
    match goal with |- context [shape ?d ?f ?v] => replace (shape d f v) with true by reflexivity end; cbn;
    repeat match goal with |- context [(?a <=? ?b) && (?c <=? ?e)] =>
      replace ((a <=? b) && (c <=? e)) with true by (symmetry; apply andb_true_iff; split; apply Z.leb_le; lia); cbn end; reflexivity.
Qed.

Lemma unsigned_prints max n : max <= u64_max -> @fits _ (serde_unsigned max) n = true -> printable (Number n) = true.
Proof. intros Hm. exact (@prints _ _ (serde_unsigned_laws max Hm) n). Qed.

Lemma state_prints f : state_fits f = true -> printable (write_state f) = true.
Proof.
  intros [Hv Hd]%andb_true_iff.
  assert (printable (Number (Store.version f)) = true) by (by apply (unsigned_prints u32_max)).
  destruct f as [v st [ph|] [rh|] [d|]]; unfold write_state; (apply printable_object;
    [apply (bool_decide_unpack _); vm_compute; exact I|]);
    repeat (constructor; [cbn [snd]; first [assumption|reflexivity|by apply (unsigned_prints u64_max)]|]); constructor.
Qed.

(** serde_json over these *)
Section Texts.
Context {T : SerdeJson}.

Definition state_to_vec (f : Store.StateFile) : option string := if state_fits f then Some (print (write_state f)) else None.
Definition state_from_slice (text : string) : option Store.StateFile := parse text ≫= read_state.

Lemma state_text f text : state_to_vec f = Some text -> state_from_slice text = Some f.
Proof.
  unfold state_to_vec, state_from_slice. destruct (state_fits f) eqn:Hf; [|done]. intros [= <-].
  rewrite parse_print by (by apply state_prints). by apply state_read.
Qed.

(** Every state is written, its deadline being a [u64]. *)
Lemma state_writes s : match s with Store.EnrolledUnconfirmed _ _ deadline => 0 <= deadline <= u64_max | _ => True end ->
  is_Some (state_to_vec (Store.state_file s)).
Proof.
  intros Hd. unfold state_to_vec. assert (state_fits (Store.state_file s) = true) as ->; [|by eexists].
  destruct s as [|p r d|p r]; [done| |done]. apply andb_true_iff. split; [reflexivity|].
  apply andb_true_iff. split; apply Z.leb_le; lia.
Qed.

(** The state file is read back: the interface of the store. *)
Definition state_json : Store.StateFileJson := {|
  Store.to_vec := state_to_vec; Store.from_slice := state_from_slice; Store.from_slice_to_vec := state_text |}.
End Texts.
End WireReaders.

From S2P Require Import Prelude Wire Protocol Network Relay.

(** ** The contract of the two schemas

    Platform's status and the session's, as documents. *)
Module WireContract.
Import Documents Protocol Wire WireReaders.

(** The session's document without the remote-management facts and with the
    platform's version *)
Definition platform_part (schema : string) (doc : Value) : option Value :=
  set ["schema_version"%string] (Text schema) doc ≫= remove [] "remote_management".

(** C21. The two schemas.  A status of either kind is read back from its
    document as it was; a session's document is the platform's with its own
    version and exactly the three facts of remote management added, and the
    remote server finds in it the version and the addresses it works from;
    and no document whatsoever passes for a status of both kinds. *)
Theorem schemas_hold (s : Status) (facts : RemoteManagementStatus) : fits s = true ->
  let session := from_platform s facts in
  from_value (to_value s) = Some s /\ from_value (to_value session) = Some session /\
  get "remote_management" (to_value session) = Some (to_value facts) /\
  platform_part (schema_version s) (to_value session) = Some (to_value s) /\
  read_fields (to_value session) = Some (Relay.fields_of session) /\
  forall v, (from_value v : option Status) = None \/ (from_value v : option SessionStatus) = None.
Proof.
  intros Hs session. assert (fits session = true) as Hf.
  { unfold session. destruct s, facts. cbn [from_platform fits serde_session] in *. exact (eq_trans (andb_true_r _) Hs). }
  split_and!; [by apply reads_back|by apply reads_back|done|by destruct s|apply fields_read|].
  intros v. destruct (from_value v : option SessionStatus) as [r|] eqn:Hr; [left|by right].
  exact (session_is_no_status v r Hr).
Qed.
End WireContract.

From S2P Require Import Prelude Wire Protocol Programs Platform NetworkObserver NetworkObserverProps Network Relay.

(** ** The daemons over the wire

    The texts of serde_json for the documents of [Wire.v] and
    [WireReaders], and what the daemons do with them: the contract of the
    two schemas, and the network's report on its way. *)
Module Wired.
Import Documents Protocol Wire WireReaders Programs Network Relay.

Section Texts.
Context {T : SerdeJson}.

(** [serde_json::to_string] and [serde_json::from_str] at a type *)
Definition to_text {A} `{Serde A} (a : A) : option string := if fits a then Some (print (to_value a)) else None.
Definition from_text {A} `{Serde A} (text : string) : option A := parse text ≫= from_value.

Lemma text_read_back {A} `{SerdeLaws A} (a : A) text : to_text a = Some text -> from_text text = Some a.
Proof.
  unfold to_text, from_text. destruct (fits a) eqn:Hf; [|done]. intros [= <-].
  rewrite parse_print by (by apply prints). by apply reads_back.
Qed.

(** serde_json as the platform daemon uses it *)
#[export] Instance wire_json : Platform.Json := {|
  Platform.Value := Value;
  Platform.from_slice bytes := from_utf8 bytes ≫= parse;
  Platform.pointer v path := Documents.pointer path v;
  Platform.get_key v key := Documents.get key v;
  Platform.as_str := Documents.as_str;
  Platform.as_bool := Documents.as_bool;
  Platform.as_u64 := Documents.as_u64;
  Platform.is_null := Documents.is_null;
  Platform.is_object := Documents.is_object;
  Platform.network_from_str := from_text;
  Platform.status_to_string := to_text
|}.

Definition network_to_string : NetworkStatus -> option string := to_text.
Definition status_from_str : string -> option Status := from_text.
Definition session_to_string : SessionStatus -> option string := to_text.
Definition fields_from_str (text : string) : option StatusFields := parse text ≫= read_fields.

Lemma wire_readable : Readable network_to_string status_from_str session_to_string fields_from_str.
Proof.
  split; [intros s text; apply text_read_back..|]. intros s text. unfold session_to_string, to_text, fields_from_str.
  destruct (fits s) eqn:Hf; [|done]. intros [= <-]. rewrite parse_print by exact (prints (A:=SessionStatus) s Hf). apply fields_read.
Qed.

Local Abbreviation relayed := (relayed network_to_string status_from_str session_to_string).

(** C10. From NetworkManager to the listeners.  When a status goes from the
    observer through [platformd] and [sessiond] to the remote server, as the
    documents their [derive]s make, each daemon reading the reply of the one
    before, the server's view is that of NetworkManager's answers: it listens
    exactly on the eligible addresses announced for the primary connection,
    and takes a source for on-link exactly when it shares the announced
    prefix of one of them; the only report without a view announces the
    prefix length 0.  The URL that the platform makes of the same status
    names one of these listeners, or is empty when there is none. *)
Theorem network_reaches_the_server t1 text3 : relayed t1 text3 ->
  exists t' status, runs NetworkObserver.NetworkObserver.observe_network t' (Ok status) /\ Said.said t1 = Said.said t' /\
    match view_from_status fields_from_str text3 with
    | Ok view => follows t1 view /\
        ((listen view = [] /\ PlatformRemote.PlatformRemote.enrollment_url status = EmptyString) \/
         exists a, a ∈ listen view /\ PlatformRemote.PlatformRemote.enrollment_url status = "https://" +:+ endpoint a PORT +:+ "/")
    | Err _ => exists a, Said.announced t1 a 0
    | Panic => False
    end.
Proof. apply relay_delivers, wire_readable. Qed.
End Texts.
End Wired.
