(* ===== verification/WiredExamples.v ===== *)
(** * The platform daemon, and a report on its way *)
From S2P Require Import Prelude Protocol Programs FileSystem PlatformCalls PlatformRemote PlatformRemoteProps Platform PlatformPermits PlatformSafety.

(** ** The platform daemon at work

    A concrete systemd and a concrete bootc answer the calls, and the
    theorems are instantiated in that world. *)
Module PlatformExamples.
Import Protocol Programs PlatformCalls PlatformRemote PlatformRemoteProps Platform PlatformPermits PlatformSafety.

(** A JSON value, and a bootc that always reports the same host. *)
Inductive json := JNull | JBool (b : bool) | JString (s : string) | JObject (fields : list (string * json)).

Definition field (v : json) (key : string) : option json :=
  match v with JObject fields => snd <$> List.find (fun f => String.eqb f.1 key) fields | _ => None end.

Definition host : json := JObject [
  ("apiVersion", JString "org.containers.bootc/v1"); ("kind", JString "BootcHost");
  ("status", JObject [("staged", JNull); ("rollback", JNull); ("rollbackQueued", JBool false)])]%string.

#[local] Instance toy_json : Json := {|
  Value := json;
  from_slice _ := Some host;
  pointer v path := foldl (fun v key => v ≫= fun v => field v key) (Some v) path;
  get_key := field;
  as_str v := match v with JString s => Some s | _ => None end;
  as_bool v := match v with JBool b => Some b | _ => None end;
  as_u64 _ := None;
  is_null v := match v with JNull => true | _ => false end;
  is_object v := match v with JObject _ => true | _ => false end;
  network_from_str _ := Some {| state := NetworkState.Unknown; primary_connection := None |};
  status_to_string _ := Some EmptyString
|}.

(** Everything answers at once and truthfully; a unit's path is its name. *)
Definition answer (st : System) (c : PlatformCall) : PlatformReply c :=
  match c return PlatformReply c with
  | TryAcquire s => negb (taken st s)
  | Release _ | Kill => tt
  | NewProxy _ _ _ | AuthMember _ | Sleep _ => Some (Ok tt)
  | LoadUnit u => Some (Ok u)
  | GetProperty p _ n =>
      Some (Ok (if String.eqb n "Result" then "success" else if bool_decide (p ∈ active st) then "active" else "inactive")%string)
  | StartUnit u _ | StopUnit u _ => Some (Ok u)
  | GetSystemState => Some (Ok "running"%string)
  | GetExitStatus _ | GetFailedUnits => Some (Ok 0)
  | GetInvocationID _ => Some (Ok [])
  | ListJobs => Some (Ok [])
  | GetPendingPairing => Some (Ok (false, EmptyString, 0))
  | GetNetworkStatus => Some (Ok EmptyString)
  | SymlinkMetadata _ _ => Err FileSystem.NotFound
  | CurrentFingerprint => Ok None
  | ReadToString _ => Some EmptyString
  | UnameMachine => Some []
  | Spawn _ _ => true
  | Join _ => Some {| stdout := {| bytes := []; broken := false |}; stderr := {| bytes := []; broken := false |};
                      exit := Some true; order := [Stdout; Stderr; Wait] |}
  | Choose => true
  end.

Definition started (st : System) (c : PlatformCall) : gset string :=
  match c with StartUnit u _ => {[u]} ∪ active st | _ => active st end.

(** [n] calls of the client [i]. *)
Fixpoint feed (n i : nat) (st : System) : System :=
  match n with
  | O => st
  | S n =>
      match pool st !! i with
      | Some (Act c k) =>
          feed n i {| pool := <[i := k (answer st c)]> (pool st); taken := taken_after st c (answer st c); active := started st c |}
      | _ => st
      end
  end.

Lemma feed_reach active0 n i : forall l st, reach id active0 l st -> exists l', reach id active0 l' (feed n i st).
Proof.
  induction n as [|n IH]; intros l st Hr; [by exists l|]. simpl.
  destruct (pool st !! i) as [[a|c k]|] eqn:Hi; [by exists l| |by exists l].
  eapply IH. eapply (Step _ _ _ _ (Some (i, existT c (answer st c)))); [exact Hr|]. constructor; [done| |by destruct c; simpl; auto].
  destruct c; simpl; try done. intros state Hs _ -> Hidle u <-. simpl in Hs. case_bool_decide; [|done].
  injection Hs as <-. discriminate Hidle.
Qed.

Definition empty_system : System := {| pool := ∅; taken _ := false; active := ∅ |}.
Definition arrived (i : nat) (m : Method) (st : System) : System :=
  {| pool := <[i := serve m]> (pool st); taken := taken st; active := active st |}.

Lemma arrived_reach active0 l st i m : reach id active0 l st -> pool st !! i = None ->
  reach id active0 l (arrived i m st).
Proof. intros Hr Hi. rewrite <- (app_nil_r l). eapply (Step _ _ _ _ None); [exact Hr|by constructor]. Qed.

(** A client starts an update up to [StartUnit]; another then asks for a
    rollback while the first still waits. *)
Definition updating : System := feed 16 1 (arrived 1 StartUpdate empty_system).
Definition contended : System := feed 40 2 (arrived 2 StartRollback updating).

Lemma contended_reach : exists l, reach id ∅ l contended.
Proof.
  destruct (feed_reach ∅ 16 1 [] (arrived 1 StartUpdate empty_system)) as [l Hl]; [apply arrived_reach; [constructor|done]|].
  apply (feed_reach _ _ _ l). by apply arrived_reach.
Qed.

Example contended_state : bool_decide (UPDATE_UNIT ∈ active contended) = true /\ taken contended MutationStarts = true.
Proof. vm_compute. done. Qed.


Lemma permits_exclude_witness : exists l, reach id ∅ l contended /\
  forall s i j, i ∈ holders s l -> j ∈ holders s l -> i = j.
Proof.
  destruct contended_reach as [l Hl]. exists l. split; [exact Hl|].
  apply (permits_exclude id ∅ l contended); [intros [H _]; revert H; apply not_elem_of_empty|exact Hl].
Defined.
End PlatformExamples.

From S2P Require Import Prelude Text IpAddr Protocol Programs FileSystem PlatformCalls Platform Network NetworkObserver NetworkObserverProps Client Sessiond Relay Wire Wired.

(** ** A report on its way *)
Module WiredExamples.
Import Text IpAddr Protocol Programs Network Relay Documents Wire Wired.
#[local] Existing Instance toy_serde.

Definition checksum : string := string_of (replicate 64 97).

Definition host : Value := Object [
  ("apiVersion", Documents.Text "org.containers.bootc/v1"); ("kind", Documents.Text "BootcHost");
  ("status", Object [
    ("booted", Object [("ostree", Object [("checksum", Documents.Text checksum); ("deploySerial", Number 0)]); ("image", Null)]);
    ("staged", Null); ("rollback", Null); ("rollbackQueued", Documents.Bool false)])]%string.

Definition quoted (s : string) : string := string_of [34] +:+ s +:+ string_of [34].
Definition release : string :=
  "NAME=" +:+ quoted "SignalLayerIT CoreOS" +:+ string_of [10] +:+ "VERSION=" +:+ quoted "0.0.2" +:+ string_of [10]
  +:+ "PLATFORM_API_VERSION=" +:+ quoted "0.3" +:+ string_of [10].

Definition status0 : Status := {|
  Protocol.schema_version := SCHEMA_VERSION; product := "SignalLayerIT CoreOS"; version := "0.0.2"; platform_api_version := "0.3";
  source_revision := None; build_id := None;
  machine := {| machine_id := "0123456789abcdef0123456789abcdef"; architecture := "x86_64";
                boot_id := "01234567-89ab-cdef-0123-456789abcdef" |};
  Protocol.network := NetworkObserverProps.example_status;
  booted := {| deployment_id := checksum +:+ ".0"; image_reference := None; image_digest := None |};
  retained_rollback := None;
  update := {| update_state := UpdateState.Idle; staged := None; update_reboot_required := false; update_failure := None |};
  rollback := {| rollback_state := RollbackState.Idle; rollback_reboot_required := false; rollback_failure := None |};
  health := {| health_state := HealthState.Healthy; system_state := "running"; failed_units := 0 |}
|}.

Definition session0 : SessionStatus :=
  from_platform status0 {| enabled := false; listening := false; enrolled := true |}.

(** The texts of the three replies *)
Definition text1 : string := print (to_value NetworkObserverProps.example_status).
Definition text2 : string := print (to_value status0).
Definition text3 : string := print (to_value session0).

Definition platform_answer (_ : nat) (c : PlatformCalls.PlatformCall) : PlatformCalls.PlatformReply c :=
  match c return PlatformCalls.PlatformReply c with
  | PlatformCalls.TryAcquire _ | PlatformCalls.Choose | PlatformCalls.Spawn _ _ => true
  | PlatformCalls.Release _ | PlatformCalls.Kill => tt
  | PlatformCalls.NewProxy _ _ _ | PlatformCalls.AuthMember _ | PlatformCalls.Sleep _ => Some (Ok tt)
  | PlatformCalls.LoadUnit u | PlatformCalls.StartUnit u _ | PlatformCalls.StopUnit u _ => Some (Ok u)
  | PlatformCalls.GetProperty _ _ n => Some (Ok (if String.eqb n "Result" then "success" else "inactive")%string)
  | PlatformCalls.GetSystemState => Some (Ok "running"%string)
  | PlatformCalls.GetExitStatus _ | PlatformCalls.GetFailedUnits => Some (Ok 0)
  | PlatformCalls.GetInvocationID _ => Some (Ok [])
  | PlatformCalls.ListJobs => Some (Ok [])
  | PlatformCalls.GetPendingPairing => Some (Ok (false, EmptyString, 0))
  | PlatformCalls.GetNetworkStatus => Some (Ok text1)
  | PlatformCalls.SymlinkMetadata _ _ => Err FileSystem.NotFound
  | PlatformCalls.CurrentFingerprint => Ok None
  | PlatformCalls.ReadToString path =>
      if String.eqb path "/etc/machine-id" then Some (machine_id (machine status0))
      else if String.eqb path "/proc/sys/kernel/random/boot_id" then Some (boot_id (machine status0))
      else Some release
  | PlatformCalls.UnameMachine => Some (bytes_of "x86_64")
  | PlatformCalls.Join _ => Some {|
      PlatformCalls.stdout := {| PlatformCalls.bytes := bytes_of (print host); PlatformCalls.broken := false |};
      PlatformCalls.stderr := {| PlatformCalls.bytes := []; PlatformCalls.broken := false |};
      PlatformCalls.exit := Some true; PlatformCalls.order := [PlatformCalls.Stdout; PlatformCalls.Stderr; PlatformCalls.Wait] |}
  end.

Definition session_answer (_ : nat) (c : Sessiond.SessionCall) : Sessiond.SessionReply c :=
  match c with
  | Sessiond.OfClient c =>
      match c return Client.ClientReply c with
      | Client.ConnectBus => true
      | Client.MakeProxy | Client.StartUpdate | Client.StartRollback | Client.StartReboot => Ok tt
      | Client.GetStatus => Ok text2
      | Client.Stdout _ | Client.Stderr _ => tt
      end
  | Sessiond.SymlinkMetadata _ => Err FileSystem.NotFound
  | Sessiond.NewAuthProxy => Some (Ok tt)
  | Sessiond.GetEnrollmentState => Some (Ok (true, false))
  end.

Definition ran1 := exec (S:=NetworkObserver.NetworkManager) (fun _ => NetworkObserverProps.example_answer) 0 (NetworkObserver.get_network_status network_to_string).
Definition ran2 := exec (S:=PlatformCalls.Platform) platform_answer 0 Platform.observe_status.
Definition ran3 := exec (S:=Sessiond.Session) session_answer 0 (Sessiond.get_platform_status status_from_str session_to_string).

Example answers : ran1.2 = Ok text1 /\ ran2.2 = Ok text2 /\ ran3.2 = Ok text3.
Proof. vm_compute. done. Qed.
(** Every reply of a run is the one given. *)
Lemma exec_answers {S A} (answer : nat -> forall c : call S, reply S c) (m : prog S A) : forall n,
  Forall (fun e => exists i, projT2 e = answer i (projT1 e)) (exec answer n m).1.
Proof.
  induction m as [a|c k IH]; intros n; simpl; [constructor|]. specialize (IH (answer n c) (Datatypes.S n)).
  destruct (exec answer (Datatypes.S n) (k (answer n c))) as [t a]. constructor; [by exists n|exact IH].
Qed.

Lemma ran_answered {S A} (answer : nat -> forall c : call S, reply S c) (m : prog S A) ran (c : call S) r :
  ran = exec answer 0 m -> existT c r ∈ ran.1 -> exists i, r = answer i c.
Proof.
  intros -> Hin. pose proof (exec_answers answer m 0) as H. rewrite Forall_forall in H.
  destruct (H _ Hin) as [i He]. by exists i.
Qed.

Lemma ran_runs {S A} (answer : nat -> forall c : call S, reply S c) (m : prog S A) ran a :
  ran = exec answer 0 m -> ran.2 = a -> runs m ran.1 a.
Proof. intros -> <-. apply exec_runs. Qed.

Lemma relayed_example : relayed network_to_string status_from_str session_to_string ran1.1 text3.
Proof.
  destruct answers as (H1 & H2 & H3). exists ran2.1, ran3.1, text1, text2. split_and!.
  - exact (ran_runs _ _ ran1 _ eq_refl H1).
  - intros text Hin. apply (ran_answered (S:=PlatformCalls.Platform) platform_answer Platform.observe_status ran2) in Hin as [i He]; [|reflexivity].
    by injection He.
  - exact (ran_runs _ _ ran2 _ eq_refl H2).
  - intros text Hin.
    apply (ran_answered (S:=Sessiond.Session) session_answer (Sessiond.get_platform_status status_from_str session_to_string) ran3) in Hin as [i He]; [|reflexivity].
    by injection He.
  - exact (ran_runs _ _ ran3 _ eq_refl H3).
Qed.

Lemma network_reaches_the_server_witness : exists view,
  view_from_status fields_from_str text3 = Ok view /\ List.length (listen view) = 2%nat /\ follows ran1.1 view.
Proof.
  destruct (network_reaches_the_server _ _ relayed_example)
    as (t' & status & _ & _ & H).
  eexists. split; [vm_compute; reflexivity|]. split; [reflexivity|].
  exact (proj1 H).
Defined.

Lemma schemas_hold_witness : fits status0 = true /\
  from_value (to_value session0) = Some session0 /\
  WireContract.platform_part SCHEMA_VERSION (to_value session0) = Some (to_value status0).
Proof.
  split; [reflexivity|].
  destruct (WireContract.schemas_hold status0 {| enabled := false; listening := false; enrolled := true |} eq_refl)
    as (_ & H1 & _ & H2 & _). split; [exact H1|exact H2].
Defined.
End WiredExamples.
