(* ===== verification/RemotedTests.v ===== *)
(** * The tests of the remote server and its state

    The [mod tests] of [crates/remote-state/src/lib.rs], of sessions.rs,
    network.rs and tls.rs of [remoted/src], and of
    [platformd/src/shared_read.rs]. *)
From S2P Require Import Prelude UnitTests FileSystem RemoteState.

(** ** The tests of the remote-management state
      ([crates/remote-state/src/lib.rs], [mod tests])

    A temporary directory is a tree of its own without faults. *)
Module RemoteStateTests.
Import FileSystem RemoteState.

Definition FINGERPRINT : string :=
  "20:E5:0B:A7:F0:9C:9E:C6:4C:02:2C:81:EE:01:1C:5C:A5:1C:60:12:0C:39:BD:43:D0:CB:50:C4:DD:5E:78:00".

Definition system : Io := {|
  fails _ := false; fails_read_link _ := false; partial_write _ := []; partial_removal _ _ := false; listing _ names := names |}.

(** [TempDir::new]: the path of the directory is [[]]. *)
Definition TempDir : World := {| files := {[ [] := {| kind := Directory; mode := 511; group := None |} ]}; calls := 0; past := [] |}.

(** [fs::create_dir_all] and [fs::write] *)
Fixpoint create_dir_all_from (above below : Path) : fsm unit :=
  match below with
  | [] => ret tt
  | name :: below =>
      let path := (above ++ [name])%list in
      let! made := attempt (create_dir system 511 path) in
      match made with
      | Err Other => fail Other
      | _ => create_dir_all_from path below
      end
  end.
Definition create_dir_all (path : Path) : fsm unit := create_dir_all_from [] path.

Definition write (path : Path) (contents : list Z) : fsm unit :=
  let! created := attempt (create_new system 438 path) in
  match created with
  | Err (AlreadyExists as e) => write_all system path contents
  | Ok _ => write_all system path contents
  | Err e => fail e
  | Panic => lift Panic
  end.

Definition identity (generation : string) (fingerprint : list Z) : fsm unit :=
  do! create_dir_all (tls [generation]) in
  do! write (tls [generation; KEY_FILE]) (bytes_of "key") in
  do! write (tls [generation; CERT_FILE]) (bytes_of "cert") in
  do! write (tls [generation; FINGERPRINT_FILE]) fingerprint in
  symlink system generation (tls [CURRENT]).

(** What a read answers in a new directory after [setup]. *)
Definition after {A} (setup : fsm unit) (k : stm World unit A) : res A unit :=
  match setup TempDir with (Ok _, w) => (k w).1 | _ => Panic end.

(** ** The tests *)

Definition generation_names_are_gen_and_sixteen_lowercase_hex : bool :=
  assert_eq (generation_name [0; 1; 0xab; 0xff; 2; 3; 4; 5]) "gen-0001abff02030405"%string &&
  is_generation_name "gen-0001abff02030405" &&
  for_each [
    "gen-0001ABFF02030405";
    "gen-0001abff0203040";
    "gen-0001abff020304055";
    "gen-0001abff0203040g";
    "gen0001abff02030405";
    "../gen-0001abff02030405";
    "gen-0001abff02030405/";
    ""]%string (fun invalid => negb (is_generation_name invalid)).

Definition fingerprints_are_canonical_uppercase_colon_pairs : bool :=
  is_canonical_fingerprint FINGERPRINT &&
  for_each [
    str_to_ascii_lowercase FINGERPRINT;
    replace_char ":" "" FINGERPRINT;
    String.substring 0 92 FINGERPRINT;
    FINGERPRINT +:+ ":00";
    replace_first "2" "G" FINGERPRINT;
    replace_first ":" "-" FINGERPRINT;
    " " +:+ String.substring 1 (String.length FINGERPRINT - 1) FINGERPRINT]%string
    (fun invalid => negb (is_canonical_fingerprint invalid)).

Definition LF : string := String newline EmptyString.
Definition CR : string := string_of [13].

Definition openssl_output_is_parsed_strictly : bool :=
  let valid := "sha256 Fingerprint=" +:+ FINGERPRINT +:+ LF in
  assert_eq (parse_openssl_fingerprint (bytes_of valid)) (Some FINGERPRINT) &&
  for_each [
    "sha256 Fingerprint=" +:+ FINGERPRINT;
    "sha256 Fingerprint=" +:+ FINGERPRINT +:+ LF +:+ LF;
    "SHA256 Fingerprint=" +:+ FINGERPRINT +:+ LF;
    "sha1 Fingerprint=" +:+ FINGERPRINT +:+ LF;
    "sha256 Fingerprint= " +:+ FINGERPRINT +:+ LF;
    "sha256 Fingerprint=" +:+ FINGERPRINT +:+ " " +:+ LF;
    "sha256 Fingerprint=" +:+ str_to_ascii_lowercase FINGERPRINT +:+ LF;
    "warning" +:+ LF +:+ "sha256 Fingerprint=" +:+ FINGERPRINT +:+ LF;
    "sha256 Fingerprint=" +:+ FINGERPRINT +:+ CR +:+ LF;
    ""]%string (fun invalid => assert_eq (parse_openssl_fingerprint (bytes_of invalid)) None) &&
  assert_eq (parse_openssl_fingerprint [0xff; 10]) None.

Definition fingerprint_file_round_trips_and_is_strict : bool :=
  let contents := fingerprint_file_contents FINGERPRINT in
  assert_eq (parse_fingerprint_file (bytes_of contents)) (Some FINGERPRINT) &&
  assert_eq (parse_fingerprint_file (bytes_of FINGERPRINT)) None &&
  assert_eq (parse_fingerprint_file (bytes_of (contents +:+ LF))) None.

Definition a_missing_current_or_tls_directory_is_no_identity : bool :=
  assert_eq (after (ret tt) (current_fingerprint system)) (Ok None) &&
  assert_eq (after (ret tt) (current_identity system)) (Ok None) &&
  assert_eq (after (create_dir system 511 [TLS_DIR]) (current_fingerprint system)) (Ok None).

Definition GENERATION : string := "gen-0000000000000001".

Definition a_valid_identity_is_read : bool :=
  let root := identity GENERATION (bytes_of (fingerprint_file_contents FINGERPRINT)) in
  assert_eq (after root (current_fingerprint system)) (Ok (Some FINGERPRINT)) &&
  assert_eq (after root (current_identity system)) (Ok (Some GENERATION)).

Definition invalid_identities_are_rejected : bool :=
  let contents := bytes_of (fingerprint_file_contents FINGERPRINT) in
  let cases : list (string * (list Z -> fsm unit)) := [
    ("dangling current", fun _ =>
      do! create_dir system 511 [TLS_DIR] in
      symlink system GENERATION (tls [CURRENT]));
    ("current is a file", fun _ =>
      do! create_dir system 511 [TLS_DIR] in
      write (tls [CURRENT]) (bytes_of GENERATION));
    ("current names a non-generation", fun fingerprint =>
      do! identity GENERATION fingerprint in
      do! remove_file system (tls [CURRENT]) in
      symlink system ("../tls/" +:+ GENERATION) (tls [CURRENT]));
    ("missing fingerprint", fun fingerprint =>
      do! identity GENERATION fingerprint in
      remove_file system (tls [GENERATION; FINGERPRINT_FILE]));
    ("malformed fingerprint", fun _ => identity GENERATION (bytes_of ("not a fingerprint" +:+ LF)));
    ("missing key", fun fingerprint =>
      do! identity GENERATION fingerprint in
      remove_file system (tls [GENERATION; KEY_FILE]));
    ("key is a symlink", fun fingerprint =>
      do! identity GENERATION fingerprint in
      let key := tls [GENERATION; KEY_FILE] in
      do! remove_file system key in
      symlink system "/etc/hostname" key)]%string in
  for_each cases (fun '(_, setup) => assert_eq (after (setup contents) (current_identity system)) (Err tt)) &&
  assert_eq (after
    (do! identity GENERATION contents in
     remove_file system (tls [GENERATION; KEY_FILE])) (current_fingerprint system)) (Ok (Some FINGERPRINT)).

Lemma remote_state_tests_pass : forallb id [
  generation_names_are_gen_and_sixteen_lowercase_hex; fingerprints_are_canonical_uppercase_colon_pairs;
  openssl_output_is_parsed_strictly; fingerprint_file_round_trips_and_is_strict;
  a_missing_current_or_tls_directory_is_no_identity; a_valid_identity_is_read; invalid_identities_are_rejected] = true.
Proof. vm_compute. reflexivity. Qed.
End RemoteStateTests.

From S2P Require Import Prelude UnitTests Sessions.

(** ** The tests of the web sessions ([remoted/src/sessions.rs], [mod tests])

    A clock that is set by hand, and a kernel whose random bytes are all
    different. *)
Module SessionsTests.
Import Sessions.

(** [TestClock] with the table: what [clock.advance] and the calls of a test
    act on, and the number of identifiers drawn. *)
Record Test := { clock : Z; drawn : Z; store : Sessions }.

Definition sessions : Test := {| clock := 0; drawn := 0; store := new |}.

Definition advance (seconds : Z) (t : Test) : Test :=
  {| clock := wrap 64 (clock t + seconds); drawn := drawn t; store := store t |}.

(** The [n]-th [fill] of the 32 bytes; their hexadecimal form has letters, as
    that of random bytes does. *)
Definition kernel_random (n : Z) : list Z := to_be_bytes ID_BYTES (0xAB * 2 ^ 248 + n).

Definition iter (m : gmap string Session) : list (string * Session) := map_to_list m.

Definition create_ (t : Test) (k : string -> Test -> bool) : bool :=
  let (id, store) := create iter (Some (clock t)) (Some (kernel_random (drawn t))) (store t) in
  unwrap! id := id in k id {| clock := clock t; drawn := drawn t + 1; store := store |}.

Definition validate_ (id : string) (t : Test) : bool * Test :=
  let (valid, store) := validate id (Some (clock t)) (store t) in
  (valid, {| clock := clock t; drawn := drawn t; store := store |}).

(** [assert!(store.validate(&id))] and [assert!(!store.validate(&id))] *)
Definition assert_validity (expected : bool) (id : string) (t : Test) (k : Test -> bool) : bool :=
  let (valid, t) := validate_ id t in Bool.eqb valid expected && k t.

(** ** The tests *)

Fixpoint identifiers (n : nat) (seen : gset string) (t : Test) : bool :=
  match n with
  | O => true
  | S n => create_ t (fun id t =>
      assert_eq (String.length id) 64%nat && well_formed id && negb (bool_decide (id ∈ seen)) && identifiers n ({[ id ]} ∪ seen) t)
  end.

Definition identifiers_are_256_bit_csprng_hex_and_distinct : bool := identifiers 200 ∅ sessions.

Definition idle_timeout_is_fifteen_minutes_since_last_use : bool :=
  create_ sessions (fun id t =>
  let t := advance (IDLE_TIMEOUT - 1) t in
  assert_validity true id t (fun t =>
  let t := advance (IDLE_TIMEOUT - 1) t in
  assert_validity true id t (fun t =>
  let t := advance IDLE_TIMEOUT t in
  assert_validity false id t (fun t =>
  assert_validity false id t (fun _ => true))))).

Fixpoint used_every_ten_minutes (n : nat) (id : string) (t : Test) (k : Test -> bool) : bool :=
  match n with
  | O => k t
  | S n => let t := advance 600 t in assert_validity true id t (fun t => used_every_ten_minutes n id t k)
  end.

Definition absolute_timeout_is_eight_hours_despite_use : bool :=
  create_ sessions (fun id t =>
  used_every_ten_minutes (Z.to_nat (ABSOLUTE_TIMEOUT / 600 - 1)) id t (fun t =>
  let t := advance 600 t in
  assert_validity false id t (fun _ => true))).

Fixpoint none_valid (ids : list string) (t : Test) (k : Test -> bool) : bool :=
  match ids with
  | [] => k t
  | id :: ids => assert_validity false id t (fun t => none_valid ids t k)
  end.

Definition unknown_malformed_and_removed_identifiers_are_uniformly_invalid : bool :=
  create_ sessions (fun id t =>
  none_valid [
    EmptyString;
    repeat_str 64 "0";
    str_to_ascii_uppercase id;
    id +:+ "0";
    String.substring 0 63 id;
    repeat_str 64 "g";
    repeat_str 32 (string_of [195; 169])]%string t (fun t =>
  let t := {| clock := clock t; drawn := drawn t; store := remove id (store t) |} in
  assert_validity false id t (fun _ => true))).

Fixpoint one_a_second (n : nat) (t : Test) (k : Test -> bool) : bool :=
  match n with
  | O => k t
  | S n => let t := advance 1 t in create_ t (fun _ t => one_a_second n t k)
  end.

Definition capacity_evicts_the_oldest_session : bool :=
  create_ sessions (fun first t =>
  let t := advance 1 t in
  create_ t (fun second t =>
  one_a_second (MAX_SESSIONS - 2) t (fun t =>
  assert_eq (size (Sessions.sessions (store t))) MAX_SESSIONS &&
  create_ t (fun _ t =>
  assert_eq (size (Sessions.sessions (store t))) MAX_SESSIONS &&
  assert_validity false first t (fun t =>
  assert_validity true second t (fun _ => true)))))).

Definition randomness_failure_creates_no_session : bool :=
  negb (is_ok (create iter (Some (clock sessions)) None (store sessions)).1).

Lemma sessions_tests_pass : forallb id [
  identifiers_are_256_bit_csprng_hex_and_distinct; idle_timeout_is_fifteen_minutes_since_last_use;
  absolute_timeout_is_eight_hours_despite_use; unknown_malformed_and_removed_identifiers_are_uniformly_invalid;
  capacity_evicts_the_oldest_session; randomness_failure_creates_no_session] = true.
Proof. vm_compute. reflexivity. Qed.
End SessionsTests.

From S2P Require Import Prelude UnitTests Text IpAddr Network.

(** ** The tests of on-link eligibility ([remoted/src/network.rs], [mod tests])

    The documents are serde_json's: what it reads from the text the [json!]
    of a test prints is a parameter with its laws. *)
Module NetworkTests.
Import Text IpAddr Network.

Section Documents.
Context (from_str : string -> option StatusFields).
(** The text of a document with this schema version and network: without
    one, or with the addresses of a primary connection or none. *)
Context (document : string -> option (option (list string)) -> string).
Context (reads : forall schema primary, from_str (document schema (Some primary)) = Some {| schema_version := schema; primary_addresses := primary |}).
Context (needs_network : forall schema, from_str (document schema None) = None).
Context (needs_fields : from_str "{}" = None) (needs_json : from_str "not json" = None).

Local Abbreviation view_from_status := (view_from_status from_str).

Definition status (addresses : list string) : string := document "0.4" (Some (Some addresses)).

(** [on_link(&view, ip(text))] is [expected]. *)
Definition linked (expected : bool) (view : View) (text : string) : bool :=
  some! ip := parse text in Bool.eqb (on_link view ip) expected.

(** [assert_eq!(view.listen, [ip(text), ..])] *)
Definition listens (view : View) (texts : list string) : bool := assert_eq (map Some (listen view)) (map parse texts).

Definition ipv4_on_link_boundaries : bool :=
  unwrap! view := view_from_status (status ["192.0.2.10/24"%string]) in
  listens view ["192.0.2.10"%string] &&
  for_each ["192.0.2.0"; "192.0.2.1"; "192.0.2.10"; "192.0.2.255"]%string (linked true view) &&
  for_each ["192.0.1.255"; "192.0.3.0"; "10.0.0.1"; "0.0.0.0"; "2001:db8::1"]%string (linked false view) &&
  linked true view "::ffff:192.0.2.77" &&
  linked false view "::ffff:192.0.3.77".

Definition ipv6_on_link_boundaries : bool :=
  unwrap! view := view_from_status (status ["2001:db8:1:2::10/64"; "fe80::1/64"]%string) in
  listens view ["2001:db8:1:2::10"%string] &&
  for_each ["2001:db8:1:2::"; "2001:db8:1:2:ffff:ffff:ffff:ffff"; "fe80::abcd"]%string (linked true view) &&
  for_each ["2001:db8:1:3::1"; "2001:db8:1:1:ffff:ffff:ffff:ffff"; "fe81::1"; "192.0.2.1"]%string (linked false view).

Definition odd_prefix_lengths_mask_exactly : bool :=
  (unwrap! view := view_from_status (status ["10.1.2.3/31"; "2001:db8::5/127"]%string) in
   linked true view "10.1.2.2" &&
   linked false view "10.1.2.4" &&
   linked true view "2001:db8::4" &&
   linked false view "2001:db8::6") &&
  (unwrap! host := view_from_status (status ["10.9.9.9/32"; "2001:db8::9/128"]%string) in
   linked true host "10.9.9.9" &&
   linked false host "10.9.9.8" &&
   linked false host "2001:db8::8").

Definition non_listenable_addresses_are_never_bound : bool :=
  unwrap! view := view_from_status (status [
    "127.0.0.1/8"; "169.254.1.1/16"; "fe80::1/64"; "::1/128"; "192.0.2.10/24"; "192.0.2.10/24"]%string) in
  listens view ["192.0.2.10"%string].

Definition missing_or_ambiguous_state_fails_closed : bool :=
  let no_primary := document "0.4" (Some None) in
  assert_eq (view_from_status no_primary) (Ok default_view) &&
  (let wrong_schema := document "0.3" (Some (Some ["192.0.2.10/24"%string])) in
   for_each [
     wrong_schema;
     status ["192.0.2.10/0"%string];
     status ["::/0"%string];
     status ["192.0.2.10/33"%string];
     status ["2001:db8::1/129"%string];
     status ["192.0.2.10"%string];
     status ["not-an-address/24"%string];
     status ["192.0.2.10/x"%string];
     "{}"%string;
     "not json"%string;
     document "0.4" None] (fun invalid => assert_eq (view_from_status invalid) (Err tt))).

(** The port of the socket address is the listener's. *)
Definition endpoints_are_exact_and_bracketed : bool :=
  (some! ip := parse "192.0.2.10" in assert_eq (endpoint ip 8443) "192.0.2.10:8443"%string) &&
  (some! ip := parse "2001:db8:0:0::10" in assert_eq (endpoint ip 8443) "[2001:db8::10]:8443"%string).

Lemma view_of_document schema network : view_from_status (document schema network) =
  match network with Some primary => view_from_fields {| schema_version := schema; primary_addresses := primary |} | None => Err tt end.
Proof. unfold Network.view_from_status. destruct network; by rewrite ?reads, ?needs_network. Qed.

Lemma network_tests_pass : forallb id [
  ipv4_on_link_boundaries; ipv6_on_link_boundaries; odd_prefix_lengths_mask_exactly;
  non_listenable_addresses_are_never_bound; missing_or_ambiguous_state_fails_closed; endpoints_are_exact_and_bracketed] = true.
Proof.
  cbn [forallb]. unfold ipv4_on_link_boundaries, ipv6_on_link_boundaries, odd_prefix_lengths_mask_exactly,
    non_listenable_addresses_are_never_bound, missing_or_ambiguous_state_fails_closed, status.
  cbn [for_each forallb]. unfold for_each. cbn [forallb]. rewrite !view_of_document.
  assert (view_from_status "{}" = Err tt) as -> by (unfold Network.view_from_status; by rewrite needs_fields).
  assert (view_from_status "not json" = Err tt) as -> by (unfold Network.view_from_status; by rewrite needs_json).
  vm_compute. reflexivity.
Qed.
End Documents.
End NetworkTests.

From S2P Require Import Prelude UnitTests FileSystem RemoteState SharedRead Tls.

(** ** The tests of the shared observation and of the TLS identity
      ([mod tests] of [platformd/src/shared_read.rs] and
      [remoted/src/tls.rs]) *)
(** ** The shared observation

    The tasks take the steps the runtime gives them: a caller is answered
    when its channel is ready. *)
Module SharedReadTests.
Import SharedRead.

Definition starts {T} (e : Event T) : nat := match e with Called _ _ true => 1%nat | _ => 0%nat end.

(** What the wait of a caller ends with, if it ends *)
Definition result {T} (caller : nat) (s : SharedRead T) : option (option T) :=
  flight ← callers s !! caller; c ← channels s !! flight; waited c.

(** The task of a flight is over: its guard and its sender are dropped. *)
Definition over {T} (flight : nat) (s : SharedRead T) : SharedRead T := drop_sender flight (clear flight s).

Definition concurrent_callers_share_one_observation_and_nothing_is_cached : bool :=
  let (reads, first) := call 1 1 (new : SharedRead nat) in
  let (reads, second) := call 2 2 reads in
  let (reads, third) := call 3 3 reads in
  let started := (starts first + starts second + starts third)%nat in
  assert_eq (map (fun caller => result caller reads) [1; 2; 3]%nat) [None; None; None] &&
  (let reads := over 1 (complete 1 started reads) in
   assert_eq (map (fun caller => result caller reads) [1; 2; 3]%nat) (replicate 3 (Some (Some 1%nat))) &&
   assert_eq started 1%nat &&
   (let (reads, again) := call 4 4 reads in
    let started := (started + starts again)%nat in
    let reads := over 4 (complete 4 started reads) in
    assert_eq (result 4 reads) (Some (Some 2%nat)))).

Definition a_panicked_observation_fails_its_callers_and_the_next_call_runs_anew : bool :=
  let (reads, _) := call 1 1 (new : SharedRead Z) in
  let reads := over 1 (set_task 1 (Over true true) reads) in
  assert_eq (result 1 reads) (Some None) &&
  (let (reads, _) := call 2 2 reads in
   let reads := over 2 (complete 2 7 reads) in
   assert_eq (result 2 reads) (Some (Some 7))).

Lemma shared_read_tests_pass : forallb id [concurrent_callers_share_one_observation_and_nothing_is_cached;
  a_panicked_observation_fails_its_callers_and_the_next_call_runs_anew] = true.
Proof. vm_compute. reflexivity. Qed.
End SharedReadTests.

(** ** The TLS identity

    The fixture is a certificate, its key and another key; a file is a
    sequence of such sections, which rustls tells apart. *)
Module TlsTests.
Import FileSystem RemoteState RemoteStateTests Tls.

Definition section_ (index : nat) : list Z := [Z.of_nat index].
Definition not_pem : list Z := bytes_of "not pem".

Definition pem_certificates (text : list Z) : option (list Z) := Some (List.filter (Z.eqb 0) text).
Definition pem_key (text : list Z) : option Z := List.find (fun s => (s =? 1) || (s =? 2)) text.
Definition server_config (certificates : list Z) (key : Z) : option (list string) :=
  if bool_decide (certificates = [0]) && (key =? 1) then Some [] else None.
Definition with_alpn (protocols : list string) (_ : list string) : list string := protocols.

Definition identity (generation : string) (cert key : list Z) : fsm unit :=
  do! create_dir_all (tls [generation]) in
  do! write (tls [generation; CERT_FILE]) cert in
  write (tls [generation; KEY_FILE]) key.

Definition point_current (generation : string) : fsm unit :=
  let! _ := attempt (remove_file system (tls [CURRENT])) in
  symlink system generation (tls [CURRENT]).

(** The configuration loaded after [setup], and the directory *)
Definition load_after (setup : fsm unit) (k : res (list string) unit -> fsm unit -> bool) : bool :=
  k (RemoteStateTests.after setup (load pem_certificates pem_key server_config with_alpn system)) setup.

Definition loads_the_current_generation_with_http1_alpn : bool :=
  load_after (
    do! identity "gen-0000000000000001" (section_ 0) (section_ 1) in
    point_current "gen-0000000000000001") (fun config _ => assert_eq config (Ok ["http/1.1"%string])).

Definition key_and_certificate_come_from_the_same_generation : bool :=
  load_after (
    do! identity "gen-0000000000000001" (section_ 0) (section_ 2) in
    do! identity "gen-0000000000000002" (section_ 0) (section_ 1) in
    point_current "gen-0000000000000001") (fun config directory =>
    assert_eq config (Err tt) &&
    load_after (do! directory in point_current "gen-0000000000000002") (fun config _ => is_ok config)).

Definition a_missing_or_invalid_identity_fails : bool :=
  load_after (ret tt) (fun config directory => assert_eq config (Err tt) &&
  load_after (
    do! directory in
    do! identity "gen-0000000000000001" (section_ 0) (section_ 1) in
    point_current "gen-0000000000000009") (fun config directory => assert_eq config (Err tt) &&
  load_after (
    do! directory in
    do! identity "gen-0000000000000003" not_pem (section_ 1) in
    point_current "gen-0000000000000003") (fun config directory => assert_eq config (Err tt) &&
  load_after (
    do! directory in
    do! identity "gen-0000000000000004" (section_ 0 ++ section_ 0)%list (section_ 1) in
    point_current "gen-0000000000000004") (fun config _ => assert_eq config (Err tt))))).

Lemma tls_tests_pass : forallb id [loads_the_current_generation_with_http1_alpn;
  key_and_certificate_come_from_the_same_generation; a_missing_or_invalid_identity_fails] = true.
Proof. vm_compute. reflexivity. Qed.
End TlsTests.
