(* ===== verification/PlatformdTests.v ===== *)
(** * The tests of the platform and of its users

    The [mod tests] of the main.rs of [platformd], [sessiond], [corectl],
    [console], [remote-worker] and [network-observer], of
    [crates/platform-client/src/lib.rs] and of [remoted/src/peers.rs]. *)
From S2P Require Import Prelude UnitTests Wire Protocol Platform Wired.

(** ** The tests of the status ([platformd/src/main.rs], [mod tests])

    The deployments, the workers' states, health, the identifiers and the
    network report. *)
Module PlatformStatusTests.
Import Protocol Platform Wired Documents.
#[local] Existing Instance toy_serde.

(** [serde_json::to_vec(&value).unwrap()] *)
Definition to_vec (value : Documents.Value) : list Z := bytes_of (print value).

(** ** Fixtures *)

(** A line of the release file, [KEY="value"] *)
Definition release_line (key value : string) : string :=
  key +:+ "=" +:+ string_of [quote] +:+ value +:+ string_of [quote; 10].

Definition RELEASE : string :=
  release_line "NAME" "SignalLayerIT CoreOS" +:+ release_line "VERSION" "0.0.2" +:+ release_line "PLATFORM_API_VERSION" "0.3"
  +:+ release_line "SOURCE_REVISION" "unknown" +:+ release_line "BUILD_ID" "unknown".

(** A deployment as bootc reports it. *)
Definition deployment_json (checksum : string) (serial : Z) (digest : string) (rest : list (string * Documents.Value)) : Documents.Value :=
  Object ([
    ("ostree", Object [("checksum", Text checksum); ("deploySerial", Number serial)]);
    ("image", Object [("image", Object [("image", Text "localhost/signallayer-coreos:0.0.1")]); ("imageDigest", Text digest)])]%string
    ++ rest)%list.

Definition fixture : Documents.Value := Object [
  ("apiVersion", Text "org.containers.bootc/v1"); ("kind", Text "BootcHost");
  ("status", Object [
    ("booted", deployment_json (repeat_str 64 "a") 0 ("sha256:" +:+ repeat_str 64 "b") []);
    ("staged", Null);
    ("rollback", Null);
    ("rollbackQueued", Bool false)])]%string.

Definition worker (active_state result : string) (exit_status : Z) : WorkerObservation :=
  {| active_state := active_state; result := result; exit_status := exit_status |}.

Definition machine : MachineStatus := {|
  machine_id := "0123456789abcdef0123456789abcdef"; architecture := "x86_64";
  boot_id := "01234567-89ab-cdef-0123-456789abcdef" |}.

(** [network()], whose tests change the primary connection *)
Definition primary : PrimaryConnection := {|
  interface := "enp0s2"; addresses := ["10.0.2.15/24"%string]; default_gateways := ["10.0.2.2"%string] |}.
Definition network_of (primary : PrimaryConnection) : NetworkStatus :=
  {| state := NetworkState.ConnectedGlobal; primary_connection := Some primary |}.
Definition network : NetworkStatus := network_of primary.

(** The call of the tests, with these workers *)
Definition observed (backend : list Z) (update rollback : WorkerObservation) : res Status PlatformError.t :=
  status_from_observations RELEASE backend machine network (observed_health "running" 0) update rollback.

Definition inactive : WorkerObservation := worker "inactive" "success" 0.

Definition parse (value : Documents.Value) : res Status PlatformError.t := observed (to_vec value) inactive inactive.

Definition booted_of (value : Documents.Value) : Documents.Value := default Null (Documents.pointer ["status"; "booted"]%string value).

Definition is_invalid {A} (r : res A PlatformError.t) : bool :=
  match r with Err (PlatformError.InvalidBackendData _) => true | _ => false end.

Definition is_err {A E} (r : res A E) : bool := match r with Err _ => true | _ => false end.

(** ** The tests *)

Definition retained_is_not_known_good_and_unknown_metadata_stays_unknown : bool :=
  some! value := Documents.set ["status"; "rollback"]%string (booted_of fixture) fixture in
  unwrap! status := parse value in
  bool_decide (is_Some (retained_rollback status)) &&
  assert_eq (source_revision status) None &&
  assert_eq (build_id status) None &&
  assert_eq (deployment_id (booted status)) (repeat_str 64 "a" +:+ ".0")%string &&
  assert_eq (update_state (update status)) UpdateState.Idle &&
  assert_eq (rollback_state (rollback status)) RollbackState.Idle.

Definition missing_or_invalid_observations_fail : bool :=
  for_each ["booted"; "rollback"]%string (fun path =>
    some! value := Documents.remove ["status"%string] path fixture in is_invalid (parse value)) &&
  (some! value := Documents.set ["status"; "booted"; "image"; "imageDigest"]%string (Text "invalid") fixture in is_err (parse value)) &&
  is_err (observed (bytes_of "broken") inactive inactive) &&
  is_err (status_from_observations "" (to_vec fixture) machine network (observed_health "running" 0) inactive inactive).

(** The staged deployment of the two tests that have one *)
Definition staged_json (download_only : bool) : Documents.Value :=
  deployment_json (repeat_str 64 "c") 1 ("sha256:" +:+ repeat_str 64 "d") [("downloadOnly"%string, Bool download_only)].

Definition update_state_uses_worker_and_fresh_deployments : bool :=
  some! value := Documents.set ["status"; "staged"]%string (staged_json false) fixture in
  let backend := to_vec value in
  (unwrap! status := observed backend inactive inactive in
   assert_eq (update_state (update status)) UpdateState.Staged &&
   update_reboot_required (update status) &&
   (some! staged := staged (update status) in
    assert_eq (deployment_id staged) (repeat_str 64 "c" +:+ ".1")%string)) &&
  (unwrap! running := observed backend (worker "activating" "success" 0) inactive in
   assert_eq (update_state (update running)) UpdateState.Running &&
   negb (bool_decide (is_Some (update_failure (update running))))) &&
  (unwrap! failed := observed backend (worker "failed" "exit-code" 1) inactive in
   assert_eq (update_state (update failed)) UpdateState.Failed &&
   (some! failure := update_failure (update failed) in assert_eq (code failure) "WorkerFailed"%string)).

Definition download_only_is_never_reboot_required : bool :=
  some! value := Documents.set ["status"; "staged"]%string (staged_json true) fixture in
  unwrap! status := parse value in
  assert_eq (update_state (update status)) UpdateState.Idle &&
  negb (update_reboot_required (update status)) &&
  bool_decide (is_Some (staged (update status))).

Definition rollback_state_uses_authoritative_queue_and_worker : bool :=
  some! value := Documents.set ["status"; "rollback"]%string (booted_of fixture) fixture in
  some! value := Documents.set ["status"; "rollbackQueued"]%string (Bool true) value in
  (unwrap! queued := parse value in
   assert_eq (rollback_state (rollback queued)) RollbackState.Queued &&
   rollback_reboot_required (rollback queued) &&
   assert_eq (update_state (update queued)) UpdateState.Idle) &&
  (let backend := to_vec value in
   (unwrap! running := observed backend inactive (worker "activating" "success" 0) in
    assert_eq (rollback_state (rollback running)) RollbackState.Running) &&
   (unwrap! failed := observed backend inactive (worker "failed" "exit-code" 1) in
    assert_eq (rollback_state (rollback failed)) RollbackState.Failed &&
    (some! failure := rollback_failure (rollback failed) in assert_eq (code failure) "WorkerFailed"%string))).

Definition rollback_preconditions_are_derived_from_bootc : bool :=
  (unwrap! empty := mutation_state_from_backend (to_vec fixture) in
   negb (mutation_staged empty) && negb (mutation_retained_rollback empty) && negb (mutation_rollback_queued empty)) &&
  (some! value := Documents.set ["status"; "staged"]%string (booted_of fixture) fixture in
   some! value := Documents.set ["status"; "rollback"]%string (booted_of value) value in
   some! value := Documents.set ["status"; "rollbackQueued"]%string (Bool true) value in
   unwrap! state := mutation_state_from_backend (to_vec value) in
   mutation_staged state && mutation_retained_rollback state && mutation_rollback_queued state).

Definition health_is_only_healthy_for_running_without_failures : bool :=
  assert_eq (health_state (observed_health "running" 0)) HealthState.Healthy &&
  assert_eq (health_state (observed_health "running" 1)) HealthState.Degraded &&
  assert_eq (health_state (observed_health "starting" 0)) HealthState.Degraded &&
  assert_eq (health_state (observed_health "degraded" 0)) HealthState.Degraded.

Definition LF : string := string_of [10].

Definition machine_observations_are_strict_and_normalized : bool :=
  assert_eq (validated_hex_id ("0123456789ABCDEF0123456789ABCDEF" +:+ LF) 32) None &&
  assert_eq (validated_hex_id ("0123456789abcdef0123456789abcdef" +:+ LF) 32) (Some "0123456789abcdef0123456789abcdef"%string) &&
  assert_eq (validated_hex_id "00000000000000000000000000000000" 32) None &&
  assert_eq (validated_hex_id "not-a-machine-id" 32) None &&
  assert_eq (validated_boot_id ("01234567-89AB-CDEF-0123-456789ABCDEF" +:+ LF)) None &&
  assert_eq (validated_boot_id ("01234567-89ab-cdef-0123-456789abcdef" +:+ LF)) (Some "01234567-89ab-cdef-0123-456789abcdef"%string) &&
  assert_eq (validated_boot_id "00000000-0000-0000-0000-000000000000") None &&
  assert_eq (validated_boot_id "0123456789abcdef0123456789abcdef") None &&
  assert_eq (normalize_architecture ("AMD64" +:+ LF)) (Some "x86_64"%string) &&
  assert_eq (normalize_architecture "arm64") (Some "aarch64"%string) &&
  assert_eq (normalize_architecture "x86 64") None.

Definition helper_network_status_is_independently_validated : bool :=
  let '{| interface := i; addresses := a; default_gateways := g |} := primary in
  bool_decide (is_Some (validate_network_status network)) &&
  for_each [
    {| interface := "bad interface"; addresses := a; default_gateways := g |};
    {| interface := i; addresses := ["192.0.2.2/24"; "10.0.2.15/24"]%string; default_gateways := g |};
    {| interface := i; addresses := ["10.0.2.15/33"%string]; default_gateways := g |};
    {| interface := i; addresses := a; default_gateways := ["2001:0db8::1"%string] |}]
    (fun invalid => assert_eq (validate_network_status (network_of invalid)) None).

Lemma platform_status_tests_pass : forallb id [
  retained_is_not_known_good_and_unknown_metadata_stays_unknown; missing_or_invalid_observations_fail;
  update_state_uses_worker_and_fresh_deployments; download_only_is_never_reboot_required;
  rollback_state_uses_authoritative_queue_and_worker; rollback_preconditions_are_derived_from_bootc;
  health_is_only_healthy_for_running_without_failures; machine_observations_are_strict_and_normalized;
  helper_network_status_is_independently_validated] = true.
Proof. vm_compute. reflexivity. Qed.
End PlatformStatusTests.

From S2P Require Import Prelude UnitTests Protocol Programs PlatformCalls Platform.

(** ** The tests of the reboot and of the backend command
      ([platformd/src/main.rs], [mod tests])

    What the closures of a test push is a call they make: the observation of
    a unit, and the start.  The processes the tests run are what the system
    answers to the calls that run them. *)
Module PlatformRebootTests.
Import Protocol Programs PlatformCalls Platform.
#[local] Open Scope prog_scope.

Local Abbreviation Event := (event PlatformCalls.Platform).

(** ** Fixtures *)

Definition worker (active_state result : string) (exit_status : Z) : WorkerObservation :=
  {| active_state := active_state; result := result; exit_status := exit_status |}.

Definition ACTIVE_STATES : list string := ["active"; "activating"; "deactivating"; "reloading"]%string.
Definition IDLE_STATES : list string := ["inactive"; "failed"]%string.

(** [calls.borrow_mut().push(unit)], and what the unit is seen as *)
Definition observed (states : string -> res string unit) (unit_name : string) :
    prog PlatformCalls.Platform (res WorkerObservation unit) :=
  let! _ := ask (LoadUnit unit_name) in
  Done (map_ok (fun active_state => worker active_state "success" 0) (states unit_name)).

(** [calls.borrow_mut().push("start")], and the result of the start *)
Definition started (start : res unit PlatformError.t) : prog PlatformCalls.Platform (res unit PlatformError.t) :=
  let! _ := ask (StartUnit "start" "") in Done start.

(** The replies: the permit is free or held by someone else. *)
Definition answer (free : bool) (n : nat) (c : PlatformCall) : PlatformReply c :=
  match c return PlatformReply c with
  | TryAcquire _ => free
  | Release _ | Kill => tt
  | NewProxy _ _ _ | AuthMember _ | Sleep _ => None
  | LoadUnit _ | GetProperty _ _ _ | StartUnit _ _ | StopUnit _ _ | GetSystemState => None
  | GetExitStatus _ | GetFailedUnits | GetInvocationID _ | ListJobs | GetPendingPairing | GetNetworkStatus => None
  | SymlinkMetadata _ _ => Err FileSystem.FileSystem.NotFound
  | CurrentFingerprint => Ok None
  | ReadToString _ | UnameMachine => None
  | Spawn _ _ => false
  | Join _ => None
  | Choose => true
  end.

Fixpoint pushed (t : list Event) : list string :=
  match t with
  | [] => []
  | existT (LoadUnit u) _ :: t | existT (StartUnit u _) _ :: t => u :: pushed t
  | _ :: t => pushed t
  end.

(** [assert!(mutation_starts.try_acquire().is_err())] at the start *)
Fixpoint held_at_start (held : bool) (t : list Event) : bool :=
  match t with
  | [] => true
  | existT (TryAcquire MutationStarts) acquired :: t => held_at_start acquired t
  | existT (Release MutationStarts) _ :: t => held_at_start false t
  | existT (StartUnit _ _) _ :: t => held && held_at_start held t
  | _ :: t => held_at_start held t
  end.

Definition reboot_with (free : bool) (states : string -> res string unit) (start : res unit PlatformError.t) :
    res unit PlatformError.t * list string * bool :=
  let (t, result) := exec (S:=PlatformCalls.Platform) (answer free) 0 (request_reboot (observed states) (started start)) in
  (result, pushed t, held_at_start false t).

(** The assertions [k] on the result and the calls *)
Definition run_reboot (update rollback reboot : res string unit) (start : res unit PlatformError.t)
    (k : res unit PlatformError.t -> list string -> bool) : bool :=
  let states unit_name :=
    if String.eqb unit_name UPDATE_UNIT then update
    else if String.eqb unit_name ROLLBACK_UNIT then rollback
    else if String.eqb unit_name REBOOT_UNIT then reboot
    else Err tt in
  let '(result, calls, held) := reboot_with true states start in
  held && k result calls.

Definition is_busy {A} (r : res A PlatformError.t) : bool := match r with Err (PlatformError.Busy _) => true | _ => false end.
Definition is_conflict {A} (r : res A PlatformError.t) : bool := match r with Err (PlatformError.Conflict _) => true | _ => false end.
Definition is_reboot_unavailable {A} (r : res A PlatformError.t) : bool :=
  match r with Err (PlatformError.RebootUnavailable _) => true | _ => false end.

Definition inactive : res string unit := Ok "inactive"%string.

(** ** The tests of the reboot *)

Definition worker_activity_predicate_matches_contract : bool :=
  for_each ACTIVE_STATES (fun state => worker_running (worker state "success" 0)) &&
  for_each IDLE_STATES (fun state => negb (worker_running (worker state "success" 0))).

Definition reboot_starts_fixed_worker_after_frozen_inspection_order : bool :=
  run_reboot inactive inactive inactive (Ok tt) (fun result calls =>
    is_ok result && assert_eq calls [UPDATE_UNIT; ROLLBACK_UNIT; REBOOT_UNIT; "start"%string]).

Definition reboot_is_busy_while_reboot_worker_is_active : bool :=
  for_each ACTIVE_STATES (fun state =>
    run_reboot inactive inactive (Ok state) (Ok tt) (fun result calls =>
      is_busy result && assert_eq calls [UPDATE_UNIT; ROLLBACK_UNIT; REBOOT_UNIT])).

Definition reboot_conflicts_with_active_deployment_workers : bool :=
  for_each ACTIVE_STATES (fun state =>
    run_reboot (Ok state) inactive inactive (Ok tt) (fun result calls =>
      is_conflict result && assert_eq calls [UPDATE_UNIT; ROLLBACK_UNIT]) &&
    run_reboot inactive (Ok state) inactive (Ok tt) (fun result calls =>
      is_conflict result && assert_eq calls [UPDATE_UNIT; ROLLBACK_UNIT])).

Definition idle_deployment_workers_do_not_conflict : bool :=
  for_each IDLE_STATES (fun update =>
    for_each IDLE_STATES (fun rollback =>
      run_reboot (Ok update) (Ok rollback) inactive (Ok tt) (fun result calls =>
        is_ok result && assert_eq calls [UPDATE_UNIT; ROLLBACK_UNIT; REBOOT_UNIT; "start"%string]))).

Definition conflict_takes_precedence_over_busy : bool :=
  for_each ACTIVE_STATES (fun state =>
    run_reboot (Ok state) inactive (Ok state) (Ok tt) (fun result calls =>
      is_conflict result && assert_eq calls [UPDATE_UNIT; ROLLBACK_UNIT]) &&
    run_reboot inactive (Ok state) (Ok state) (Ok tt) (fun result calls =>
      is_conflict result && assert_eq calls [UPDATE_UNIT; ROLLBACK_UNIT])).

Definition reboot_is_unavailable_when_any_required_unit_cannot_be_inspected : bool :=
  run_reboot (Err tt) inactive inactive (Ok tt) (fun result calls =>
    is_reboot_unavailable result && assert_eq calls [UPDATE_UNIT]) &&
  run_reboot inactive (Err tt) inactive (Ok tt) (fun result calls =>
    is_reboot_unavailable result && assert_eq calls [UPDATE_UNIT; ROLLBACK_UNIT]) &&
  run_reboot (Ok "active"%string) (Err tt) inactive (Ok tt) (fun result _ => is_reboot_unavailable result) &&
  run_reboot inactive inactive (Err tt) (Ok tt) (fun result calls =>
    is_reboot_unavailable result && assert_eq calls [UPDATE_UNIT; ROLLBACK_UNIT; REBOOT_UNIT]).

Definition reboot_start_failure_is_reboot_unavailable : bool :=
  run_reboot inactive inactive inactive (Err reboot_unavailable) (fun result calls =>
    is_reboot_unavailable result && assert_eq calls [UPDATE_UNIT; ROLLBACK_UNIT; REBOOT_UNIT; "start"%string]).

Definition reboot_is_busy_while_a_mutation_start_is_in_progress : bool :=
  let '(result, calls, _) := reboot_with false (fun _ => inactive) (Ok tt) in
  is_busy result && assert_eq calls [].

(** ** The tests of the backend command *)

(** What becomes of the process: it cannot be started, or [Join] answers
    [outcome] ([None]: the deadline comes first). *)
Definition process (spawned : bool) (outcome : option Child) (n : nat) (c : PlatformCall) : PlatformReply c :=
  match c return PlatformReply c with
  | Spawn _ _ => spawned
  | Join _ => outcome
  | c => answer true n c
  end.

Definition pipe (bytes : list Z) : Pipe := {| bytes := bytes; broken := false |}.
Definition exited (success : bool) (out err : list Z) : Child :=
  {| stdout := pipe out; stderr := pipe err; exit := Some success; order := [Stdout; Stderr; Wait] |}.

(** The result, and whether the child was killed (and waited for). *)
Definition command (program : string) (arguments : list string) (limit : Z) (spawned : bool) (outcome : option Child) :
    res (list Z) PlatformError.t * bool :=
  let (t, result) := exec (S:=PlatformCalls.Platform) (process spawned outcome) 0 (backend_command program arguments limit) in
  (result, existsb (fun e => match e with existT Kill _ => true | _ => false end) t).

Definition is_backend_unavailable {A} (r : res A PlatformError.t) : bool :=
  match r with Err (PlatformError.BackendUnavailable _) => true | _ => false end.
Definition is_backend_timeout {A} (r : res A PlatformError.t) : bool :=
  match r with Err (PlatformError.BackendTimeout _) => true | _ => false end.
Definition is_invalid {A} (r : res A PlatformError.t) : bool :=
  match r with Err (PlatformError.InvalidBackendData _) => true | _ => false end.

Definition backend_unavailable_and_timeout_are_distinct : bool :=
  is_backend_unavailable (command "/nonexistent/sl-platform-test" [] BACKEND_TIMEOUT false None).1 &&
  is_backend_timeout (command "/usr/bin/sleep" ["2"%string] 20 true None).1 &&
  is_backend_unavailable (command "/usr/bin/false" [] BACKEND_TIMEOUT true (Some (exited false [] []))).1.

(** The script of the two tests: it leaves its pid in the file [$1]. *)
Definition quoted (s : string) : string := string_of [quote] +:+ s +:+ string_of [quote].
Definition script (and_then : string) : list string := [
  "-c"; "printf '%s' " +:+ quoted "$$" +:+ " >" +:+ quoted "$1" +:+ "; exec " +:+ and_then; "sl-test"; "/tmp/pid"]%string.

(** What [head -c] writes, and the two writers: the one that overflows never
    ends by itself, for nobody reads the rest. *)
Definition zeros (count : Z) : list Z := replicate (Z.to_nat count) 0.
Definition blocked (out err : list Z) : Child :=
  {| stdout := pipe out; stderr := pipe err; exit := None; order := (if bool_decide (err = []) then [Stdout] else [Stderr])%list |}.

Definition output_bounds_accept_boundary_and_reject_blocked_writers : bool :=
  (unwrap! output := (command "/usr/bin/head" ["-c"; "65536"; "/dev/zero"]%string BACKEND_TIMEOUT true (Some (exited true (zeros 65536) []))).1 in
   assert_eq (Z.of_nat (List.length output)) OUTPUT_LIMIT) &&
  for_each [
    ("head -c 1048576 /dev/zero", zeros 1048576, []);
    ("head -c 1048576 /dev/zero >&2", [], zeros 1048576)]%string (fun '(writer, out, err) =>
    let (result, killed) := command "/usr/bin/bash" (script writer) 2000 true (Some (blocked out err)) in
    is_invalid result && killed).

Definition timeout_kills_and_reaps_the_actual_child : bool :=
  let (result, killed) := command "/usr/bin/bash" (script "sleep 30") 1000 true None in
  is_backend_timeout result && killed.

Lemma platform_reboot_tests_pass : forallb id [
  worker_activity_predicate_matches_contract; reboot_starts_fixed_worker_after_frozen_inspection_order;
  reboot_is_busy_while_reboot_worker_is_active; reboot_conflicts_with_active_deployment_workers;
  idle_deployment_workers_do_not_conflict; conflict_takes_precedence_over_busy;
  reboot_is_unavailable_when_any_required_unit_cannot_be_inspected; reboot_start_failure_is_reboot_unavailable;
  reboot_is_busy_while_a_mutation_start_is_in_progress; backend_unavailable_and_timeout_are_distinct;
  output_bounds_accept_boundary_and_reject_blocked_writers; timeout_kills_and_reaps_the_actual_child] = true.
Proof. vm_compute. reflexivity. Qed.
End PlatformRebootTests.

From S2P Require Import Prelude UnitTests Wire Protocol Wired Client.

(** ** The tests of the platform client
      ([crates/platform-client/src/lib.rs], [mod tests]) *)
Module ClientTests.
Import Documents Protocol Wire Wired Client.
#[local] Existing Instance toy_serde.

Definition status_value (schema_version : string) : Value := Object [
  ("schema_version", Text schema_version);
  ("product", Text "SignalLayerIT CoreOS");
  ("version", Text "0.0.2");
  ("platform_api_version", Text "0.2");
  ("source_revision", Null);
  ("build_id", Null);
  ("machine", Object [
    ("machine_id", Text "0123456789abcdef0123456789abcdef");
    ("architecture", Text "x86_64");
    ("boot_id", Text "01234567-89ab-cdef-0123-456789abcdef")]);
  ("network", Object [
    ("state", Text "connected_global");
    ("primary_connection", Object [
      ("interface", Text "enp0s2");
      ("addresses", Array [Text "10.0.2.15/24"]);
      ("default_gateways", Array [Text "10.0.2.2"])])]);
  ("booted", Object [
    ("deployment_id", Text "abc.0");
    ("image_reference", Text "localhost/signallayer-coreos:0.0.1");
    ("image_digest", Text "sha256:abc")]);
  ("retained_rollback", Null);
  ("update", Object [
    ("state", Text "idle");
    ("staged", Null);
    ("reboot_required", Bool false);
    ("failure", Null)]);
  ("rollback", Object [
    ("state", Text "idle");
    ("reboot_required", Bool false);
    ("failure", Null)]);
  ("health", Object [
    ("state", Text "healthy");
    ("system_state", Text "running");
    ("failed_units", Number 0)])]%string.

Definition status_json (schema_version : string) : string := print (status_value schema_version).
Definition decode (json : string) : res Status ClientError.t := decode_status status_from_str json.

Definition accepts_exact_phase_4c_schema : bool :=
  unwrap! status := decode (status_json "0.3") in
  assert_eq (schema_version status) "0.3"%string &&
  assert_eq (platform_api_version status) "0.2"%string &&
  assert_eq (architecture (machine status)) "x86_64"%string &&
  (some! primary := primary_connection (network status) in assert_eq (interface primary) "enp0s2"%string).

Definition rejects_other_schema_versions : bool :=
  assert_eq (decode (status_json "0.2")) (Err ClientError.UnsupportedSchema) &&
  assert_eq (decode (status_json "0.4")) (Err ClientError.UnsupportedSchema).

Definition rejects_unknown_status_fields : bool :=
  some! value := Documents.parse (status_json "0.3") in
  some! value := set ["future_field"%string] (Bool true) value in
  assert_eq (decode (print value)) (Err ClientError.InvalidResponse).

Definition rejects_missing_or_malformed_management_status : bool :=
  (some! missing := Documents.parse (status_json "0.3") in
   some! missing := remove [] "machine" missing in
   assert_eq (decode (print missing)) (Err ClientError.InvalidResponse)) &&
  (some! malformed := Documents.parse (status_json "0.3") in
   some! malformed := set ["network"; "primary_connection"; "addresses"]%string (Text "10.0.2.15/24") malformed in
   assert_eq (decode (print malformed)) (Err ClientError.InvalidResponse)).

Definition client_errors_preserve_corectl_contract : bool :=
  let remote := ClientError.RemoteMethod "Busy" "An update operation is already running" in
  assert_eq (Client.code remote) "Busy"%string &&
  assert_eq (Client.message remote) "An update operation is already running"%string &&
  assert_eq (Client.code ClientError.SystemBusUnavailable) "ServiceUnavailable"%string.

Definition status_with_api (version : string) : res Status ClientError.t :=
  match Documents.parse (status_json "0.3") ≫= set ["platform_api_version"%string] (Text version) with
  | Some value => decode (print value)
  | None => Panic
  end.

Definition version (major minor : Z) : PlatformApiVersion := {| major := major; minor := minor |}.
#[export] Instance version_eq_dec : EqDecision PlatformApiVersion.
Proof. solve_decision. Defined.

Definition platform_api_versions_parse_as_major_minor : bool :=
  assert_eq (Client.parse "0.2") (Some (version 0 2)) &&
  assert_eq (Client.parse "1.10") (Some (version 1 10)) &&
  for_each [""; "0"; "0."; ".2"; "0.2.1"; "v0.2"; " 0.2"; "0.+2"; "0.-1"; "a.b"]%string
    (fun invalid => assert_eq (Client.parse invalid) None).

Definition platform_api_support_is_numeric : bool :=
  let supported value (expected : bool) := some! v := Client.parse value in Bool.eqb (supports v 0 2) expected in
  supported "0.1" false && supported "0.2" true && supported "0.10" true && supported "1.0" true.

(** The status is read first: [expect] would panic. *)
Definition reboot_support (api : string) (k : res unit ClientError.t -> bool) : bool :=
  unwrap! status := status_with_api api in k (require_reboot_support (Ok status)).

Definition start_reboot_is_unsupported_below_platform_api_0_2 : bool :=
  reboot_support "0.1" (fun r => assert_eq r (Err ClientError.Unsupported)) &&
  reboot_support "0.0" (fun r => assert_eq r (Err ClientError.Unsupported)) &&
  reboot_support "0.2" is_ok &&
  reboot_support "0.3" is_ok.

Definition unparseable_platform_api_version_is_an_invalid_response : bool :=
  reboot_support "zero.two" (fun r => assert_eq r (Err ClientError.InvalidResponse)).

Definition failed_status_read_keeps_its_client_error : bool :=
  for_each [ClientError.ServiceUnavailable; ClientError.SystemBusUnavailable; ClientError.UnsupportedSchema; ClientError.InvalidResponse]
    (fun error => assert_eq (require_reboot_support (Err error)) (Err error)).

Definition status_reads_accept_future_platform_api_versions : bool :=
  (unwrap! status := status_with_api "7.3" in assert_eq (platform_api_version status) "7.3"%string) &&
  (unwrap! status := status_with_api "not-a-version" in assert_eq (platform_api_version status) "not-a-version"%string).

(** [ConnectionRefused] is one of the kinds the client does not tell apart. *)
Definition closed_connection_during_reboot_is_an_unknown_outcome : bool :=
  for_each [BrokenPipe; UnexpectedEof; ConnectionReset; ConnectionAborted] (fun kind =>
    assert_eq (map_reboot_error (InputOutput kind)) ClientError.RebootOutcomeUnknown) &&
  assert_eq (map_reboot_error (InputOutput OtherKind)) ClientError.ServiceUnavailable &&
  assert_eq (Client.message ClientError.RebootOutcomeUnknown)
    ("Reboot request outcome unknown: connection closed while awaiting confirmation; " +:+ "the system may be rebooting.")%string.

Definition timed_out_reboot_reply_is_an_unknown_outcome : bool :=
  assert_eq (map_reboot_error (InputOutput TimedOut)) ClientError.RebootOutcomeUnknown.

Lemma client_tests_pass : forallb id [
  accepts_exact_phase_4c_schema; rejects_other_schema_versions; rejects_unknown_status_fields;
  rejects_missing_or_malformed_management_status; client_errors_preserve_corectl_contract;
  platform_api_versions_parse_as_major_minor; platform_api_support_is_numeric;
  start_reboot_is_unsupported_below_platform_api_0_2; unparseable_platform_api_version_is_an_invalid_response;
  failed_status_read_keeps_its_client_error; status_reads_accept_future_platform_api_versions;
  closed_connection_during_reboot_is_an_unknown_outcome; timed_out_reboot_reply_is_an_unknown_outcome] = true.
Proof. vm_compute. reflexivity. Qed.
End ClientTests.

From S2P Require Import Prelude UnitTests Wire Protocol Wired Client FileSystem RemotedTests Sessiond.

(** ** The tests of the session daemon ([sessiond/src/main.rs], [mod tests]) *)
Module SessiondTests.
Import Documents Protocol Wire Wired Client Sessiond.
#[local] Existing Instance toy_serde.

Definition platform_failures_are_bounded_and_hide_backend_details : bool :=
  let error := map_platform_error (ClientError.RemoteMethod "BackendUnavailable" "sensitive backend output") in
  match error with
  | SessionError.PlatformUnavailable message => assert_eq message "Platform status is temporarily unavailable"%string
  | _ => false
  end.

Definition schema_failure_has_a_distinct_bounded_error : bool :=
  match map_platform_error ClientError.UnsupportedSchema with SessionError.UnsupportedPlatform _ => true | _ => false end.

(** The document of the text of that name *)
Definition PLATFORM_VALUE : Value := Object [
  ("schema_version", Text "0.3");
  ("product", Text "SignalLayerIT CoreOS");
  ("version", Text "0.0.2");
  ("platform_api_version", Text "0.3");
  ("source_revision", Null);
  ("build_id", Null);
  ("machine", Object [("machine_id", Text "0123456789abcdef0123456789abcdef"); ("architecture", Text "x86_64");
    ("boot_id", Text "01234567-89ab-cdef-0123-456789abcdef")]);
  ("network", Object [("state", Text "connected_global"); ("primary_connection", Object [("interface", Text "enp0s2");
    ("addresses", Array [Text "10.0.2.15/24"]); ("default_gateways", Array [Text "10.0.2.2"])])]);
  ("booted", Object [("deployment_id", Text "a.0"); ("image_reference", Null); ("image_digest", Null)]);
  ("retained_rollback", Null);
  ("update", Object [("state", Text "idle"); ("staged", Null); ("reboot_required", Bool false); ("failure", Null)]);
  ("rollback", Object [("state", Text "idle"); ("reboot_required", Bool false); ("failure", Null)]);
  ("health", Object [("state", Text "healthy"); ("system_state", Text "running"); ("failed_units", Number 0)])]%string.
Definition PLATFORM_STATUS : string := print PLATFORM_VALUE.

Definition platform_status (k : Status -> bool) : bool := some! status := status_from_str PLATFORM_STATUS in k status.

Definition schema_0_4_is_platform_0_3_plus_exactly_three_remote_management_facts : bool :=
  for_each [
    (false, false, false);
    (true, false, false);
    (false, true, false);
    (false, false, true);
    (true, true, true)] (fun '(enabled, listening, enrolled) =>
    platform_status (fun status =>
      unwrap! status := compose status (Ok enabled) (Ok listening) (Ok enrolled) in
      let value := to_value status in
      assert_eq (get "schema_version" value) (Some (Text "0.4")) &&
      assert_eq (get "remote_management" value)
        (Some (Object [("enabled", Bool enabled); ("listening", Bool listening); ("enrolled", Bool enrolled)]%string)) &&
      (some! platform := Documents.parse PLATFORM_STATUS in
       some! session := remove [] "remote_management" value in
       some! session := set ["schema_version"%string] (Text "0.3") session in
       assert_eq session platform) &&
      (some! text := session_to_string status in
       bool_decide (is_Some (from_text text : option SessionStatus)) &&
       negb (bool_decide (is_Some (from_text text : option Status)))))).

Definition unreadable_remote_management_state_is_an_error_not_a_guess : bool :=
  for_each [(Err tt, Ok false); (Ok false, Err tt)] (fun '(enabled, listening) =>
    platform_status (fun status =>
      match compose status enabled listening (Ok false) with
      | Err (SessionError.RemoteManagementUnavailable _) => true
      | _ => false
      end)).

Definition sl_authd_unavailable_is_a_distinct_error_not_a_guess : bool :=
  platform_status (fun status =>
    match compose status (Ok true) (Ok true) (Err tt) with
    | Err (SessionError.AuthUnavailable message) => assert_eq message "The authentication service is temporarily unavailable"%string
    | _ => false
    end).

(** [path_exists] of a path in a directory of its own *)
Definition path_exists_in (w : FileSystem.World) (path : list string) : res bool unit :=
  presence (map_ok (fun _ => tt) (FileSystem.symlink_metadata RemoteStateTests.system path w).1).

Definition after_writes (writes : list (list string * string)) : FileSystem.World :=
  foldl (fun w '(path, contents) => (RemoteStateTests.write path (bytes_of contents) w).2) RemoteStateTests.TempDir writes.

Definition presence_is_existence_only_and_absence_is_false : bool :=
  let marker := ["enabled"%string] in
  let directory := after_writes [] in
  assert_eq (path_exists_in directory marker) (Ok false) &&
  assert_eq (path_exists_in directory ["sl-remoted"; "listening"]%string) (Ok false) &&
  (let directory := after_writes [(marker, EmptyString)] in
   assert_eq (path_exists_in directory marker) (Ok true)) &&
  (let directory := after_writes [(marker, EmptyString); (marker, "false"%string)] in
   assert_eq (path_exists_in directory marker) (Ok true) &&
   assert_eq (path_exists_in directory ["enabled"; "child"]%string) (Err tt)).

Definition platform_status_schema_stays_0_3 : bool :=
  assert_eq SCHEMA_VERSION "0.3"%string &&
  assert_eq SESSION_SCHEMA_VERSION "0.4"%string &&
  platform_status (fun status => assert_eq (schema_version status) "0.3"%string).

Lemma sessiond_tests_pass : forallb id [
  platform_failures_are_bounded_and_hide_backend_details; schema_failure_has_a_distinct_bounded_error;
  schema_0_4_is_platform_0_3_plus_exactly_three_remote_management_facts;
  unreadable_remote_management_state_is_an_error_not_a_guess; sl_authd_unavailable_is_a_distinct_error_not_a_guess;
  presence_is_existence_only_and_absence_is_false; platform_status_schema_stays_0_3] = true.
Proof. vm_compute. reflexivity. Qed.
End SessiondTests.

From S2P Require Import Prelude UnitTests Protocol Client Corectl Console Terminal Worker WorkerSystem NetworkObserver Peers.

(** ** The tests of the command line, the console, the worker, the observer
      and the peers ([mod tests] of [corectl/src/main.rs],
      [console/src/main.rs], [remote-worker/src/main.rs],
      [network-observer/src/main.rs] and [remoted/src/peers.rs]) *)
Definition quoted (s : string) : string := string_of [34] +:+ s +:+ string_of [34].

(** ** The command line *)
Module CorectlTests.
Import Client Corectl.

(** The text serde_json prints of strings that need no escapes *)
Definition entry (key value : string) : string := quoted key +:+ ":" +:+ value.
Definition error_json (code message : string) : string :=
  "{" +:+ entry "error" ("{" +:+ entry "code" (quoted code) +:+ "," +:+ entry "message" (quoted message) +:+ "}") +:+ "}".
Definition state_json (state : string) : string := "{" +:+ entry "state" (quoted state) +:+ "}".

#[export] Instance Report_eq_dec : EqDecision Report.
Proof. solve_decision. Defined.

Definition reboot_report : bool -> unit + ClientError.t -> Report := Corectl.reboot_report error_json state_json.

Definition accepted_reboot_succeeds : bool :=
  assert_eq (reboot_report false (inl tt))
    {| exit := 0; stdout := Some "Reboot accepted by systemd. The system is restarting."%string; stderr := None |} &&
  assert_eq (stdout (reboot_report true (inl tt))) (Some ("{" +:+ quoted "state" +:+ ":" +:+ quoted "accepted" +:+ "}")%string).

Definition rejected_reboot_reports_mapped_error_and_fails : bool :=
  let conflict := inr (ClientError.RemoteMethod "Conflict" "The update worker is running; reboot was not requested") in
  assert_eq (reboot_report false conflict)
    {| exit := EXIT_FAILURE; stdout := None;
       stderr := Some "corectl: Conflict: The update worker is running; reboot was not requested"%string |} &&
  (let unsupported := reboot_report true (inr ClientError.Unsupported) in
   assert_eq (exit unsupported) EXIT_FAILURE &&
   (some! out := stdout unsupported in contains (quoted "code" +:+ ":" +:+ quoted "Unsupported") out)).

Definition indeterminate_reboot_has_distinct_exit_and_message : bool :=
  let unknown := inr ClientError.RebootOutcomeUnknown in
  assert_eq (reboot_report false unknown)
    {| exit := EXIT_OUTCOME_UNKNOWN; stdout := None;
       stderr := Some ("Reboot request outcome unknown: connection closed while awaiting " +:+
                       "confirmation; the system may be rebooting.")%string |} &&
  (let json := reboot_report true unknown in
   assert_eq (exit json) EXIT_OUTCOME_UNKNOWN &&
   (some! out := stdout json in contains (quoted "code" +:+ ":" +:+ quoted "OutcomeUnknown") out)) &&
  assert_ne EXIT_OUTCOME_UNKNOWN EXIT_FAILURE.

Definition timed_out_reboot_is_indeterminate : bool :=
  let report := reboot_report false (inr ClientError.RebootOutcomeUnknown) in
  assert_eq (exit report) EXIT_OUTCOME_UNKNOWN &&
  assert_eq (stderr report) (Some (Client.message ClientError.RebootOutcomeUnknown)).

Lemma corectl_tests_pass : forallb id [accepted_reboot_succeeds; rejected_reboot_reports_mapped_error_and_fails;
  indeterminate_reboot_has_distinct_exit_and_message; timed_out_reboot_is_indeterminate] = true.
Proof. vm_compute. reflexivity. Qed.
End CorectlTests.

(** ** The console *)
Module ConsoleTests.
Import Protocol Console Terminal.

(** [view()], whose tests set the last field *)
Definition view_ (reset_incomplete : bool) : View := {|
  view_product := "SignalLayerIT CoreOS";
  view_version := "0.0.3";
  view_machine_id := "machine";
  remote := {| enabled := true; listening := true; enrolled := false |};
  view_enrollment := {| url := "https://10.0.0.2:8443/"; fingerprint := "AA:BB"; Console.pairing_code := "01234567"; expires_at := 42 |};
  view_authenticated := false;
  view_reset_incomplete := reset_incomplete
|}.

Definition view_uses_appliance_terms_and_formats_pairing_code : bool :=
  let text := render (view_ false) "" in
  contains "Pairing code: 0123-4567" text &&
  contains "TLS SHA-256 fingerprint: AA:BB" text &&
  negb (contains "shell" text).

Definition reset_incomplete_names_reenroll_as_the_repair : bool :=
  contains "REPAIR REQUIRED: A reset did not finish. Choose Reenroll." (render (view_ true) "").

Definition authentication_and_service_failures_are_distinct : bool :=
  assert_ne (error_message (ConsoleError.Auth AuthFailure.InvalidCredential)) (error_message (ConsoleError.Auth AuthFailure.Unavailable)) &&
  assert_ne (error_message (ConsoleError.Platform PlatformFailure.ResetIncomplete)) (error_message (ConsoleError.Platform PlatformFailure.Unavailable)).

Lemma console_tests_pass : forallb id [view_uses_appliance_terms_and_formats_pairing_code;
  reset_incomplete_names_reenroll_as_the_repair; authentication_and_service_failures_are_distinct] = true.
Proof. vm_compute. reflexivity. Qed.
End ConsoleTests.

(** ** The worker *)
Module RemoteWorkerTests.
Import Worker WorkerSystem.

#[export] Instance Mode_eq_dec : EqDecision Mode.
Proof. solve_decision. Defined.

Definition exactly_one_fixed_mode_is_accepted : bool :=
  assert_eq (parse_mode ["enable"%string]) (Some Enable) &&
  assert_eq (parse_mode ["disable"%string]) (Some Disable) &&
  assert_eq (parse_mode ["rotate-tls"%string]) (Some RotateTls) &&
  assert_eq (parse_mode ["boot-reset"%string]) (Some BootReset) &&
  assert_eq (parse_mode ["clear-reset-pending"%string]) (Some ClearResetPending) &&
  for_each [[]; ["enable"; "disable"]; ["Enable"]; ["enable "]; ["--enable"]; ["reset"]; [""]]%string
    (fun invalid => assert_eq (parse_mode invalid) None).

Definition only_identity_writing_modes_need_the_remoted_group : bool :=
  writes_identity Enable && writes_identity RotateTls &&
  for_each [Disable; BootReset; ClearResetPending] (fun mode => negb (writes_identity mode)).

Definition openssl_runs_with_only_the_fixed_configuration : bool :=
  let arguments := ["x509"; "-noout"]%string in
  let command := openssl_command arguments in
  assert_eq (program command) "/usr/bin/openssl"%string &&
  assert_eq (WorkerSystem.arguments command) ["x509"; "-noout"]%string &&
  assert_eq (environment command) [("OPENSSL_CONF", "/usr/lib/signallayer/openssl.cnf")]%string.

Lemma remote_worker_tests_pass : forallb id [exactly_one_fixed_mode_is_accepted;
  only_identity_writing_modes_need_the_remoted_group; openssl_runs_with_only_the_fixed_configuration] = true.
Proof. vm_compute. reflexivity. Qed.
End RemoteWorkerTests.

(** ** The observer *)
Module ObserverTests.
Import Protocol NetworkObserver.

Definition network_state_mapping_is_documented_and_complete : bool :=
  assert_eq (network_state 0) NetworkState.Unknown &&
  assert_eq (network_state 10) NetworkState.Disconnected &&
  assert_eq (network_state 20) NetworkState.Disconnected &&
  assert_eq (network_state 30) NetworkState.Disconnected &&
  assert_eq (network_state 40) NetworkState.Connecting &&
  assert_eq (network_state 50) NetworkState.ConnectedLocal &&
  assert_eq (network_state 60) NetworkState.ConnectedSite &&
  assert_eq (network_state 70) NetworkState.ConnectedGlobal &&
  assert_eq (network_state 999) NetworkState.Unknown.

Definition network_addresses_are_validated_sorted_and_deduplicated : bool :=
  let entry (address : string) (prefix : N) : gmap string OwnedValue :=
    list_to_map [("address", VStr address); ("prefix", VU32 prefix)]%string in
  (unwrap! addresses := parse_address_data [entry "10.0.2.15" 24; entry "192.0.2.2" 24; entry "10.0.2.15" 24]%N%string 4 in
   assert_eq addresses ["10.0.2.15/24"; "192.0.2.2/24"]%string) &&
  assert_eq (parse_address_data [entry "10.0.2.15"%string 33%N] 4) (Err tt) &&
  assert_eq (parse_address_data [entry "2001:db8::1"%string 64%N] 4) (Err tt) &&
  assert_eq (parse_gateway "2001:0db8::1" 6) (Ok (Some "2001:db8::1"%string)) &&
  assert_eq (parse_gateway "2001:db8::1" 4) (Err tt).

Lemma observer_tests_pass : forallb id [network_state_mapping_is_documented_and_complete;
  network_addresses_are_validated_sorted_and_deduplicated] = true.
Proof. vm_compute. reflexivity. Qed.
End ObserverTests.

(** ** The peers *)
Module PeersTests.
Import Peers.

Definition every_frozen_auth_error_name_maps_and_others_are_unavailable : bool :=
  for_each [
    ("NotEnrolled", AuthFailure.NotEnrolled);
    ("EnrollmentUnconfirmed", AuthFailure.EnrollmentUnconfirmed);
    ("AlreadyEnrolled", AuthFailure.AlreadyEnrolled);
    ("NoPendingPairing", AuthFailure.NoPendingPairing);
    ("InvalidPairingCode", AuthFailure.InvalidPairingCode);
    ("PairingAttemptsExhausted", AuthFailure.PairingAttemptsExhausted);
    ("NoProvisionalEnrollment", AuthFailure.NoProvisionalEnrollment);
    ("ConfirmationExpired", AuthFailure.ConfirmationExpired);
    ("InvalidCredential", AuthFailure.InvalidCredential);
    ("PasswordRejected", AuthFailure.PasswordRejected);
    ("RateLimited", AuthFailure.RateLimited);
    ("Busy", AuthFailure.Busy);
    ("InvalidArgument", AuthFailure.InvalidArgument);
    ("Unavailable", AuthFailure.Unavailable)]%string
    (fun '(name, failure) => assert_eq (from_error_name (AUTH_ERROR_PREFIX +:+ name)) failure) &&
  for_each ["org.freedesktop.DBus.Error.AccessDenied"; "org.signallayer.Auth1.Error.Something"; "InvalidCredential"]%string
    (fun other => assert_eq (from_error_name other) AuthFailure.Unavailable).

Lemma peers_tests_pass : every_frozen_auth_error_name_maps_and_others_are_unavailable = true.
Proof. vm_compute. reflexivity. Qed.
End PeersTests.
