(* ===== verification/AuthdTests.v ===== *)
(** * The tests of the authentication service

    The [mod tests] of codes.rs, random.rs, store.rs, checked_interface.rs and
    main.rs of [authd/src], and of [platformd/src/checked_interface.rs]. *)
From S2P Require Import Prelude UnitTests Digits Codes.

(** ** The tests of the codes ([authd/src/codes.rs], [mod tests]) *)
Module CodesTests.
Import Codes.

(** [u64] arithmetic of the test's pseudo-random generator: the number and
    the state it leaves. *)
Definition splitmix (state : Z) : Z * Z :=
  let state := wrap 64 (state + 0x9E3779B97F4A7C15) in
  let z := state in
  let z := wrap 64 (Z.lxor z (Z.shiftr z 30) * 0xBF58476D1CE4E5B9) in
  let z := wrap 64 (Z.lxor z (Z.shiftr z 27) * 0x94D049BB133111EB) in
  (Z.lxor z (Z.shiftr z 31), state).

(** [char::to_digit(16)], and [u8::from_str_radix(_, 16)] of two characters *)
Definition hex_digit (b : Z) : option Z :=
  if is_ascii_digit b then Some (b - 48)
  else if in_range 97 102 b then Some (b - 87)
  else if in_range 65 70 b then Some (b - 55)
  else None.

Definition hex_pair (high low : Z) : option Z :=
  if high =? 43 then hex_digit low
  else match hex_digit high, hex_digit low with Some h, Some l => Some (16 * h + l) | _, _ => None end.

Fixpoint hex_pairs (n : nat) (hex : list Z) : option (list Z) :=
  match n, hex with
  | O, _ => Some []
  | S n, high :: low :: rest =>
      match hex_pair high low, hex_pairs n rest with Some b, Some bs => Some (b :: bs) | _, _ => None end
  | _, _ => None
  end.

Definition hex16 (hex : string) : option (list Z) := hex_pairs 16 (bytes_of hex).

Definition KEY_VECTORS : list (string * string) := [
  ("00000000000000000000000000000000", "00000000000000000000000000");
  ("ffffffffffffffffffffffffffffffff", "ZZZZZZZZZZZZZZZZZZZZZZZZZW");
  ("000102030405060708090a0b0c0d0e0f", "000G40R40M30E209185GR38E1W");
  ("80000000000000000000000000000000", "G0000000000000000000000000");
  ("00000000000000000000000000000001", "00000000000000000000000004");
  ("0123456789abcdeffedcba9876543210", "04HMASW9NF6YZZPWQAC7CN1J20")]%string.

(** ** The tests *)

Definition recovery_key_known_vectors_encode_and_decode : bool :=
  for_each KEY_VECTORS (fun '(hex, encoded) =>
    some! key := hex16 hex in
    assert_eq (encode_recovery_key key) (Ok encoded) &&
    assert_eq (reference_key_encoding key) (Ok encoded) &&
    assert_eq (parse_recovery_key encoded) (Ok key)).

Definition recovery_key_final_symbol_holds_three_bits_and_zero_padding : bool :=
  for_each (seqZ 0 8) (fun low =>
    let key := <[15%nat := low]> (replicate 16 0) in
    unwrap! encoded := encode_recovery_key key in
    some! symbol := last (bytes_of encoded) in
    some! last := symbol_value symbol in
    assert_eq last (wrap 8 (Z.shiftl low 2)) &&
    assert_eq (parse_recovery_key encoded) (Ok key)).

Definition recovery_key_rejects_every_nonzero_padding_variant : bool :=
  for_each KEY_VECTORS (fun '(_, encoded) =>
    let prefix := firstn 25 (bytes_of encoded) in
    some! symbol := bytes_of encoded !! 25%nat in
    some! last := symbol_value symbol in
    assert_eq (Z.land last 3) 0 &&
    for_each (seqZ 1 3) (fun padding =>
      unwrap! c := alphabet_at (Z.lor last padding) in
      assert_eq (parse_recovery_key (string_of (prefix ++ [c])%list)) (Err tt))).

(** The loop of the sample, from [state]; [n] turns are left. *)
Fixpoint recovery_key_sample (n : nat) (state : Z) : bool :=
  match n with
  | O => true
  | S n =>
      let (high, state) := splitmix state in
      let (low, state) := splitmix state in
      let key := (to_be_bytes 8 high ++ to_be_bytes 8 low)%list in
      (unwrap! encoded := encode_recovery_key key in
       assert_eq (Ok encoded) (reference_key_encoding key) &&
       assert_eq (parse_recovery_key encoded) (Ok key) &&
       assert_eq (is_ok (parse_recovery_key (str_to_ascii_lowercase encoded))) (forallb is_ascii_digit (bytes_of encoded))) &&
      recovery_key_sample n state
  end.

Definition recovery_key_deterministic_sample_round_trips_against_reference : bool :=
  recovery_key_sample (Z.to_nat 20000) 0x5CA00003.

(** [U+00E9] in UTF-8 *)
Definition e_acute : string := string_of [195; 169].

Definition recovery_key_rejects_non_canonical_forms : bool :=
  let canonical := "04HMASW9NF6YZZPWQAC7CN1J20" in
  for_each [
    "";
    "04HMASW9NF6YZZPWQAC7CN1J2";
    "04HMASW9NF6YZZPWQAC7CN1J200";
    "04hmasw9nf6yzzpwqac7cn1j20";
    "04HMASW9NF6YZZPWQAC7CN1J2O";
    "04HMASW9NF6YZZPWQAC7CN1J2U";
    "04HMASW9NF6YZZPWQAC7CN1J2-";
    "04HMASW9N-F6YZZPWQAC7CN1J20";
    " 04HMASW9NF6YZZPWQAC7CN1J20";
    "I4HMASW9NF6YZZPWQAC7CN1J20";
    "L4HMASW9NF6YZZPWQAC7CN1J20";
    "04HMASW9NF6YZZPWQAC7CN1J2" +:+ e_acute]%string
    (fun input => assert_eq (parse_recovery_key input) (Err tt)) &&
  is_ok (parse_recovery_key canonical).

Definition pairing_code_vectors_and_accepted_forms : bool :=
  for_each [
    (replicate 5 0, "00000000");
    (replicate 5 0xff, "ZZZZZZZZ");
    ([0x01; 0x23; 0x45; 0x67; 0x89], "04HMASW9");
    ([0xde; 0xad; 0xbe; 0xef; 0x01], "VTPVXVR1")]%string (fun '(bytes, encoded) =>
    assert_eq (encode_pairing_code bytes) (Ok encoded) &&
    (let lower := str_to_ascii_lowercase encoded in
     let hyphenated (s : string) := String.substring 0 4 s +:+ "-" +:+ String.substring 4 (String.length s - 4) s in
     for_each [encoded; lower; hyphenated encoded; hyphenated lower]
       (fun input => assert_eq (parse_pairing_code input) (Ok bytes)))).

Definition pairing_code_rejects_malformed_input : bool :=
  for_each [
    "";
    "04HMASW";
    "04HMASW9A";
    "04HM-ASW9-";
    "04H-MASW9";
    "04HMASW-9";
    "04HMASWU";
    "04HMASWI";
    "04HM ASW9";
    "04HM--SW9";
    "04HMASW" +:+ e_acute]%string
    (fun input => assert_eq (parse_pairing_code input) (Err tt)).

Fixpoint pairing_code_sample (n : nat) (state : Z) : bool :=
  match n with
  | O => true
  | S n =>
      let (word, state) := splitmix state in
      let bytes := firstn 5 (to_be_bytes 8 word) in
      (unwrap! encoded := encode_pairing_code bytes in
       assert_eq (String.length encoded) 8%nat &&
       assert_eq (parse_pairing_code encoded) (Ok bytes)) &&
      pairing_code_sample n state
  end.

Definition pairing_code_deterministic_sample_round_trips : bool := pairing_code_sample (Z.to_nat 20000) 40.

(** ** They pass

    The samples pass however many turns they take and from any state, by the
    theorems on every key and code. *)
Lemma sym_lowercase : forall d, 0 <= d < 32 ->
  (is_ascii_digit (sym d) = true -> to_ascii_lowercase (sym d) = sym d) /\
  is_ascii_lower (sym d) = false /\ (is_ascii_digit (sym d) = false -> is_ascii_lower (to_ascii_lowercase (sym d)) = true) /\
  is_byte (to_ascii_lowercase (sym d)).
Proof. unfold is_byte. apply upto_32. intros i Hi. do 32 (destruct i as [|i]; [vm_compute; intuition congruence|]). lia. Qed.

Lemma lowercase_key key encoded : Forall is_byte key -> List.length key = RECOVERY_KEY_BYTES ->
  encode_recovery_key key = Ok encoded ->
  is_ok (parse_recovery_key (str_to_ascii_lowercase encoded)) = forallb is_ascii_digit (bytes_of encoded).
Proof.
  intros Hb Hn He. pose proof (recovery_key_round_trip key encoded Hb Hn He) as [Hp Hl].
  unfold encode_recovery_key in He. destruct (encode_spec key Hb) as (ds & p & Ho & Hd & _ & _ & _). rewrite Ho in He.
  injection He as <-. rewrite bytes_of_string_of by (by apply symbols_sym). unfold str_to_ascii_lowercase.
  rewrite bytes_of_string_of by (by apply symbols_sym).
  destruct (forallb is_ascii_digit (map sym ds)) eqn:Hall.
  - assert (map to_ascii_lowercase (map sym ds) = map sym ds) as ->; [|by rewrite Hp].
    clear -Hall Hd. induction Hd as [|d ds Hr Hd IH]; [done|]. cbn in *. apply andb_true_iff in Hall as [H1 H2].
    by rewrite (proj1 (sym_lowercase d Hr) H1), (IH H2).
  - assert (Forall is_byte (map to_ascii_lowercase (map sym ds))) as Hbytes.
    { rewrite map_map. apply Forall_map. eapply Forall_impl; [exact Hd|]. intros d Hr. by apply sym_lowercase. }
    clear Hp. destruct (parse_recovery_key _) as [key'|e|] eqn:Hk; [exfalso|done..].
    unfold parse_recovery_key in Hk. destruct (negb _); [done|]. rewrite bytes_of_string_of in Hk by done.
    pose proof (decode_bytes _ _ _ Hk) as Hb'. apply decode_encode_iff in Hk as [_ Hk]; [|done].
    destruct (encode_spec key' Hb') as (es & q & Ho' & Hd' & _). rewrite Ho' in Hk. injection Hk as Hk.
    clear -Hall Hd Hd' Hk. revert es Hd' Hk. induction Hd as [|d ds Hr Hd IH]; intros [|e es] He Hk; try done.
    cbn in *. injection Hk as Hk Hks. apply Forall_cons in He as [He Hes].
    destruct (is_ascii_digit (sym d)) eqn:Hdig; [exact (IH Hall es Hes Hks)|].
    pose proof (proj1 (proj2 (proj2 (sym_lowercase d Hr))) Hdig) as Hlow.
    rewrite <- Hk, (proj1 (proj2 (sym_lowercase e He))) in Hlow. done.
Qed.

Lemma recovery_key_sample_passes n : forall state, recovery_key_sample n state = true.
Proof.
  induction n as [|n IH]; intros state; [done|]. cbn [recovery_key_sample].
  destruct (splitmix state) as [high s1], (splitmix s1) as [low s2]. rewrite IH, andb_true_r.
  set (key := (to_be_bytes 8 high ++ to_be_bytes 8 low)%list).
  assert (Forall is_byte key) as Hb by (apply Forall_app; split; apply to_be_bytes_ok).
  assert (List.length key = RECOVERY_KEY_BYTES) as Hn by (unfold key; by rewrite length_app, !(proj1 (to_be_bytes_ok _ _))).
  destruct (encode_recovery_key_ok key Hb) as [encoded He]. rewrite He. cbn [unwrapping].
  rewrite <- reference_agrees, He by done. rewrite (proj1 (recovery_key_round_trip key encoded Hb Hn He)).
  rewrite (lowercase_key key encoded Hb Hn He), !assert_eq_refl. done.
Qed.

Lemma pairing_code_sample_passes n : forall state, pairing_code_sample n state = true.
Proof.
  induction n as [|n IH]; intros state; [done|]. cbn [pairing_code_sample].
  destruct (splitmix state) as [word s1]. rewrite IH, andb_true_r. set (bytes := firstn 5 (to_be_bytes 8 word)).
  destruct (to_be_bytes_ok 8 word) as [Hl Hw].
  assert (Forall is_byte bytes) as Hb by (by apply Forall_take).
  assert (List.length bytes = PAIRING_CODE_BYTES) as Hn by (unfold bytes; by rewrite length_firstn, Hl).
  destruct (encode_pairing_code_ok bytes Hb) as [encoded He]. rewrite He. cbn [unwrapping].
  destruct (pairing_code_round_trip bytes encoded Hb Hn He) as [-> ->]. rewrite !assert_eq_refl. done.
Qed.

Lemma codes_tests_pass : forallb id [
  recovery_key_known_vectors_encode_and_decode; recovery_key_final_symbol_holds_three_bits_and_zero_padding;
  recovery_key_rejects_every_nonzero_padding_variant; recovery_key_rejects_non_canonical_forms;
  pairing_code_vectors_and_accepted_forms; pairing_code_rejects_malformed_input] = true /\
  recovery_key_deterministic_sample_round_trips_against_reference = true /\
  pairing_code_deterministic_sample_round_trips = true.
Proof. split; [vm_compute; reflexivity|]. split; [apply recovery_key_sample_passes|apply pairing_code_sample_passes]. Qed.
End CodesTests.

From S2P Require Import Prelude UnitTests Random.

(** ** The tests of the random source ([authd/src/random.rs], [mod tests])

    The closure a test passes to [fill_with] is a function of the number of
    the call, its captured state being what the calls before left. *)
Module RandomTests.
Import Random.

(** [chunk[..count]] overwritten by [bytes] *)
Definition overwrite (bytes chunk : list Z) : list Z := (bytes ++ skipn (List.length bytes) chunk)%list.

(** The lengths of the chunks are asserted at the calls: a wrong one panics. *)
Definition partial_reads_are_continued_until_full : bool :=
  let calls := [10; 7; 4; 1]%nat in
  let closure (n : nat) (chunk : list Z) :=
    if bool_decide (calls !! n = Some (List.length chunk)) then
      let count := Nat.min (List.length chunk) 3 in
      let next := 1 + 3 * Z.of_nat n in
      (overwrite (seqZ next (Z.of_nat count)) chunk, Ok (Z.of_nat count))
    else (chunk, Panic) in
  assert_eq (fill_with closure (List.length calls) 0 (replicate 10 0) 0) (Some ([1; 2; 3; 4; 5; 6; 7; 8; 9; 10], Ok tt)) &&
  assert_eq (fill_with closure (List.length calls - 1) 0 (replicate 10 0) 0) None.

(** [results.next().unwrap()] panics past the third call, and two calls do
    not end the loop: [results.next().is_none()] afterwards. *)
Definition eintr_is_retried : bool :=
  let results : list (res Z Z) := [Err EINTR; Err EINTR; Ok 4] in
  let closure (n : nat) (chunk : list Z) :=
    match results !! n with
    | None => (chunk, Panic)
    | Some (Ok count) => (overwrite (replicate (Z.to_nat count) 0xAB) chunk, Ok count)
    | Some result => (chunk, result)
    end in
  assert_eq (fill_with closure (List.length results) 0 (replicate 4 0) 0) (Some (replicate 4 0xAB, Ok tt)) &&
  assert_eq (fill_with closure (List.length results - 1) 0 (replicate 4 0) 0) None.

(** [EAGAIN], [EFAULT], [ENOSYS] and [EINVAL] of Linux *)
Definition other_errors_fail_closed_and_zero_the_buffer : bool :=
  for_each [11; 14; 38; 22; 0] (fun error =>
    let closure (n : nat) (chunk : list Z) :=
      if Nat.eqb n 0 then (overwrite (replicate 4 0xCD) chunk, Ok 4) else (chunk, Err error) in
    assert_eq (fill_with closure 2 0 (replicate 8 0) 0) (Some (replicate 8 0, Err tt))).

Definition zero_progress_and_overlong_counts_fail_closed : bool :=
  for_each [0; 9] (fun count =>
    assert_eq (snd <$> fill_with (fun _ chunk => (chunk, Ok count)) 1 0 (replicate 8 0) 0) (Some (Err tt))).

Lemma random_tests_pass : forallb id [
  partial_reads_are_continued_until_full; eintr_is_retried; other_errors_fail_closed_and_zero_the_buffer;
  zero_progress_and_overlong_counts_fail_closed] = true.
Proof. vm_compute. reflexivity. Qed.
End RandomTests.

From S2P Require Import Prelude UnitTests Wire Hash Store Wired.

(** ** The tests of the state file ([authd/src/store.rs], [mod tests])

    A temporary directory is a disk of its own; the documents are those of
    the [derive]s of [StateFile], and the hashes those of the witnesses. *)
Module StoreTests.
Import Documents Hash Store WireReaders.
#[local] Existing Instance toy_serde.
#[local] Existing Instance toy_argon2.
#[local] Existing Instance state_json.

Definition TempDir : Fs := {| disk := {| visible := None; durable := None; temporary := None |}; past := [] |}.

Definition STATE_FILE : string := "state.json".
Definition TEMP_FILE : string := "state.json.tmp".

(** [Argon2id::with_cost(8, 1, 1).hash(secret, &[3u8; 16]).unwrap()] *)
Definition test_hash (secret : string) : string :=
  match (let? hasher := with_cost 8 1 1 in argon2id_hash hasher (bytes_of secret) (replicate 16 3)) with Ok phc => phc | _ => EmptyString end.

Definition enrolled : Persisted := Enrolled (test_hash "password") (test_hash "key").
Definition unconfirmed : Persisted := EnrolledUnconfirmed (test_hash "password") (test_hash "key") 1000.

(** The sorted names in the directory *)
Definition entries (fs : Fs) : list string :=
  (if bool_decide (is_Some (visible (disk fs))) then [STATE_FILE] else [])
  ++ (if bool_decide (is_Some (temporary (disk fs))) then [TEMP_FILE] else []).

(** [Store::new] and [Store::with_faults] *)
Definition with_faults (fails : Step -> bool) : WriteIo := {| fails := fails; written_on_failure := EmptyString; cleanup_fails := false |}.
Definition no_faults : WriteIo := with_faults (fun _ => false).

Definition load_ (fs : Fs) : res Persisted LoadError := load false (disk fs).

#[export] Instance LoadError_eq_dec : EqDecision LoadError.
Proof. solve_decision. Defined.
#[export] Instance WriteFailed_eq_dec : EqDecision WriteFailed.
Proof. solve_decision. Defined.

(** [fs::read(directory.join(STATE_FILE)).unwrap()] *)
Definition read_state_file (fs : Fs) (k : string -> bool) : bool := some! file := visible (disk fs) in k (contents file).

Definition writing (o : WriteIo) (state : Persisted) (fs : Fs) (k : Fs -> bool) : bool :=
  let (written, fs) := write o state fs in is_ok written && k fs.

Fixpoint written_and_read (states : list Persisted) (fs : Fs) : bool :=
  match states with
  | [] => true
  | state :: states => writing no_faults state fs (fun fs =>
      assert_eq (load_ fs) (Ok state) && assert_eq (entries fs) [STATE_FILE] && written_and_read states fs)
  end.

Definition missing_state_is_unenrolled_and_states_round_trip : bool :=
  assert_eq (load_ TempDir) (Ok Unenrolled) && written_and_read [unconfirmed; enrolled; Unenrolled] TempDir.

(** [keys.sort()] *)
Fixpoint insert_key (key : string) (keys : list string) : list string :=
  match keys with [] => [key] | k :: rest => if String.leb key k then key :: keys else k :: insert_key key rest end.
Definition sorted_keys (v : Value) : list string :=
  match v with Object fields => foldr insert_key [] fields.*1 | _ => [] end.

(** The fields of the file; its mode is not in the model. *)
Definition state_file_has_only_the_documented_fields : bool :=
  writing no_faults unconfirmed TempDir (fun fs =>
    read_state_file fs (fun text =>
      some! value := parse text in
      assert_eq (sorted_keys value) ["confirmation_deadline"; "password_hash"; "recovery_key_hash"; "state"; "version"]%string)).

Definition failures_before_rename_leave_the_old_state_and_no_temporary : bool :=
  for_each [Create; Write; FileSync; Rename] (fun failing =>
    writing no_faults enrolled TempDir (fun fs =>
      read_state_file fs (fun before =>
        let (written, fs) := write (with_faults (fun step => bool_decide (step = failing))) Unenrolled fs in
        assert_eq written (Err {| after_rename := false |}) &&
        read_state_file fs (fun now => assert_eq now before) &&
        assert_eq (entries fs) [STATE_FILE] &&
        assert_eq (load_ fs) (Ok enrolled)))).

Definition a_failed_directory_sync_is_reported_as_after_rename : bool :=
  assert_eq (write (with_faults (fun step => bool_decide (step = DirectorySync))) enrolled TempDir).1 (Err {| after_rename := true |}).

Definition a_stale_temporary_is_removed_and_blocks_nothing_afterwards : bool :=
  let directory := {| disk := set_temporary (Some {| contents := "partial"; synced := false |}) (disk TempDir); past := [] |} in
  let (removed, fs) := remove_stale_temporary false directory in
  is_ok removed && assert_eq (entries fs) [] &&
  writing no_faults enrolled fs (fun fs => assert_eq (load_ fs) (Ok enrolled)).

(** The text of an object with these fields *)
Definition document (fields : list (string * Value)) : string := print (Object fields).

Definition corrupt_unknown_or_inconsistent_files_are_invalid : bool :=
  let hash := Text (test_hash "x") in
  for_each [
    EmptyString;
    "{";
    print Null;
    document [("version", Number 2); ("state", Text "unenrolled")];
    document [("version", Number 1); ("state", Text "pending_pairing")];
    document [("version", Number 1); ("state", Text "unenrolled"); ("extra", Number 1)];
    document [("version", Number 1); ("state", Text "unenrolled"); ("password_hash", hash)];
    document [("version", Number 1); ("state", Text "enrolled"); ("password_hash", hash)];
    document [("version", Number 1); ("state", Text "enrolled"); ("password_hash", hash); ("recovery_key_hash", hash);
              ("confirmation_deadline", Number 5)];
    document [("version", Number 1); ("state", Text "enrolled_unconfirmed"); ("password_hash", hash); ("recovery_key_hash", hash)];
    document [("version", Number 1); ("state", Text "enrolled"); ("password_hash", Text "plain"); ("recovery_key_hash", hash)]]%string
    (fun case => assert_eq (load_ {| disk := {| visible := Some (new_file case); durable := None; temporary := None |}; past := [] |})
      (Err Invalid)).

Lemma store_tests_pass : forallb id [
  missing_state_is_unenrolled_and_states_round_trip; state_file_has_only_the_documented_fields;
  failures_before_rename_leave_the_old_state_and_no_temporary; a_failed_directory_sync_is_reported_as_after_rename;
  a_stale_temporary_is_removed_and_blocks_nothing_afterwards; corrupt_unknown_or_inconsistent_files_are_invalid] = true.
Proof. vm_compute. reflexivity. Qed.
End StoreTests.

From S2P Require Import Prelude UnitTests Startup.

(** ** The tests of the checked interfaces and of the state directory
      ([mod tests] of [authd/src/checked_interface.rs],
      [platformd/src/checked_interface.rs] and [authd/src/main.rs])

    What [method_call!] builds is the description of its body: strings and,
    for a wrong type, a number of 32 bits. *)
Module InterfaceTests.
Import CheckedInterface.

Inductive Argument := AString | AU32.

(** The signature of a body: one argument's own, several in parentheses *)
Definition code (a : Argument) : string := match a with AString => "s" | AU32 => "u" end.
Definition method_call (arguments : list Argument) : Body := {|
  signature := match arguments with
               | [] => ""
               | [a] => code a
               | _ => "(" +:+ String.concat "" (map code arguments) +:+ ")"
               end;
  is_unit := bool_decide (List.length arguments = 0%nat);
  CheckedInterface.is_empty := bool_decide (List.length arguments = 0%nat)
|}.

(** ** The authentication service *)
Module AuthTests.
Definition every_frozen_method_has_one_exact_signature : bool :=
  assert_eq METHOD_SIGNATURES.*1 [
    "VerifyPassword"; "ConsumePairing"; "ConfirmRecoveryKey"; "RecoverPassword"; "EnsurePendingPairing";
    "CancelPendingPairing"; "ResetEnrollment"; "GetPendingPairing"; "GetEnrollmentState"]%string.

Definition zero_argument_methods_accept_only_an_empty_body : bool :=
  for_each (List.filter (fun entry => Text.Text.is_empty entry.2) METHOD_SIGNATURES) (fun '(member, _) =>
    negb (auth_unexpected member (method_call [])) &&
    auth_unexpected member (method_call [AU32]) &&
    auth_unexpected member (method_call [AString]) &&
    auth_unexpected member (method_call [AString; AString])).

Definition one_string_methods_accept_exactly_one_string : bool :=
  for_each ["VerifyPassword"; "ConfirmRecoveryKey"]%string (fun member =>
    negb (auth_unexpected member (method_call [AString])) &&
    auth_unexpected member (method_call []) &&
    auth_unexpected member (method_call [AString; AString]) &&
    auth_unexpected member (method_call [AU32]) &&
    auth_unexpected member (method_call [AString; AU32])).

Definition two_string_methods_accept_exactly_two_strings : bool :=
  for_each ["ConsumePairing"; "RecoverPassword"]%string (fun member =>
    negb (auth_unexpected member (method_call [AString; AString])) &&
    auth_unexpected member (method_call []) &&
    auth_unexpected member (method_call [AString]) &&
    auth_unexpected member (method_call [AString; AString; AString]) &&
    auth_unexpected member (method_call [AString; AU32])).

Definition other_members_are_left_to_generated_dispatch : bool := negb (auth_unexpected "Introspect" (method_call [AU32])).
End AuthTests.

(** ** The platform daemon *)
Module PlatformTests.
Definition start_reboot_is_guarded_as_zero_argument : bool := bool_decide ("StartReboot"%string ∈ ZERO_ARGUMENT_METHODS).

Definition remote_management_methods_are_guarded_as_zero_argument : bool :=
  for_each ["EnableRemoteManagement"; "DisableRemoteManagement"; "ReenrollRemoteManagement"; "GetRemoteManagementEnrollment"]%string
    (fun member =>
      bool_decide (member ∈ ZERO_ARGUMENT_METHODS) &&
      negb (platform_unexpected member (method_call [])) &&
      platform_unexpected member (method_call [AU32]) &&
      platform_unexpected member (method_call [AString])).

Definition zero_argument_methods_accept_only_an_empty_body : bool :=
  for_each ZERO_ARGUMENT_METHODS (fun member =>
    negb (platform_unexpected member (method_call [])) &&
    platform_unexpected member (method_call [AU32]) &&
    platform_unexpected member (method_call [AString]) &&
    platform_unexpected member (method_call [AString; AString])).

Definition other_members_are_left_to_generated_dispatch : bool := negb (platform_unexpected "Introspect" (method_call [AU32])).
End PlatformTests.

(** ** The directory of the authentication service *)
Definition state_directory_comes_from_systemd_or_the_fixed_default : bool :=
  assert_eq (state_directory None) "/var/lib/sl-authd"%string &&
  assert_eq (state_directory (Some (bytes_of "/var/lib/sl-authd"))) "/var/lib/sl-authd"%string &&
  assert_eq (state_directory (Some (bytes_of "/var/lib/a:/var/lib/b"))) "/var/lib/a"%string &&
  assert_eq (state_directory (Some (bytes_of "relative"))) "/var/lib/sl-authd"%string.

Lemma interface_tests_pass : forallb id [
  AuthTests.every_frozen_method_has_one_exact_signature; AuthTests.zero_argument_methods_accept_only_an_empty_body;
  AuthTests.one_string_methods_accept_exactly_one_string; AuthTests.two_string_methods_accept_exactly_two_strings;
  AuthTests.other_members_are_left_to_generated_dispatch; PlatformTests.start_reboot_is_guarded_as_zero_argument;
  PlatformTests.remote_management_methods_are_guarded_as_zero_argument;
  PlatformTests.zero_argument_methods_accept_only_an_empty_body; PlatformTests.other_members_are_left_to_generated_dispatch;
  state_directory_comes_from_systemd_or_the_fixed_default] = true.
Proof. vm_compute. reflexivity. Qed.
End InterfaceTests.
